(* ===== verification/_CoqProject ===== *)
-Q . S2P
Prelude.v
Replay.v
Buf.v
Protocol.v
Utf8.v
ControlChannel.v
Primitives.v
Crypto.v
Prf.v
Envelope.v
TlsAuth.v
TlsCrypt.v
Text.v
StaticKey.v
Tls.v
Certs.v
Transport.v
Config.v
Masquerade.v
TunDev.v
Session.v
SessionInv.v
Server.v
PushReply.v
Frames.v
ServerInv.v
System.v
Tasks.v
Main.v
Addressing.v
Interleaving.v
Concurrency.v
ServerProps.v
Isolation.v
Provenance.v
ControlRuns.v
Tests.v
Scenario.v
Races.v
