(* ===== verification/Prelude.v ===== *)
(** * just-another-vpn-server: a verification library

    The program (src/src/*.rs) is an OpenVPN-compatible server written in
    async Rust.  Clients reach it over UDP or TCP; control packets carry a TLS
    stream, optionally inside a tls-auth or tls-crypt envelope; inside TLS the
    two sides exchange key-method-2 messages, derive a data-channel key with
    the TLS 1.0 PRF, and exchange PUSH_REQUEST / PUSH_REPLY; IP packets then
    travel as AES-256-GCM data packets between the sockets and a TUN device.
    Timers evict idle sessions, ping, retransmit control packets and start
    rekeys.  This library models that program and proves what makes it correct.

    ** How the parts interact, and where each is modelled

    Every file has one [Module] of the file's name (apart from the interface
    files and this prelude).

    - [Prelude] (this file): machine integers and bytes, the [result] type
      (success, error, panic, divergence), the state-and-error monad [M], the
      classes [Preserves] (an invariant is kept) and [Moves] (a relation holds
      between the states before and after), the safety predicate [safe],
      tactics and the hint database [vpn].
    - [Replay] (replay.rs): the sliding replay window, [check_and_set].
    - [Buf]: the reading half of the bytes crate, an interface.
    - [Protocol] (protocol.rs): opcodes, [ControlPacket] parse/encode,
      [DataPacketV2] parse.
    - [Utf8], [Text]: the text operations of the Rust standard library the
      source uses (lossy decoding, lines, trim, split, number parsing, address
      printing).
    - [ControlChannel] (control_channel.rs): key-method-2 parse/encode, ASCII
      control messages, option and peer-info strings.
    - [Primitives]: HMAC, AES-CTR and AES-GCM, an interface.
    - [Crypto] (crypto.rs): the data-channel cipher: key layout, nonce, seal,
      open.
    - [Prf] (prf.rs): [p_hash], the TLS 1.0 PRF, the OpenVPN key derivation.
    - [Envelope]: what the server needs of an envelope (wrap/unwrap with a
      mirrored key), an interface; [TlsAuth] (tls_auth.rs) and [TlsCrypt]
      (tls_crypt.rs) implement it and discharge its laws.
    - [StaticKey] (static_key.rs): static key files.
    - [Tls] (tls.rs): the buffer-backed TLS session over a rustls connection,
      which is an interface.
    - [Certs] (tls.rs): [build_server_config], from the PEM files to the rustls
      configuration.
    - [Transport] (transport.rs): UDP or TCP sending, over the sockets' state.
    - [Config] (config.rs): the configuration, its defaults and [load].
    - [Masquerade] (nat.rs): iptables rules, ip_forward, the [NatGuard].
    - [TunDev] (tun_dev.rs): opening the TUN device, its IPv6 address.
    - [Session] (session.rs): the per-client state and all its operations
      (packet ids, acks, retransmission queue, key slots, rekey track, data
      packets); [SessionInv] its invariant [session_ok].
    - [Server] (server.rs): the configuration record [VpnServer], the shared
      state [Shared], and one definition per method, task body and free
      function: [dispatch] (the UDP loop and the TCP reader),
      [handle_control_packet], [drive_control_plane], the rekey handlers,
      [route_data] and [decrypt_and_forward] (the data workers),
      [forward_tun_to_client], the four timers, [run_tcp_stream],
      [shutdown_clients], [new].
    - [PushReply]: the PUSH_REPLY text as a list of directives, with a reader
      for the client's side.
    - [Frames]: what the handlers leave alone ([quiet], instances of [Moves]).
    - [ServerInv]: the invariant [shared_ok] of the shared state, and that
      every handler keeps it and returns.
    - [System]: the running server as a step relation over events, with the
      theorems over all reachable states.
    - [Tasks]: the handlers again, as programs of atomic actions on the shared
      state and of locking and unlocking sessions; [program_alone] shows that a
      program run without interruption is the handler of [Server].
    - [Interleaving]: the tasks that [run] spawns, taking turns action by action,
      and a logic for programs that other tasks interrupt; [Concurrency]: every
      program satisfies it, and the theorems over all interleavings;
      [Provenance]: the way of data packets in all interleavings, over executions
      with the packets the server was handed; [Races]: concrete schedules, two of
      which end badly.
    - [Main] (main.rs, and [run] of server.rs): the program from the parsed
      command line to the drop of the server.
    - [Addressing]: the abstract table of address leases with one labelled
      transition per event ([lease_step], [causes]), the table a state stands for
      ([leases]), the invariant [addr_inv] that ties routes and pools to the
      sessions, and the refinement.  An IPv4 address that the configuration both
      pins to a client and puts into the pool is [contested]: the pool does not
      look at the routes, so the table may pass such an address on.
    - [ServerProps]: what single handlers do.
    - [Isolation]: the invariant [data_inv] that ties data routes, workers and
      inboxes to the sessions; what can reach the TUN device.
    - [ControlRuns]: replayed control packets over whole runs; the key exchange
      and the rekey end to end.
    - [Tests]: the repository's 35 unit tests, as booleans.
    - [Scenario]: a concrete server and client, from the configuration file to
      delivered data, that the theorems over whole runs are evaluated on.

    ** State, effects and concurrency

    A fallible function returns [result]: [Err] for an [anyhow] error, [Panic]
    where Rust panics (slice or index out of range, [unwrap] of [None],
    [copy_from_slice] of different lengths), [Diverge] where a loop runs out of
    fuel.  Code with state is in [M S]: the state is kept when a call fails,
    as it is in the code when [?] leaves a function halfway.  A session lives
    behind an [Arc<Mutex<..>>] that the session map and a data worker share:
    the model keeps a heap [arcs] from names to sessions, and both hold a name,
    so that a worker keeps using a session evicted from the map.

    The running server is modelled twice.  In [System] a handler run is one
    step, and a timer's visit of one session is a step of its own.  In
    [Interleaving] a step is one action of one task: an access to one of the
    shared maps, counters, channels or sockets (each is atomic by itself in the
    code), [lock().await], or the end of a guard's life; a session is read when
    its lock is taken and written back when it is released, and what happens in
    between is local to the task.  Everything the first model can do the second
    can ([sequential_runs_included]), and the second has more: two clients that
    ask for one static address at the same moment, an eviction while the session
    gets its address, a timer that sends after it has dropped the lock.  Which
    theorems are about which is said below.  A handler run reads the clock once.

    ** Code outside the repository

    The crates the program calls are classes: their operations ([BufApi],
    [CryptoApi], [TlsApi], [HexApi], [TomlApi], [PemApi] and [TlsConfigApi]
    for rustls-pemfile and the rustls builders, [HostApi] for iptables, /proc
    and ip, [TunApi] for the tun crate) and, apart, the documented facts the
    theorems rely on ([BufLaws], [CryptoLaws], [TlsLaws], [HexLaws],
    [TomlLaws], [HostLaws], [TunLaws]).  Each class has an instance that
    computes ([list_buf], [toy_crypto], [toy_tls], [list_hex], [toy_toml],
    [toy_pem], [toy_tls_config], [toy_nat], [toy_tun]), on which the witnesses
    run.

    ** Loops and fuel

    The fuel of a loop is computed from its input, and theorems show that it
    suffices: [feed_loop] and [drain_loop] (every pass consumes a byte; see
    [Tls.feed_drains]), [drive_loop] (every pass that continues consumes a byte
    of plaintext; part of [System.server_never_panics],
    which excludes [Diverge]), [p_hash_loop] (every block is at least a byte;
    [Prf.p_hash_is_rfc_p_hash]).  [chunks], [deframe], the UTF-8 and text
    scanners take as much fuel as there are bytes and consume at least one per
    round, so they never stop early; [ServerProps.tls_stream_delivered] and
    [ServerProps.tcp_framing_roundtrip] would fail if they did.

    ** What the theorems show

    - The system, a handler at a time: no event, in any reachable state, makes a
      handler panic or hang ([server_never_panics]); sessions only move forward
      and a session that should have a key or an address has one
      ([session_state_monotone]).
    - The system, in every interleaving: the invariant holds, no handler panics,
      and a task that waits for a lock waits for one that moves
      ([no_interleaving_deadlocks]), so that nothing is left when nothing moves
      ([handlers_complete]); sessions move forward
      ([interleaved_sessions_forward]) and replayed control packets do nothing
      ([interleaved_replay_inert]); an address that only the pool gives out
      belongs to one session ([pool_address_exclusive]); what reaches the TUN
      device was received earlier in the run and sealed by a client
      ([interleaved_tun_authentic], [interleaved_demultiplexed]).  What
      does not carry over: a static address can be handed out twice
      ([static_address_race]) and an eviction can leave a route behind
      ([eviction_strands_address]), so [tunnel_addresses_unique] and
      [server_refines_leases] are about one handler at a time.
    - Start to end: which start-ups succeed and what they set up
      ([startup_exact]); whatever happens while it runs, the program gives the
      host back ([main_restores_host]): rules of others are untouched, its own
      are gone where deleting works (with one stale copy of each, if there was
      one), and forwarding is as before where /proc can be read and written.
      [iptables -D] may fail for any reason; only NAT set-up that fails halfway
      leaves rules and forwarding behind.
    - Addresses, a handler at a time and with pools that end below the last
      address of their family: every event is one step of a table of leases
      ([server_refines_leases]), no two clients share a tunnel address that is
      not contested ([tunnel_addresses_unique]), pools hand an address out once
      ([pool_hands_out_once], [push_request_address]), and the client reads out
      of PUSH_REPLY what was assigned ([push_reply_readable]).
    - Isolation, a handler at a time: only packets a session's client sealed
      reach the TUN device ([tun_input_authentic]), each is opened by the session
      it was sealed for ([data_demultiplexed]), and an honest packet gets there
      ([client_packet_reaches_tun]).
    - Data plane: inbound packets are authentic and accepted at most once
      ([inbound_data_authentic_once], [check_and_set_refines_spec],
      [no_replay]); outbound packets reach the routed client and open to the
      packet sent ([tun_packet_forwarded], [data_stream_delivered]); the nonces
      given to AES-GCM ([data_nonces_distinct]); the cipher ([data_cipher_roundtrip]).
    - Keys: the derivation ([derive_is_openvpn_prf], over
      [p_hash_is_rfc_p_hash]); both ends of the exchange hold the two sides of
      one key ([key_exchange_agrees]); a rekey completes on both sides and
      switches the slots ([rekey_completes], [rekey_switch]).
    - Control plane: envelopes accept exactly what the peer produced
      ([tls_crypt_exact], [tls_auth_exact], [unauthenticated_control_inert]),
      and what was accepted once is inert later ([control_replay_inert]);
      packets and the TLS stream survive the wire ([control_packet_roundtrip],
      [control_packet_parse_sound], [sent_control_readable],
      [tls_stream_delivered], [feed_drains], [tcp_framing_roundtrip]);
      key-method-2 ([km2_parse_streaming], [km2_server_readable]); reliability
      ([acks_exactly_once]; [retransmit_gives_up], for any ticks without long
      gaps); eviction ([reaper_exact]).
    - Input formats: [static_key_roundtrip], and beside the theorems above
      [cidr_to_route_exact], [data_packet_parse_exact], [pop_ascii_exact],
      [km2_client_roundtrip].
    - The unit tests: 19 evaluate to true on the model, ten pass with every
      lawful implementation of the primitives ([lawful_tests_pass]), six
      with the computing one.

    ** Not modelled

    Parsing the command line (clap), log output, the tokio scheduler and the
    timer periods; the stubs of nat.rs and tun_dev.rs for systems other than
    Linux, which only return an error; shell scripts, container files and
    sample configurations.  [Main] drops the server where [run] returns; with a
    TCP listener the accept task holds a reference too, and the runtime drops
    that task when [main] ends.

    ** Still to come

    In every interleaving: that no data packet is accepted twice under one key;
    what a rekey and the key exchange establish when timers run in between. *)

From Stdlib Require Export ZArith Lia String Ascii.
From stdpp Require Export base tactics numbers list list_numbers option gmap fin_maps sets strings pretty.

Global Open Scope Z_scope.

(** ** Bytes and machine integers *)

(** A byte string (Rust [&[u8]], [Vec<u8>], [BytesMut], the UTF-8 bytes of a
    [String]): a list of integers, each in [0..255] when [bytes_ok] holds. *)
Abbreviation bytes := (list Z).

Definition uint_ok (w : Z) (v : Z) : Prop := 0 <= v < 2 ^ w.
Abbreviation u8_ok := (uint_ok 8).
Abbreviation u16_ok := (uint_ok 16).
Abbreviation u32_ok := (uint_ok 32).
Abbreviation u64_ok := (uint_ok 64).
Abbreviation bytes_ok := (Forall (uint_ok 8)).

#[export] Instance uint_ok_dec w v : Decision (uint_ok w v).
Proof. unfold uint_ok. apply _. Defined.

(** [v as uN], [wrapping_add]: reduction modulo [2^w]. *)
Definition wrap (w : Z) (v : Z) : Z := v `mod` 2 ^ w.
Definition wrapping_add (w : Z) (a b : Z) : Z := wrap w (a + b).
Definition wrapping_sub (w : Z) (a b : Z) : Z := wrap w (a - b).
Definition saturating_add (w : Z) (a b : Z) : Z := Z.min (a + b) (2 ^ w - 1).
Definition saturating_sub (a b : Z) : Z := Z.max (a - b) 0.
Definition checked_add (w : Z) (a b : Z) : option Z :=
  if decide (a + b < 2 ^ w) then Some (a + b) else None.

(** [uN::to_be_bytes] and [uN::from_be_bytes]. *)
Fixpoint to_be (n : nat) (v : Z) : bytes :=
  match n with
  | O => []
  | S n' => (v / 256 ^ Z.of_nat n') `mod` 256 :: to_be n' v
  end.

Definition from_be (bs : bytes) : Z := fold_left (fun acc b => acc * 256 + b) bs 0.

(** ** Results *)

(** The error values: one constructor per [bail!], [anyhow!] or failing
    library call of the source.  [.context(..)] only decorates the message, so
    it keeps the constructor. *)
Inductive error : Type :=
  (* protocol.rs *)
  | EmptyPacket | UnknownOpcode (v : Z) | NotControlOpcode | MissingSessionId
  | MissingAckCount | TruncatedAckArray | MissingRemoteSessionId | MissingPacketId
  | DataV2TooShort | NotDataV2 (op : Z)
  (* control_channel.rs *)
  | ExpectedZeroBytes | UnsupportedKeyMethod (m : Z)
  (* static_key.rs *)
  | StaticKeyRead | StaticKeyLength (n : nat) | StaticKeyHex
  (* tls_auth.rs, tls_crypt.rs *)
  | InvalidKeyDirection (d : Z) | InnerTooShort (n : nat) | EnvelopeTooShort (n : nat)
  | HmacMismatch
  (* crypto.rs *)
  | GcmSeal | GcmOpen | ShorterThanTag
  (* tls.rs *)
  | TlsNewConnection | TlsReadTls | TlsProcess | TlsWrite | X509Parse
  (* session.rs *)
  | MissingPreMaster | MissingRandom1 | MissingRandom2 | NoActiveSlot
  (* transport.rs *)
  | UdpSendFailed | TcpChannelClosed
  (* server.rs *)
  | ReplayRejectedControl (pid : Z) | ReplayRejectedData (key_id pid : Z)
  | NoKeySlot (key_id : Z) | TunChannelClosed | StaticIpInUse (ip : Z)
  | PerClientV6 | PoolExhausted | PoolV6Exhausted | PoolStartNotV4 | PoolEndNotV4
  | PoolV6Missing | NatNeedsV4Ip | NatNeedsV4Mask
  (* nat.rs *)
  | IptablesFailed (args : list bytes) | IpForwardIo | NoDefaultRoute | RouteFileIo
  (* tls.rs: certificates and keys *)
  | CertOpen | CertParse | NoCertificates | KeyOpen | KeyParse | NoPrivateKey
  | CaRejected | VerifierBuild | SingleCert
  (* tun_dev.rs *)
  | TunCreate | IpAddrAddFailed
  (* server.rs: sockets *)
  | BindFailed | BindTcpFailed
  (* config.rs *)
  | ConfigRead | ConfigParse | UnsupportedCipher.

(** [anyhow::Result<A>], plus [Panic] for what Rust does on an out-of-range
    index, a failed [unwrap]/[expect] or a length-mismatched
    [copy_from_slice], and [Diverge] for a loop that has used up the fuel the
    model gives it. *)
Inductive result (A : Type) : Type :=
  | Ok (a : A)
  | Err (e : error)
  | Panic
  | Diverge.
Arguments Ok {A} a.
Arguments Err {A} e.
Arguments Panic {A}.
Arguments Diverge {A}.

(** The call returns to its caller, with a value or with an error. *)
Definition returns {A} (r : result A) : Prop :=
  match r with Ok _ | Err _ => True | Panic | Diverge => False end.

#[export] Instance result_ret : MRet result := fun A a => Ok a.
#[export] Instance result_bind : MBind result := fun A B f m =>
  match m with Ok a => f a | Err e => Err e | Panic => Panic | Diverge => Diverge end.

(** [opt.ok_or_else(|| anyhow!(..))?] and [opt.unwrap()]. *)
Definition ok_or {A} (e : error) (o : option A) : result A :=
  match o with Some a => Ok a | None => Err e end.
Definition unwrap_opt {A} (o : option A) : result A :=
  match o with Some a => Ok a | None => Panic end.

Definition is_ok {A} (r : result A) : bool :=
  match r with Ok _ => true | _ => false end.

(** Slicing: [buf[i]] and [buf[a..b]] panic out of range. *)
Definition index {A} (buf : list A) (i : nat) : result A := unwrap_opt (buf !! i).
Definition slice {A} (buf : list A) (a b : nat) : result (list A) :=
  if decide (a <= b <= length buf)%nat then Ok (take (b - a) (drop a buf)) else Panic.
(** [buf[a..]]. *)
Definition slice_from {A} (buf : list A) (a : nat) : result (list A) :=
  slice buf a (length buf).

(** ** State and errors together

    Handlers mutate a session behind a lock and the server's shared maps, and
    leave with [?] on an error: what they changed before stays changed.  The
    monad therefore returns the state next to the result, error or not. *)
Definition M (S A : Type) : Type := S -> result A * S.

#[export] Instance M_ret {S} : MRet (M S) := fun A a s => (Ok a, s).
#[export] Instance M_bind {S} : MBind (M S) := fun A B f m s =>
  match m s with
  | (Ok a, s') => f a s'
  | (Err e, s') => (Err e, s')
  | (Panic, s') => (Panic, s')
  | (Diverge, s') => (Diverge, s')
  end.

Definition lift {S A} (r : result A) : M S A := fun s => (r, s).
Definition get {S} : M S S := fun s => (Ok s, s).
Definition gets {S A} (f : S -> A) : M S A := fun s => (Ok (f s), s).
Definition modify {S} (f : S -> S) : M S unit := fun s => (Ok tt, f s).
Definition bail {S A} (e : error) : M S A := fun s => (Err e, s).
Definition when_ {S} (b : bool) (m : M S unit) : M S unit := if b then m else mret tt.

(** [for x in xs { body(x)? }]. *)
Fixpoint for_each {S A} (body : A -> M S unit) (xs : list A) : M S unit :=
  match xs with
  | [] => mret tt
  | x :: xs' => body x ≫= fun _ => for_each body xs'
  end.

(** A computation keeps an invariant of its state, whatever it returns. *)
Class Preserves {S A} (I : S -> Prop) (m : M S A) : Prop := preserves s : I s -> I (m s).2.

(** Whatever it returns, a computation moves its state along the relation [R]. *)
Class Moves {S A} (R : S -> S -> Prop) (m : M S A) : Prop := moves s : R s (m s).2.

(** From a state satisfying the invariant [I] a computation returns (it neither
    panics nor runs out of fuel), keeps [I], and the state evolves along [R]. *)
Definition safe {S A} (I : S -> Prop) (R : S -> S -> Prop) (m : M S A) : Prop :=
  forall s, I s -> returns (m s).1 /\ I (m s).2 /\ R s (m s).2.

Section preserves.
Context {S A B : Type} (I : S -> Prop).
#[export] Instance preserves_ret (a : A) : Preserves I (mret a).
Proof. by intros s. Qed.
#[export] Instance preserves_lift (r : result A) : Preserves I (lift r).
Proof. by intros s. Qed.
#[export] Instance preserves_get : Preserves I get.
Proof. by intros s. Qed.
#[export] Instance preserves_gets (f : S -> A) : Preserves I (gets f).
Proof. by intros s. Qed.
#[export] Instance preserves_bind (m : M S A) (f : A -> M S B) :
  Preserves I m -> (forall a, Preserves I (f a)) -> Preserves I (m ≫= f).
Proof.
  intros Hm Hf s Hs. apply Hm in Hs. unfold mbind, M_bind.
  destruct (m s) as [[a|e| |] s']; simpl in *; try done. by apply Hf.
Qed.
#[export] Instance preserves_for_each (f : A -> M S unit) xs :
  (forall a, Preserves I (f a)) -> Preserves I (for_each f xs).
Proof.
  intros Hf. induction xs as [|x xs IH]; [by intros s|]. cbn [for_each].
  intros s Hs. apply (Hf x) in Hs. unfold mbind, M_bind.
  destruct (f x s) as [[[]|e| |] s']; simpl in *; try done. by apply IH.
Qed.
#[export] Instance preserves_when (b : bool) (m : M S unit) : Preserves I m -> Preserves I (when_ b m).
Proof. intros Hm s Hs. destruct b; [by apply Hm|done]. Qed.
End preserves.

Section moves.
Context {S A B : Type} (R : S -> S -> Prop) {HR : PreOrder R}.
#[export] Instance moves_ret (a : A) : Moves R (mret a).
Proof. intros s. cbn. reflexivity. Qed.
#[export] Instance moves_lift (r : result A) : Moves R (lift r).
Proof. intros s. cbn. reflexivity. Qed.
#[export] Instance moves_bail (e : error) : Moves R (bail (A := A) e).
Proof. intros s. cbn. reflexivity. Qed.
#[export] Instance moves_get : Moves R get.
Proof. intros s. cbn. reflexivity. Qed.
#[export] Instance moves_gets (f : S -> A) : Moves R (gets f).
Proof. intros s. cbn. reflexivity. Qed.
#[export] Instance moves_bind (m : M S A) (f : A -> M S B) :
  Moves R m -> (forall a, Moves R (f a)) -> Moves R (m ≫= f).
Proof.
  intros Hm Hf s. specialize (Hm s). unfold mbind, M_bind.
  destruct (m s) as [[a|e| |] s']; simpl in *; try done. etrans; [exact Hm|apply Hf].
Qed.
#[export] Instance moves_for_each (f : A -> M S unit) xs :
  (forall a, Moves R (f a)) -> Moves R (for_each f xs).
Proof.
  intros Hf. induction xs as [|x xs IH]; cbn [for_each]; intros s; [cbn; reflexivity|].
  pose proof (Hf x s) as Hx. unfold mbind, M_bind.
  destruct (f x s) as [[[]|e| |] s']; simpl in *; try done. etrans; [exact Hx|apply IH].
Qed.
#[export] Instance moves_when (b : bool) (m : M S unit) : Moves R m -> Moves R (when_ b m).
Proof. intros Hm s. destruct b; [apply Hm|cbn; reflexivity]. Qed.
End moves.

Section safe.
Context {S A B : Type} (I : S -> Prop) (R : S -> S -> Prop) {HR : PreOrder R}.
Lemma safe_ret (a : A) : safe I R (mret a).
Proof. intros s Hs. split_and!; [done|done|]. cbn. reflexivity. Qed.
Lemma safe_gets (f : S -> A) : safe I R (gets f).
Proof. intros s Hs. split_and!; [done|done|]. cbn. reflexivity. Qed.
Lemma safe_lift (r : result A) : returns r -> safe I R (lift r).
Proof. intros Hr s Hs. split_and!; [done|done|]. cbn. reflexivity. Qed.
Lemma safe_bind (m : M S A) (f : A -> M S B) :
  safe I R m -> (forall a, safe I R (f a)) -> safe I R (m ≫= f).
Proof.
  intros Hm Hf s Hs. destruct (Hm s Hs) as (Hr & Hs' & HRs). unfold mbind, M_bind.
  destruct (m s) as [[a|e| |] s']; simpl in *; try done.
  destruct (Hf a s' Hs') as (Hr2 & Hs2 & HR2). split_and!; [done|done|by etrans].
Qed.
(** The state read by [get] satisfies the invariant. *)
Lemma safe_gets_bind (g : S -> A) (P : A -> Prop) (f : A -> M S B) :
  (forall s, I s -> P (g s)) -> (forall a, P a -> safe I R (f a)) -> safe I R (gets g ≫= f).
Proof. intros HP Hf s Hs. apply Hf; auto. Qed.
Lemma safe_bind_result (m : result A) (f : A -> M S B) :
  returns m -> (forall a, m = Ok a -> safe I R (f a)) -> safe I R (lift m ≫= f).
Proof.
  intros Hm Hf s Hs. unfold mbind, M_bind, lift. destruct m; [by apply Hf| |done..].
  split_and!; [done|done|]. cbn. reflexivity.
Qed.
Lemma safe_for_each (f : A -> M S unit) xs :
  (forall a, safe I R (f a)) -> safe I R (for_each f xs).
Proof.
  intros Hf. induction xs as [|x xs IH]; cbn [for_each].
  - intros s Hs. split_and!; [done|done|]. cbn. reflexivity.
  - intros s Hs. destruct (Hf x s Hs) as (Hr & Hs' & HRs). unfold mbind, M_bind.
    destruct (f x s) as [[[]|e| |] s']; simpl in *; try done.
    destruct (IH s' Hs') as (? & ? & ?). split_and!; [done|done|by etrans].
Qed.
Lemma safe_when (b : bool) (m : M S unit) : safe I R m -> safe I R (when_ b m).
Proof. intros Hm. destruct b; [done|]. intros s Hs. split_and!; [done|done|]. cbn. reflexivity. Qed.
End safe.

Lemma safe_intro {S A} (I : S -> Prop) (R : S -> S -> Prop) (m : M S A) :
  Preserves I m -> (forall s, I s -> returns (m s).1) -> (forall s, I s -> R s (m s).2) -> safe I R m.
Proof. intros HP Hr HR s Hs. split_and!; auto. Qed.

(** ** Text *)

(** The bytes of a string literal. *)
Definition str (s : string) : bytes :=
  (fun c => Z.of_N (N_of_ascii c)) <$> String.list_ascii_of_string s.

(** ** Automation *)

Create HintDb vpn discriminated.
Create Rewrite HintDb vpn.

(** Reduce the monad's plumbing and nothing else. *)
Ltac rsimp := cbn [mbind mret result_bind result_ret M_bind M_ret ok_or unwrap_opt lift negb fst snd].
Tactic Notation "rsimp" "in" hyp(H) :=
  cbn [mbind mret result_bind result_ret M_bind M_ret ok_or unwrap_opt lift negb fst snd] in H.

(** Run the first step of a stateful computation. *)
Lemma bind_run {S A B} (m : M S A) (f : A -> M S B) (s : S) :
  (m ≫= f) s = match m s with
               | (Ok a, s') => f a s'
               | (Err e, s') => (Err e, s')
               | (Panic, s') => (Panic, s')
               | (Diverge, s') => (Diverge, s')
               end.
Proof. done. Qed.

Ltac msimp :=
  repeat (first [rewrite bind_run
    | progress (cbn [get gets modify bail when_ mbind mret result_bind result_ret M_bind M_ret
                     ok_or unwrap_opt lift negb fst snd])]).

(** Split the [if]s and [match]es of a goal about monadic code. *)
Ltac split_matches :=
  repeat (case_match || case_decide || case_bool_decide); simplify_eq/=; try done.

(** ** Generic lemmas *)

Lemma wrap_ok w v : 0 <= w -> uint_ok w (wrap w v).
Proof. intros. unfold uint_ok, wrap. apply Z.mod_pos_bound. lia. Qed.

Lemma wrap_small w v : uint_ok w v -> wrap w v = v.
Proof. intros. unfold wrap. by apply Z.mod_small. Qed.

Lemma uint_ok_weaken w w' v : 0 <= w <= w' -> uint_ok w v -> uint_ok w' v.
Proof.
  unfold uint_ok. intros ??. assert (2 ^ w <= 2 ^ w') by (apply Z.pow_le_mono_r; lia). lia.
Qed.

Lemma mod_eq_divide m a b : 0 < m -> (m | a - b) <-> a `mod` m = b `mod` m.
Proof.
  intros Hm. rewrite <-Z.mod_divide by lia. rewrite Zminus_mod. split; [|by intros ->; rewrite Z.sub_diag].
  intros E. pose proof (Z.mod_pos_bound a m Hm). pose proof (Z.mod_pos_bound b m Hm).
  apply Z.mod_divide in E as [q Hq]; [|lia]. assert (q = 0) as -> by nia. lia.
Qed.

(** A field placed above [n] low bits. *)
Lemma lor_shiftl_add a b n :
  0 <= n -> 0 <= b < 2 ^ n -> Z.lor (Z.shiftl a n) b = a * 2 ^ n + b.
Proof.
  intros Hn Hb. rewrite <-Z.shiftl_mul_pow2 by done. symmetry. apply Z.add_nocarry_lor.
  apply Z.bits_inj'. intros i Hi. rewrite Z.land_spec, Z.bits_0, Z.shiftl_spec by done.
  destruct (Z.lt_ge_cases i n).
  - by rewrite Z.testbit_neg_r by lia.
  - rewrite (proj1 (Z.bounded_iff_bits_nonneg' n b Hn (proj1 Hb)) Hb i) by done.
    by rewrite andb_false_r.
Qed.

Lemma land_ones_mod a n : 0 <= n -> Z.land a (2 ^ n - 1) = a `mod` 2 ^ n.
Proof.
  intros. replace (2 ^ n - 1) with (Z.ones n) by (rewrite Z.ones_equiv; lia). by apply Z.land_ones.
Qed.

Section big_endian.
Implicit Types (n : nat) (v : Z) (bs : bytes).

Lemma length_to_be n v : length (to_be n v) = n.
Proof. induction n; simpl; congruence. Qed.

Lemma to_be_ok n v : bytes_ok (to_be n v).
Proof.
  induction n; simpl; constructor; [|done].
  unfold uint_ok. change (2 ^ 8) with 256. apply Z.mod_pos_bound. lia.
Qed.

Lemma to_be_S n v : to_be (S n) v = (v / 256 ^ Z.of_nat n) `mod` 256 :: to_be n v.
Proof. done. Qed.
Lemma to_be_0 v : to_be 0 v = [].
Proof. done. Qed.

Lemma from_be_acc bs (a : Z) :
  fold_left (fun acc b => acc * 256 + b) bs a = a * 256 ^ Z.of_nat (length bs) + from_be bs.
Proof.
  unfold from_be. revert a. induction bs as [|b bs IH]; intros a; simpl fold_left.
  - simpl. lia.
  - rewrite (IH (a * 256 + b)), (IH (0 * 256 + b)).
    cbn [length]. rewrite Nat2Z.inj_succ, Z.pow_succ_r by lia. lia.
Qed.

Lemma from_be_cons b bs : from_be (b :: bs) = b * 256 ^ Z.of_nat (length bs) + from_be bs.
Proof. unfold from_be at 1. simpl. apply from_be_acc. Qed.

Lemma from_be_bound bs : bytes_ok bs -> 0 <= from_be bs < 256 ^ Z.of_nat (length bs).
Proof.
  induction 1 as [|b bs Hb _ IH]; [done|].
  rewrite from_be_cons. cbn [length]. rewrite Nat2Z.inj_succ, Z.pow_succ_r by lia.
  unfold uint_ok in Hb. change (2 ^ 8) with 256 in Hb. nia.
Qed.

Lemma to_be_mod n v : from_be (to_be n v) = v `mod` 256 ^ Z.of_nat n.
Proof.
  induction n as [|n IH].
  - simpl. by rewrite Z.mod_1_r.
  - cbn [to_be]. rewrite from_be_cons, length_to_be, IH.
    rewrite Nat2Z.inj_succ, Z.pow_succ_r by lia.
    rewrite (Z.mul_comm 256), Z.rem_mul_r by lia. lia.
Qed.

Lemma from_to_be n v : 0 <= v < 256 ^ Z.of_nat n -> from_be (to_be n v) = v.
Proof. intros. rewrite to_be_mod. by apply Z.mod_small. Qed.

Lemma to_be_mod_high n v k :
  to_be n (k * 256 ^ Z.of_nat n + v) = to_be n v.
Proof.
  revert k. induction n as [|n IH]; intros k; [done|]; cbn [to_be].
  rewrite Nat2Z.inj_succ, Z.pow_succ_r by lia. f_equal.
  - replace (k * (256 * 256 ^ Z.of_nat n) + v) with (v + (k * 256) * 256 ^ Z.of_nat n) by lia.
    rewrite Z.div_add by lia. by rewrite Z.mod_add by lia.
  - replace (k * (256 * 256 ^ Z.of_nat n) + v) with ((k * 256) * 256 ^ Z.of_nat n + v) by lia.
    apply IH.
Qed.

Lemma to_from_be bs : bytes_ok bs -> to_be (length bs) (from_be bs) = bs.
Proof.
  induction 1 as [|b bs Hb Hbs IH]; [done|]. cbn [length to_be].
  rewrite from_be_cons. pose proof (from_be_bound bs Hbs) as Hbd.
  unfold uint_ok in Hb. change (2 ^ 8) with 256 in Hb. f_equal.
  - rewrite Z.div_add_l, Z.div_small by lia. rewrite Z.add_0_r. by apply Z.mod_small.
  - by rewrite to_be_mod_high.
Qed.

Lemma to_be_inj n v1 v2 :
  0 <= v1 < 256 ^ Z.of_nat n -> 0 <= v2 < 256 ^ Z.of_nat n -> to_be n v1 = to_be n v2 -> v1 = v2.
Proof. intros ?? E. rewrite <-(from_to_be n v1), <-(from_to_be n v2) by done. by rewrite E. Qed.
End big_endian.

#[global] Arguments Nat.ltb : simpl never.
#[global] Opaque to_be from_be.
#[global] Arguments wrap : simpl never.
#[global] Arguments uint_ok : simpl never.

Lemma u32_be v : u32_ok v <-> 0 <= v < 256 ^ Z.of_nat 4.
Proof. done. Qed.
Lemma u64_be v : u64_ok v <-> 0 <= v < 256 ^ Z.of_nat 8.
Proof. done. Qed.
Lemma u16_be v : u16_ok v <-> 0 <= v < 256 ^ Z.of_nat 2.
Proof. done. Qed.

Lemma from_be_u32 bs : length bs = 4%nat -> bytes_ok bs -> u32_ok (from_be bs).
Proof. intros Hl Hb. apply u32_be. rewrite <-Hl. by apply from_be_bound. Qed.
Lemma from_be_u64 bs : length bs = 8%nat -> bytes_ok bs -> u64_ok (from_be bs).
Proof. intros Hl Hb. apply u64_be. rewrite <-Hl. by apply from_be_bound. Qed.

#[export] Hint Resolve to_be_ok : vpn.
#[export] Hint Rewrite length_to_be : vpn.

Lemma slice_ok {A} (l : list A) a b :
  (a <= b <= length l)%nat -> slice l a b = Ok (take (b - a) (drop a l)).
Proof. intros. unfold slice. by rewrite decide_True. Qed.

Lemma slice_from_ok {A} (l : list A) a :
  (a <= length l)%nat -> slice_from l a = Ok (drop a l).
Proof.
  intros. unfold slice_from. rewrite slice_ok by lia.
  rewrite take_ge; [done|]. rewrite length_drop. lia.
Qed.

Lemma slice_app3 {A} (l1 l2 l3 : list A) a b :
  a = length l1 -> b = (length l1 + length l2)%nat ->
  slice (l1 ++ l2 ++ l3) a b = Ok l2.
Proof.
  intros -> ->. rewrite slice_ok by (rewrite !length_app; lia).
  rewrite drop_app_length. by replace (_ + _ - _)%nat with (length l2) by lia; rewrite take_app_length.
Qed.

Lemma take_drop_mid {A} (pre mid post : list A) n m :
  m = length pre -> n = length mid -> take n (drop m (pre ++ mid ++ post)) = mid.
Proof. intros -> ->. by rewrite drop_app_length, take_app_length. Qed.

Lemma index_ok {A} (l : list A) i x : l !! i = Some x -> index l i = Ok x.
Proof. unfold index. by intros ->. Qed.

Lemma index_lt {A} (l : list A) i : (i < length l)%nat -> exists x, index l i = Ok x /\ l !! i = Some x.
Proof. intros [x Hx]%lookup_lt_is_Some. exists x. by rewrite (index_ok _ _ _ Hx). Qed.

(** Discharge the length guards [if (length b <? n)%nat then Err ..] of a
    goal: the buffer is long enough. *)
Ltac guard_ok :=
  match goal with
  | |- context [Nat.ltb ?a ?b] =>
    rewrite (proj2 (Nat.ltb_ge a b))
      by (rewrite ?length_app, ?length_to_be, ?length_drop, ?length_take; simpl; lia)
  end.
