(* ===== verification/Replay.v ===== *)
(** * The sliding replay window (src/src/replay.rs)

    [ReplayWindow] and [check_and_set] as in the source, the abstract
    specification of the window as the set of packet ids accepted so far, and
    the refinement between the two.  The trace theorems (no id is accepted
    twice, a fresh id within the window is accepted) follow from the
    refinement. *)

From S2P Require Import Prelude.

Module Replay.

Definition WINDOW_SIZE : Z := 64.

Record ReplayWindow := MkReplayWindow {
  highest : Z; (* u32 *)
  bitmap : Z;  (* u64 *)
}.

(** [ReplayWindow::new], that is [Default]. *)
Definition new : ReplayWindow := {| highest := 0; bitmap := 0 |}.

(** The subtractions are [u32] subtractions (wrapping in a release build) and
    the left shift drops the bits above 63. *)
Definition check_and_set (w : ReplayWindow) (packet_id : Z) : bool * ReplayWindow :=
  if packet_id =? 0 then (false, w)
  else if highest w <? packet_id then
    let shift := wrapping_sub 32 packet_id (highest w) in
    let bm :=
      if 64 <=? shift then 1
      else Z.lor (wrap 64 (Z.shiftl (bitmap w) shift)) 1 in
    (true, {| highest := packet_id; bitmap := bm |})
  else
    let diff := wrapping_sub 32 (highest w) packet_id in
    if WINDOW_SIZE <=? diff then (false, w)
    else
      let bit := Z.shiftl 1 diff in
      if negb (Z.land (bitmap w) bit =? 0) then (false, w)
      else (true, {| highest := highest w; bitmap := Z.lor (bitmap w) bit |}).

(** A window fed with a sequence of ids: the ids it accepts, in order, and the
    final window. *)
Fixpoint accepted (w : ReplayWindow) (pids : list Z) : list Z * ReplayWindow :=
  match pids with
  | [] => ([], w)
  | pid :: rest =>
    let '(b, w1) := check_and_set w pid in
    let '(acc, w2) := accepted w1 rest in
    ((if b then [pid] else []) ++ acc, w2)
  end.

(** ** Specification: the set of ids accepted so far *)

(** An id is acceptable when it is not the reserved 0, was not accepted
    before, and is less than 64 behind every id accepted before. *)
Definition spec_accept (seen : gset Z) (pid : Z) : Prop :=
  (pid <> 0) /\ (pid ∉ seen) /\ set_Forall (fun q : Z => Z.lt (q - pid) WINDOW_SIZE) seen.

#[export] Instance spec_accept_dec seen pid : Decision (spec_accept seen pid).
Proof. unfold spec_accept. apply _. Defined.

Definition spec_step (seen : gset Z) (pid : Z) : bool * gset Z :=
  if decide (spec_accept seen pid) then (true, {[pid]} ∪ seen) else (false, seen).

(** The window represents the set [seen]: [highest] is its maximum (0 when
    empty) and bit [n] says whether [highest - n] is in it. *)
Record represents (w : ReplayWindow) (seen : gset Z) : Prop := {
  rep_highest_ok : u32_ok (highest w);
  rep_bitmap_ok : u64_ok (bitmap w);
  rep_range : forall q, q ∈ seen -> 0 < q <= highest w;
  rep_max : 0 < highest w -> highest w ∈ seen;
  rep_bits : forall n, 0 <= n < 64 -> Z.testbit (bitmap w) n = true <-> highest w - n ∈ seen;
}.

(** ** Bit lemmas *)

Lemma land_bit_zero (b n : Z) :
  0 <= n -> (Z.land b (Z.shiftl 1 n) =? 0) = negb (Z.testbit b n).
Proof.
  intros Hn. rewrite Z.shiftl_1_l. apply eq_bool_prop_intro.
  rewrite negb_True, !Is_true_true, Z.eqb_eq. split.
  - intros E Hb. apply (f_equal (fun z => Z.testbit z n)) in E.
    rewrite Z.land_spec, Hb, Z.pow2_bits_true, Z.bits_0 in E by lia. done.
  - intros Hb. apply Z.bits_inj'. intros m Hm. rewrite Z.land_spec, Z.bits_0.
    rewrite Z.pow2_bits_eqb by lia. destruct (Z.eqb_spec n m) as [->|]; [|by rewrite andb_false_r].
    by destruct (Z.testbit b m).
Qed.

Lemma testbit_set_bit (b n m : Z) :
  0 <= n -> 0 <= m -> Z.testbit (Z.lor b (Z.shiftl 1 n)) m = true <-> Z.testbit b m = true \/ m = n.
Proof.
  intros. rewrite Z.lor_spec, Z.shiftl_1_l, Z.pow2_bits_eqb, orb_true_iff, Z.eqb_eq by lia.
  intuition lia.
Qed.

Lemma lor_u64 a b : u64_ok a -> u64_ok b -> u64_ok (Z.lor a b).
Proof.
  unfold uint_ok. intros Ha Hb.
  assert (0 <= Z.lor a b) by (apply Z.lor_nonneg; lia).
  rewrite Z.bounded_iff_bits_nonneg' in Ha, Hb |- * by lia.
  intros i Hi. by rewrite Z.lor_spec, Ha, Hb.
Qed.

Lemma shiftl1_u64 n : 0 <= n < 64 -> u64_ok (Z.shiftl 1 n).
Proof.
  intros. unfold uint_ok. rewrite Z.shiftl_1_l.
  split; [lia|]. apply Z.pow_lt_mono_r; lia.
Qed.

Lemma testbit_shift_in (b s n : Z) :
  0 < s -> 0 <= n < 64 ->
  Z.testbit (Z.lor (wrap 64 (Z.shiftl b s)) 1) n = true <->
  n = 0 \/ (s <= n /\ Z.testbit b (n - s) = true).
Proof.
  intros Hs Hn. unfold wrap. rewrite Z.lor_spec, Z.mod_pow2_bits_low by lia.
  rewrite Z.shiftl_spec by lia. change 1 with (2 ^ 0) at 1.
  rewrite Z.pow2_bits_eqb, orb_true_iff, Z.eqb_eq by lia.
  destruct (Z.le_gt_cases s n).
  - intuition lia.
  - rewrite Z.testbit_neg_r by lia. intuition (lia || done).
Qed.

(** ** Refinement *)

Lemma new_represents : represents new ∅.
Proof.
  split; simpl; [done..| | |].
  - set_solver.
  - lia.
  - intros n Hn. rewrite Z.bits_0. set_solver.
Qed.

(** The forward branch: ids above [highest]. *)
Lemma represents_advance w seen pid :
  represents w seen -> u32_ok pid -> highest w < pid ->
  represents {| highest := pid;
                bitmap := if 64 <=? pid - highest w then 1
                          else Z.lor (wrap 64 (Z.shiftl (bitmap w) (pid - highest w))) 1 |}
             ({[pid]} ∪ seen).
Proof.
  intros [Hh Hb Hr Hm Hbits] Hp Hlt. unfold uint_ok in Hh. split; simpl; [done| | |set_solver|].
  2: intros q [->%elem_of_singleton|?%Hr]%elem_of_union; unfold uint_ok in *; lia.
  - case_match; [done|]. apply lor_u64; [apply wrap_ok; lia|done].
  - intros n Hn. rewrite elem_of_union, elem_of_singleton.
    destruct (Z.leb_spec 64 (pid - highest w)).
    + change 1 with (2 ^ 0). rewrite Z.pow2_bits_eqb, Z.eqb_eq by lia.
      split; [lia|]. intros [?|?%Hr]; lia.
    + rewrite testbit_shift_in by lia. split.
      * intros [->|[? Ht]]; [left; lia|right]. apply Hbits in Ht; [|lia].
        by replace (pid - n) with (highest w - (n - (pid - highest w))) by lia.
      * intros [?|Hin]; [left; lia|right]. pose proof (Hr _ Hin). split; [lia|].
        apply Hbits; [lia|]. by replace (highest w - (n - (pid - highest w))) with (pid - n) by lia.
Qed.

(** The in-window branch: setting the bit of an id at or below [highest]. *)
Lemma represents_mark w seen pid :
  represents w seen -> 0 < pid <= highest w -> highest w - pid < 64 ->
  represents {| highest := highest w; bitmap := Z.lor (bitmap w) (Z.shiftl 1 (highest w - pid)) |}
             ({[pid]} ∪ seen).
Proof.
  intros [Hh Hb Hr Hm Hbits] Hp Hd. split; simpl; [done|..].
  2: intros q [->%elem_of_singleton|?%Hr]%elem_of_union; lia.
  2: intros ?; apply elem_of_union_r, Hm; lia.
  - apply lor_u64; [done|]. apply shiftl1_u64. lia.
  - intros n Hn. rewrite testbit_set_bit, Hbits, elem_of_union, elem_of_singleton by lia.
    intuition lia.
Qed.

Lemma check_and_set_simulates w seen pid :
  represents w seen -> u32_ok pid ->
  exists seen', spec_step seen pid = ((check_and_set w pid).1, seen') /\
                represents (check_and_set w pid).2 seen'.
Proof.
  intros Hrep Hp. pose proof Hrep as [Hh Hb Hr Hm Hbits].
  unfold check_and_set, spec_step, wrapping_sub, uint_ok in *.
  destruct (Z.eqb_spec pid 0) as [->|Hnz].
  { exists seen. rewrite decide_False by (intros (?&_); done). by split. }
  destruct (Z.ltb_spec (highest w) pid) as [Hlt|Hge]; rewrite wrap_small by (unfold uint_ok; lia).
  - exists ({[pid]} ∪ seen). rewrite decide_True.
    + split; [done|]. by apply represents_advance.
    + split; [done|]. split; [intros ?%Hr; lia|]. intros q ?%Hr. unfold WINDOW_SIZE. lia.
  - destruct (Z.leb_spec WINDOW_SIZE (highest w - pid)) as [Hold|Hin].
    { exists seen. rewrite decide_False; [by split|].
      intros (_ & _ & Hall). specialize (Hall (highest w) (Hm ltac:(lia))). simpl in Hall. lia. }
    unfold WINDOW_SIZE in Hin. rewrite land_bit_zero, negb_involutive by lia.
    pose proof (Hbits (highest w - pid) ltac:(lia)) as Hbit.
    replace (highest w - (highest w - pid)) with pid in Hbit by lia.
    destruct (Z.testbit (bitmap w) (highest w - pid)).
    { exists seen. rewrite decide_False; [by split|]. intros (_ & Hn & _). by apply Hn, Hbit. }
    exists ({[pid]} ∪ seen). rewrite decide_True.
    + split; [done|]. apply represents_mark; [done|lia..].
    + split; [done|]. split; [intros ?%Hbit; done|]. intros q ?%Hr. unfold WINDOW_SIZE. lia.
Qed.

(** What a window refuses it refuses for ever, and it refuses what it was just
    asked about. *)
Definition rejects (w : ReplayWindow) (pid : Z) : Prop := (check_and_set w pid).1 = false.

Lemma rejects_spec w seen pid : represents w seen -> u32_ok pid -> rejects w pid <-> ~ spec_accept seen pid.
Proof.
  intros Hrep Hp. destruct (check_and_set_simulates w seen pid Hrep Hp) as (seen' & Hstep & _).
  unfold rejects. unfold spec_step in Hstep. case_decide; injection Hstep as <- _; naive_solver.
Qed.

Lemma rejects_mono w seen p q :
  represents w seen -> u32_ok p -> u32_ok q -> rejects w p -> rejects (check_and_set w q).2 p.
Proof.
  intros Hrep Hp Hq Hrej. destruct (check_and_set_simulates w seen q Hrep Hq) as (seen' & Hstep & Hrep').
  rewrite (rejects_spec _ seen') by done. rewrite (rejects_spec _ seen) in Hrej by done.
  intros (H0 & Hn & Hall). apply Hrej. unfold spec_step in Hstep. case_decide; injection Hstep as _ <-; [|done].
  split; [done|]. split; [set_solver|]. intros x Hx. apply Hall. set_solver.
Qed.

Lemma rejects_again w seen p : represents w seen -> u32_ok p -> rejects (check_and_set w p).2 p.
Proof.
  intros Hrep Hp. destruct (check_and_set_simulates w seen p Hrep Hp) as (seen' & Hstep & Hrep').
  rewrite (rejects_spec _ seen') by done. intros Hacc. unfold spec_step in Hstep.
  case_decide as Hd; injection Hstep as _ <-; [|done]. destruct Hacc as (_ & Hn & _). set_solver.
Qed.

Lemma rejects_same w p : rejects w p -> (check_and_set w p).2 = w.
Proof. unfold rejects, check_and_set. by repeat case_match. Qed.

(** Every id the window accepts is new to the represented set, and the set
    grows by exactly the accepted ids. *)
Lemma accepted_represents w seen pids :
  represents w seen -> Forall (uint_ok 32) pids ->
  NoDup (accepted w pids).1 /\ (forall q, q ∈ (accepted w pids).1 -> q ∉ seen) /\
  represents (accepted w pids).2 (list_to_set (accepted w pids).1 ∪ seen).
Proof.
  intros Hrep Hall. revert w seen Hrep. induction Hall as [|pid rest Hp Hrest IH]; intros w seen Hrep.
  { simpl. split; [constructor|]. split; [set_solver|]. by rewrite union_empty_l_L. }
  destruct (check_and_set_simulates w seen pid Hrep Hp) as (seen' & Hstep & Hrep').
  simpl. destruct (check_and_set w pid) as [b w1]. simpl in *.
  destruct (IH w1 seen' Hrep') as (Hnd & Hfresh & Hfin).
  destruct (accepted w1 rest) as [acc w2]. simpl in *. unfold spec_step in Hstep.
  case_decide as Hacc; simplify_eq; simpl.
  - destruct Hacc as (_ & Hnew & _). split_and!.
    + constructor; [|done]. intros Hin%Hfresh. by apply Hin, elem_of_union_l, elem_of_singleton.
    + intros q [->|Hin]%elem_of_cons; [done|]. apply Hfresh in Hin. intros ?. by apply Hin, elem_of_union_r.
    + by rewrite (union_comm_L {[pid]}), <-union_assoc_L.
  - by split_and!.
Qed.

(** ** Claims *)

(** C20: the window refines its specification: run from [new] on any sequence
    of [u32] ids, it represents exactly the set of ids it has accepted, and its
    answer for the next id is the specification's: accepted if and only if the
    id is not 0, was not accepted before and is less than 64 behind the highest
    accepted id. *)
Theorem check_and_set_refines_spec (pids : list Z) (pid : Z) :
  Forall (uint_ok 32) pids -> u32_ok pid ->
  let '(acc, w) := accepted new pids in
  represents w (list_to_set acc) /\
  ((check_and_set w pid).1 = true <-> spec_accept (list_to_set acc) pid).
Proof.
  intros Hall Hp. destruct (accepted_represents new ∅ pids new_represents Hall) as (_ & _ & Hrep).
  rewrite union_empty_r_L in Hrep. destruct (accepted new pids) as [acc w]. simpl in Hrep.
  split; [done|]. destruct (check_and_set_simulates w _ pid Hrep Hp) as (s' & Hs & _).
  unfold spec_step in Hs. case_decide; injection Hs as Hs _; by rewrite <-Hs.
Qed.

Lemma check_and_set_refines_spec_witness :
  spec_accept {[100; 37]} 99 /\ (check_and_set (accepted new [100; 37; 36; 37]).2 99).1 = true.
Proof.
  assert (Forall (uint_ok 32) [100; 37; 36; 37]) as H1 by (repeat constructor; done).
  pose proof (check_and_set_refines_spec [100; 37; 36; 37] 99 H1 ltac:(done)) as [_ H].
  split; [|reflexivity].
  replace ({[100; 37]} : gset Z) with (list_to_set [100; 37] : gset Z) by (vm_compute; reflexivity).
  apply H. reflexivity.
Defined.

(** No packet id is accepted twice, whatever the order, repetition or
    spacing of the ids the peer (or an attacker) sends. *)
Theorem no_replay (pids : list Z) :
  Forall (uint_ok 32) pids -> NoDup (accepted new pids).1.
Proof. intros Hall. by apply (accepted_represents new ∅ pids new_represents Hall). Qed.

Lemma no_replay_witness : NoDup (accepted new [5; 5; 3; 80; 3; 5; 79; 79; 0]).1.
Proof. apply no_replay. repeat constructor; done. Defined.

End Replay.
