(* ===== verification/Buf.v ===== *)
(** * The cursor and buffer operations of the [bytes] crate

    [ControlPacket::parse] reads through [bytes::Buf] on a [&[u8]] and
    [ControlPacket::encode] writes through [bytes::BufMut] on a [BytesMut].
    The crate is not part of this repository: its operations are the fields of
    the class [BufApi] and what the codec relies on, the crate's documented
    big-endian behaviour, is the class [BufLaws].  [list_buf] is an instance
    that computes. *)

From S2P Require Import Prelude.

Class BufApi := {
  get_u8 : bytes -> result (Z * bytes);
  get_u32 : bytes -> result (Z * bytes);
  get_u64 : bytes -> result (Z * bytes);
  put_u8 : bytes -> Z -> bytes;
  put_u32 : bytes -> Z -> bytes;
  put_u64 : bytes -> Z -> bytes;
}.

(** "Gets an unsigned n-bit integer from [self] in big-endian byte order; the
    current position is advanced"; "writes an unsigned n-bit integer to [self]
    in big-endian byte order". *)
Class BufLaws (B : BufApi) : Prop := {
  get_u8_law b r : u8_ok b -> get_u8 (b :: r) = Ok (b, r);
  get_u32_law bs r : length bs = 4%nat -> bytes_ok bs -> get_u32 (bs ++ r) = Ok (from_be bs, r);
  get_u64_law bs r : length bs = 8%nat -> bytes_ok bs -> get_u64 (bs ++ r) = Ok (from_be bs, r);
  put_u8_law out v : u8_ok v -> put_u8 out v = out ++ [v];
  put_u32_law out v : u32_ok v -> put_u32 out v = out ++ to_be 4 v;
  put_u64_law out v : u64_ok v -> put_u64 out v = out ++ to_be 8 v;
}.

(** A computing instance, for examples and witnesses. *)
Definition take_be (n : nat) (b : bytes) : result (Z * bytes) :=
  if (length b <? n)%nat then Panic else Ok (from_be (take n b), drop n b).

#[export] Instance list_buf : BufApi := {|
  get_u8 := take_be 1; get_u32 := take_be 4; get_u64 := take_be 8;
  put_u8 out v := out ++ to_be 1 v; put_u32 out v := out ++ to_be 4 v;
  put_u64 out v := out ++ to_be 8 v |}.

Lemma take_be_app n bs r : length bs = n -> take_be n (bs ++ r) = Ok (from_be bs, r).
Proof.
  intros <-. unfold take_be. rewrite length_app, take_app_length, drop_app_length.
  by rewrite (proj2 (Nat.ltb_ge _ _)) by lia.
Qed.

#[export] Instance list_buf_laws : BufLaws list_buf.
Proof.
  split.
  - intros b r _. apply (take_be_app 1 [b] r eq_refl).
  - intros. by apply take_be_app.
  - intros. by apply take_be_app.
  - intros out v Hv. simpl. f_equal. apply (to_from_be [v]). by constructor.
  - done.
  - done.
Qed.

Section derived.
Context {B : BufApi} {BL : BufLaws B}.

Lemma get_u32_split b :
  (4 <= length b)%nat -> bytes_ok b -> get_u32 b = Ok (from_be (take 4 b), drop 4 b).
Proof.
  intros Hl Hb. rewrite <-(take_drop 4 b) at 1. apply get_u32_law.
  - rewrite length_take. lia.
  - by apply Forall_take.
Qed.

Lemma get_u64_split b :
  (8 <= length b)%nat -> bytes_ok b -> get_u64 b = Ok (from_be (take 8 b), drop 8 b).
Proof.
  intros Hl Hb. rewrite <-(take_drop 8 b) at 1. apply get_u64_law.
  - rewrite length_take. lia.
  - by apply Forall_take.
Qed.

Lemma get_u32_to_be v r : u32_ok v -> get_u32 (to_be 4 v ++ r) = Ok (v, r).
Proof.
  intros. rewrite get_u32_law by (rewrite ?length_to_be; auto using to_be_ok).
  by rewrite from_to_be by by apply u32_be.
Qed.

Lemma get_u64_to_be v r : u64_ok v -> get_u64 (to_be 8 v ++ r) = Ok (v, r).
Proof.
  intros. rewrite get_u64_law by (rewrite ?length_to_be; auto using to_be_ok).
  by rewrite from_to_be by by apply u64_be.
Qed.
End derived.
