(* ===== verification/Protocol.v ===== *)
(** * The OpenVPN wire format (src/src/protocol.rs)

    [OpCode], [ControlPacket] with [parse] and [encode], [DataPacketV2::parse]
    and the keepalive payload.  The codec theorems: the two functions are
    inverse to each other on the packets that fit the wire format, parsing
    never panics, and every parsed packet is well formed. *)

From S2P Require Import Prelude Buf.

Module Protocol.

Inductive OpCode : Type :=
  | ControlHardResetClientV1 | ControlHardResetServerV1 | ControlSoftResetV1
  | ControlV1 | AckV1 | DataV1 | ControlHardResetClientV2 | ControlHardResetServerV2
  | DataV2 | ControlHardResetClientV3 | ControlWkcV1.

#[export] Instance OpCode_eq_dec : EqDecision OpCode.
Proof. solve_decision. Defined.

(** [op as u8]: the [repr(u8)] discriminants. *)
Definition as_u8 (op : OpCode) : Z :=
  match op with
  | ControlHardResetClientV1 => 1 | ControlHardResetServerV1 => 2 | ControlSoftResetV1 => 3
  | ControlV1 => 4 | AckV1 => 5 | DataV1 => 6 | ControlHardResetClientV2 => 7
  | ControlHardResetServerV2 => 8 | DataV2 => 9 | ControlHardResetClientV3 => 10
  | ControlWkcV1 => 11
  end.

Definition from_u8 (v : Z) : result OpCode :=
  match v with
  | 1 => Ok ControlHardResetClientV1
  | 2 => Ok ControlHardResetServerV1
  | 3 => Ok ControlSoftResetV1
  | 4 => Ok ControlV1
  | 5 => Ok AckV1
  | 6 => Ok DataV1
  | 7 => Ok ControlHardResetClientV2
  | 8 => Ok ControlHardResetServerV2
  | 9 => Ok DataV2
  | 10 => Ok ControlHardResetClientV3
  | 11 => Ok ControlWkcV1
  | _ => Err (UnknownOpcode v)
  end.

Definition is_control (op : OpCode) : bool :=
  match op with DataV1 | DataV2 => false | _ => true end.
Definition is_data (op : OpCode) : bool :=
  match op with DataV1 | DataV2 => true | _ => false end.

Record ControlPacket := MkControlPacket {
  op : OpCode;
  key_id : Z;                      (* u8 *)
  session_id : Z;                  (* u64 *)
  acks : list Z;                   (* u32 each *)
  remote_session_id : option Z;    (* u64 *)
  packet_id : option Z;            (* u32 *)
  payload : bytes;
}.

Section codec.
Context {B : BufApi}.

(** [for _ in 0..ack_count { acks.push(b.get_u32()) }]. *)
Fixpoint get_acks (n : nat) (b : bytes) : result (list Z * bytes) :=
  match n with
  | O => Ok ([], b)
  | S n' =>
    '(a, b) ← get_u32 b;
    '(rest, b) ← get_acks n' b;
    Ok (a :: rest, b)
  end.

(** The optional remote session id and the optional packet id. *)
Definition get_remote (ack_count : Z) (b : bytes) : result (option Z * bytes) :=
  if 0 <? ack_count then
    if (length b <? 8)%nat then Err MissingRemoteSessionId else
    '(r, b) ← get_u64 b;
    Ok (Some r, b)
  else Ok (None, b).

Definition get_packet_id (op : OpCode) (b : bytes) : result (option Z * bytes) :=
  if negb (bool_decide (op = AckV1)) then
    if (length b <? 4)%nat then Err MissingPacketId else
    '(p, b) ← get_u32 b;
    Ok (Some p, b)
  else Ok (None, b).

Definition parse (buf : bytes) : result ControlPacket :=
  if bool_decide (buf = []) then Err EmptyPacket else
  '(first, b) ← get_u8 buf;
  op ← from_u8 (Z.shiftr first 3);
  let key_id := Z.land first 7 in
  if negb (is_control op) then Err NotControlOpcode else
  if (length b <? 8)%nat then Err MissingSessionId else
  '(session_id, b) ← get_u64 b;
  if (length b <? 1)%nat then Err MissingAckCount else
  '(ack_count, b) ← get_u8 b;
  if (length b <? Z.to_nat ack_count * 4)%nat then Err TruncatedAckArray else
  '(acks, b) ← get_acks (Z.to_nat ack_count) b;
  '(remote_session_id, b) ← get_remote ack_count b;
  '(packet_id, b) ← get_packet_id op b;
  Ok (MkControlPacket op key_id session_id acks remote_session_id packet_id b).

Definition encode (p : ControlPacket) : bytes :=
  let first := Z.lor (wrap 8 (Z.shiftl (as_u8 (op p)) 3)) (Z.land (key_id p) 7) in
  let out := put_u8 [] first in
  let out := put_u64 out (session_id p) in
  let out := put_u8 out (wrap 8 (Z.of_nat (length (acks p)))) in
  let out := fold_left put_u32 (acks p) out in
  let out := match acks p with
             | [] => out
             | _ => put_u64 out (default 0 (remote_session_id p))
             end in
  let out := match packet_id p with
             | Some pid => put_u32 out pid
             | None => out
             end in
  out ++ payload p.

End codec.

(** [PING_PAYLOAD], OpenVPN's data-channel keepalive. *)
Definition PING_PAYLOAD : bytes :=
  [0x2a; 0x18; 0x7b; 0xf3; 0x64; 0x1e; 0xb4; 0xcb; 0x07; 0xed; 0x2d; 0x0a; 0x98; 0x1f; 0xc7; 0x48].

Record DataPacketV2 := MkDataPacketV2 {
  d_key_id : Z;
  d_peer_id : Z;      (* 24 bits *)
  d_packet_id : Z;
  d_ciphertext : bytes;
}.

Definition parse_data_v2 (buf : bytes) : result DataPacketV2 :=
  if (length buf <? 8)%nat then Err DataV2TooShort else
  first ← index buf 0;
  let op := Z.shiftr first 3 in
  if negb (op =? as_u8 DataV2) then Err (NotDataV2 op) else
  let key_id := Z.land first 7 in
  b1 ← index buf 1; b2 ← index buf 2; b3 ← index buf 3;
  let peer_id := Z.lor (Z.lor (Z.shiftl b1 16) (Z.shiftl b2 8)) b3 in
  b4 ← index buf 4; b5 ← index buf 5; b6 ← index buf 6; b7 ← index buf 7;
  let packet_id := from_be [b4; b5; b6; b7] in
  ciphertext ← slice_from buf 8;
  Ok (MkDataPacketV2 key_id peer_id packet_id ciphertext).

(** ** Well-formed packets: what fits the wire format *)

Record packet_ok (p : ControlPacket) : Prop := {
  pk_control : is_control (op p) = true;
  pk_key_id : 0 <= key_id p < 8;
  pk_session : u64_ok (session_id p);
  pk_acks_len : (length (acks p) < 256)%nat;
  pk_acks : Forall (uint_ok 32) (acks p);
  pk_remote_some : remote_session_id p = None <-> acks p = [];
  pk_remote : forall r, remote_session_id p = Some r -> u64_ok r;
  pk_pid_none : packet_id p = None <-> op p = AckV1;
  pk_pid : forall i, packet_id p = Some i -> u32_ok i;
}.

(** ** The first byte *)

Definition first_byte (o : OpCode) (k : Z) : Z :=
  Z.lor (wrap 8 (Z.shiftl (as_u8 o) 3)) (Z.land k 7).

Lemma from_u8_as_u8 o : from_u8 (as_u8 o) = Ok o.
Proof. by destruct o. Qed.

Lemma from_u8_ok v o : from_u8 v = Ok o -> v = as_u8 o.
Proof. unfold from_u8. intros H. repeat case_match; by simplify_eq. Qed.

Lemma land7_mod k : Z.land k 7 = k `mod` 8.
Proof. apply (land_ones_mod k 3). lia. Qed.

Lemma first_byte_eq o k : first_byte o k = as_u8 o * 8 + k `mod` 8.
Proof.
  unfold first_byte. rewrite land7_mod.
  assert (wrap 8 (Z.shiftl (as_u8 o) 3) = Z.shiftl (as_u8 o) 3) as -> by by destruct o.
  apply lor_shiftl_add; [lia|]. by apply Z.mod_pos_bound.
Qed.

Lemma first_byte_ok o k : u8_ok (first_byte o k).
Proof.
  rewrite first_byte_eq. pose proof (Z.mod_pos_bound k 8 ltac:(lia)).
  unfold uint_ok. destruct o; simpl; lia.
Qed.

Lemma first_byte_op o k : Z.shiftr (first_byte o k) 3 = as_u8 o.
Proof.
  rewrite first_byte_eq, Z.shiftr_div_pow2 by lia. change (2 ^ 3) with 8.
  pose proof (Z.mod_pos_bound k 8 ltac:(lia)). rewrite Z.div_add_l, Z.div_small by lia. lia.
Qed.

Lemma first_byte_key o k : Z.land (first_byte o k) 7 = k `mod` 8.
Proof.
  rewrite first_byte_eq, land7_mod, Z.add_comm, Z.mod_add by lia. by rewrite Z.mod_mod.
Qed.

(** A byte whose upper five bits are an opcode is the first byte of that
    opcode and its lower three bits. *)
Lemma first_byte_split b o :
  u8_ok b -> from_u8 (Z.shiftr b 3) = Ok o -> b = first_byte o (Z.land b 7).
Proof.
  intros Hb Ho%from_u8_ok. rewrite first_byte_eq, land7_mod, Z.mod_mod by lia.
  rewrite Z.shiftr_div_pow2 in Ho by lia. change (2 ^ 3) with 8 in Ho.
  rewrite <-Ho. pose proof (Z.div_mod b 8). lia.
Qed.

(** ** Encoding as one concatenation *)

Definition acks_wire (l : list Z) : bytes := concat (to_be 4 <$> l).

Definition remote_wire (p : ControlPacket) : bytes :=
  match acks p with [] => [] | _ => to_be 8 (default 0 (remote_session_id p)) end.
Definition pid_wire (p : ControlPacket) : bytes :=
  match packet_id p with Some i => to_be 4 i | None => [] end.

Lemma acks_wire_cons a l : acks_wire (a :: l) = to_be 4 a ++ acks_wire l.
Proof. done. Qed.

Lemma length_acks_wire l : length (acks_wire l) = (length l * 4)%nat.
Proof.
  induction l as [|a l IH]; [done|]. rewrite acks_wire_cons, length_app, length_to_be, IH. simpl. lia.
Qed.

Section laws.
Context {B : BufApi} {BL : BufLaws B}.

Lemma fold_put_u32 l out :
  Forall (uint_ok 32) l -> fold_left put_u32 l out = out ++ acks_wire l.
Proof.
  intros Hl. revert out. induction Hl as [|a l Ha _ IH]; intros out; simpl.
  - by rewrite app_nil_r.
  - by rewrite put_u32_law, IH, acks_wire_cons, <-app_assoc by done.
Qed.

Lemma encode_eq p :
  packet_ok p ->
  encode p = [first_byte (op p) (key_id p)] ++ to_be 8 (session_id p) ++
             [Z.of_nat (length (acks p))] ++ acks_wire (acks p) ++
             remote_wire p ++ pid_wire p ++ payload p.
Proof.
  intros Hp. destruct Hp. unfold encode. fold (first_byte (op p) (key_id p)).
  rewrite (put_u8_law [] (first_byte _ _)), put_u64_law by auto using first_byte_ok.
  assert (uint_ok 8 (Z.of_nat (length (acks p)))) by (unfold uint_ok; lia).
  rewrite wrap_small, put_u8_law, fold_put_u32 by done.
  unfold remote_wire, pid_wire.
  destruct (acks p) as [|a l], (packet_id p), (remote_session_id p); simpl;
    rewrite ?put_u64_law, ?put_u32_law by (eauto || done);
    simpl; rewrite <-?app_assoc; simpl; rewrite <-?app_assoc; done.
Qed.

Lemma get_acks_wire l r :
  Forall (uint_ok 32) l -> get_acks (length l) (acks_wire l ++ r) = Ok (l, r).
Proof.
  induction 1 as [|a l Ha _ IH]; [done|]. cbn [length get_acks].
  rewrite acks_wire_cons, <-app_assoc, get_u32_to_be by done. simpl. by rewrite IH.
Qed.

Lemma get_acks_split n b :
  (n * 4 <= length b)%nat -> bytes_ok b ->
  exists l, get_acks n b = Ok (l, drop (n * 4) b) /\ length l = n /\ Forall (uint_ok 32) l /\
            acks_wire l = take (n * 4) b.
Proof.
  revert b. induction n as [|n IH]; intros b Hl Hb; [by exists []|].
  cbn [get_acks]. rewrite get_u32_split by (auto; lia). simpl.
  destruct (IH (drop 4 b)) as (l & -> & <- & Hl32 & Hw); [rewrite length_drop; lia|by apply Forall_drop|].
  exists (from_be (take 4 b) :: l). simpl. rewrite drop_drop. split_and!; [done..| |].
  - constructor; [|done]. apply from_be_u32; [rewrite length_take; lia|by apply Forall_take].
  - rewrite acks_wire_cons, Hw.
    pose proof (to_from_be (take 4 b) (Forall_take _ 4 b Hb)) as E.
    rewrite length_take, Nat.min_l in E by lia. rewrite E. apply take_take_drop.
Qed.

Lemma get_remote_wire p r :
  packet_ok p ->
  get_remote (Z.of_nat (length (acks p))) (remote_wire p ++ r) = Ok (remote_session_id p, r).
Proof.
  intros Hp. unfold get_remote, remote_wire. pose proof (pk_remote_some p Hp) as Hs.
  destruct (acks p) as [|a l]; simpl length.
  - simpl. by rewrite (proj2 Hs eq_refl).
  - destruct (remote_session_id p) as [sid|] eqn:Er; [|naive_solver].
    rewrite (proj2 (Z.ltb_lt _ _)) by lia. 
    guard_ok.
    rewrite get_u64_to_be; [done|]. by apply (pk_remote p Hp).
Qed.

Lemma get_packet_id_wire p r :
  packet_ok p -> get_packet_id (op p) (pid_wire p ++ r) = Ok (packet_id p, r).
Proof.
  intros Hp. unfold get_packet_id, pid_wire. pose proof (pk_pid_none p Hp) as Hs.
  destruct (packet_id p) as [i|] eqn:Ei.
  - rewrite bool_decide_eq_false_2 by (intros ?%Hs; done). cbn [negb]. guard_ok.
    rewrite get_u32_to_be; [done|]. by apply (pk_pid p Hp).
  - by rewrite bool_decide_eq_true_2 by by apply Hs.
Qed.

Lemma parse_encode_eq p : packet_ok p -> parse (encode p) = Ok p.
Proof.
  intros Hp. rewrite encode_eq by done. pose proof Hp as []. unfold parse.
  rewrite bool_decide_eq_false_2 by done. simpl app.
  rewrite get_u8_law by apply first_byte_ok. simpl.
  rewrite first_byte_op, from_u8_as_u8, first_byte_key. simpl. rewrite pk_control0. simpl.
  guard_ok.
  rewrite get_u64_to_be by done. simpl.
  rewrite get_u8_law by (unfold uint_ok; lia). simpl. rewrite Nat2Z.id.
  rewrite (proj2 (Nat.ltb_ge _ _)) by (rewrite length_app, length_acks_wire; lia).
  rewrite get_acks_wire by done. simpl.
  rewrite get_remote_wire by done. simpl. rewrite get_packet_id_wire by done. simpl.
  rewrite Z.mod_small by done. by destruct p.
Qed.

(** ** Parsing an arbitrary buffer *)

Lemma take_be_split n b :
  (n <= length b)%nat -> bytes_ok b -> to_be n (from_be (take n b)) ++ drop n b = b.
Proof.
  intros Hl Hb. pose proof (to_from_be (take n b) (Forall_take _ n b Hb)) as E.
  rewrite length_take, Nat.min_l in E by lia. by rewrite E, take_drop.
Qed.

Definition opt_wire (n : nat) (o : option Z) : bytes :=
  match o with Some v => to_be n v | None => [] end.

Lemma get_remote_cases c b :
  0 <= c -> bytes_ok b ->
  (exists e, get_remote c b = Err e) \/
  (exists r b', get_remote c b = Ok (r, b') /\ bytes_ok b' /\ (r = None <-> c = 0) /\
                (forall v, r = Some v -> u64_ok v) /\ b = opt_wire 8 r ++ b').
Proof.
  intros Hc Hb. unfold get_remote. destruct (Z.ltb_spec 0 c).
  - destruct (Nat.ltb_spec (length b) 8); [left; eauto|right].
    rewrite get_u64_split by done. eexists (Some _), _. split; [done|].
    split_and!; [by apply Forall_drop|naive_solver lia| |symmetry; by apply take_be_split].
    intros v [= <-]. apply from_be_u64; [rewrite length_take; lia|by apply Forall_take].
  - right. exists None, b. split_and!; [done..|naive_solver lia|done|done].
Qed.

Lemma get_packet_id_cases o b :
  bytes_ok b ->
  (exists e, get_packet_id o b = Err e) \/
  (exists i b', get_packet_id o b = Ok (i, b') /\ (i = None <-> o = AckV1) /\
                (forall v, i = Some v -> u32_ok v) /\ b = opt_wire 4 i ++ b').
Proof.
  intros Hb. unfold get_packet_id. case_bool_decide; cbn [negb].
  - right. exists None, b. by split_and!.
  - destruct (Nat.ltb_spec (length b) 4); [left; eauto|right].
    rewrite get_u32_split by done. eexists (Some _), _. split; [done|].
    split_and!; [naive_solver| |symmetry; by apply take_be_split].
    intros v [= <-]. apply from_be_u32; [rewrite length_take; lia|by apply Forall_take].
Qed.

(** The part of a packet after the ack count. *)
Lemma parse_tail_cases o k sid c b :
  u8_ok c -> bytes_ok b -> is_control o = true -> 0 <= k < 8 -> u64_ok sid ->
  let m := if (length b <? Z.to_nat c * 4)%nat then Err TruncatedAckArray else
           '(acks, b) ← get_acks (Z.to_nat c) b;
           '(remote, b) ← get_remote c b;
           '(pid, b) ← get_packet_id o b;
           Ok (MkControlPacket o k sid acks remote pid b) in
  (exists e, m = Err e) \/
  (exists p, m = Ok p /\ packet_ok p /\
             encode p = [first_byte o k] ++ to_be 8 sid ++ [c] ++ b).
Proof.
  intros Hc Hb Ho Hk Hsid m. unfold m, uint_ok in *.
  destruct (Nat.ltb_spec (length b) (Z.to_nat c * 4)) as [|Hlen]; [left; eauto|].
  destruct (get_acks_split (Z.to_nat c) b Hlen Hb) as (l & -> & Hl & Hl32 & Hw). simpl.
  destruct (get_remote_cases c (drop (Z.to_nat c * 4) b)) as [[e ->]|(r & b1 & -> & Hb1 & Hr & Hr64 & E1)];
    [lia|by apply Forall_drop|left; by exists e|]. simpl.
  destruct (get_packet_id_cases o b1 Hb1) as [[e ->]|(i & b2 & -> & Hi & Hi32 & E2)]; [left; by exists e|].
  right. simpl. eexists. split; [done|].
  assert (packet_ok (MkControlPacket o k sid l r i b2)) as Hok.
  { split; simpl; try done; [lia|]. rewrite Hr, <-length_zero_iff_nil. lia. }
  split; [done|]. rewrite encode_eq by done. unfold remote_wire, pid_wire. simpl.
  assert (Z.of_nat (length l) = c) as -> by lia. do 3 f_equal.
  transitivity (take (Z.to_nat c * 4) b ++ drop (Z.to_nat c * 4) b); [|apply take_drop].
  rewrite <-Hw, E1, E2. f_equal. f_equal.
  assert (l = [] <-> r = None) as Hlr by (rewrite Hr, <-length_zero_iff_nil; lia).
  destruct Hlr as [Hlr1 Hlr2], l as [|a l], r as [v|]; try done.
  - by specialize (Hlr1 eq_refl).
  - by specialize (Hlr2 eq_refl).
Qed.

Lemma parse_cases buf :
  bytes_ok buf ->
  (exists e, parse buf = Err e) \/
  (exists p, parse buf = Ok p /\ packet_ok p /\ encode p = buf).
Proof.
  intros Hbuf. unfold parse. case_bool_decide; [left; eauto|].
  destruct buf as [|f b]; [done|]. apply Forall_cons in Hbuf as [Hf Hb].
  rewrite get_u8_law by done. simpl.
  destruct (from_u8 (Z.shiftr f 3)) as [o|e| |] eqn:Eo; simpl; [|left; eauto|..].
  2-3: unfold from_u8 in Eo; repeat case_match; done.
  destruct (is_control o) eqn:Ec; simpl; [|left; eauto].
  destruct (Nat.ltb_spec (length b) 8); [left; eauto|].
  rewrite get_u64_split by done. simpl.
  destruct (drop 8 b) as [|c b2] eqn:E8; [left; eauto|]. guard_ok.
  assert (u8_ok c /\ bytes_ok b2) as [Hc Hb2] by (apply Forall_cons; rewrite <-E8; by apply Forall_drop).
  rewrite get_u8_law by done. simpl.
  destruct (parse_tail_cases o (Z.land f 7) (from_be (take 8 b)) c b2)
    as [[e He]|(p & Hp & Hok & Henc)]; [done..| | |left; by exists e|].
  - rewrite land7_mod. by apply Z.mod_pos_bound.
  - apply from_be_u64; [rewrite length_take; lia|by apply Forall_take].
  - right. exists p. split; [done|]. split; [done|]. rewrite Henc, <-(first_byte_split f o Hf Eo).
    change ([c] ++ b2) with (c :: b2). by rewrite <-E8, take_be_split by done.
Qed.

End laws.

(** ** Data packets *)

(** The 8-byte [P_DATA_V2] header. *)
Definition data_header (key_id peer_id packet_id : Z) : bytes :=
  first_byte DataV2 key_id :: to_be 3 peer_id ++ to_be 4 packet_id.

Lemma lor3_from_be b1 b2 b3 :
  u8_ok b1 -> u8_ok b2 -> u8_ok b3 ->
  Z.lor (Z.lor (Z.shiftl b1 16) (Z.shiftl b2 8)) b3 = from_be [b1; b2; b3].
Proof.
  unfold uint_ok. change (2 ^ 8) with 256. intros H1 H2 H3.
  replace (Z.shiftl b1 16) with (Z.shiftl (Z.shiftl b1 8) 8) by by rewrite Z.shiftl_shiftl.
  rewrite <-Z.shiftl_lor, !lor_shiftl_add by lia.
  rewrite !from_be_cons. cbn [length]. change (from_be []) with 0. lia.
Qed.

Lemma parse_data_v2_app b0 b1 b2 b3 b4 b5 b6 b7 ct :
  u8_ok b1 -> u8_ok b2 -> u8_ok b3 ->
  parse_data_v2 (b0 :: b1 :: b2 :: b3 :: b4 :: b5 :: b6 :: b7 :: ct) =
  if negb (Z.shiftr b0 3 =? 9) then Err (NotDataV2 (Z.shiftr b0 3))
  else Ok (MkDataPacketV2 (Z.land b0 7) (from_be [b1; b2; b3]) (from_be [b4; b5; b6; b7]) ct).
Proof.
  intros. unfold parse_data_v2. guard_ok. unfold index. simpl.
  case_match; [done|]. rewrite slice_from_ok by (simpl; lia). simpl.
  by rewrite lor3_from_be.
Qed.

Lemma length_ge_8 (buf : bytes) :
  (8 <= length buf)%nat ->
  exists b0 b1 b2 b3 b4 b5 b6 b7 ct, buf = b0 :: b1 :: b2 :: b3 :: b4 :: b5 :: b6 :: b7 :: ct.
Proof.
  intros H. do 8 (destruct buf as [|? buf]; [simpl in H; lia|]). eauto 20.
Qed.

Lemma parse_data_v2_header k peer pid ct :
  0 <= k < 8 -> 0 <= peer < 2 ^ 24 -> u32_ok pid ->
  parse_data_v2 (data_header k peer pid ++ ct) = Ok (MkDataPacketV2 k peer pid ct).
Proof.
  intros Hk Hpeer Hpid. unfold data_header.
  pose proof (length_to_be 3 peer) as L3. pose proof (to_be_ok 3 peer) as O3.
  pose proof (length_to_be 4 pid) as L4.
  pose proof (from_to_be 3 peer Hpeer) as F3. pose proof (from_to_be 4 pid Hpid) as F4.
  destruct (to_be 3 peer) as [|b1 [|b2 [|b3 [|]]]]; try done.
  destruct (to_be 4 pid) as [|b4 [|b5 [|b6 [|b7 [|]]]]]; try done.
  rewrite !Forall_cons in O3. destruct O3 as (O1 & O2 & O3 & _).
  simpl app. rewrite parse_data_v2_app, F3, F4, first_byte_op, first_byte_key by done.
  simpl. by rewrite Z.mod_small.
Qed.

Lemma parse_data_v2_exact (buf : bytes) :
  bytes_ok buf ->
  returns (parse_data_v2 buf) /\
  forall d, parse_data_v2 buf = Ok d <->
    0 <= d_key_id d < 8 /\ 0 <= d_peer_id d < 2 ^ 24 /\ u32_ok (d_packet_id d) /\
    buf = data_header (d_key_id d) (d_peer_id d) (d_packet_id d) ++ d_ciphertext d.
Proof.
  intros Hb. destruct (Nat.ltb_spec (length buf) 8) as [Hs|Hl].
  - assert (parse_data_v2 buf = Err DataV2TooShort) as E.
    { unfold parse_data_v2. by rewrite (proj2 (Nat.ltb_lt _ _)). }
    rewrite E. split; [done|]. intros d. split; [done|]. intros (_ & _ & _ & ->).
    rewrite length_app in Hs. unfold data_header in Hs. simpl in Hs.
    rewrite length_app, !length_to_be in Hs. lia.
  - destruct (length_ge_8 buf Hl) as (b0&b1&b2&b3&b4&b5&b6&b7&ct&->).
    rewrite !Forall_cons in Hb. destruct Hb as (H0&H1&H2&H3&H4&H5&H6&H7&_).
    split.
    + rewrite parse_data_v2_app by done. by case_match.
    + intros d. split.
      * rewrite parse_data_v2_app by done. destruct (Z.eqb_spec (Z.shiftr b0 3) 9) as [E9|]; [|done].
        intros [= <-]. simpl. rewrite land7_mod.
        assert (bytes_ok [b1; b2; b3]) as O3 by (rewrite !Forall_cons; auto).
        assert (bytes_ok [b4; b5; b6; b7]) as O4 by (rewrite !Forall_cons; auto).
        split_and!; try by apply Z.mod_pos_bound.
        1-2: by apply (from_be_bound _ O3). 1: by apply from_be_u32.
        pose proof (to_from_be _ O3) as E3. pose proof (to_from_be _ O4) as E4. simpl length in E3, E4.
        unfold data_header. rewrite E3, E4, <-land7_mod.
        by rewrite <-(first_byte_split b0 DataV2) by (done || by rewrite E9).
      * intros (Hk & Hp & Hi & ->). rewrite parse_data_v2_header by done. by destruct d.
Qed.

(** ** Claims *)

(** C32: encoding a control packet that fits the wire format (3-bit key id, at
    most 255 acks, a remote session id exactly when there are acks, a packet id
    exactly when it is not a [P_ACK_V1]) and parsing the bytes gives the packet
    back. *)
Theorem control_packet_roundtrip {B : BufApi} {BL : BufLaws B} (p : ControlPacket) :
  packet_ok p -> parse (encode p) = Ok p.
Proof. apply parse_encode_eq. Qed.

Lemma control_packet_roundtrip_witness :
  let p := MkControlPacket ControlV1 3 0xDEADBEEFCAFEF00D [1; 2; 3] (Some 0x1122334455667788)
             (Some 0x4242) [0xDE; 0xAD] in
  parse (encode p) = Ok p.
Proof.
  intros p. apply (control_packet_roundtrip p).
  split; simpl; try done; try lia; try (repeat constructor; done); by intros ? [= <-].
Defined.

(** C33: whatever bytes arrive, [ControlPacket::parse] returns (it does not panic), and when
    it accepts a buffer the packet it returns is well formed and re-encodes to
    exactly that buffer (no byte is dropped, invented or read past the end). *)
Theorem control_packet_parse_sound {B : BufApi} {BL : BufLaws B} (buf : bytes) :
  bytes_ok buf ->
  returns (parse buf) /\ forall p, parse buf = Ok p -> packet_ok p /\ encode p = buf.
Proof.
  intros Hb. destruct (parse_cases buf Hb) as [[e He]|(p & Hp & Hok & Henc)].
  - rewrite He. split; [done|]. intros p [=].
  - rewrite Hp. split; [done|]. by intros p' [= <-].
Qed.

Lemma control_packet_parse_sound_witness :
  exists p, parse [0x38; 1; 2; 3; 4; 5; 6; 7; 8; 0; 0; 0; 0; 0] = Ok p /\ packet_ok p.
Proof.
  eexists. split; [reflexivity|].
  apply (control_packet_parse_sound [0x38; 1; 2; 3; 4; 5; 6; 7; 8; 0; 0; 0; 0; 0]).
  - repeat constructor; done.
  - reflexivity.
Defined.

(** [DataPacketV2::parse] accepts exactly the buffers that start with a
    [P_DATA_V2] header: it never panics, and it returns [d] if and only if the
    buffer is the header of [d]'s fields (3-bit key id, 24-bit peer id, 32-bit
    packet id, big-endian) followed by [d]'s ciphertext. *)
Theorem data_packet_parse_exact (buf : bytes) :
  bytes_ok buf ->
  returns (parse_data_v2 buf) /\
  forall d, parse_data_v2 buf = Ok d <->
    0 <= d_key_id d < 8 /\ 0 <= d_peer_id d < 2 ^ 24 /\ u32_ok (d_packet_id d) /\
    buf = data_header (d_key_id d) (d_peer_id d) (d_packet_id d) ++ d_ciphertext d.
Proof. apply parse_data_v2_exact. Qed.

Lemma data_packet_parse_exact_witness :
  parse_data_v2 [0x48; 0x00; 0x12; 0x34; 0; 0; 0; 7; 1; 2; 3; 4]
  = Ok (MkDataPacketV2 0 0x1234 7 [1; 2; 3; 4]).
Proof.
  apply (data_packet_parse_exact [0x48; 0x00; 0x12; 0x34; 0; 0; 0; 7; 1; 2; 3; 4]).
  - repeat constructor; done.
  - split_and!; done.
Defined.

End Protocol.
