(* ===== verification/Utf8.v ===== *)
(** * UTF-8 text (the part of Rust's standard library the control channel uses)

    Rust strings are modelled by their UTF-8 bytes.  [from_utf8_lossy] follows
    [String::from_utf8_lossy]: it copies well-formed characters and replaces
    each maximal ill-formed subsequence by U+FFFD. *)

From S2P Require Import Prelude.

Module Utf8.

(** [safe_get]: the byte at an index, 0 past the end. *)
Definition safe_get (s : bytes) (i : nat) : Z := default 0 (s !! i).
Definition is_cont (b : Z) : bool := Z.land b 192 =? 128.
Definition between (lo hi b : Z) : bool := (lo <=? b) && (b <=? hi).

Definition utf8_char_width (b : Z) : nat :=
  if b <? 0x80 then 1
  else if between 0xC2 0xDF b then 2
  else if between 0xE0 0xEF b then 3
  else if between 0xF0 0xF4 b then 4
  else 0.

(** The admissible second bytes of three- and four-byte characters. *)
Definition second_ok3 (b c : Z) : bool :=
  if b =? 0xE0 then between 0xA0 0xBF c
  else if b =? 0xED then between 0x80 0x9F c
  else between 0x80 0xBF c.
Definition second_ok4 (b c : Z) : bool :=
  if b =? 0xF0 then between 0x90 0xBF c
  else if b =? 0xF4 then between 0x80 0x8F c
  else between 0x80 0xBF c.

(** Scan one character: is it well formed, and how many bytes it takes (for an
    ill-formed one, the length of the subsequence to replace). *)
Definition scan_char (b : Z) (rest : bytes) : bool * nat :=
  match utf8_char_width b with
  | 1%nat => (true, 1%nat)
  | 2%nat => if is_cont (safe_get rest 0) then (true, 2%nat) else (false, 1%nat)
  | 3%nat =>
    if second_ok3 b (safe_get rest 0) then
      if is_cont (safe_get rest 1) then (true, 3%nat) else (false, 2%nat)
    else (false, 1%nat)
  | 4%nat =>
    if second_ok4 b (safe_get rest 0) then
      if is_cont (safe_get rest 1) then
        if is_cont (safe_get rest 2) then (true, 4%nat) else (false, 3%nat)
      else (false, 2%nat)
    else (false, 1%nat)
  | _ => (false, 1%nat)
  end.

Definition REPLACEMENT : bytes := [0xEF; 0xBF; 0xBD].

(** Every character consumes at least one byte, so the length is enough fuel. *)
Fixpoint lossy (fuel : nat) (s : bytes) : bytes :=
  match fuel, s with
  | S fuel', b :: rest =>
    let '(ok, n) := scan_char b rest in
    (if ok then take n s else REPLACEMENT) ++ lossy fuel' (drop n s)
  | _, _ => []
  end.
Definition from_utf8_lossy (s : bytes) : bytes := lossy (length s) s.

(** A byte string that is a Rust [str]. *)
Fixpoint valid (fuel : nat) (s : bytes) : bool :=
  match fuel, s with
  | S fuel', b :: rest =>
    let '(ok, n) := scan_char b rest in ok && valid fuel' (drop n s)
  | _, [] => true
  | O, _ :: _ => false
  end.
Definition valid_utf8 (s : bytes) : bool := valid (length s) s.

(** [format!("{}", n)] for an unsigned integer. *)
Definition show (n : Z) : bytes := str (pretty n).

Lemma scan_char_pos b rest : (1 <= (scan_char b rest).2)%nat.
Proof. unfold scan_char. repeat case_match; simpl; lia. Qed.

Lemma valid_lossy fuel s : valid fuel s = true -> lossy fuel s = s.
Proof.
  revert s. induction fuel as [|fuel IH]; intros [|b rest]; simpl; try done.
  destruct (scan_char b rest) as [ok n]. intros [-> Hv]%andb_true_iff.
  by rewrite IH, take_drop.
Qed.

Lemma from_utf8_lossy_valid s : valid_utf8 s = true -> from_utf8_lossy s = s.
Proof. apply valid_lossy. Qed.

Lemma valid_ascii s : Forall (fun b => b < 128) s -> valid_utf8 s = true.
Proof.
  unfold valid_utf8. induction 1 as [|b s Hb _ IH]; [done|]. simpl.
  unfold scan_char, utf8_char_width. rewrite (proj2 (Z.ltb_lt _ _)) by lia. simpl.
  by rewrite drop_0.
Qed.

End Utf8.
