(* ===== verification/ControlChannel.v ===== *)
(** * Messages inside the TLS stream (src/src/control_channel.rs)

    The key-method-2 packets, the NUL-terminated ASCII messages and the
    length-prefixed strings.  The theorems are about streaming: a message is
    recognised at the same byte whatever the fragmentation, parsing never
    panics, and the encoder's strings read back. *)

From S2P Require Import Prelude Utf8.

Module ControlChannel.

Definition KEY_METHOD_2 : Z := 2.
Definition PRE_MASTER_LEN : nat := 48.
Definition RANDOM_LEN : nat := 32.

(** [Pop<T>]. *)
Inductive Pop (T : Type) : Type :=
  | Ready (v : T) (n : nat)
  | NeedMore.
Arguments Ready {T} v n.
Arguments NeedMore {T}.

Record ClientKeyMethod2 := MkClientKeyMethod2 {
  pre_master : bytes;   (* [u8; 48] *)
  random1 : bytes;      (* [u8; 32] *)
  random2 : bytes;      (* [u8; 32] *)
  options : bytes;
  username : bytes;
  password : bytes;
  peer_info : bytes;
}.

(** The returned offset is the value of [*off] afterwards. *)
Definition read_lp_string (buf : bytes) (off : nat) : result (option bytes * nat) :=
  if (length buf <? off + 2)%nat then Ok (None, off) else
  b0 ← index buf off;
  b1 ← index buf (off + 1);
  let len := Z.to_nat (from_be [b0; b1]) in
  if (length buf <? off + 2 + len)%nat then Ok (None, off) else
  let start := (off + 2)%nat in
  let stop := (start + len)%nat in
  if (len =? 0)%nat then Ok (Some [], stop) else
  bs ← slice buf start stop;
  text ← (if bool_decide (last bs = Some 0) then slice bs 0 (length bs - 1) else Ok bs);
  Ok (Some (Utf8.from_utf8_lossy text), stop).

(** [match read_lp_string(buf, &mut off)? { Some(s) => s, None => return Ok(NeedMore) }]. *)
Definition pop_lp {T} (buf : bytes) (off : nat) (k : bytes -> nat -> result (Pop T)) : result (Pop T) :=
  '(o, off) ← read_lp_string buf off;
  match o with
  | Some s => k s off
  | None => Ok NeedMore
  end.

Definition try_parse (buf : bytes) : result (Pop ClientKeyMethod2) :=
  if (length buf <? 117)%nat then Ok NeedMore else
  zeros ← slice buf 0 4;
  if negb (bool_decide (zeros = [0; 0; 0; 0])) then Err ExpectedZeroBytes else
  km ← index buf 4;
  if negb (km =? KEY_METHOD_2) then Err (UnsupportedKeyMethod km) else
  pre_master ← slice buf 5 (5 + PRE_MASTER_LEN);
  random1 ← slice buf 53 (53 + RANDOM_LEN);
  random2 ← slice buf 85 (85 + RANDOM_LEN);
  pop_lp buf 117 (fun options off =>
  pop_lp buf off (fun username off =>
  pop_lp buf off (fun password off =>
  pop_lp buf off (fun peer_info off =>
  Ok (Ready (MkClientKeyMethod2 pre_master random1 random2 options username password peer_info) off))))).

Record ServerKeyMethod2 := MkServerKeyMethod2 {
  s_random1 : bytes;
  s_random2 : bytes;
  s_options : bytes;
  s_username : bytes;
  s_password : bytes;
  s_peer_info : bytes;
}.

(** [len as u16] keeps the low 16 bits of the length. *)
Definition write_lp_string (out : bytes) (s : bytes) : bytes :=
  let len := (length s + 1)%nat in
  let out := out ++ to_be 2 (wrap 16 (Z.of_nat len)) in
  let out := out ++ s in
  out ++ [0].

Definition encode (km : ServerKeyMethod2) : bytes :=
  let out := [] ++ [0; 0; 0; 0] in
  let out := out ++ [KEY_METHOD_2] in
  let out := out ++ s_random1 km in
  let out := out ++ s_random2 km in
  let out := write_lp_string out (s_options km) in
  let out := write_lp_string out (s_username km) in
  let out := write_lp_string out (s_password km) in
  write_lp_string out (s_peer_info km).

(** [buf.iter().position(|&b| b == 0)]. *)
Fixpoint position_nul (buf : bytes) : option nat :=
  match buf with
  | [] => None
  | b :: rest => if b =? 0 then Some 0%nat else S <$> position_nul rest
  end.

Definition try_pop_ascii (buf : bytes) : Pop bytes :=
  match position_nul buf with
  | Some idx => Ready (Utf8.from_utf8_lossy (take idx buf)) (idx + 1)
  | None => NeedMore
  end.

Definition build_options_string (link_mtu tun_mtu : Z) : bytes :=
  str "V4,dev-type tun,link-mtu " ++ Utf8.show link_mtu ++ str ",tun-mtu " ++ Utf8.show tun_mtu ++
  str ",proto UDPv4,cipher AES-256-GCM,auth SHA256,keysize 256,key-method 2,tls-server".

(** [IvProto]: the bit each flag stands for. *)
Definition REQUEST_PUSH : Z := Z.shiftl 1 2.
Definition TLS_KEY_EXPORT : Z := Z.shiftl 1 3.
Definition AUTH_PENDING_KW : Z := Z.shiftl 1 4.
Definition NCP_P2P : Z := Z.shiftl 1 5.
Definition DNS_OPTION : Z := Z.shiftl 1 6.
Definition CC_EXIT_NOTIFY : Z := Z.shiftl 1 7.

Definition newline : bytes := [10].

Definition build_peer_info : bytes :=
  let proto := Z.lor REQUEST_PUSH CC_EXIT_NOTIFY in
  str "IV_VER=javs-0.1.0" ++ newline ++ str "IV_PLAT=server" ++ newline ++
  str "IV_PROTO=" ++ Utf8.show proto ++ newline ++ str "IV_CIPHERS=AES-256-GCM" ++ newline.

(** ** Reading length-prefixed strings *)

(** What the reader sees at the current offset: the text and the number of
    bytes consumed, when the string is complete. *)
Definition lp_text (bs : bytes) : bytes :=
  Utf8.from_utf8_lossy (if bool_decide (last bs = Some 0) then take (length bs - 1) bs else bs).

Definition lp_view (rest : bytes) : option (bytes * nat) :=
  match rest with
  | b0 :: b1 :: body =>
    let len := Z.to_nat (from_be [b0; b1]) in
    if (length body <? len)%nat then None else Some (lp_text (take len body), (2 + len)%nat)
  | _ => None
  end.

(** [k] strings in a row. *)
Fixpoint lp_views (k : nat) (rest : bytes) : option (list bytes * nat) :=
  match k with
  | O => Some ([], 0%nat)
  | S k' =>
    match lp_view rest with
    | None => None
    | Some (s, n) =>
      match lp_views k' (drop n rest) with
      | None => None
      | Some (ss, n') => Some (s :: ss, (n + n')%nat)
      end
    end
  end.

Lemma read_lp_view buf off :
  read_lp_string buf off =
  Ok (match lp_view (drop off buf) with
      | Some (s, n) => (Some s, (off + n)%nat)
      | None => (None, off)
      end).
Proof.
  unfold read_lp_string. destruct (drop off buf) as [|b0 [|b1 body]] eqn:E;
    apply (f_equal length) in E as EL; rewrite length_drop in EL; cbn [length] in EL.
  1,2: by rewrite (proj2 (Nat.ltb_lt _ _)) by lia.
  rewrite (proj2 (Nat.ltb_ge _ _)) by lia.
  assert (buf !! off = Some b0) as H0 by (rewrite <-(Nat.add_0_r off), <-lookup_drop, E; done).
  assert (buf !! (off + 1)%nat = Some b1) as H1 by (by rewrite <-lookup_drop, E).
  rewrite (index_ok _ _ _ H0), (index_ok _ _ _ H1). simpl.
  set (len := Z.to_nat (from_be [b0; b1])). rewrite <-(Nat.add_assoc off 2 len).
  destruct (Nat.ltb_spec (length body) len); [by rewrite (proj2 (Nat.ltb_lt _ _)) by lia|].
  rewrite (proj2 (Nat.ltb_ge _ _)) by lia.
  destruct (Nat.eqb_spec len 0) as [->|Hne].
  { by rewrite take_0. }
  rewrite slice_ok by lia. replace (drop (off + 2) buf) with body.
  2: { by rewrite <-drop_drop, E. }
  replace (off + (2 + len) - (off + 2))%nat with len by lia. simpl.
  unfold lp_text. case_bool_decide; [|done].
  rewrite slice_ok by lia. simpl. by rewrite drop_0, Nat.sub_0_r.
Qed.

Lemma pop_lp_view {T} buf off (k : bytes -> nat -> result (Pop T)) :
  pop_lp buf off k = match lp_view (drop off buf) with
                     | Some (s, n) => k s (off + n)%nat
                     | None => Ok NeedMore
                     end.
Proof. unfold pop_lp. rewrite read_lp_view. by destruct (lp_view _) as [[]|]. Qed.

(** A complete string stays complete, with the same text, when more bytes
    arrive; and no shorter prefix was complete. *)
Lemma lp_view_app rest more s n :
  lp_view rest = Some (s, n) ->
  lp_view (rest ++ more) = Some (s, n) /\ (2 <= n <= length rest)%nat.
Proof.
  destruct rest as [|b0 [|b1 body]]; [done..|]. simpl.
  set (len := Z.to_nat (from_be [b0; b1])).
  destruct (Nat.ltb_spec (length body) len); [done|]. intros [= <- <-].
  rewrite (proj2 (Nat.ltb_ge _ _)) by (rewrite length_app; lia).
  rewrite take_app_le by lia. split; [done|lia].
Qed.

Lemma lp_view_prefix rest s n m :
  lp_view rest = Some (s, n) -> (m < n)%nat -> lp_view (take m rest) = None.
Proof.
  destruct rest as [|b0 [|b1 body]]; [done..|]. simpl.
  set (len := Z.to_nat (from_be [b0; b1])).
  destruct (Nat.ltb_spec (length body) len); [done|]. intros [= <- <-] Hm.
  destruct m as [|[|m]]; [done..|]. simpl. fold len.
  by rewrite (proj2 (Nat.ltb_lt _ _)) by (rewrite length_take; lia).
Qed.

Lemma lp_view_take rest s n m :
  lp_view rest = Some (s, n) -> (n <= m)%nat -> lp_view (take m rest) = Some (s, n).
Proof.
  destruct rest as [|b0 [|b1 body]]; [done..|]. simpl.
  set (len := Z.to_nat (from_be [b0; b1])).
  destruct (Nat.ltb_spec (length body) len); [done|]. intros [= <- <-] Hm.
  destruct m as [|[|m]]; [lia..|]. simpl. fold len.
  rewrite (proj2 (Nat.ltb_ge _ _)) by (rewrite length_take; lia).
  rewrite take_take, Nat.min_l by lia. done.
Qed.

Lemma lp_views_app k rest more ss n :
  lp_views k rest = Some (ss, n) ->
  lp_views k (rest ++ more) = Some (ss, n) /\ (2 * k <= n <= length rest)%nat /\ length ss = k.
Proof.
  revert rest ss n. induction k as [|k IH]; intros rest ss n; simpl.
  { intros [= <- <-]. split; [done|]. simpl. lia. }
  destruct (lp_view rest) as [[s n1]|] eqn:E1; [|done].
  destruct (lp_views k (drop n1 rest)) as [[ss1 n2]|] eqn:E2; [|done]. intros [= <- <-].
  destruct (lp_view_app rest more s n1 E1) as [-> ?].
  destruct (IH _ _ _ E2) as (IH1 & IH2 & <-).
  rewrite drop_app_le, IH1 by lia. rewrite length_drop in IH2. split; [done|]. simpl. lia.
Qed.

Lemma lp_views_prefix k rest ss n m :
  lp_views k rest = Some (ss, n) -> (m < n)%nat -> lp_views k (take m rest) = None.
Proof.
  revert rest ss n m. induction k as [|k IH]; intros rest ss n m; simpl.
  { intros [= <- <-]. lia. }
  destruct (lp_view rest) as [[s n1]|] eqn:E1; [|done].
  destruct (lp_views k (drop n1 rest)) as [[ss1 n2]|] eqn:E2; [|done]. intros [= <- <-] Hm.
  destruct (Nat.lt_ge_cases m n1) as [Hlt|Hge].
  - by rewrite (lp_view_prefix rest s n1 m E1 Hlt).
  - rewrite (lp_view_take rest s n1 m E1 Hge).
    rewrite skipn_firstn_comm, (IH _ _ _ (m - n1)%nat E2) by lia. done.
Qed.

(** ** Writing strings and reading them back *)

(** A string the length prefix can describe. *)
Definition lp_fits (s : bytes) : Prop :=
  Utf8.valid_utf8 s = true /\ Z.of_nat (length s) + 1 < 2 ^ 16.

(** The bytes [write_lp_string] appends. *)
Definition lp_wire (s : bytes) : bytes := to_be 2 (Z.of_nat (length s + 1)) ++ s ++ [0].

Lemma write_lp_eq out s : lp_fits s -> write_lp_string out s = out ++ lp_wire s.
Proof.
  intros [_ Hs]. unfold write_lp_string, lp_wire.
  rewrite wrap_small by (unfold uint_ok; lia). by rewrite <-!app_assoc.
Qed.

Lemma length_lp_wire s : length (lp_wire s) = (length s + 3)%nat.
Proof. unfold lp_wire. rewrite !length_app, length_to_be. simpl. lia. Qed.

Lemma lp_view_wire s more :
  lp_fits s -> lp_view (lp_wire s ++ more) = Some (s, length (lp_wire s)).
Proof.
  intros [Hv Hs]. rewrite length_lp_wire. unfold lp_wire. rewrite <-!app_assoc.
  pose proof (length_to_be 2 (Z.of_nat (length s + 1))) as L.
  pose proof (from_to_be 2 (Z.of_nat (length s + 1)) ltac:(lia)) as F.
  destruct (to_be 2 _) as [|b0 [|b1 [|]]]; try done. simpl. rewrite F, Nat2Z.id.
  rewrite (proj2 (Nat.ltb_ge _ _)) by (rewrite length_app; simpl; lia).
  rewrite (cons_middle 0), app_assoc, take_app_length' by (rewrite length_app; simpl; lia).
  unfold lp_text. rewrite last_snoc, bool_decide_eq_true_2 by done.
  rewrite length_app. simpl. rewrite take_app_length' by lia.
  rewrite Utf8.from_utf8_lossy_valid by done. do 2 f_equal. lia.
Qed.

Lemma lp_views_wire ss more :
  Forall lp_fits ss ->
  lp_views (length ss) (concat (lp_wire <$> ss) ++ more) = Some (ss, length (concat (lp_wire <$> ss))).
Proof.
  induction 1 as [|s ss Hs _ IH]; [done|]. cbn [length lp_views].
  change (concat (lp_wire <$> s :: ss)) with (lp_wire s ++ concat (lp_wire <$> ss)).
  rewrite <-app_assoc, lp_view_wire, drop_app_length, IH, length_app by done. done.
Qed.

Lemma read_lp_wire pre s more :
  lp_fits s ->
  read_lp_string (pre ++ lp_wire s ++ more) (length pre) =
  Ok (Some s, (length pre + length (lp_wire s))%nat).
Proof. intros. by rewrite read_lp_view, drop_app_length, lp_view_wire. Qed.

(** [try_parse] on a buffer that holds the fixed part. *)
Definition km2_of (buf : bytes) (v : option (list bytes * nat)) : Pop ClientKeyMethod2 :=
  match v with
  | Some ([o; u; p; i], n) =>
    Ready (MkClientKeyMethod2 (take 48 (drop 5 buf)) (take 32 (drop 53 buf)) (take 32 (drop 85 buf))
             o u p i) (117 + n)
  | _ => NeedMore
  end.

Lemma try_parse_view buf :
  (117 <= length buf)%nat ->
  try_parse buf =
  (if negb (bool_decide (take 4 buf = [0; 0; 0; 0])) then Err ExpectedZeroBytes else
   km ← index buf 4;
   if negb (km =? KEY_METHOD_2) then Err (UnsupportedKeyMethod km) else
   Ok (km2_of buf (lp_views 4 (drop 117 buf)))).
Proof.
  intros Hl. unfold try_parse. guard_ok. rewrite !slice_ok by (unfold PRE_MASTER_LEN, RANDOM_LEN; lia).
  simpl. rewrite drop_0. case_match; [done|]. destruct (index buf 4); simpl; [|done..].
  case_match; [done|]. unfold PRE_MASTER_LEN, RANDOM_LEN. simpl.
  rewrite !pop_lp_view. destruct (lp_view (drop 117 buf)) as [[o n1]|]; [|done].
  rewrite drop_drop, pop_lp_view. destruct (lp_view (drop (117 + n1) buf)) as [[u n2]|]; [|done].
  rewrite drop_drop, pop_lp_view.
  replace (117 + (n1 + n2))%nat with (117 + n1 + n2)%nat by lia.
  destruct (lp_view (drop (117 + n1 + n2) buf)) as [[w n3]|]; [|done].
  rewrite drop_drop, pop_lp_view.
  replace (117 + (n1 + (n2 + n3)))%nat with (117 + n1 + n2 + n3)%nat by lia.
  destruct (lp_view (drop (117 + n1 + n2 + n3) buf)) as [[i n4]|]; [|done].
  unfold km2_of. do 2 f_equal. lia.
Qed.

Lemma take_drop_app_le {A} (buf more : list A) n m :
  (m + n <= length buf)%nat -> take n (drop m (buf ++ more)) = take n (drop m buf).
Proof. intros. rewrite drop_app_le, take_app_le by (rewrite ?length_drop; lia). done. Qed.

Lemma try_parse_app buf more :
  (117 <= length buf)%nat ->
  try_parse (buf ++ more) =
  (if negb (bool_decide (take 4 buf = [0; 0; 0; 0])) then Err ExpectedZeroBytes else
   km ← index buf 4;
   if negb (km =? KEY_METHOD_2) then Err (UnsupportedKeyMethod km) else
   Ok (km2_of buf (lp_views 4 (drop 117 buf ++ more)))).
Proof.
  intros Hl. rewrite try_parse_view by (rewrite length_app; lia).
  unfold index, km2_of. rewrite take_app_le, lookup_app_l, !take_drop_app_le, drop_app_le by lia.
  done.
Qed.

Lemma try_parse_ready_inv buf km n :
  try_parse buf = Ok (Ready km n) ->
  (117 <= length buf)%nat /\ take 4 buf = [0; 0; 0; 0] /\ index buf 4 = Ok KEY_METHOD_2 /\
  exists ss k, lp_views 4 (drop 117 buf) = Some (ss, k) /\ n = (117 + k)%nat /\
               km2_of buf (Some (ss, k)) = Ready km n.
Proof.
  intros H. destruct (Nat.ltb_spec (length buf) 117) as [Hs|Hl].
  { unfold try_parse in H. by rewrite (proj2 (Nat.ltb_lt _ _)) in H. }
  rewrite try_parse_view in H by done.
  destruct (bool_decide_reflect (take 4 buf = [0; 0; 0; 0])); rsimp in H; [|done].
  destruct (index buf 4) as [b'| | |] eqn:Eb; rsimp in H; [|done..].
  destruct (Z.eqb_spec b' KEY_METHOD_2) as [Hb|]; rsimp in H; [subst b'|done].
  destruct (lp_views 4 (drop 117 buf)) as [[ss k]|] eqn:E; [|done].
  injection H as H. split_and!; [done..|]. exists ss, k. split; [done|]. split; [|done].
  unfold km2_of in H. repeat case_match; by simplify_eq.
Qed.

Lemma try_parse_ready_bound buf km n :
  try_parse buf = Ok (Ready km n) -> (117 <= n <= length buf)%nat.
Proof.
  intros H. destruct (try_parse_ready_inv buf km n H) as (Hl & _ & _ & ss & k & Hv & -> & _).
  destruct (lp_views_app _ _ [] _ _ Hv) as (_ & Hn & _). rewrite length_drop in Hn. lia.
Qed.

Lemma try_parse_returns buf : returns (try_parse buf).
Proof.
  destruct (Nat.ltb_spec (length buf) 117) as [Hs|Hl].
  { unfold try_parse. by rewrite (proj2 (Nat.ltb_lt _ _)). }
  rewrite try_parse_view by done. destruct (index_lt buf 4) as (b & -> & _); [lia|]. rsimp.
  destruct (negb (bool_decide _)); [done|]. by destruct (negb (b =? _)).
Qed.

Lemma try_pop_ascii_bound buf msg n :
  try_pop_ascii buf = Ready msg n -> (1 <= n <= length buf)%nat.
Proof.
  unfold try_pop_ascii. destruct (position_nul buf) as [i|] eqn:E; [|done]. intros [= _ <-].
  revert i E. induction buf as [|b buf IH]; intros i; cbn [position_nul]; [done|].
  destruct (b =? 0); [intros [= <-]; simpl; lia|].
  intros (j & Hj & ->)%fmap_Some. specialize (IH j Hj). simpl. lia.
Qed.

(** ** Claims *)

(** C34: key-method-2 parsing does not depend on how TLS fragments the stream.
    Once [try_parse] recognises a packet ending at byte [n], it gives the same
    packet and the same [n] on every longer buffer, and asked for more bytes
    ([NeedMore]) on every prefix shorter than [n]. *)
Theorem km2_parse_streaming (buf more : bytes) (km : ClientKeyMethod2) (n : nat) :
  try_parse buf = Ok (Ready km n) ->
  (125 <= n <= length buf)%nat /\
  try_parse (buf ++ more) = Ok (Ready km n) /\
  forall m, (m < n)%nat -> try_parse (take m buf) = Ok NeedMore.
Proof.
  intros H. pose proof (try_parse_ready_inv buf km n H) as (Hl & Hz & Hk & ss & k & Hv & -> & Hkm).
  destruct (lp_views_app _ _ more _ _ Hv) as (Happ & Hn & _). rewrite length_drop in Hn.
  split; [lia|]. split.
  - rewrite try_parse_app by done. rewrite bool_decide_eq_true_2 by done.
    rewrite Hk, Happ, Hkm. done.
  - intros m Hm. destruct (Nat.lt_ge_cases m 117) as [Hs|Hge].
    { unfold try_parse. by rewrite (proj2 (Nat.ltb_lt _ _)) by (rewrite length_take; lia). }
    rewrite try_parse_view by (rewrite length_take; lia). unfold index.
    rewrite take_take, lookup_take_lt, Nat.min_l by lia.
    rewrite bool_decide_eq_true_2 by done. unfold index in Hk. rewrite Hk.
    by rewrite skipn_firstn_comm, (lp_views_prefix _ _ _ _ _ Hv) by lia.
Qed.

(** [try_parse] never panics, and a rejection is final: a buffer rejected
    with an error is rejected with the same error however much follows. *)
Theorem km2_parse_no_panic (buf more : bytes) :
  returns (try_parse buf) /\
  forall e, try_parse buf = Err e -> try_parse (buf ++ more) = Err e.
Proof.
  destruct (Nat.ltb_spec (length buf) 117) as [Hs|Hl].
  { unfold try_parse at 1 2. by rewrite (proj2 (Nat.ltb_lt _ _)). }
  rewrite try_parse_app, try_parse_view by done.
  destruct (index_lt buf 4) as (b & -> & _); [lia|]. rsimp.
  destruct (negb (bool_decide _)); [done|]. by destruct (negb (b =? _)).
Qed.

Lemma km2_parse_streaming_witness :
  let buf := [0; 0; 0; 0; 2] ++ replicate 112 7 ++ [0; 2; 65; 0; 0; 0; 0; 0; 0; 0] in
  exists km, try_parse (buf ++ [80; 85]) = Ok (Ready km 127).
Proof.
  intros buf. eexists.
  refine (proj1 (proj2 (km2_parse_streaming buf [80; 85] _ 127 _))). vm_compute. reflexivity.
Defined.

(** The client's key-method-2 packet on the wire (the layout [try_parse]
    documents): four zero bytes, the method, the fixed-size fields and four
    length-prefixed strings. *)
Definition client_wire (km : ClientKeyMethod2) : bytes :=
  [0; 0; 0; 0] ++ [KEY_METHOD_2] ++ pre_master km ++ random1 km ++ random2 km ++
  concat (lp_wire <$> [options km; username km; password km; peer_info km]).

Record km2_ok (km : ClientKeyMethod2) : Prop := {
  km_pre_master : length (pre_master km) = PRE_MASTER_LEN;
  km_random1 : length (random1 km) = RANDOM_LEN;
  km_random2 : length (random2 km) = RANDOM_LEN;
  km_strings : Forall lp_fits [options km; username km; password km; peer_info km];
}.

(** Every key-method-2 packet a client can send (fields of the right size,
    strings the 16-bit length can describe) is parsed back field by field, and
    the bytes after it stay in the buffer. *)
Theorem km2_client_roundtrip (km : ClientKeyMethod2) (more : bytes) :
  km2_ok km ->
  try_parse (client_wire km ++ more) = Ok (Ready km (length (client_wire km))).
Proof.
  intros [Hp H1 H2 Hs]. unfold PRE_MASTER_LEN, RANDOM_LEN in *.
  pose proof (lp_views_wire _ more Hs) as Hv. unfold client_wire.
  set (strs := concat _) in *. rewrite (app_assoc [0; 0; 0; 0]).
  set (h := [0; 0; 0; 0] ++ [KEY_METHOD_2]).
  assert (length (h ++ pre_master km ++ random1 km ++ random2 km ++ strs) = (117 + length strs)%nat)
    as -> by (rewrite !length_app, Hp, H1, H2; simpl; lia).
  rewrite <-!app_assoc.
  rewrite try_parse_view by (rewrite !length_app, Hp, H1, H2; simpl; lia).
  rewrite bool_decide_eq_true_2 by done. unfold index. rewrite lookup_app_l by (simpl; lia).
  simpl lookup. unfold unwrap_opt. rsimp. rewrite Z.eqb_refl. rsimp. unfold km2_of.
  rewrite !(take_drop_mid h) by done.
  rewrite !(app_assoc h), !(take_drop_mid (h ++ pre_master km)) by (rewrite ?length_app, ?Hp; done).
  rewrite !(app_assoc (h ++ pre_master km)),
    !(take_drop_mid ((h ++ pre_master km) ++ random1 km)) by (rewrite ?length_app, ?Hp, ?H1; done).
  rewrite (app_assoc _ (random2 km)).
  rewrite drop_app_length' by (rewrite !length_app, Hp, H1, H2; done).
  simpl length in Hv. rewrite Hv. by destruct km.
Qed.

Lemma km2_client_roundtrip_witness :
  let km := MkClientKeyMethod2 (replicate 48 0xAB) (replicate 32 0xCD) (replicate 32 0xEF)
              (str "V4,proto UDPv4,key-method 2,tls-client") [] [] (str "IV_VER=2.6.0") in
  try_parse (client_wire km ++ str "PUSH_REQUEST") = Ok (Ready km (length (client_wire km))).
Proof.
  intros km. apply (km2_client_roundtrip km).
  split; [done..|]. repeat (constructor; [split; [vm_compute; reflexivity|vm_compute; reflexivity]|]).
  constructor.
Defined.

(** The server's key-method-2 reply carries its two randoms at the
    documented offsets and its four strings read back in order, the last one
    ending exactly at the end of the packet. *)
Theorem km2_server_readable (km : ServerKeyMethod2) :
  length (s_random1 km) = RANDOM_LEN -> length (s_random2 km) = RANDOM_LEN ->
  Forall lp_fits [s_options km; s_username km; s_password km; s_peer_info km] ->
  let w := encode km in
  take 5 w = [0; 0; 0; 0; KEY_METHOD_2] /\
  slice w 5 37 = Ok (s_random1 km) /\ slice w 37 69 = Ok (s_random2 km) /\
  exists o1 o2 o3,
    read_lp_string w 69 = Ok (Some (s_options km), o1) /\
    read_lp_string w o1 = Ok (Some (s_username km), o2) /\
    read_lp_string w o2 = Ok (Some (s_password km), o3) /\
    read_lp_string w o3 = Ok (Some (s_peer_info km), length w).
Proof.
  intros H1 H2 Hs w. unfold RANDOM_LEN in *. rewrite !Forall_cons in Hs. destruct Hs as (F1&F2&F3&F4&_).
  assert (w = [0; 0; 0; 0; KEY_METHOD_2] ++ s_random1 km ++ s_random2 km ++ lp_wire (s_options km) ++
    lp_wire (s_username km) ++ lp_wire (s_password km) ++ lp_wire (s_peer_info km) ++ []) as ->.
  { unfold w, encode. rewrite !write_lp_eq by done. rewrite <-!app_assoc, app_nil_r. done. }
  set (h := [0; 0; 0; 0; KEY_METHOD_2]).
  split_and!; [done|by apply slice_app3; rewrite ?H1|..].
  { rewrite (app_assoc h). apply slice_app3; rewrite length_app, ?H1, ?H2; done. }
  rewrite (app_assoc h), (app_assoc (h ++ s_random1 km)). set (p1 := (h ++ s_random1 km) ++ s_random2 km).
  replace 69%nat with (length p1) by (unfold p1; rewrite !length_app, H1, H2; done).
  rewrite read_lp_wire by done. eexists _, _, _. split; [done|].
  rewrite (app_assoc p1), <-length_app, read_lp_wire by done. split; [done|].
  rewrite (app_assoc (p1 ++ _)), <-length_app, read_lp_wire by done. split; [done|].
  rewrite (app_assoc ((p1 ++ _) ++ _)), <-length_app, read_lp_wire by done.
  do 2 f_equal. rewrite <-app_assoc, !length_app, !Nat.add_assoc. simpl. lia.
Qed.

Lemma km2_server_readable_witness :
  exists o1 o2 o3,
    let w := encode (MkServerKeyMethod2 (replicate 32 1) (replicate 32 2)
                       (build_options_string 1542 1500) [] [] build_peer_info) in
    read_lp_string w 69 = Ok (Some (build_options_string 1542 1500), o1) /\
    read_lp_string w o1 = Ok (Some [], o2) /\ read_lp_string w o2 = Ok (Some [], o3) /\
    read_lp_string w o3 = Ok (Some build_peer_info, length w).
Proof.
  refine (proj2 (proj2 (proj2 (km2_server_readable (MkServerKeyMethod2 (replicate 32 1) (replicate 32 2)
    (build_options_string 1542 1500) [] [] build_peer_info) _ _ _)))); [done..|].
  repeat (constructor; [split; vm_compute; reflexivity|]). constructor.
Defined.

Lemma position_nul_spec buf i :
  position_nul buf = Some i <->
  exists msg rest, buf = msg ++ 0 :: rest /\ 0 ∉ msg /\ i = length msg.
Proof.
  revert i. induction buf as [|b buf IH]; intros i; simpl.
  { split; [done|]. intros (msg & rest & E & _). by destruct msg. }
  destruct (Z.eqb_spec b 0) as [->|Hb].
  - split.
    + intros [= <-]. exists [], buf. split_and!; [done|set_solver|done].
    + intros ([|m msg] & rest & E & Hm & ->); [done|]. injection E as <- _. by destruct Hm; left.
  - rewrite fmap_Some. setoid_rewrite IH. split.
    + intros (k & (msg & rest & -> & Hm & ->) & ->). exists (b :: msg), rest.
      split_and!; [done|set_solver|done].
    + intros ([|m msg] & rest & E & Hm & ->); injection E as ? E; [done|]. subst.
      exists (length msg). split; [|done]. exists msg, rest. split_and!; [done|set_solver|done].
Qed.

(** Popping a control message takes exactly the bytes up to and including
    the first NUL, no more and no less, and asks for more bytes exactly when
    there is no NUL yet. *)
Theorem pop_ascii_exact (buf : bytes) :
  (forall msg rest, buf = msg ++ 0 :: rest -> 0 ∉ msg ->
     try_pop_ascii buf = Ready (Utf8.from_utf8_lossy msg) (length msg + 1)) /\
  (try_pop_ascii buf = NeedMore <-> 0 ∉ buf).
Proof.
  unfold try_pop_ascii. split.
  - intros msg rest -> Hm. rewrite (proj2 (position_nul_spec _ (length msg))) by eauto.
    by rewrite take_app_length.
  - destruct (position_nul buf) as [i|] eqn:E.
    + apply position_nul_spec in E as (msg & rest & -> & _ & ->). set_solver.
    + split; [|done]. intros _ Hin. apply list_elem_of_split_l in Hin as (l1 & l2 & -> & Hl).
      assert (position_nul (l1 ++ 0 :: l2) = Some (length l1)) as E' by (apply position_nul_spec; eauto).
      congruence.
Qed.

End ControlChannel.
