(* ===== verification/Primitives.v ===== *)
(** * Cryptographic primitives

    HMAC, AES-256-CTR and AES-256-GCM come from the RustCrypto crates, which
    are not part of this repository: they are the fields of [CryptoApi], and
    the documented facts the server relies on are the class [CryptoLaws].
    [toy_crypto] instantiates them with functions that compute, so that the
    theorems that assume the laws can be run. *)

From S2P Require Import Prelude.

Class CryptoApi := {
  (* Hmac<Sha256>: new_from_slice, update, finalize / verify_slice *)
  hmac_sha256 : bytes -> bytes -> bytes;
  hmac_sha256_verify : bytes -> bytes -> bytes -> bool;
  (* Hmac<Md5>, Hmac<Sha1> *)
  hmac_md5_prim : bytes -> bytes -> bytes;
  hmac_sha1_prim : bytes -> bytes -> bytes;
  (* Ctr128BE<Aes256>: new(key, iv), apply_keystream(data) *)
  aes256_ctr : bytes -> bytes -> bytes -> bytes;
  (* Aes256Gcm: new(key), encrypt / decrypt (nonce, Payload { msg, aad }) *)
  gcm_encrypt : bytes -> bytes -> bytes -> bytes -> option bytes;
  gcm_decrypt : bytes -> bytes -> bytes -> bytes -> option bytes;
}.

(** Arguments: key, then (iv or nonce), then aad, then the message. *)
Class CryptoLaws (C : CryptoApi) : Prop := {
  hmac_sha256_length k m : length (hmac_sha256 k m) = 32%nat;
  hmac_sha256_bytes k m : bytes_ok (hmac_sha256 k m);
  hmac_sha256_verify_iff k m t : hmac_sha256_verify k m t = true <-> t = hmac_sha256 k m;
  hmac_md5_length k m : length (hmac_md5_prim k m) = 16%nat;
  hmac_sha1_length k m : length (hmac_sha1_prim k m) = 20%nat;
  (* a stream cipher: in place, and its own inverse *)
  aes256_ctr_length k iv d : length (aes256_ctr k iv d) = length d;
  aes256_ctr_involutive k iv d : aes256_ctr k iv (aes256_ctr k iv d) = d;
  aes256_ctr_bytes k iv d : bytes_ok d -> bytes_ok (aes256_ctr k iv d);
  (* ciphertext || 16-byte tag; fails only on messages of 2^36 bytes or more *)
  gcm_encrypt_total k n a m :
    Z.of_nat (length m) < 2 ^ 36 -> Z.of_nat (length a) < 2 ^ 36 -> is_Some (gcm_encrypt k n a m);
  gcm_encrypt_length k n a m c : gcm_encrypt k n a m = Some c -> length c = (length m + 16)%nat;
  gcm_decrypt_encrypt k n a m c : gcm_encrypt k n a m = Some c -> gcm_decrypt k n a c = Some m;
  (* a ciphertext that opens is the one sealing its plaintext gives *)
  gcm_encrypt_decrypt k n a m c : gcm_decrypt k n a c = Some m -> gcm_encrypt k n a m = Some c;
}.

(** ** An instance that computes *)

Definition checksum (bs : bytes) : Z :=
  fold_left (fun acc b => (acc * 257 + b + 1) `mod` (2 ^ 61 - 1)) bs 7.

Definition toy_gcm_encrypt (k n a m : bytes) : option bytes :=
  Some (m ++ to_be 16 (checksum (k ++ n ++ a ++ m))).
Definition toy_gcm_decrypt (k n a c : bytes) : option bytes :=
  let m := take (length c - 16) c in
  if bool_decide (c = m ++ to_be 16 (checksum (k ++ n ++ a ++ m))) then Some m else None.

Definition toy_crypto : CryptoApi := {|
  hmac_sha256 k m := to_be 32 (checksum (k ++ m));
  hmac_sha256_verify k m t := bool_decide (t = to_be 32 (checksum (k ++ m)));
  hmac_md5_prim k m := to_be 16 (checksum (k ++ m));
  hmac_sha1_prim k m := to_be 20 (checksum (k ++ m));
  aes256_ctr k iv d := (fun b => Z.lxor b (checksum (k ++ iv) `mod` 256)) <$> d;
  gcm_encrypt := toy_gcm_encrypt;
  gcm_decrypt := toy_gcm_decrypt |}.

Lemma lxor_u8 a b : u8_ok a -> u8_ok b -> u8_ok (Z.lxor a b).
Proof.
  unfold uint_ok. intros Ha Hb.
  assert (0 <= Z.lxor a b) by (apply Z.lxor_nonneg; lia).
  rewrite Z.bounded_iff_bits_nonneg' in Ha, Hb |- * by lia.
  intros i Hi. by rewrite Z.lxor_spec, Ha, Hb.
Qed.

Lemma toy_crypto_laws : CryptoLaws toy_crypto.
Proof.
  split; simpl.
  - intros. apply length_to_be.
  - intros. apply to_be_ok.
  - intros. apply bool_decide_eq_true.
  - intros. apply length_to_be.
  - intros. apply length_to_be.
  - intros. apply length_fmap.
  - intros k iv d. rewrite <-list_fmap_compose. rewrite <-(list_fmap_id d) at 2.
    apply list_fmap_ext. intros i b _. simpl. by rewrite Z.lxor_assoc, Z.lxor_nilpotent, Z.lxor_0_r.
  - intros k iv d Hd. apply Forall_fmap. eapply Forall_impl; [done|]. intros b Hb. simpl.
    apply lxor_u8; [done|]. by apply Z.mod_pos_bound.
  - intros. by eexists.
  - intros k n a m c [= <-]. by rewrite length_app, length_to_be.
  - intros k n a m c [= <-]. unfold toy_gcm_decrypt. rewrite length_app, length_to_be.
    rewrite Nat.add_sub, take_app_length. by rewrite bool_decide_eq_true_2.
  - intros k n a m c. unfold toy_gcm_decrypt, toy_gcm_encrypt. case_bool_decide as E; [|done].
    intros [= <-]. by rewrite <-E.
Qed.
