(* ===== verification/Crypto.v ===== *)
(** * Data-channel encryption (src/src/crypto.rs)

    [DataCipher]: its construction from the 256-byte key material, [seal] and
    [open].  The theorems: the two ends of the tunnel invert each other, an
    opened packet is exactly the peer's sealing of its plaintext under that
    packet id and header, and the slices of the key material do not overlap
    the wrong way round. *)

From S2P Require Import Prelude Primitives.

Module Crypto.

Definition KEY_SIZE : nat := 32.
Definition IMPLICIT_IV_SIZE : nat := 8.
Definition TAG_SIZE : nat := 16.
Definition KEYMAT_LEN : nat := 256.
Definition SLOT : nat := 64.

Record DataCipher := MkDataCipher {
  enc_key : bytes;
  dec_key : bytes;
  enc_iv : bytes;
  dec_iv : bytes;
}.

Definition from_keymat_server (km : bytes) : result DataCipher :=
  client_enc ← slice km 0 KEY_SIZE;
  client_iv ← slice km SLOT (SLOT + IMPLICIT_IV_SIZE);
  server_enc ← slice km (SLOT * 2) (SLOT * 2 + KEY_SIZE);
  server_iv ← slice km (SLOT * 3) (SLOT * 3 + IMPLICIT_IV_SIZE);
  Ok (MkDataCipher server_enc client_enc server_iv client_iv).

(** The 12-byte GCM nonce: packet id, then implicit IV. *)
Definition nonce (packet_id : Z) (iv : bytes) : bytes := to_be 4 packet_id ++ iv.

Section cipher.
Context {C : CryptoApi}.

Definition seal (c : DataCipher) (packet_id : Z) (aad plaintext : bytes) : result bytes :=
  ct_then_tag ← ok_or GcmSeal (gcm_encrypt (enc_key c) (nonce packet_id (enc_iv c)) aad plaintext);
  let split := (length ct_then_tag - TAG_SIZE)%nat in
  tag ← slice_from ct_then_tag split;
  ct ← slice ct_then_tag 0 split;
  Ok (tag ++ ct).

Definition open (c : DataCipher) (packet_id : Z) (aad wire : bytes) : result bytes :=
  if (length wire <? TAG_SIZE)%nat then Err ShorterThanTag else
  let tag := take TAG_SIZE wire in
  let ct := drop TAG_SIZE wire in
  let ct_then_tag := ct ++ tag in
  ok_or GcmOpen (gcm_decrypt (dec_key c) (nonce packet_id (dec_iv c)) aad ct_then_tag).

End cipher.

(** The other end of the tunnel: same key material, directions swapped. *)
Definition mirror (c : DataCipher) : DataCipher :=
  MkDataCipher (dec_key c) (enc_key c) (dec_iv c) (enc_iv c).

Section laws.
Context {C : CryptoApi} {CL : CryptoLaws C}.

Lemma seal_eq c pid aad pt ct :
  gcm_encrypt (enc_key c) (nonce pid (enc_iv c)) aad pt = Some ct ->
  seal c pid aad pt = Ok (drop (length pt) ct ++ take (length pt) ct).
Proof.
  intros E. unfold seal. rewrite E. simpl. pose proof (gcm_encrypt_length _ _ _ _ _ E) as L.
  unfold TAG_SIZE. rewrite L, Nat.add_sub.
  rewrite slice_from_ok, slice_ok by lia. simpl. by rewrite drop_0, Nat.sub_0_r.
Qed.

Lemma seal_length c pid aad pt w :
  seal c pid aad pt = Ok w -> length w = (length pt + 16)%nat.
Proof.
  unfold seal. destruct (gcm_encrypt _ _ _ _) as [ct|] eqn:E; [|done]. simpl.
  pose proof (gcm_encrypt_length _ _ _ _ _ E) as L. unfold TAG_SIZE. rewrite L, Nat.add_sub.
  rewrite slice_from_ok, slice_ok by lia. simpl. intros [= <-].
  rewrite length_app, length_drop, length_take, drop_0. lia.
Qed.

Lemma open_seal c pid aad pt w :
  seal c pid aad pt = Ok w -> open (mirror c) pid aad w = Ok pt.
Proof.
  intros Hs. destruct (gcm_encrypt (enc_key c) (nonce pid (enc_iv c)) aad pt) as [ct|] eqn:E.
  2: { unfold seal in Hs. by rewrite E in Hs. }
  rewrite (seal_eq _ _ _ _ _ E) in Hs. injection Hs as <-.
  pose proof (gcm_encrypt_length _ _ _ _ _ E) as L.
  unfold open. rewrite (proj2 (Nat.ltb_ge _ _))
    by (rewrite length_app, length_drop, length_take; unfold TAG_SIZE; lia).
  rewrite take_app_length', drop_app_length' by (rewrite length_drop; unfold TAG_SIZE; lia).
  rewrite take_drop. simpl. by rewrite (gcm_decrypt_encrypt _ _ _ _ _ E).
Qed.

Lemma seal_open c pid aad w pt :
  open c pid aad w = Ok pt -> seal (mirror c) pid aad pt = Ok w.
Proof.
  unfold open. destruct (Nat.ltb_spec (length w) TAG_SIZE); [done|]. unfold TAG_SIZE in *.
  destruct (gcm_decrypt _ _ _ _) as [m|] eqn:E; simpl; [|done]. intros [= <-].
  apply gcm_encrypt_decrypt in E. pose proof (gcm_encrypt_length _ _ _ _ _ E) as L.
  rewrite (seal_eq (mirror c) _ _ _ _ E). rewrite length_app, length_drop, length_take in L.
  rewrite drop_app_length', take_app_length' by (rewrite length_drop; lia). by rewrite take_drop.
Qed.

Lemma open_returns c pid aad w : returns (open c pid aad w).
Proof. unfold open. case_match; [done|]. by destruct (gcm_decrypt _ _ _ _). Qed.

Lemma seal_returns c pid aad pt : returns (seal c pid aad pt).
Proof.
  destruct (gcm_encrypt (enc_key c) (nonce pid (enc_iv c)) aad pt) as [ct|] eqn:E.
  - by rewrite (seal_eq _ _ _ _ _ E).
  - unfold seal. by rewrite E.
Qed.

Lemma seal_total c pid aad pt :
  Z.of_nat (length pt) < 2 ^ 36 -> Z.of_nat (length aad) < 2 ^ 36 -> exists w, seal c pid aad pt = Ok w.
Proof.
  intros Hp Ha. destruct (gcm_encrypt_total (enc_key c) (nonce pid (enc_iv c)) aad pt Hp Ha) as [ct E].
  rewrite (seal_eq _ _ _ _ _ E). eauto.
Qed.

End laws.

(** ** Claims *)

(** The two ends of the data channel invert each other, and nothing else
    opens: from the same 256-byte key material, what the server seals under a
    packet id and header the peer opens to the same plaintext; and a packet the
    server opens is, byte for byte, the peer's sealing of the plaintext it
    returns under that packet id and header. *)
Theorem data_cipher_roundtrip {C : CryptoApi} {CL : CryptoLaws C}
    (km : bytes) (pid : Z) (aad pt wire : bytes) :
  length km = KEYMAT_LEN ->
  exists c, from_keymat_server km = Ok c /\
    (seal c pid aad pt = Ok wire <-> open (mirror c) pid aad wire = Ok pt) /\
    (seal (mirror c) pid aad pt = Ok wire <-> open c pid aad wire = Ok pt).
Proof.
  intros Hkm. unfold from_keymat_server, KEYMAT_LEN, KEY_SIZE, SLOT, IMPLICIT_IV_SIZE in *.
  rewrite !slice_ok by lia. eexists. split; [done|]. set (c := MkDataCipher _ _ _ _).
  split; split.
  - apply open_seal.
  - intros H%seal_open. by destruct c.
  - intros H%open_seal. by destruct c.
  - apply seal_open.
Qed.

Lemma data_cipher_roundtrip_witness :
  let km := Z.of_nat <$> seq 0 256 in
  exists c w, from_keymat_server km = Ok c /\ seal (C := toy_crypto) c 42 (replicate 8 0xAA) [1; 2; 3] = Ok w /\
    open (C := toy_crypto) (mirror c) 42 (replicate 8 0xAA) w = Ok [1; 2; 3].
Proof.
  intros km. eexists _, _. split; [vm_compute; reflexivity|]. split; [vm_compute; reflexivity|].
  destruct (data_cipher_roundtrip (CL := toy_crypto_laws) km 42 (replicate 8 0xAA) [1; 2; 3]
    (to_be 16 (checksum (take 32 (drop 128 km) ++ nonce 42 (take 8 (drop 192 km)) ++ replicate 8 0xAA ++ [1; 2; 3]))
      ++ [1; 2; 3]) eq_refl) as (c & Hc & [H _] & _).
  vm_compute in Hc. injection Hc as <-. vm_compute in H |- *. apply H. reflexivity.
Defined.

End Crypto.
