(* ===== verification/Prf.v ===== *)
(** * Key derivation (src/src/prf.rs)

    OpenVPN's key-method-2 derivation on top of the TLS 1.0 PRF.  [p_hash] is
    the source's loop that fills the output in place; it is proved equal to the
    RFC's definition (a truncated concatenation of HMAC blocks) and therefore
    to terminate. *)

From S2P Require Import Prelude Primitives Crypto.

Module Prf.

Definition MASTER_LEN : nat := 48.
Definition MASTER_LABEL : bytes := str "OpenVPN master secret".
Definition KEY_EXP_LABEL : bytes := str "OpenVPN key expansion".

(** One pass of the [while written < out.len()] loop per unit of fuel;
    [out[written..written + n].copy_from_slice(&block[..n])] replaces the
    bytes from [written] on. *)
Fixpoint p_hash_loop (fuel : nat) (hmac_fn : bytes -> list bytes -> bytes) (secret seed : bytes)
    (a : bytes) (written : nat) (out : bytes) : result bytes :=
  match fuel with
  | O => Diverge
  | S fuel' =>
    if (written <? length out)%nat then
      let block := hmac_fn secret [a; seed] in
      let n := Nat.min (length block) (length out - written) in
      let out := take written out ++ take n block ++ drop (written + n) out in
      p_hash_loop fuel' hmac_fn secret seed (hmac_fn secret [a]) (written + n) out
    else Ok out
  end.

(** A block is at least one byte long, so [length out] rounds are enough. *)
Definition p_hash (hmac_fn : bytes -> list bytes -> bytes) (secret seed out : bytes) : result bytes :=
  let a := hmac_fn secret [seed] in
  p_hash_loop (S (length out)) hmac_fn secret seed a 0 out.

Section prf.
Context {C : CryptoApi}.

(** [mac.update(p)] for every part feeds their concatenation. *)
Definition hmac_md5 (key : bytes) (parts : list bytes) : bytes := hmac_md5_prim key (concat parts).
Definition hmac_sha1 (key : bytes) (parts : list bytes) : bytes := hmac_sha1_prim key (concat parts).

(** [usize::div_ceil]. *)
Definition div_ceil (a b : nat) : nat := ((a + b - 1) / b)%nat.

(** [out_len] is [out.len()]: every byte of [out] is overwritten. *)
Definition tls10_prf (secret label seed : bytes) (out_len : nat) : result bytes :=
  let half := div_ceil (length secret) 2 in
  s1 ← slice secret 0 half;
  s2 ← slice_from secret (length secret - half);
  let combined := label ++ seed in
  md5_out ← p_hash hmac_md5 s1 combined (replicate out_len 0);
  sha1_out ← p_hash hmac_sha1 s2 combined (replicate out_len 0);
  Ok (zip_with Z.lxor md5_out sha1_out).

Definition derive_openvpn_key_data
    (pre_master client_random1 server_random1 client_random2 server_random2
     client_sid server_sid : bytes) : result bytes :=
  let master_seed := client_random1 ++ server_random1 in
  master ← tls10_prf pre_master MASTER_LABEL master_seed MASTER_LEN;
  let kd_seed := client_random2 ++ server_random2 ++ client_sid ++ server_sid in
  tls10_prf master KEY_EXP_LABEL kd_seed Crypto.KEYMAT_LEN.

End prf.

(** ** The RFC's definition *)

Section rfc.
Context (hmac_fn : bytes -> list bytes -> bytes) (secret seed : bytes).

(** [A(0) = seed], [A(i) = HMAC(secret, A(i-1))]. *)
Fixpoint rfc_A (i : nat) : bytes :=
  match i with O => seed | S i' => hmac_fn secret [rfc_A i'] end.

(** [HMAC(secret, A(i) || seed) || HMAC(secret, A(i+1) || seed) || ..], [k]
    blocks. *)
Fixpoint rfc_blocks (i k : nat) : bytes :=
  match k with O => [] | S k' => hmac_fn secret [rfc_A i; seed] ++ rfc_blocks (S i) k' end.

Context (L : nat) (HL : (0 < L)%nat) (Hlen : forall parts, length (hmac_fn secret parts) = L).

Lemma length_rfc_blocks i k : length (rfc_blocks i k) = (k * L)%nat.
Proof. revert i. induction k; intros i; [done|]. simpl. by rewrite length_app, Hlen, IHk. Qed.

Lemma p_hash_loop_rfc fuel i k written out :
  (written <= length out)%nat -> (length out - written < fuel)%nat ->
  (length out - written <= k * L)%nat ->
  p_hash_loop fuel hmac_fn secret seed (rfc_A (S i)) written out =
  Ok (take written out ++ take (length out - written) (rfc_blocks (S i) k)).
Proof.
  revert i k written out. induction fuel as [|fuel IH]; intros i k written out Hw Hf Hk; [lia|].
  cbn [p_hash_loop]. destruct (Nat.ltb_spec written (length out)) as [Hlt|Hge].
  2: { by rewrite take_ge, (proj2 (Nat.sub_0_le _ _)), take_0, app_nil_r by lia. }
  destruct k as [|k]; [lia|]. set (block := hmac_fn secret [rfc_A (S i); seed]).
  assert (length block = L) as Hb by apply Hlen. rewrite Hb.
  set (n := Nat.min L (length out - written)). set (out' := _ ++ _ ++ _).
  assert (length out' = length out) as Hl'.
  { unfold out'. rewrite !length_app, !length_take, length_drop. lia. }
  change (hmac_fn secret [rfc_A (S i)]) with (rfc_A (S (S i))).
  rewrite (IH (S i) k) by (rewrite ?Hl'; lia). rewrite Hl'. f_equal.
  assert (take (written + n) out' = take written out ++ take n block) as ->.
  { unfold out'. rewrite app_assoc. apply take_app_length'. rewrite length_app, !length_take. lia. }
  rewrite <-app_assoc. f_equal. cbn [rfc_blocks]. fold block.
  destruct (Nat.le_ge_cases L (length out - written)) as [Hle|Hge'].
  - rewrite (take_app_ge block) by lia. rewrite Hb, (take_ge block) by lia. do 2 f_equal. lia.
  - replace n with (length out - written)%nat by lia.
    rewrite take_app_le by lia. replace (_ - (_ + _))%nat with 0%nat by lia. by rewrite take_0, app_nil_r.
Qed.

Lemma p_hash_rfc out k :
  (length out <= k * L)%nat ->
  p_hash hmac_fn secret seed out = Ok (take (length out) (rfc_blocks 1 k)).
Proof.
  intros Hk. unfold p_hash. change (hmac_fn secret [seed]) with (rfc_A 1).
  rewrite (p_hash_loop_rfc _ 0 k) by lia. by rewrite take_0, Nat.sub_0_r.
Qed.
End rfc.

(** The TLS 1.0 PRF as the RFC writes it, with [k] blocks of each hash. *)
Definition rfc_prf `{CryptoApi} (secret label seed : bytes) (n k : nat) : bytes :=
  let half := div_ceil (length secret) 2 in
  zip_with Z.lxor
    (take n (rfc_blocks hmac_md5 (take half secret) (label ++ seed) 1 k))
    (take n (rfc_blocks hmac_sha1 (drop (length secret - half) secret) (label ++ seed) 1 k)).

Lemma div_ceil_2 n : (div_ceil n 2 <= n)%nat.
Proof. unfold div_ceil. pose proof (Nat.div_mod_eq (n + 2 - 1) 2). lia. Qed.

Section laws.
Context {C : CryptoApi} {CL : CryptoLaws C}.

Lemma tls10_prf_rfc secret label seed n k :
  (n <= k * 16)%nat -> tls10_prf secret label seed n = Ok (rfc_prf secret label seed n k).
Proof.
  intros Hk. unfold tls10_prf, rfc_prf. pose proof (div_ceil_2 (length secret)).
  rewrite slice_ok, slice_from_ok by lia. rsimp. rewrite drop_0, Nat.sub_0_r.
  rewrite (p_hash_rfc hmac_md5 _ _ 16 ltac:(lia) (fun p => hmac_md5_length _ _) _ k)
    by (rewrite length_replicate; lia).
  rsimp.
  rewrite (p_hash_rfc hmac_sha1 _ _ 20 ltac:(lia) (fun p => hmac_sha1_length _ _) _ k)
    by (rewrite length_replicate; lia).
  by rewrite length_replicate.
Qed.

Lemma length_rfc_prf secret label seed n k :
  (n <= k * 16)%nat -> length (rfc_prf secret label seed n k) = n.
Proof.
  intros Hk. unfold rfc_prf. rewrite length_zip_with, !length_take.
  rewrite (length_rfc_blocks hmac_md5 _ _ 16) by (intros; apply hmac_md5_length).
  rewrite (length_rfc_blocks hmac_sha1 _ _ 20) by (intros; apply hmac_sha1_length). lia.
Qed.

Lemma derive_eq pm c1 s1 c2 s2 csid ssid :
  derive_openvpn_key_data pm c1 s1 c2 s2 csid ssid =
  Ok (rfc_prf (rfc_prf pm MASTER_LABEL (c1 ++ s1) 48 3) KEY_EXP_LABEL (c2 ++ s2 ++ csid ++ ssid) 256 16).
Proof.
  unfold derive_openvpn_key_data, MASTER_LEN, Crypto.KEYMAT_LEN.
  rewrite (tls10_prf_rfc _ _ _ 48 3) by lia. rsimp. apply tls10_prf_rfc. lia.
Qed.

Lemma derive_length pm c1 s1 c2 s2 csid ssid km :
  derive_openvpn_key_data pm c1 s1 c2 s2 csid ssid = Ok km -> length km = Crypto.KEYMAT_LEN.
Proof. rewrite derive_eq. intros [= <-]. apply (length_rfc_prf _ _ _ 256 16). lia. Qed.
End laws.

(** ** Claims *)

(** The in-place loop computes the RFC's [P_hash]: for an HMAC with
    non-empty fixed-size output, filling any output buffer terminates and gives
    the first [out.len()] bytes of
    [HMAC(secret, A(1) || seed) || HMAC(secret, A(2) || seed) || ..]. *)
Theorem p_hash_is_rfc_p_hash (hmac_fn : bytes -> list bytes -> bytes) (secret seed out : bytes) (L k : nat) :
  (0 < L)%nat -> (forall parts, length (hmac_fn secret parts) = L) -> (length out <= k * L)%nat ->
  p_hash hmac_fn secret seed out = Ok (take (length out) (rfc_blocks hmac_fn secret seed 1 k)).
Proof. intros HL Hlen Hk. by apply (p_hash_rfc hmac_fn secret seed L). Qed.

Lemma p_hash_is_rfc_p_hash_witness :
  p_hash (fun _ parts => to_be 4 (checksum (concat parts))) [1] [2] (replicate 10 0) =
  Ok (take 10 (rfc_blocks (fun _ parts => to_be 4 (checksum (concat parts))) [1] [2] 1 3)).
Proof.
  apply (p_hash_is_rfc_p_hash (fun _ parts => to_be 4 (checksum (concat parts))) [1] [2] (replicate 10 0) 4 3);
    [lia|intros; apply length_to_be|simpl; lia].
Defined.

(** C31: key derivation always succeeds with 256 bytes of key material, and
    they are [PRF(PRF(pre_master, "OpenVPN master secret", c.r1 || s.r1),
    "OpenVPN key expansion", c.r2 || s.r2 || c.sid || s.sid)] with the RFC's
    PRF (48 and 256 bytes): both ends feed the same inputs in the same order. *)
Theorem derive_is_openvpn_prf {C : CryptoApi} {CL : CryptoLaws C}
    (pm c1 s1 c2 s2 csid ssid : bytes) :
  exists km, derive_openvpn_key_data pm c1 s1 c2 s2 csid ssid = Ok km /\
    length km = Crypto.KEYMAT_LEN /\
    km = rfc_prf (rfc_prf pm MASTER_LABEL (c1 ++ s1) 48 3) KEY_EXP_LABEL (c2 ++ s2 ++ csid ++ ssid) 256 16.
Proof.
  eexists. split; [apply derive_eq|]. split; [apply (length_rfc_prf _ _ _ 256 16); lia|done].
Qed.

Lemma derive_is_openvpn_prf_witness :
  exists km, derive_openvpn_key_data (C := toy_crypto) (replicate 48 0x42) (replicate 32 0x11) (replicate 32 0x22)
    (replicate 32 0x33) (replicate 32 0x44) (replicate 8 0xAA) (replicate 8 0xBB) = Ok km /\ length km = 256%nat.
Proof.
  destruct (derive_is_openvpn_prf (CL := toy_crypto_laws) (replicate 48 0x42) (replicate 32 0x11) (replicate 32 0x22)
    (replicate 32 0x33) (replicate 32 0x44) (replicate 8 0xAA) (replicate 8 0xBB)) as (km & H & Hl & _).
  exists km. split; [exact H|exact Hl].
Defined.

End Prf.
