(* ===== verification/Envelope.v ===== *)
(** * The control-channel envelope: the interface between the server and
    tls-auth / tls-crypt

    Both envelopes authenticate an encoded control packet under a pre-shared
    key together with a replay packet id and a timestamp.  The server only uses
    what this interface promises; [TlsAuth] and [TlsCrypt] each give an
    instance and prove the laws. *)

From S2P Require Import Prelude.

Class Envelope (K : Type) := {
  env_wrap : K -> bytes -> Z -> Z -> result bytes;
  env_unwrap : K -> bytes -> result (bytes * Z);
  (* the peer's key: same material, directions swapped *)
  env_mirror : K -> K;
}.

Class EnvelopeLaws (K : Type) `{Envelope K} : Prop := {
  env_mirror_involutive (k : K) : env_mirror (env_mirror k) = k;
  (* an encoded packet has at least the opcode and the session id *)
  env_wrap_short (k : K) inner pid ts :
    (length inner < 9)%nat -> exists e, env_wrap k inner pid ts = Err e;
  env_wrap_total (k : K) inner pid ts :
    (9 <= length inner)%nat -> exists w, env_wrap k inner pid ts = Ok w;
  env_unwrap_wrap (k : K) inner pid ts w :
    u32_ok pid -> u32_ok ts ->
    env_wrap k inner pid ts = Ok w -> env_unwrap (env_mirror k) w = Ok (inner, pid);
  env_unwrap_returns (k : K) w : returns (env_unwrap k w);
  (* whatever is accepted is what the peer's key produces for it *)
  env_unwrap_authentic (k : K) w inner pid :
    bytes_ok w -> env_unwrap k w = Ok (inner, pid) ->
    bytes_ok inner /\ (9 <= length inner)%nat /\ u32_ok pid /\
    exists ts, u32_ok ts /\ env_wrap (env_mirror k) inner pid ts = Ok w;
}.

(** An inner packet: opcode, session id, body. *)
Lemma inner_split (inner : bytes) :
  (9 <= length inner)%nat ->
  exists op sid body, inner = [op] ++ sid ++ body /\ length sid = 8%nat.
Proof.
  intros Hl. destruct inner as [|op r]; [simpl in Hl; lia|]. simpl in Hl.
  exists op, (take 8 r), (drop 8 r). split; [by rewrite take_drop|]. rewrite length_take. lia.
Qed.

