(* ===== verification/TlsAuth.v ===== *)
(** * The tls-auth envelope (src/src/tls_auth.rs)

    [op | session_id | HMAC | replay_pid | net_time | body]: every definition
    of the file, and the proof that it is an [Envelope]. *)

From S2P Require Import Prelude Primitives Envelope.

Module TlsAuth.

Definition HMAC_LEN : nat := 32.
Definition SLOT_LEN : nat := 64.
Definition HEADER_LEN : nat := 9.
Definition REPLAY_HEADER_LEN : nat := 8.

Record TlsAuthKey := MkTlsAuthKey {
  out_key : bytes;
  in_key : bytes;
}.

Definition from_static_key_server (km : bytes) (direction : Z) : result TlsAuthKey :=
  '(out_off, in_off) ←
    (match direction with
     | 0 => Ok (SLOT_LEN, SLOT_LEN)
     | 1 => Ok ((SLOT_LEN * 3)%nat, SLOT_LEN)
     | _ => Err (InvalidKeyDirection direction)
     end);
  out_key ← slice km out_off (out_off + SLOT_LEN);
  in_key ← slice km in_off (in_off + SLOT_LEN);
  Ok (MkTlsAuthKey out_key in_key).

Definition compose_hmac_input (op : Z) (session_id : bytes) (replay_pid timestamp : Z) (body : bytes) : bytes :=
  to_be 4 replay_pid ++ to_be 4 timestamp ++ [op] ++ session_id ++ body.

Section envelope.
Context {C : CryptoApi}.

Definition compute_hmac (key : bytes) (op : Z) (session_id : bytes) (replay_pid timestamp : Z)
    (body : bytes) : bytes :=
  hmac_sha256 key (compose_hmac_input op session_id replay_pid timestamp body).

Definition wrap (k : TlsAuthKey) (inner : bytes) (replay_pid timestamp : Z) : result bytes :=
  if (length inner <? HEADER_LEN)%nat then Err (InnerTooShort (length inner)) else
  op ← index inner 0;
  session_id ← slice inner 1 HEADER_LEN;
  body ← slice_from inner HEADER_LEN;
  let hmac := compute_hmac (out_key k) op session_id replay_pid timestamp body in
  Ok ([op] ++ session_id ++ hmac ++ to_be 4 replay_pid ++ to_be 4 timestamp ++ body).

(** The [debug_assert_eq!] against a second HMAC computation, absent from
    release builds, repeats the [verify_slice] test. *)
Definition unwrap (k : TlsAuthKey) (pkt : bytes) : result (bytes * Z) :=
  let MIN_LEN := (HEADER_LEN + HMAC_LEN + REPLAY_HEADER_LEN)%nat in
  if (length pkt <? MIN_LEN)%nat then Err (EnvelopeTooShort (length pkt)) else
  op ← index pkt 0;
  session_id ← slice pkt 1 HEADER_LEN;
  hmac_recv ← slice pkt HEADER_LEN (HEADER_LEN + HMAC_LEN);
  let after_hmac := (HEADER_LEN + HMAC_LEN)%nat in
  replay_bytes ← slice pkt after_hmac (after_hmac + 4);
  let replay_pid := from_be replay_bytes in
  ts_bytes ← slice pkt (after_hmac + 4) (after_hmac + 8);
  let timestamp := from_be ts_bytes in
  body ← slice_from pkt (after_hmac + REPLAY_HEADER_LEN);
  if hmac_sha256_verify (in_key k) (compose_hmac_input op session_id replay_pid timestamp body) hmac_recv
  then Ok ([op] ++ session_id ++ body, replay_pid)
  else Err HmacMismatch.

End envelope.

Definition mirror (k : TlsAuthKey) : TlsAuthKey := MkTlsAuthKey (in_key k) (out_key k).

#[export] Instance tls_auth_envelope `{CryptoApi} : Envelope TlsAuthKey := {|
  env_wrap := wrap; env_unwrap := unwrap; env_mirror := mirror |}.

(** ** The layout *)

(** The wire packet of the five fields. *)
Definition layout (op : Z) (sid hmac pid ts body : bytes) : bytes :=
  [op] ++ sid ++ hmac ++ pid ++ ts ++ body.

Lemma tls_auth_unwrap_layout `{CryptoApi} k op sid hmac pid ts body :
  length sid = 8%nat -> length hmac = 32%nat -> length pid = 4%nat -> length ts = 4%nat ->
  unwrap k (layout op sid hmac pid ts body) =
  if hmac_sha256_verify (in_key k) (compose_hmac_input op sid (from_be pid) (from_be ts) body) hmac
  then Ok ([op] ++ sid ++ body, from_be pid) else Err HmacMismatch.
Proof.
  intros L1 L2 L3 L4. unfold unwrap, layout, HEADER_LEN, HMAC_LEN, REPLAY_HEADER_LEN.
  rewrite (proj2 (Nat.ltb_ge _ _)) by (rewrite !length_app; simpl; lia).
  unfold index. simpl lookup. unfold unwrap_opt. rsimp.
  rewrite (slice_app3 [op] sid _ 1 9) by (simpl; lia). rsimp.
  rewrite (app_assoc [op]), (slice_app3 ([op] ++ sid) hmac _ 9 (9 + 32)) by (rewrite ?length_app; simpl; lia). rsimp.
  rewrite (app_assoc ([op] ++ sid)), (slice_app3 (([op] ++ sid) ++ hmac) pid _ (9 + 32) (9 + 32 + 4))
    by (rewrite ?length_app; simpl; lia). rsimp.
  rewrite (app_assoc (([op] ++ sid) ++ hmac)), (slice_app3 _ ts _ (9 + 32 + 4) (9 + 32 + 8)) by (rewrite ?length_app; simpl; lia). rsimp.
  rewrite (app_assoc _ ts), slice_from_ok by (rewrite !length_app; simpl; lia). rsimp.
  by rewrite drop_app_length' by (rewrite !length_app; simpl; lia).
Qed.

(** Every packet that is long enough has a layout. *)
Lemma tls_auth_layout_split (w : bytes) :
  (49 <= length w)%nat ->
  exists op sid hmac pid ts body, w = layout op sid hmac pid ts body /\
    length sid = 8%nat /\ length hmac = 32%nat /\ length pid = 4%nat /\ length ts = 4%nat.
Proof.
  intros Hl. destruct w as [|op w]; [simpl in Hl; lia|]. simpl in Hl.
  exists op, (take 8 w), (take 32 (drop 8 w)), (take 4 (drop 40 w)), (take 4 (drop 44 w)), (drop 48 w).
  split.
  - unfold layout. simpl. f_equal.
    rewrite <-(take_drop 8 w) at 1. f_equal. rewrite <-(take_drop 32 (drop 8 w)) at 1. f_equal.
    rewrite drop_drop. rewrite <-(take_drop 4 (drop (8 + 32) w)) at 1. f_equal.
    rewrite drop_drop. rewrite <-(take_drop 4 (drop (8 + 32 + 4) w)) at 1. by rewrite drop_drop.
  - rewrite !length_take, !length_drop. lia.
Qed.

Section laws.
Context {C : CryptoApi} {CL : CryptoLaws C}.

Lemma tls_auth_wrap_split k op sid body pid ts :
  length sid = 8%nat ->
  wrap k ([op] ++ sid ++ body) pid ts =
  Ok (layout op sid (compute_hmac (out_key k) op sid pid ts body) (to_be 4 pid) (to_be 4 ts) body).
Proof.
  intros L. unfold wrap, HEADER_LEN.
  rewrite (proj2 (Nat.ltb_ge _ _)) by (rewrite !length_app; simpl; lia).
  unfold index. simpl lookup. unfold unwrap_opt. rsimp.
  rewrite (slice_app3 [op] sid _ 1 9) by (simpl; lia). rsimp.
  rewrite slice_from_ok by (rewrite !length_app; simpl; lia). rsimp.
  replace (drop 9 ([op] ++ sid ++ body)) with body; [done|].
  rewrite app_assoc, drop_app_length'; [done|]. rewrite length_app. simpl. lia.
Qed.

Lemma tls_auth_unwrap_wrap k inner pid ts w :
  u32_ok pid -> u32_ok ts -> wrap k inner pid ts = Ok w -> unwrap (mirror k) w = Ok (inner, pid).
Proof.
  intros Hp Ht Hw. destruct (Nat.ltb_spec (length inner) 9) as [|Hl].
  { unfold wrap, HEADER_LEN in Hw. by rewrite (proj2 (Nat.ltb_lt _ _)) in Hw. }
  destruct (inner_split inner Hl) as (op & sid & body & -> & L). rewrite tls_auth_wrap_split in Hw by done.
  injection Hw as <-. rewrite tls_auth_unwrap_layout by (rewrite ?length_to_be; try done; apply hmac_sha256_length).
  rewrite !from_to_be by by apply u32_be.
  by rewrite (proj2 (hmac_sha256_verify_iff _ _ _)).
Qed.

#[export] Instance tls_auth_laws : EnvelopeLaws TlsAuthKey.
Proof.
  split; simpl.
  - by intros [].
  - intros k inner pid ts Hl. unfold wrap, HEADER_LEN. rewrite (proj2 (Nat.ltb_lt _ _)) by done. eauto.
  - intros k inner pid ts Hl. destruct (inner_split inner Hl) as (op & sid & body & -> & L).
    rewrite tls_auth_wrap_split by done. eauto.
  - intros k inner pid ts w. apply tls_auth_unwrap_wrap.
  - intros k w. destruct (Nat.ltb_spec (length w) 49) as [Hs|Hl].
    { unfold unwrap, HEADER_LEN, HMAC_LEN, REPLAY_HEADER_LEN. by rewrite (proj2 (Nat.ltb_lt _ _)). }
    destruct (tls_auth_layout_split w Hl) as (op & sid & hmac & pid & ts & body & -> & ? & ? & ? & ?).
    rewrite tls_auth_unwrap_layout by done. by case_match.
  - intros k w inner pid Hok Hu. destruct (Nat.ltb_spec (length w) 49) as [Hs|Hl].
    { unfold unwrap, HEADER_LEN, HMAC_LEN, REPLAY_HEADER_LEN in Hu.
      by rewrite (proj2 (Nat.ltb_lt _ _)) in Hu. }
    destruct (tls_auth_layout_split w Hl) as (op & sid & hmac & pidb & tsb & body & -> & L1 & L2 & L3 & L4).
    rewrite tls_auth_unwrap_layout in Hu by done. case_match eqn:Ev; [|done]. injection Hu as <- <-.
    unfold layout in Hok. rewrite !Forall_app in Hok. destruct Hok as (O1 & O2 & O3 & O4 & O5 & O6).
    split_and!.
    + apply (Forall_app_2 _ [op]); [done|]. by apply Forall_app_2.
    + simpl. rewrite length_app, L1. lia.
    + by apply from_be_u32.
    + exists (from_be tsb). split; [by apply from_be_u32|]. 
      change (op :: sid ++ body) with ([op] ++ sid ++ body). rewrite tls_auth_wrap_split by done.
      unfold layout, compute_hmac, mirror. cbn [out_key].
      rewrite <-(proj1 (hmac_sha256_verify_iff _ _ _) Ev).
      pose proof (to_from_be pidb O4) as E4. pose proof (to_from_be tsb O5) as E5.
      rewrite L3 in E4. rewrite L4 in E5. by rewrite E4, E5.
Qed.
End laws.

(** ** Claims *)

(** C30: tls-auth accepts exactly what the peer's key produces.  A packet the
    peer wraps under the mirrored key is unwrapped by the server to the same
    inner packet and replay id; conversely a packet the server accepts is, byte for byte, the peer's
    wrapping of the inner packet it returns: no other op, session id, replay
    id, timestamp or body passes with that tag. *)
Theorem tls_auth_exact {C : CryptoApi} {CL : CryptoLaws C} (k : TlsAuthKey)
    (inner w : bytes) (pid : Z) :
  bytes_ok w -> u32_ok pid ->
  unwrap k w = Ok (inner, pid) <-> exists ts, u32_ok ts /\ wrap (mirror k) inner pid ts = Ok w.
Proof.
  intros Hw Hp. split.
  - intros H. by destruct (env_unwrap_authentic (K := TlsAuthKey) k w inner pid) as (_ & _ & _ & ?).
  - intros (ts & Ht & H). rewrite <-(env_mirror_involutive (K := TlsAuthKey) k).
    by apply tls_auth_unwrap_wrap with ts.
Qed.

Lemma tls_auth_exact_witness :
  let km := Z.of_nat <$> seq 0 256 in
  let inner := [0x38; 1; 2; 3; 4; 5; 6; 7; 8; 104; 105] in
  exists k w, from_static_key_server km 1 = Ok k /\ wrap (C := toy_crypto) (mirror k) inner 42 1700000000 = Ok w /\
    unwrap (C := toy_crypto) k w = Ok (inner, 42).
Proof.
  intros km inner.
  assert (exists k, from_static_key_server km 1 = Ok k) as [k Hk] by (vm_compute; eauto).
  destruct (env_wrap_total (EnvelopeLaws := tls_auth_laws (CL := toy_crypto_laws)) (mirror k) inner 42 1700000000)
    as [w Hw]; [vm_compute; lia|].
  exists k, w. split; [done|]. split; [done|].
  apply (tls_auth_exact (CL := toy_crypto_laws) k inner w 42); try done.
  - vm_compute in Hk. injection Hk as <-. vm_compute in Hw. injection Hw as <-. repeat constructor; done.
  - exists 1700000000. split; [done|]. exact Hw.
Defined.

End TlsAuth.
