(* ===== verification/TlsCrypt.v ===== *)
(** * The tls-crypt envelope (src/src/tls_crypt.rs)

    [op | session_id | packet_id | net_time | tag | ciphertext] with
    [tag = HMAC(Ka, header || plaintext)], [IV = tag[0..16]] and
    [ciphertext = AES-256-CTR(Ke, IV, plaintext)]: every definition of the
    file, and the proof that it is an [Envelope]. *)

From S2P Require Import Prelude Primitives Envelope.

Module TlsCrypt.

Definition TAG_LEN : nat := 32.
Definition PACKET_ID_LEN : nat := 8.
Definition HEADER_LEN : nat := (1 + 8 + PACKET_ID_LEN)%nat.
Definition KEY_LEN : nat := 32.
Definition SLOT : nat := 64.

Record TlsCryptKey := MkTlsCryptKey {
  enc_cipher_key : bytes;
  enc_hmac_key : bytes;
  dec_cipher_key : bytes;
  dec_hmac_key : bytes;
}.

Definition from_static_key_server (km : bytes) : result TlsCryptKey :=
  enc_cipher_key ← slice km 0 KEY_LEN;
  enc_hmac_key ← slice km SLOT (SLOT + KEY_LEN);
  dec_cipher_key ← slice km (SLOT * 2) (SLOT * 2 + KEY_LEN);
  dec_hmac_key ← slice km (SLOT * 3) (SLOT * 3 + KEY_LEN);
  Ok (MkTlsCryptKey enc_cipher_key enc_hmac_key dec_cipher_key dec_hmac_key).

Section envelope.
Context {C : CryptoApi}.

Definition wrap (k : TlsCryptKey) (inner : bytes) (packet_id timestamp : Z) : result bytes :=
  if (length inner <? 9)%nat then Err (InnerTooShort (length inner)) else
  op ← index inner 0;
  session_id ← slice inner 1 9;
  body ← slice_from inner 9;
  let header := [op] ++ session_id ++ to_be 4 packet_id ++ to_be 4 timestamp in
  let tag := hmac_sha256 (enc_hmac_key k) (header ++ body) in
  iv ← slice tag 0 16;
  let ciphertext := aes256_ctr (enc_cipher_key k) iv body in
  Ok (header ++ tag ++ ciphertext).

Definition unwrap (k : TlsCryptKey) (pkt : bytes) : result (bytes * Z) :=
  let MIN_LEN := (HEADER_LEN + TAG_LEN)%nat in
  if (length pkt <? MIN_LEN)%nat then Err (EnvelopeTooShort (length pkt)) else
  header ← slice pkt 0 HEADER_LEN;
  op ← index header 0;
  session_id ← slice header 1 9;
  pid_bytes ← slice header 9 13;
  let packet_id := from_be pid_bytes in
  tag ← slice pkt HEADER_LEN (HEADER_LEN + TAG_LEN);
  ciphertext ← slice_from pkt (HEADER_LEN + TAG_LEN);
  iv ← slice tag 0 16;
  let plaintext := aes256_ctr (dec_cipher_key k) iv ciphertext in
  if hmac_sha256_verify (dec_hmac_key k) (header ++ plaintext) tag
  then Ok ([op] ++ session_id ++ plaintext, packet_id)
  else Err HmacMismatch.

End envelope.

Definition mirror (k : TlsCryptKey) : TlsCryptKey :=
  MkTlsCryptKey (dec_cipher_key k) (dec_hmac_key k) (enc_cipher_key k) (enc_hmac_key k).

#[export] Instance tls_crypt_envelope `{CryptoApi} : Envelope TlsCryptKey := {|
  env_wrap := wrap; env_unwrap := unwrap; env_mirror := mirror |}.

(** ** The layout *)

Definition layout (op : Z) (sid pid ts tag ct : bytes) : bytes :=
  ([op] ++ sid ++ pid ++ ts) ++ tag ++ ct.

Lemma tls_crypt_unwrap_layout `{CryptoApi} k op sid pid ts tag ct :
  length sid = 8%nat -> length pid = 4%nat -> length ts = 4%nat -> length tag = 32%nat ->
  unwrap k (layout op sid pid ts tag ct) =
  let pt := aes256_ctr (dec_cipher_key k) (take 16 tag) ct in
  if hmac_sha256_verify (dec_hmac_key k) (([op] ++ sid ++ pid ++ ts) ++ pt) tag
  then Ok ([op] ++ sid ++ pt, from_be pid) else Err HmacMismatch.
Proof.
  intros L1 L2 L3 L4. unfold unwrap, layout, HEADER_LEN, TAG_LEN, PACKET_ID_LEN.
  set (h := [op] ++ sid ++ pid ++ ts).
  assert (length h = 17%nat) as Lh by (unfold h; rewrite !length_app, L1, L2, L3; done).
  rewrite (proj2 (Nat.ltb_ge _ _)) by (rewrite !length_app, Lh, L4; simpl; lia).
  change (slice (h ++ tag ++ ct) 0 (1 + 8 + 8)) with (slice ([] ++ h ++ tag ++ ct) 0 17).
  rewrite (slice_app3 [] h (tag ++ ct) 0 17) by (rewrite ?Lh; done). rsimp.
  assert (index h 0 = Ok op) as -> by done. rsimp.
  assert (slice h 1 9 = Ok sid) as -> by (apply (slice_app3 [op]); simpl; lia). rsimp.
  assert (slice h 9 13 = Ok pid) as ->.
  { unfold h. rewrite app_assoc. apply slice_app3; rewrite !length_app, ?L1, ?L2; done. }
  rsimp.
  rewrite (slice_app3 h tag ct (1 + 8 + 8) (1 + 8 + 8 + 32)) by (rewrite ?Lh, ?L4; done). rsimp.
  rewrite slice_from_ok by (rewrite !length_app, Lh, L4; simpl; lia). rsimp.
  rewrite slice_ok by (rewrite L4; lia). rsimp. rewrite drop_0, Nat.sub_0_r.
  rewrite (app_assoc h), drop_app_length' by (rewrite length_app, Lh, L4; done). done.
Qed.

Lemma tls_crypt_layout_split (w : bytes) :
  (49 <= length w)%nat ->
  exists op sid pid ts tag ct, w = layout op sid pid ts tag ct /\
    length sid = 8%nat /\ length pid = 4%nat /\ length ts = 4%nat /\ length tag = 32%nat.
Proof.
  intros Hl. destruct w as [|op w]; [simpl in Hl; lia|]. simpl in Hl.
  exists op, (take 8 w), (take 4 (drop 8 w)), (take 4 (drop 12 w)), (take 32 (drop 16 w)), (drop 48 w).
  split.
  - unfold layout. rewrite <-!app_assoc. simpl. f_equal.
    rewrite <-(take_drop 8 w) at 1. f_equal. rewrite <-(take_drop 4 (drop 8 w)) at 1. f_equal.
    rewrite drop_drop. rewrite <-(take_drop 4 (drop (8 + 4) w)) at 1. f_equal.
    rewrite drop_drop. rewrite <-(take_drop 32 (drop (8 + 4 + 4) w)) at 1. by rewrite drop_drop.
  - rewrite !length_take, !length_drop. lia.
Qed.

Section laws.
Context {C : CryptoApi} {CL : CryptoLaws C}.

(** The tag of the five fields. *)
Definition tag_of (key : bytes) (op : Z) (sid pid ts body : bytes) : bytes :=
  hmac_sha256 key (([op] ++ sid ++ pid ++ ts) ++ body).

Lemma tls_crypt_wrap_split k op sid body pid ts :
  length sid = 8%nat ->
  wrap k ([op] ++ sid ++ body) pid ts =
  let tag := tag_of (enc_hmac_key k) op sid (to_be 4 pid) (to_be 4 ts) body in
  Ok (layout op sid (to_be 4 pid) (to_be 4 ts) tag (aes256_ctr (enc_cipher_key k) (take 16 tag) body)).
Proof.
  intros L. unfold wrap.
  rewrite (proj2 (Nat.ltb_ge _ _)) by (rewrite !length_app; simpl; lia).
  unfold index. simpl lookup. unfold unwrap_opt. rsimp.
  rewrite (slice_app3 [op] sid _ 1 9) by (simpl; lia). rsimp.
  rewrite slice_from_ok by (rewrite !length_app; simpl; lia). rsimp.
  replace (drop 9 ([op] ++ sid ++ body)) with body.
  2: { rewrite app_assoc, drop_app_length'; [done|]. rewrite length_app. simpl. lia. }
  rewrite slice_ok by (rewrite hmac_sha256_length; lia). rsimp. by rewrite drop_0, Nat.sub_0_r.
Qed.

Lemma tls_crypt_unwrap_wrap k inner pid ts w :
  u32_ok pid -> wrap k inner pid ts = Ok w -> unwrap (mirror k) w = Ok (inner, pid).
Proof.
  intros Hp Hw. destruct (Nat.ltb_spec (length inner) 9) as [|Hl].
  { unfold wrap in Hw. by rewrite (proj2 (Nat.ltb_lt _ _)) in Hw. }
  destruct (inner_split inner Hl) as (op & sid & body & -> & L). rewrite tls_crypt_wrap_split in Hw by done.
  cbv zeta in Hw. injection Hw as <-.
  rewrite tls_crypt_unwrap_layout by (rewrite ?length_to_be; try done; apply hmac_sha256_length). cbv zeta.
  cbn [dec_cipher_key dec_hmac_key mirror]. rewrite aes256_ctr_involutive.
  rewrite from_to_be by by apply u32_be. by rewrite (proj2 (hmac_sha256_verify_iff _ _ _)).
Qed.

Lemma tls_crypt_authentic k w inner pid :
  bytes_ok w -> unwrap k w = Ok (inner, pid) ->
  bytes_ok inner /\ (9 <= length inner)%nat /\ u32_ok pid /\
  exists ts, u32_ok ts /\ wrap (mirror k) inner pid ts = Ok w.
Proof.
  intros Hok Hu. destruct (Nat.ltb_spec (length w) 49) as [Hs|Hl].
  { unfold unwrap, HEADER_LEN, TAG_LEN, PACKET_ID_LEN in Hu. by rewrite (proj2 (Nat.ltb_lt _ _)) in Hu. }
  destruct (tls_crypt_layout_split w Hl) as (op & sid & pidb & tsb & tag & ct & -> & L1 & L2 & L3 & L4).
  rewrite tls_crypt_unwrap_layout in Hu by done. cbv zeta in Hu. case_match eqn:Ev; [|done].
  injection Hu as <- <-. apply hmac_sha256_verify_iff in Ev.
  unfold layout in Hok. rewrite !Forall_app in Hok. destruct Hok as ((O1 & O2 & O3 & O4) & O5 & O6).
  split_and!.
  - apply (Forall_app_2 _ [op]); [done|]. apply Forall_app_2; [done|]. by apply aes256_ctr_bytes.
  - simpl. rewrite length_app, L1. lia.
  - by apply from_be_u32.
  - exists (from_be tsb). split; [by apply from_be_u32|].
    set (pt := aes256_ctr _ _ _) in *. change (op :: sid ++ pt) with ([op] ++ sid ++ pt).
    rewrite tls_crypt_wrap_split by done. cbv zeta. cbn [enc_cipher_key enc_hmac_key mirror]. unfold tag_of.
    pose proof (to_from_be pidb O3) as E3. pose proof (to_from_be tsb O4) as E4.
    rewrite L2 in E3. rewrite L3 in E4. rewrite E3, E4, <-Ev. unfold pt. by rewrite aes256_ctr_involutive.
Qed.

#[export] Instance tls_crypt_laws : EnvelopeLaws TlsCryptKey.
Proof.
  split; simpl.
  - by intros [].
  - intros k inner pid ts Hl. unfold wrap. rewrite (proj2 (Nat.ltb_lt _ _)) by done. eauto.
  - intros k inner pid ts Hl. destruct (inner_split inner Hl) as (op & sid & body & -> & L).
    rewrite tls_crypt_wrap_split by done. eauto.
  - intros k inner pid ts w ? _. by apply tls_crypt_unwrap_wrap.
  - intros k w. destruct (Nat.ltb_spec (length w) 49) as [Hs|Hl].
    { unfold unwrap, HEADER_LEN, TAG_LEN, PACKET_ID_LEN. by rewrite (proj2 (Nat.ltb_lt _ _)). }
    destruct (tls_crypt_layout_split w Hl) as (op & sid & pid & ts & tag & ct & -> & ? & ? & ? & ?).
    rewrite tls_crypt_unwrap_layout by done. cbv zeta. by case_match.
  - intros k w inner pid. apply tls_crypt_authentic.
Qed.
End laws.

(** ** Claims *)

(** C29: tls-crypt accepts exactly what the peer's keys produce: the peer's
    wrapping decrypts and verifies to the inner packet and packet id, and a
    packet the server accepts is, byte for byte, the peer's wrapping of what it
    returns (the tag pins the header, the plaintext and, through the IV, the
    ciphertext). *)
Theorem tls_crypt_exact {C : CryptoApi} {CL : CryptoLaws C} (k : TlsCryptKey) (inner w : bytes) (pid : Z) :
  bytes_ok w -> u32_ok pid ->
  unwrap k w = Ok (inner, pid) <-> exists ts, u32_ok ts /\ wrap (mirror k) inner pid ts = Ok w.
Proof.
  intros Hw Hp. split.
  - intros H. by destruct (tls_crypt_authentic k w inner pid) as (_ & _ & _ & ?).
  - intros (ts & Ht & H). rewrite <-(env_mirror_involutive (K := TlsCryptKey) k).
    by apply tls_crypt_unwrap_wrap with ts.
Qed.

Lemma tls_crypt_exact_witness :
  let km := Z.of_nat <$> seq 0 256 in
  let inner := [0x38; 1; 2; 3; 4; 5; 6; 7; 8; 104; 105] in
  exists k w, from_static_key_server km = Ok k /\ wrap (C := toy_crypto) (mirror k) inner 42 1700000000 = Ok w /\
    unwrap (C := toy_crypto) k w = Ok (inner, 42).
Proof.
  intros km inner.
  assert (exists k, from_static_key_server km = Ok k) as [k Hk] by (vm_compute; eauto).
  destruct (env_wrap_total (EnvelopeLaws := tls_crypt_laws (CL := toy_crypto_laws)) (mirror k) inner 42 1700000000)
    as [w Hw]; [vm_compute; lia|].
  exists k, w. split; [done|]. split; [done|].
  apply (tls_crypt_exact (CL := toy_crypto_laws) k inner w 42); try done.
  - vm_compute in Hk. injection Hk as <-. vm_compute in Hw. injection Hw as <-. repeat constructor; done.
  - exists 1700000000. split; [done|]. exact Hw.
Defined.

End TlsCrypt.
