(* ===== verification/Text.v ===== *)
(** * Text operations of Rust's standard library

    [str::lines], [trim], [starts_with], [split_once], [split_whitespace],
    [u32::from_str] and the [Display] of IPv4 addresses, on UTF-8 byte
    strings, as the configuration, NAT and static-key code use them. *)

From S2P Require Import Prelude Utf8.

Module Text.

Definition starts_with (s prefix : bytes) : bool := bool_decide (take (length prefix) s = prefix).

(** [str::lines]: pieces ended by a line feed, without it and without a
    carriage return before it; a last piece without line feed as it is. [acc] is
    the current line, reversed. *)
Definition strip_cr (rev_line : bytes) : bytes :=
  match rev_line with 13 :: r => reverse r | r => reverse r end.
Fixpoint lines_from (acc : bytes) (s : bytes) : list bytes :=
  match s with
  | [] => match acc with [] => [] | _ => [reverse acc] end
  | b :: r => if b =? 10 then strip_cr acc :: lines_from [] r else lines_from (b :: acc) r
  end.
Definition lines (s : bytes) : list bytes := lines_from [] s.

(** The number of bytes of a Unicode white-space character at the front (0 if
    there is none), and the same reading backwards. *)
Definition ws_front (s : bytes) : nat :=
  match s with
  | b :: r =>
    if Utf8.between 9 13 b || (b =? 32) then 1%nat else
    match b, r with
    | 0xC2, c :: _ => if (c =? 0x85) || (c =? 0xA0) then 2%nat else 0%nat
    | 0xE1, 0x9A :: 0x80 :: _ => 3%nat
    | 0xE2, 0x80 :: c :: _ =>
      if Utf8.between 0x80 0x8A c || (c =? 0xA8) || (c =? 0xA9) || (c =? 0xAF) then 3%nat else 0%nat
    | 0xE2, 0x81 :: 0x9F :: _ => 3%nat
    | 0xE3, 0x80 :: 0x80 :: _ => 3%nat
    | _, _ => 0%nat
    end
  | [] => 0%nat
  end.
Definition ws_back (s : bytes) : nat :=
  match s with
  | b :: r =>
    if Utf8.between 9 13 b || (b =? 32) then 1%nat else
    match r with
    | 0xC2 :: _ => if (b =? 0x85) || (b =? 0xA0) then 2%nat else 0%nat
    | 0x9A :: 0xE1 :: _ => if b =? 0x80 then 3%nat else 0%nat
    | 0x80 :: 0xE2 :: _ =>
      if Utf8.between 0x80 0x8A b || (b =? 0xA8) || (b =? 0xA9) || (b =? 0xAF) then 3%nat else 0%nat
    | 0x81 :: 0xE2 :: _ => if b =? 0x9F then 3%nat else 0%nat
    | 0x80 :: 0xE3 :: _ => if b =? 0x80 then 3%nat else 0%nat
    | _ => 0%nat
    end
  | [] => 0%nat
  end.
Fixpoint drop_ws (ws : bytes -> nat) (fuel : nat) (s : bytes) : bytes :=
  match fuel with
  | O => s
  | S fuel' => match ws s with O => s | n => drop_ws ws fuel' (drop n s) end
  end.
Definition trim_start (s : bytes) : bytes := drop_ws ws_front (length s) s.
Definition trim_end (s : bytes) : bytes := reverse (drop_ws ws_back (length s) (reverse s)).
Definition trim (s : bytes) : bytes := trim_end (trim_start s).

(** [std::fs::read_to_string]: the file's bytes, if it can be read and they
    are UTF-8. *)
Definition read_to_string (file : option bytes) (e : error) : result bytes :=
  text ← ok_or e file;
  if Utf8.valid_utf8 text then Ok text else Err e.

(** [split_once(c)] for an ASCII character. *)
Fixpoint split_once (c : Z) (s : bytes) : option (bytes * bytes) :=
  match s with
  | [] => None
  | b :: r => if b =? c then Some ([], r) else
              match split_once c r with Some (x, y) => Some (b :: x, y) | None => None end
  end.

(** [s.parse::<u32>()]: an optional [+], then at least one decimal digit, no
    overflow. *)
Fixpoint digits_u32 (acc : Z) (s : bytes) : option Z :=
  match s with
  | [] => Some acc
  | b :: r =>
    if Utf8.between 48 57 b then
      let v := acc * 10 + (b - 48) in
      if v <? 2 ^ 32 then digits_u32 v r else None
    else None
  end.
Definition parse_u32 (s : bytes) : option Z :=
  match s with
  | [] => None
  | 43 :: [] => None
  | 43 :: r => digits_u32 0 r
  | _ => digits_u32 0 s
  end.

(** [str::split_whitespace]: the maximal pieces without white space. [acc] is
    the current piece, reversed. *)
Definition push_word (acc : bytes) (ws : list bytes) : list bytes :=
  match acc with [] => ws | _ => reverse acc :: ws end.
Fixpoint words_from (fuel : nat) (acc s : bytes) : list bytes :=
  match fuel with
  | O => push_word acc []
  | S fuel' =>
    match s with
    | [] => push_word acc []
    | b :: r =>
      match ws_front s with
      | O => words_from fuel' (b :: acc) r
      | n => push_word acc (words_from fuel' [] (drop n s))
      end
    end
  end.
Definition split_whitespace (s : bytes) : list bytes := words_from (S (length s)) [] s.

(** [Ipv4Addr] as a [u32]; [Display] prints the dotted quad. *)
Definition octets (ip : Z) : bytes := to_be 4 ip.
Definition show_ipv4 (ip : Z) : bytes :=
  match octets ip with
  | [a; b; c; d] => Utf8.show a ++ [46] ++ Utf8.show b ++ [46] ++ Utf8.show c ++ [46] ++ Utf8.show d
  | _ => []
  end.

(** [Ipv6Addr] as a [u128]; [Display] prints the eight groups in hexadecimal,
    the first longest run of at least two zero groups as [::], and IPv4-mapped
    addresses in dotted form. *)
Fixpoint hex_fuel (fuel : nat) (n : Z) (acc : bytes) : bytes :=
  match fuel with
  | O => acc
  | S fuel' =>
    let d := n `mod` 16 in
    let c := if d <? 10 then 48 + d else 87 + d in
    if n <? 16 then c :: acc else hex_fuel fuel' (n / 16) (c :: acc)
  end.
Definition show_hex (n : Z) : bytes := hex_fuel 32 n [].

Definition segments (ip : Z) : list Z :=
  (fun i => (ip / 65536 ^ (7 - Z.of_nat i)) `mod` 65536) <$> seq 0 8.

(** (start, length) of the current run and of the longest one so far. *)
Fixpoint zero_run (i : nat) (cur best : nat * nat) (segs : list Z) : nat * nat :=
  match segs with
  | [] => best
  | g :: r =>
    if g =? 0 then
      let cur := ((if (cur.2 =? 0)%nat then i else cur.1), S cur.2) in
      zero_run (S i) cur (if (best.2 <? cur.2)%nat then cur else best) r
    else zero_run (S i) (0, 0)%nat best r
  end.

Fixpoint join (sep : bytes) (l : list bytes) : bytes :=
  match l with
  | [] => []
  | [x] => x
  | x :: r => x ++ sep ++ join sep r
  end.

Definition show_ipv6 (ip : Z) : bytes :=
  let segs := segments ip in
  if bool_decide (take 6 segs = [0; 0; 0; 0; 0; 0xFFFF])
  then str "::ffff:" ++ show_ipv4 (ip `mod` 2 ^ 32)
  else
    let '(start, len) := zero_run 0 (0, 0)%nat (0, 0)%nat segs in
    let fmt l := join (str ":") (show_hex <$> l) in
    if (1 <? len)%nat
    then fmt (take start segs) ++ str "::" ++ fmt (drop (start + len) segs)
    else fmt segs.

Example show_ipv6_loopback : show_ipv6 1 = str "::1".
Proof. reflexivity. Qed.
Example show_ipv6_ula : show_ipv6 (0xfd00beef * 2 ^ 96 + 0x1001) = str "fd00:beef::1001".
Proof. reflexivity. Qed.

(** ** Lines *)

(** A line that [lines] gives back unchanged. *)
Definition plain_line (l : bytes) : Prop := Forall (fun b => b <> 10 /\ b <> 13) l.

Lemma lines_from_plain l acc r :
  plain_line l -> lines_from acc (l ++ 10 :: r) = strip_cr (reverse l ++ acc) :: lines r.
Proof.
  intros Hl. revert acc. induction Hl as [|b l [Hb _] _ IH]; intros acc; simpl; [done|].
  rewrite (proj2 (Z.eqb_neq _ _)) by done. rewrite IH, reverse_cons, <-app_assoc. done.
Qed.

Lemma strip_cr_plain l : plain_line l -> strip_cr (reverse l) = l.
Proof.
  intros Hl. unfold strip_cr. destruct (reverse l) as [|b r] eqn:E.
  { by rewrite <-(reverse_involutive l), E. }
  assert (b ∈ l) as Hin by (apply elem_of_reverse; rewrite E; left).
  apply (proj1 (Forall_forall _ _) Hl) in Hin as [_ Hb].
  assert (reverse (b :: r) = l) as <- by by rewrite <-E, reverse_involutive.
  destruct b as [|p|]; try done. repeat (destruct p as [p|p|]; try done).
Qed.

Lemma lines_plain ls :
  Forall plain_line ls -> lines (concat ((fun l => l ++ [10]) <$> ls)) = ls.
Proof.
  induction 1 as [|l ls Hl _ IH]; [done|].
  change (concat ((fun l => l ++ [10]) <$> l :: ls)) with ((l ++ [10]) ++ concat ((fun l => l ++ [10]) <$> ls)).
  unfold lines. rewrite <-app_assoc. simpl. rewrite lines_from_plain by done.
  by rewrite app_nil_r, strip_cr_plain, IH.
Qed.

(** ** Trimming *)

(** Printable ASCII: no white space to trim. *)
Definition printable (b : Z) : Prop := 33 <= b < 127.

Lemma drop_ws_stop ws fuel s : ws s = 0%nat -> drop_ws ws fuel s = s.
Proof. intros H. destruct fuel; simpl; [done|]. by rewrite H. Qed.

Lemma between_false lo hi b : ~ (lo <= b <= hi) -> Utf8.between lo hi b = false.
Proof. unfold Utf8.between. intros. destruct (Z.leb_spec lo b), (Z.leb_spec b hi); try done; lia. Qed.

Lemma ws_front_printable b r : printable b -> ws_front (b :: r) = 0%nat.
Proof.
  unfold printable. intros Hb. unfold ws_front.
  rewrite between_false, (proj2 (Z.eqb_neq _ _)) by lia. cbn [orb].
  destruct (decide (b = 0xC2)), (decide (b = 0xE1)), (decide (b = 0xE2)), (decide (b = 0xE3)); try lia.
  destruct b as [|p|]; try done. do 8 (destruct p as [p|p|]; try done; try lia).
Qed.

Lemma ws_back_printable b r : printable b -> ws_back (b :: r) = 0%nat.
Proof.
  unfold printable. intros Hb. unfold ws_back.
  rewrite !between_false by lia. rewrite !(proj2 (Z.eqb_neq _ _)) by lia. cbn [orb].
  by repeat case_match.
Qed.

Lemma trim_printable s :
  (forall b, head s = Some b -> printable b) -> (forall b, last s = Some b -> printable b) -> trim s = s.
Proof.
  intros Hh Hl. unfold trim, trim_start. rewrite drop_ws_stop.
  2: { destruct s as [|b r]; [done|]. by apply ws_front_printable, Hh. }
  unfold trim_end. rewrite drop_ws_stop; [apply reverse_involutive|].
  destruct (reverse s) as [|b r] eqn:E; [done|]. apply ws_back_printable, Hl.
  rewrite <-(reverse_involutive s), E, reverse_cons. apply last_snoc.
Qed.

Lemma trim_all_printable s : Forall printable s -> trim s = s.
Proof.
  intros Hs. rewrite Forall_forall in Hs. apply trim_printable; intros b Hb; apply Hs.
  - by apply head_Some_elem_of.
  - by apply last_Some_elem_of.
Qed.

(** ** Decimal numbers *)

Definition digit (b : Z) : Prop := 48 <= b <= 57.

(** The value of a digit string read after [acc]. *)
Definition dec_value (acc : Z) (s : bytes) : Z := fold_left (fun v b => v * 10 + (b - 48)) s acc.

Lemma str_cons a s : str (String a s) = Z.of_N (N_of_ascii a) :: str s.
Proof. done. Qed.

Lemma pretty_char d : (d < 10)%N -> Z.of_N (N_of_ascii (pretty_N_char d)) = 48 + Z.of_N d.
Proof.
  intros Hd. destruct d as [|p]; [done|]. do 4 (destruct p as [p|p|]; try done; try lia).
Qed.

Lemma pretty_go_digits x s :
  Forall digit (str s) ->
  Forall digit (str (pretty_N_go x s)) /\ dec_value 0 (str (pretty_N_go x s)) = dec_value (Z.of_N x) (str s).
Proof.
  revert s. induction (N.lt_wf_0 x) as [x _ IH]. intros s Hs.
  destruct (decide (x = 0%N)) as [->|Hx]; [by rewrite pretty_N_go_0|]. rewrite pretty_N_go_step by lia.
  assert (x mod 10 < 10)%N as Hm by (by apply N.mod_upper_bound). pose proof (pretty_char _ Hm) as Hc.
  pose proof (N.div_mod x 10 ltac:(lia)) as Hdm.
  assert (x / 10 < x)%N as Hlt by (apply N.div_lt; lia).
  set (d := (x mod 10)%N) in *. set (q := (x / 10)%N) in *. clearbody d q.
  destruct (IH q Hlt (String (pretty_N_char d) s)) as [H1 H2].
  - rewrite str_cons, Hc. constructor; [|done]. unfold digit. lia.
  - split; [done|]. rewrite H2, str_cons, Hc. unfold dec_value. cbn [fold_left]. f_equal. lia.
Qed.

(** [Display] of an unsigned integer: at least one digit, and its value. *)
Lemma show_digits n : 0 <= n -> Utf8.show n <> [] /\ Forall digit (Utf8.show n) /\ dec_value 0 (Utf8.show n) = n.
Proof.
  intros Hn. unfold Utf8.show, pretty, pretty_Z. destruct n as [|p|p]; [|split|lia].
  - split; [done|]. split; [|done]. repeat constructor; vm_compute; done.
  - unfold pretty, pretty_positive, pretty, pretty_N. rewrite decide_False by done. rewrite pretty_N_go_step by lia.
    assert (forall x s, str s <> [] -> str (pretty_N_go x s) <> []) as Hne; [|by apply Hne].
    intros x. induction (N.lt_wf_0 x) as [x _ IH]. intros s Hs. destruct (decide (x = 0%N)) as [->|]; [by rewrite pretty_N_go_0|].
    rewrite pretty_N_go_step by lia. apply IH; [apply N.div_lt; lia|done].
  - unfold pretty, pretty_positive, pretty, pretty_N. rewrite decide_False by done.
    destruct (pretty_go_digits (N.pos p) "") as [H1 H2]; [constructor|]. split; [exact H1|exact H2].
Qed.

Lemma dec_value_mono s acc : Forall digit s -> 0 <= acc -> acc <= dec_value acc s.
Proof.
  intros Hs. revert acc. induction Hs as [|b s Hb _ IH]; intros acc Ha; [done|]. unfold digit in Hb.
  unfold dec_value in *. cbn [fold_left]. specialize (IH (acc * 10 + (b - 48))). lia.
Qed.

Lemma digits_u32_value s acc :
  Forall digit s -> 0 <= acc -> dec_value acc s < 2 ^ 32 -> digits_u32 acc s = Some (dec_value acc s).
Proof.
  intros Hs. revert acc. induction Hs as [|b s Hb Hs IH]; intros acc Ha Hv; [done|]. unfold digit in Hb.
  cbn [digits_u32]. unfold Utf8.between. rewrite (proj2 (Z.leb_le _ _)), (proj2 (Z.leb_le _ _)) by lia. cbn [andb].
  change (dec_value acc (b :: s)) with (dec_value (acc * 10 + (b - 48)) s) in *.
  pose proof (dec_value_mono s (acc * 10 + (b - 48)) Hs ltac:(lia)). cbv zeta.
  rewrite (proj2 (Z.ltb_lt _ _)) by lia. apply IH; lia.
Qed.

(** Printing and parsing a [u32]. *)
Lemma parse_u32_show n : u32_ok n -> parse_u32 (Utf8.show n) = Some n.
Proof.
  intros [H0 H1]. destruct (show_digits n H0) as (Hne & Hd & Hv).
  assert (digits_u32 0 (Utf8.show n) = Some n) as E by (rewrite digits_u32_value by (rewrite ?Hv; lia || done); by rewrite Hv).
  destruct (Utf8.show n) as [|b r]; [done|]. apply Forall_cons in Hd as [Hb _]. unfold digit in Hb. unfold parse_u32.
  destruct b as [|p|]; try done. do 6 (destruct p as [p|p|]; try exact E); lia.
Qed.

Lemma split_once_app c pre post : c ∉ pre -> split_once c (pre ++ c :: post) = Some (pre, post).
Proof.
  induction pre as [|b pre IH]; cbn [app split_once]; [by rewrite Z.eqb_refl|].
  intros [Hb Hpre]%not_elem_of_cons. rewrite (proj2 (Z.eqb_neq _ _)) by done. by rewrite IH.
Qed.

(** Reading a dotted quad back. *)
Definition read_octet (s : bytes) : option Z := v ← parse_u32 s; if v <? 256 then Some v else None.
Definition read_ipv4 (s : bytes) : option Z :=
  '(a, r) ← split_once 46 s; '(b, r) ← split_once 46 r; '(c, d) ← split_once 46 r;
  a ← read_octet a; b ← read_octet b; c ← read_octet c; d ← read_octet d;
  Some (from_be [a; b; c; d]).

Lemma not_digit c s : ~ digit c -> Forall digit s -> c ∉ s.
Proof. intros Hc Hs Hin. rewrite Forall_forall in Hs. by apply Hc, Hs. Qed.

Lemma read_octet_show v : u8_ok v -> read_octet (Utf8.show v) = Some v.
Proof.
  intros [H0 H1]. unfold read_octet. rewrite parse_u32_show by (unfold uint_ok; lia). cbn [mbind option_bind].
  by rewrite (proj2 (Z.ltb_lt _ _)) by lia.
Qed.

Lemma read_show_ipv4 ip : u32_ok ip -> read_ipv4 (show_ipv4 ip) = Some ip.
Proof.
  intros Hip. unfold show_ipv4, octets. pose proof (to_be_ok 4 ip) as Hok. pose proof (length_to_be 4 ip) as Hl.
  pose proof (from_to_be 4 ip (proj1 (u32_be ip) Hip)) as E.
  destruct (to_be 4 ip) as [|a [|b [|c [|d [|]]]]]; try done. rewrite !Forall_cons in Hok. destruct Hok as (Ha & Hb & Hc & Hd & _).
  assert (forall v, u8_ok v -> 46 ∉ Utf8.show v) as Hdot.
  { intros v [Hv _]. apply not_digit; [unfold digit; lia|]. by apply show_digits. }
  unfold read_ipv4. cbn [app]. rewrite split_once_app by auto. cbn [mbind option_bind].
  rewrite split_once_app by auto. cbn [mbind option_bind]. rewrite split_once_app by auto. cbn [mbind option_bind].
  rewrite read_octet_show by done. cbn [mbind option_bind]. rewrite read_octet_show by done. cbn [mbind option_bind].
  rewrite read_octet_show by done. cbn [mbind option_bind]. rewrite read_octet_show by done. cbn [mbind option_bind].
  by rewrite E.
Qed.

End Text.
