(* ===== verification/StaticKey.v ===== *)
(** * Static-key files (src/src/static_key.rs)

    [parse_static_key_text]: the PEM-like block of 256 bytes in hexadecimal.
    [hex::decode] is a parameter with the documented facts the parser relies
    on.  [parse_static_key_file] takes what reading the file gave: its contents,
    or nothing. *)

From S2P Require Import Prelude Utf8 Text.

Module StaticKey.

Definition STATIC_KEY_LEN : nat := 256.

(** [hex::decode] from the [hex] crate. *)
Class HexApi := { hex_decode : bytes -> option bytes }.

(** [format!("{:02x}", b)]. *)
Definition hex_digit (d : Z) : Z := if d <? 10 then 48 + d else 87 + d.
Definition hex_byte (b : Z) : bytes := [hex_digit (b / 16); hex_digit (b `mod` 16)].
Definition hex_encode (bs : bytes) : bytes := concat (hex_byte <$> bs).

Class HexLaws (H : HexApi) : Prop := {
  hex_decode_length s bs : hex_decode s = Some bs -> length s = (2 * length bs)%nat;
  hex_decode_encode bs : bytes_ok bs -> hex_decode (hex_encode bs) = Some bs;
}.

Definition BEGIN_MARK : bytes := str "-----BEGIN".
Definition END_MARK : bytes := str "-----END".

(** The loop over [text.lines()]: the state is [(inside, hex_buf)]. *)
Definition line_step (st : bool * bytes) (raw : bytes) : bool * bytes :=
  let '(inside, hex_buf) := st in
  let line := Text.trim raw in
  if Text.starts_with line BEGIN_MARK then (true, hex_buf)
  else if Text.starts_with line END_MARK then (false, hex_buf)
  else if inside && negb (bool_decide (line = [])) && negb (Text.starts_with line [35])
  then (inside, hex_buf ++ line)
  else (inside, hex_buf).

Definition parse_static_key_text `{HexApi} (text : bytes) : result bytes :=
  let '(_, hex_buf) := fold_left line_step (Text.lines text) (false, []) in
  if negb (length hex_buf =? STATIC_KEY_LEN * 2)%nat then Err (StaticKeyLength (length hex_buf)) else
  decoded ← ok_or StaticKeyHex (hex_decode hex_buf);
  (* out.copy_from_slice(&bytes) *)
  if (length decoded =? STATIC_KEY_LEN)%nat then Ok decoded else Panic.

Definition parse_static_key_file `{HexApi} (file : option bytes) : result bytes :=
  text ← Text.read_to_string file StaticKeyRead;
  parse_static_key_text text.


(** ** A computing instance *)

Definition hex_value (c : Z) : option Z :=
  if Utf8.between 48 57 c then Some (c - 48)
  else if Utf8.between 97 102 c then Some (c - 87)
  else if Utf8.between 65 70 c then Some (c - 55)
  else None.
Fixpoint hex_pairs (s : bytes) : option bytes :=
  match s with
  | [] => Some []
  | h :: l :: r =>
    match hex_value h, hex_value l, hex_pairs r with
    | Some a, Some b, Some bs => Some (a * 16 + b :: bs)
    | _, _, _ => None
    end
  | _ => None
  end.
Definition list_hex : HexApi := {| hex_decode := hex_pairs |}.

Lemma hex_value_digit d : 0 <= d < 16 -> hex_value (hex_digit d) = Some d.
Proof.
  intros Hd. unfold hex_digit, hex_value, Utf8.between.
  destruct (Z.ltb_spec d 10).
  - rewrite !(proj2 (Z.leb_le _ _)) by lia. simpl. f_equal. lia.
  - rewrite (proj2 (Z.leb_le 48 _)), (proj2 (Z.leb_gt _ 57)) by lia. simpl.
    rewrite !(proj2 (Z.leb_le _ _)) by lia. simpl. f_equal. lia.
Qed.

Lemma hex_pairs_length : forall s bs, hex_pairs s = Some bs -> length s = (2 * length bs)%nat.
Proof.
  fix IH 1. intros [|h [|l r]] bs; simpl; [by intros [= <-]|done|].
  destruct (hex_value h), (hex_value l), (hex_pairs r) as [bs'|] eqn:E; try done.
  intros [= <-]. apply IH in E. simpl. lia.
Qed.

Lemma list_hex_laws : HexLaws list_hex.
Proof.
  split; [apply hex_pairs_length|].
  intros bs Hbs. simpl. induction Hbs as [|b bs Hb _ IH]; [done|].
  change (hex_encode (b :: bs)) with (hex_digit (b / 16) :: hex_digit (b `mod` 16) :: hex_encode bs).
  unfold uint_ok in Hb. change (2 ^ 8) with 256 in Hb. cbn [hex_pairs].
  rewrite !hex_value_digit, IH.
  - do 2 f_equal. pose proof (Z.div_mod b 16). lia.
  - by apply Z.mod_pos_bound.
  - split; [apply Z.div_pos; lia|apply Z.div_lt_upper_bound; lia].
Qed.

(** ** A key file as [openvpn --genkey] prints it *)

Definition BEGIN_LINE : bytes := str "-----BEGIN OpenVPN Static key V1-----".
Definition END_LINE : bytes := str "-----END OpenVPN Static key V1-----".

(** Any division of the key into non-empty rows, one row of hex per line. *)
Definition build_pem (rows : list bytes) : bytes :=
  concat ((fun l => l ++ [10]) <$> (BEGIN_LINE :: (hex_encode <$> rows) ++ [END_LINE])).

Lemma hex_digit_range d : 0 <= d < 16 -> 48 <= hex_digit d < 103 /\ hex_digit d <> 45.
Proof. intros. unfold hex_digit. destruct (Z.ltb_spec d 10); lia. Qed.

Lemma hex_encode_chars bs :
  bytes_ok bs -> Forall (fun c => 48 <= c < 103) (hex_encode bs).
Proof.
  induction 1 as [|b bs Hb _ IH]; [constructor|]. unfold uint_ok in Hb. change (2 ^ 8) with 256 in Hb.
  change (hex_encode (b :: bs)) with ([hex_digit (b / 16); hex_digit (b `mod` 16)] ++ hex_encode bs).
  apply Forall_app_2; [|done]. rewrite !Forall_cons. split; [|split; [|done]].
  - apply hex_digit_range. split; [apply Z.div_pos; lia|apply Z.div_lt_upper_bound; lia].
  - apply hex_digit_range. by apply Z.mod_pos_bound.
Qed.

Lemma starts_with_head s p c d :
  head s = Some c -> head p = Some d -> c <> d -> Text.starts_with s p = false.
Proof.
  intros Hs Hp Hne. apply bool_decide_eq_false. intros E.
  destruct s as [|c' s], p as [|d' p]; try done. simpl in *. congruence.
Qed.

Lemma line_step_hex buf row :
  row <> [] -> bytes_ok row -> line_step (true, buf) (hex_encode row) = (true, buf ++ hex_encode row).
Proof.
  intros Hne Hok. unfold line_step. pose proof (hex_encode_chars row Hok) as Hc.
  rewrite Text.trim_all_printable by (eapply Forall_impl; [done|]; unfold Text.printable; simpl; lia).
  destruct row as [|b row]; [done|].
  assert (head (hex_encode (b :: row)) = Some (hex_digit (b / 16))) as Hh by done.
  apply Forall_cons in Hok as [Hb _]. unfold uint_ok in Hb. change (2 ^ 8) with 256 in Hb.
  destruct (hex_digit_range (b / 16)) as [Hd Hd'].
  { split; [apply Z.div_pos; lia|apply Z.div_lt_upper_bound; lia]. }
  rewrite !(starts_with_head _ _ _ 45 Hh), (starts_with_head _ _ _ 35 Hh) by (done || lia).
  by rewrite bool_decide_eq_false_2.
Qed.

Lemma fold_rows buf rows :
  Forall (fun r => r <> [] /\ bytes_ok r) rows ->
  fold_left line_step (hex_encode <$> rows) (true, buf) = (true, buf ++ hex_encode (concat rows)).
Proof.
  intros Hr. revert buf. induction Hr as [|row rows [Hne Hok] _ IH]; intros buf.
  { simpl. by rewrite app_nil_r. }
  rewrite fmap_cons. cbn [fold_left]. rewrite line_step_hex, IH by done. f_equal.
  rewrite <-app_assoc. f_equal. cbn [concat]. unfold hex_encode. by rewrite fmap_app, concat_app.
Qed.

(** ** Claims *)

(** Parsing returns, and gives 256 bytes. *)
Lemma parse_text_cases {H : HexApi} {HL : HexLaws H} text :
  (exists e, parse_static_key_text text = Err e) \/
  exists k, parse_static_key_text text = Ok k /\ length k = STATIC_KEY_LEN.
Proof.
  unfold parse_static_key_text. destruct (fold_left _ _ _) as [ins buf].
  destruct (Nat.eqb_spec (length buf) (STATIC_KEY_LEN * 2)) as [E|]; rsimp; [|eauto].
  destruct (hex_decode buf) as [bs|] eqn:Ed; rsimp; [|eauto]. apply hex_decode_length in Ed.
  rewrite (proj2 (Nat.eqb_eq _ _)) by lia. right. exists bs. split; [done|lia].
Qed.

Lemma parse_file_cases {H : HexApi} {HL : HexLaws H} file :
  (exists e, parse_static_key_file file = Err e) \/
  exists k, parse_static_key_file file = Ok k /\ length k = STATIC_KEY_LEN.
Proof.
  unfold parse_static_key_file, Text.read_to_string. destruct file as [t|]; rsimp; [|eauto].
  destruct (Utf8.valid_utf8 t); rsimp; [|eauto]. apply parse_text_cases.
Qed.

(** C26: a key file in the documented format parses to the key it holds: for
    every 256-byte key printed as rows of hexadecimal between the BEGIN and END
    markers, however the rows are cut; and parsing any text at all returns
    (with a 256-byte key or an error) without panicking. *)
Theorem static_key_roundtrip {H : HexApi} {HL : HexLaws H} :
  (forall rows, Forall (fun r => r <> [] /\ bytes_ok r) rows -> length (concat rows) = STATIC_KEY_LEN ->
     parse_static_key_text (build_pem rows) = Ok (concat rows)) /\
  (forall text, returns (parse_static_key_text text) /\
     forall k, parse_static_key_text text = Ok k -> length k = STATIC_KEY_LEN).
Proof.
  split.
  - intros rows Hr Hl. unfold parse_static_key_text, build_pem. rewrite Text.lines_plain.
    2: { constructor; [by repeat constructor|]. apply Forall_app_2; [|by repeat constructor].
         apply Forall_fmap. eapply Forall_impl; [done|]. intros r [_ Hok].
         eapply Forall_impl; [by apply hex_encode_chars|]. simpl. lia. }
    cbn [fold_left]. rewrite fold_left_app.
    change (line_step (false, []) BEGIN_LINE) with (true, [] : bytes).
    rewrite fold_rows by done. cbn [fold_left].
    assert (forall b, line_step (true, b) END_LINE = (false, b)) as -> by done. simpl app.
    assert (bytes_ok (concat rows)) as Hok.
    { apply Forall_concat. eapply Forall_impl; [done|]. by intros r [_ ?]. }
    pose proof (hex_decode_encode _ Hok) as Hd. pose proof (hex_decode_length _ _ Hd) as Hlen.
    rewrite Hlen, Hl. rewrite Nat.mul_comm, Nat.eqb_refl. rsimp. rewrite Hd. rsimp.
    by rewrite Hl.
  - intros text. destruct (parse_text_cases text) as [[e ->]|(k & -> & Hk)]; split; try done. by intros ? [= <-].
Qed.

Lemma static_key_roundtrip_witness :
  parse_static_key_text (H := list_hex) (build_pem [replicate 200 7; replicate 56 255])
  = Ok (replicate 200 7 ++ replicate 56 255).
Proof.
  refine (proj1 (static_key_roundtrip (HL := list_hex_laws)) [replicate 200 7; replicate 56 255] _ _).
  - repeat constructor; try done; apply Forall_replicate; done.
  - reflexivity.
Defined.

End StaticKey.
