(* ===== verification/Tls.v ===== *)
(** * The TLS session (src/src/tls.rs)

    The wrapper that drives a rustls [ServerConnection] by hand: bytes of
    control packets go in with [feed], handshake records and application data
    come out with [take_outgoing].  rustls and x509-parser are not part of this
    repository: they are the operations of [TlsApi], with the facts the wrapper
    relies on in [TlsLaws].  A configuration is an opaque value here;
    [build_server_config], which makes one out of the certificate and key files,
    is in [Certs]. *)

From S2P Require Import Prelude.

(** What [Reader::read] gives: bytes ([Ok(n)], no bytes for [Ok(0)]) or an
    error ([WouldBlock] or another; the caller stops on both). *)
Inductive read_outcome : Type :=
  | ReadBytes (bs : bytes)
  | ReadError.

Class TlsApi := {
  conn : Type;
  tls_config : Type;
  new_connection : tls_config -> option conn;
  (* read_tls(&mut data): bytes consumed from the front of [data], or an error *)
  read_tls : conn -> bytes -> conn * option nat;
  (* process_new_packets(): whether it succeeded *)
  process_new_packets : conn -> conn * bool;
  (* reader().read(&mut [u8; n]) *)
  reader_read : conn -> nat -> conn * read_outcome;
  (* write_tls(&mut Vec): the bytes written *)
  write_tls : conn -> conn * bytes;
  conn_is_handshaking : conn -> bool;
  (* writer().write_all(data): whether it succeeded *)
  writer_write_all : conn -> bytes -> conn * bool;
  peer_certificates : conn -> option (list bytes);
  (* X509Certificate::from_der, then for each common name its text if valid *)
  x509_common_names : bytes -> option (list (option bytes));
  (* the received application data not yet read *)
  plaintext_buffered : conn -> bytes;
}.

Class TlsLaws (T : TlsApi) : Prop := {
  (* std::io::Read on a slice never consumes more than the slice holds *)
  read_tls_bound c d c' n : read_tls c d = (c', Some n) -> (n <= length d)%nat;
  (* a read returns a non-empty prefix of the buffered plaintext, when there is any *)
  reader_read_some c n :
    (0 < n)%nat -> plaintext_buffered c <> [] ->
    exists c' k, reader_read c n = (c', ReadBytes (take k (plaintext_buffered c))) /\
      (0 < k <= length (plaintext_buffered c))%nat /\
      plaintext_buffered c' = drop k (plaintext_buffered c);
  reader_read_none c n :
    plaintext_buffered c = [] ->
    exists c' r, reader_read c n = (c', r) /\ (r = ReadBytes [] \/ r = ReadError) /\
      plaintext_buffered c' = [];
}.

Module Tls.
Section tls.
Context {T : TlsApi}.

Definition extract_common_name (cert_der : bytes) : result (option bytes) :=
  names ← ok_or X509Parse (x509_common_names cert_der);
  Ok (match names with
      | attr :: _ => attr
      | [] => None
      end).

Record TlsSession := MkTlsSession {
  tconn : conn;
  plaintext_in : bytes;
}.

Definition new (cfg : tls_config) : result TlsSession :=
  c ← ok_or TlsNewConnection (new_connection cfg);
  Ok (MkTlsSession c []).

(** The [while !data.is_empty()] loop. Every pass but the last consumes at
    least one byte. *)
Fixpoint feed_loop (fuel : nat) (c : conn) (data : bytes) : result unit * conn :=
  match fuel with
  | O => (Diverge, c)
  | S fuel' =>
    match data with
    | [] => (Ok tt, c)
    | _ =>
      match read_tls c data with
      | (c, None) => (Err TlsReadTls, c)
      | (c, Some O) => (Ok tt, c)
      | (c, Some n) =>
        match process_new_packets c with
        | (c, false) => (Err TlsProcess, c)
        | (c, true) => feed_loop fuel' c (drop n data)
        end
      end
    end
  end.

(** The loop that drains the plaintext, 4096 bytes at a time. *)
Fixpoint drain_loop (fuel : nat) (c : conn) (acc : bytes) : result unit * (conn * bytes) :=
  match fuel with
  | O => (Diverge, (c, acc))
  | S fuel' =>
    match reader_read c 4096 with
    | (c, ReadBytes []) => (Ok tt, (c, acc))
    | (c, ReadBytes bs) => drain_loop fuel' c (acc ++ bs)
    | (c, ReadError) => (Ok tt, (c, acc))
    end
  end.

Definition feed (data : bytes) : M TlsSession unit := fun t =>
  match feed_loop (S (length data)) (tconn t) data with
  | (Ok tt, c) =>
    let '(r, (c, acc)) := drain_loop (S (length (plaintext_buffered c))) c (plaintext_in t) in
    (r, MkTlsSession c acc)
  | (r, c) => (r, MkTlsSession c (plaintext_in t))
  end.

Definition take_outgoing (t : TlsSession) : bytes * TlsSession :=
  let '(c, buf) := write_tls (tconn t) in
  (buf, MkTlsSession c (plaintext_in t)).

Definition is_handshaking (t : TlsSession) : bool := conn_is_handshaking (tconn t).

Definition send_plaintext (data : bytes) : M TlsSession unit := fun t =>
  match writer_write_all (tconn t) data with
  | (c, true) => (Ok tt, MkTlsSession c (plaintext_in t))
  | (c, false) => (Err TlsWrite, MkTlsSession c (plaintext_in t))
  end.

(** [plaintext_in.drain(..n)]; panics when [n] is past the end. *)
Definition drain_plaintext (n : nat) : M TlsSession unit := fun t =>
  if (n <=? length (plaintext_in t))%nat
  then (Ok tt, MkTlsSession (tconn t) (drop n (plaintext_in t)))
  else (Panic, t).

Context {TL : TlsLaws T}.

Lemma feed_loop_returns fuel c data :
  (length data < fuel)%nat -> returns (feed_loop fuel c data).1.
Proof.
  revert c data. induction fuel as [|fuel IH]; intros c data Hf; [lia|]. cbn [feed_loop].
  destruct data as [|b data]; [done|].
  destruct (read_tls c (b :: data)) as [c1 [[|n]|]] eqn:E; [done| |done].
  destruct (process_new_packets c1) as [c2 []]; [|done].
  apply IH. rewrite length_drop. simpl in *. lia.
Qed.

Lemma drain_loop_all fuel c acc :
  (length (plaintext_buffered c) < fuel)%nat ->
  exists c', drain_loop fuel c acc = (Ok tt, (c', acc ++ plaintext_buffered c)) /\
             plaintext_buffered c' = [].
Proof.
  revert c acc. induction fuel as [|fuel IH]; intros c acc Hf; [lia|]. cbn [drain_loop].
  destruct (decide (plaintext_buffered c = [])) as [Hn|Hn].
  - destruct (reader_read_none c 4096 Hn) as (c' & r & -> & Hr & Hc').
    exists c'. rewrite Hn, app_nil_r. by destruct Hr as [-> | ->].
  - destruct (reader_read_some c 4096 ltac:(lia) Hn) as (c' & k & -> & Hk & Hc').
    destruct (plaintext_buffered c) as [|b bs]; [done|]. destruct k as [|k]; [lia|].
    destruct (IH c' (acc ++ take (S k) (b :: bs))) as (c2 & E & Hc2).
    { rewrite Hc', length_drop. simpl in *. lia. }
    exists c2. rewrite E, Hc', <-app_assoc, take_drop. done.
Qed.

Lemma feed_loop_errors fuel c data e c' :
  feed_loop fuel c data = (Err e, c') -> e = TlsReadTls \/ e = TlsProcess.
Proof.
  revert c data. induction fuel as [|fuel IH]; intros c data; cbn [feed_loop]; [done|].
  destruct data as [|b data]; [done|].
  destruct (read_tls c (b :: data)) as [c1 [[|n]|]]; [done| |intros [= <- <-]; by left].
  destruct (process_new_packets c1) as [c2 []]; [apply IH|intros [= <- <-]; by right].
Qed.

Lemma feed_returns data t : returns (feed data t).1.
Proof.
  pose proof (feed_loop_returns (S (length data)) (tconn t) data ltac:(lia)) as Hr. unfold feed.
  destruct (feed_loop _ _ _) as [[[]|e| |] c]; [|done..].
  by destruct (drain_loop_all (S (length (plaintext_buffered c))) c (plaintext_in t) ltac:(lia))
    as (c' & -> & _).
Qed.

(** C27: feeding the bytes of a control packet always returns.  An error
    leaves the collected plaintext as it was and is one of rustls' two; success
    appends to it exactly the application data that rustls had decrypted, in
    order, and leaves none of it unread in the connection. *)
Theorem feed_drains data t :
  exists r c, feed_loop (S (length data)) (tconn t) data = (r, c) /\
  match r with
  | Ok _ => exists c', feed data t = (Ok tt, MkTlsSession c' (plaintext_in t ++ plaintext_buffered c)) /\
                       plaintext_buffered c' = []
  | Err e => (e = TlsReadTls \/ e = TlsProcess) /\
             feed data t = (Err e, MkTlsSession c (plaintext_in t))
  | _ => False
  end.
Proof.
  pose proof (feed_loop_returns (S (length data)) (tconn t) data ltac:(lia)) as Hr.
  pose proof (feed_loop_errors (S (length data)) (tconn t) data) as He. unfold feed.
  destruct (feed_loop _ _ _) as [[[]|e| |] c] eqn:E; [| |done|done]; cycle 1.
  { exists (Err e), c. split; [done|]. split; [by apply (He e c)|done]. }
  exists (Ok tt), c. split; [done|].
  destruct (drain_loop_all (S (length (plaintext_buffered c))) c (plaintext_in t)) as (c' & -> & Hc');
    [lia|]. by exists c'.
Qed.

End tls.

(** ** A computing instance

    A TLS stack of three flights at most: the first record received completes
    the handshake and queues an answer, every later one is application data in
    clear.  It serves the concrete runs of the components above. *)
Record toy_conn := ToyConn {
  toy_in : bytes;
  toy_plain : bytes;
  toy_out : bytes;
  toy_handshaking : bool;
}.

Definition toy_process (c : toy_conn) : toy_conn * bool :=
  match toy_in c with
  | [] => (c, true)
  | 0 :: _ => (c, false)
  | b :: rest =>
    if toy_handshaking c
    then (ToyConn [] (toy_plain c ++ rest) (toy_out c ++ [b]) false, true)
    else (ToyConn [] (toy_plain c ++ rest) (toy_out c) false, true)
  end.

#[export] Instance toy_tls : TlsApi := {
  conn := toy_conn;
  tls_config := bool;
  new_connection cfg := if cfg then Some (ToyConn [] [] [] true) else None;
  read_tls c d := (ToyConn (toy_in c ++ d) (toy_plain c) (toy_out c) (toy_handshaking c), Some (length d));
  process_new_packets := toy_process;
  reader_read c n :=
    match toy_plain c with
    | [] => (c, ReadError)
    | p => (ToyConn (toy_in c) (drop n p) (toy_out c) (toy_handshaking c), ReadBytes (take n p))
    end;
  write_tls c := (ToyConn (toy_in c) (toy_plain c) [] (toy_handshaking c), toy_out c);
  conn_is_handshaking := toy_handshaking;
  writer_write_all c d := (ToyConn (toy_in c) (toy_plain c) (toy_out c ++ d) (toy_handshaking c), true);
  peer_certificates c := Some [str "alice"];
  x509_common_names der := Some [Some der];
  plaintext_buffered := toy_plain;
}.

#[export] Instance toy_tls_laws : TlsLaws toy_tls.
Proof.
  split.
  - intros c d c' n [= _ <-]. done.
  - intros c n Hn Hp. simpl in *. destruct (toy_plain c) as [|b p] eqn:E; [done|].
    exists (ToyConn (toy_in c) (drop n (b :: p)) (toy_out c) (toy_handshaking c)), (n `min` length (b :: p))%nat.
    split_and!; [| simpl; lia| simpl; lia |].
    + destruct (Nat.le_gt_cases n (length (b :: p))); [by rewrite Nat.min_l by done|].
      rewrite Nat.min_r by lia. by rewrite !take_ge by lia.
    + simpl. destruct (Nat.le_gt_cases n (length (b :: p))); [by rewrite Nat.min_l by done|].
      rewrite Nat.min_r by (simpl in *; lia). rewrite !drop_ge by (simpl in *; lia). done.
  - intros c n Hp. simpl in *. exists c, ReadError. rewrite Hp. auto.
Qed.

Lemma feed_drains_witness :
  TlsLaws toy_tls /\
  feed [22; 80; 85] (MkTlsSession (T:=toy_tls) (ToyConn [] [] [] true) [7]) =
    (Ok tt, MkTlsSession (T:=toy_tls) (ToyConn [] [] [22] false) [7; 80; 85]).
Proof.
  split; [apply _|].
  destruct (feed_drains [22; 80; 85] (MkTlsSession (T:=toy_tls) (ToyConn [] [] [] true) [7])) as (r & c & E & H).
  vm_compute in E. injection E as <- <-. destruct H as (c' & H & _).
  vm_compute in H. vm_compute. exact H || reflexivity.
Defined.

End Tls.
