(* ===== verification/Certs.v ===== *)
(** * Certificates and keys (src/src/tls.rs)

    [build_server_config]: the server's certificate chain and private key and
    the authorities that client certificates must come from, read from PEM
    files.  PEM decoding (rustls-pemfile) and the rustls builders are not part
    of this repository: they are the operations of [PemApi] and
    [TlsConfigApi].  A file is its contents, or [None] when it cannot be
    opened. *)

From S2P Require Import Prelude Tls.

Class PemApi := {
  (* rustls_pemfile::certs(..).collect(): the DER certificates, in order *)
  pem_certs : bytes -> option (list bytes);
  (* rustls_pemfile::private_key(..): Err, Ok(None) or Ok(Some(key)) *)
  pem_private_key : bytes -> option (option bytes);
}.

Class TlsConfigApi (T : TlsApi) := {
  client_verifier : Type;
  (* RootCertStore::add: the certificate can be a trust anchor *)
  root_accepts : bytes -> bool;
  (* WebPkiClientVerifier::builder(roots).build() *)
  verifier_build : list bytes -> option client_verifier;
  (* ServerConfig::builder().with_client_cert_verifier(v).with_single_cert(chain, key) *)
  with_single_cert : client_verifier -> list bytes -> bytes -> option tls_config;
}.

Module Certs.
Section certs.
Context {T : TlsApi} {P : PemApi} {TC : TlsConfigApi T}.

Definition load_certs (file : option bytes) : result (list bytes) :=
  f ← ok_or CertOpen file;
  certs ← ok_or CertParse (pem_certs f);
  match certs with
  | [] => Err NoCertificates
  | _ => Ok certs
  end.

Definition load_private_key (file : option bytes) : result bytes :=
  f ← ok_or KeyOpen file;
  key ← ok_or KeyParse (pem_private_key f);
  ok_or NoPrivateKey key.

(** [for c in load_certs(ca)? { roots.add(c)? }]. *)
Fixpoint add_roots (roots certs : list bytes) : result (list bytes) :=
  match certs with
  | [] => Ok roots
  | c :: rest => if root_accepts c then add_roots (roots ++ [c]) rest else Err CaRejected
  end.

Definition build_server_config (ca cert key : option bytes) : result tls_config :=
  cert_chain ← load_certs cert;
  private_key ← load_private_key key;
  cas ← load_certs ca;
  roots ← add_roots [] cas;
  verifier ← ok_or VerifierBuild (verifier_build roots);
  ok_or SingleCert (with_single_cert verifier cert_chain private_key).

Lemma load_certs_returns file : returns (load_certs file).
Proof. unfold load_certs. destruct file as [f|]; [|done]. rsimp. by destruct (pem_certs f) as [[|]|]. Qed.

Lemma load_certs_Ok file certs :
  load_certs file = Ok certs <-> exists f, file = Some f /\ pem_certs f = Some certs /\ certs <> [].
Proof.
  unfold load_certs. split.
  - destruct file as [f|]; [|done]. rsimp. destruct (pem_certs f) as [[|c cs]|] eqn:E; rsimp; [done| |done].
    intros [= <-]. by exists f.
  - intros (f & -> & E & Hne). rsimp. rewrite E. rsimp. by destruct certs.
Qed.

Lemma add_roots_spec certs roots :
  add_roots roots certs = if forallb root_accepts certs then Ok (roots ++ certs) else Err CaRejected.
Proof.
  revert roots. induction certs as [|c certs IH]; intros roots; simpl; [by rewrite app_nil_r|].
  destruct (root_accepts c); [|done]. rewrite IH, <-app_assoc. done.
Qed.

Lemma build_server_config_returns ca cert key : returns (build_server_config ca cert key).
Proof.
  unfold build_server_config. pose proof (load_certs_returns cert). pose proof (load_certs_returns ca).
  destruct (load_certs cert) as [chain| | |]; rsimp; try done. unfold load_private_key.
  destruct key as [f|]; rsimp; [|done]. destruct (pem_private_key f) as [[k|]|]; rsimp; try done.
  destruct (load_certs ca) as [cas| | |]; rsimp; try done. rewrite add_roots_spec.
  destruct (forallb _ _); rsimp; [|done]. destruct (verifier_build _); rsimp; [|done]. by destruct (with_single_cert _ _ _).
Qed.

(** The configuration comes from a client verifier over exactly the
    certificates of the CA file, of which there is at least one. *)
Lemma build_server_config_Ok ca cert key cfg :
  build_server_config ca cert key = Ok cfg <->
  exists chain k cas v, load_certs cert = Ok chain /\ load_private_key key = Ok k /\
    load_certs ca = Ok cas /\ forallb root_accepts cas = true /\
    verifier_build cas = Some v /\ with_single_cert v chain k = Some cfg.
Proof.
  unfold build_server_config. split.
  - destruct (load_certs cert) as [chain| | |]; rsimp; try done.
    destruct (load_private_key key) as [k| | |]; rsimp; try done.
    destruct (load_certs ca) as [cas| | |]; rsimp; try done. rewrite add_roots_spec.
    destruct (forallb _ _) eqn:Ef; rsimp; [|done]. rewrite app_nil_l.
    destruct (verifier_build cas) as [v|] eqn:Ev; rsimp; [|done].
    destruct (with_single_cert v chain k) as [c|] eqn:Ec; [|done]. intros [= <-]. by exists chain, k, cas, v.
  - intros (chain & k & cas & v & -> & -> & -> & Ef & Ev & Ec). rsimp. rewrite add_roots_spec, Ef. rsimp.
    rewrite app_nil_l, Ev. rsimp. by rewrite Ec.
Qed.

End certs.

(** ** A computing instance: a file is one DER object, an empty file none *)

Definition toy_pem : PemApi := {|
  pem_certs f := Some (match f with [] => [] | _ => [f] end);
  pem_private_key f := Some (match f with [] => None | _ => Some f end);
|}.

Definition toy_tls_config : TlsConfigApi Tls.toy_tls := {|
  client_verifier := list bytes;
  root_accepts _ := true;
  verifier_build roots := match roots with [] => None | _ => Some roots end;
  with_single_cert _ _ _ := Some (true : @tls_config Tls.toy_tls);
|}.

End Certs.
