(* ===== verification/Transport.v ===== *)
(** * Addresses and outbound transport (src/src/transport.rs)

    [std::net]'s addresses as decidable, countable types (they are the keys of
    the server's maps), and [Transport::send] over an explicit network: the
    datagrams put on the UDP socket and the queues of the open TCP writer
    channels. *)

From S2P Require Import Prelude.

(** [Ipv4Addr] and [Ipv6Addr] are the [u32] and the [u128] they convert to. *)
Inductive IpAddr : Type :=
  | V4 (a : Z)
  | V6 (a : Z).

(** [SocketAddr]; the IPv6 variant also carries flow info and scope id. *)
Inductive SocketAddr : Type :=
  | SockV4 (ip port : Z)
  | SockV6 (ip port flowinfo scope_id : Z).

#[export] Instance IpAddr_eq_dec : EqDecision IpAddr.
Proof. solve_decision. Defined.
#[export] Instance SocketAddr_eq_dec : EqDecision SocketAddr.
Proof. solve_decision. Defined.

#[export] Instance SocketAddr_countable : Countable SocketAddr.
Proof.
  refine (inj_countable'
    (fun a => match a with
              | SockV4 ip port => inl (ip, port)
              | SockV6 ip port f s => inr (ip, port, (f, s))
              end)
    (fun x => match x with
              | inl (ip, port) => SockV4 ip port
              | inr (ip, port, (f, s)) => SockV6 ip port f s
              end) _).
  by intros [].
Defined.

Module Transport.

(** The shared UDP socket is a single object, so the [Udp] variant keeps only
    the address; [Tcp] names the writer channel of one accepted stream. *)
Inductive Transport : Type :=
  | Udp (addr : SocketAddr)
  | Tcp (tx : nat).

#[export] Instance Transport_eq_dec : EqDecision Transport.
Proof. solve_decision. Defined.

Record Net := MkNet {
  (* what the kernel will answer to the next [send_to]s: false is an I/O error *)
  udp_answers : list bool;
  (* datagrams sent, oldest first *)
  udp_sent : list (SocketAddr * bytes);
  (* packets queued on the writer channels whose receiver still exists *)
  tcp_queues : gmap nat (list bytes);
}.

Definition send (t : Transport) (bs : bytes) : M Net unit := fun n =>
  match t with
  | Udp addr =>
    let n' := MkNet (tail (udp_answers n)) in
    if default true (head (udp_answers n))
    then (Ok tt, n' (udp_sent n ++ [(addr, bs)]) (tcp_queues n))
    else (Err UdpSendFailed, n' (udp_sent n) (tcp_queues n))
  | Tcp tx =>
    match tcp_queues n !! tx with
    | Some q => (Ok tt, MkNet (udp_answers n) (udp_sent n) (<[tx := q ++ [bs]]> (tcp_queues n)))
    | None => (Err TcpChannelClosed, n)
    end
  end.

(** The packets handed to the peer behind [t] so far. *)
Definition sent_to (t : Transport) (n : Net) : list bytes :=
  match t with
  | Udp addr => snd <$> filter (fun p : SocketAddr * bytes => p.1 = addr) (udp_sent n)
  | Tcp tx => default [] (tcp_queues n !! tx)
  end.

(** [send] adds the packet to its own peer's traffic or to nobody's. *)
Lemma send_sent t t' bs n r n' :
  send t bs n = (r, n') ->
  sent_to t' n' = sent_to t' n ++ (if is_ok r && bool_decide (t = t') then [bs] else []) /\ returns r.
Proof.
  unfold send. intros H. destruct t as [addr|tx]; [destruct (default true _)|destruct (tcp_queues n !! tx) eqn:E];
    injection H as <- <-; (split; [|done]); destruct t' as [addr'|tx']; simpl;
    try case_bool_decide as Hd; rewrite ?app_nil_r; try done.
  - injection Hd as ->. rewrite filter_app, fmap_app. f_equal. by rewrite filter_cons_True by done.
  - rewrite filter_app, fmap_app, filter_cons_False by (simpl; congruence). by rewrite app_nil_r.
  - injection Hd as ->. by rewrite lookup_insert_eq, E.
  - by rewrite lookup_insert_ne by congruence.
Qed.

End Transport.
