(* ===== verification/Config.v ===== *)
(** * Server configuration (src/src/config.rs)

    The configuration record, the defaults its [serde] attributes give to
    absent keys, and [ServerConfig::load].  The TOML parser is not part of this
    repository: [TomlApi] stands for it and yields the table of keys that are
    present, with the values already of their field's type. *)

From S2P Require Import Prelude Utf8 Text Transport.

Module Config.

(** Paths and strings are byte strings. *)
Record ClientConfig := MkClientConfig {
  assign_ip : option IpAddr;
  cc_push_routes : list bytes;
}.

Record ServerConfig := MkServerConfig {
  listen : SocketAddr;
  listen_tcp : option SocketAddr;
  ca : bytes;
  cert : bytes;
  key : bytes;
  tun_name : bytes;
  tun_ip : IpAddr;
  tun_netmask : IpAddr;
  client_pool_start : IpAddr;
  client_pool_end : IpAddr;
  cipher : bytes;
  tun_mtu : Z; (* u16 *)
  push_routes : list bytes;
  push_dns : list IpAddr;
  tun_ip6 : option IpAddr;
  tun_prefix6 : Z; (* u8 *)
  client_pool_start_v6 : option IpAddr;
  client_pool_end_v6 : option IpAddr;
  push_routes_v6 : list bytes;
  keepalive_ping : Z; (* u32 *)
  keepalive_timeout : Z; (* u32 *)
  tls_auth_key : option bytes;
  tls_auth_key_direction : Z; (* u8 *)
  tls_crypt_key : option bytes;
  enable_nat : bool;
  wan_iface : option bytes;
  reneg_sec : Z; (* u32 *)
  client_configs : gmap bytes ClientConfig;
}.

(** The target operating system decides the interface name. *)
Definition default_tun_name (macos : bool) : bytes := if macos then str "utun9" else str "javs0".
Definition default_cipher : bytes := str "AES-256-GCM".
Definition default_mtu : Z := 1500.
Definition default_keepalive_ping : Z := 10.
Definition default_keepalive_timeout : Z := 120.
Definition default_tls_auth_direction : Z := 1.
Definition default_reneg_sec : Z := 3600.
Definition default_tun_prefix6 : Z := 64.

(** The keys of the TOML document: mandatory ones, then those with a default. *)
Record RawConfig := MkRawConfig {
  raw_listen : SocketAddr;
  raw_ca : bytes;
  raw_cert : bytes;
  raw_key : bytes;
  raw_tun_ip : IpAddr;
  raw_tun_netmask : IpAddr;
  raw_client_pool_start : IpAddr;
  raw_client_pool_end : IpAddr;
  raw_listen_tcp : option SocketAddr;
  raw_tun_name : option bytes;
  raw_cipher : option bytes;
  raw_tun_mtu : option Z;
  raw_push_routes : option (list bytes);
  raw_push_dns : option (list IpAddr);
  raw_tun_ip6 : option IpAddr;
  raw_tun_prefix6 : option Z;
  raw_client_pool_start_v6 : option IpAddr;
  raw_client_pool_end_v6 : option IpAddr;
  raw_push_routes_v6 : option (list bytes);
  raw_keepalive_ping : option Z;
  raw_keepalive_timeout : option Z;
  raw_tls_auth_key : option bytes;
  raw_tls_auth_key_direction : option Z;
  raw_tls_crypt_key : option bytes;
  raw_enable_nat : option bool;
  raw_wan_iface : option bytes;
  raw_reneg_sec : option Z;
  raw_client_configs : option (gmap bytes ClientConfig);
}.

(** What [#[derive(Deserialize)]] with the [default] attributes builds. *)
Definition with_defaults (macos : bool) (r : RawConfig) : ServerConfig := {|
  listen := raw_listen r;
  listen_tcp := raw_listen_tcp r;
  ca := raw_ca r; cert := raw_cert r; key := raw_key r;
  tun_name := default (default_tun_name macos) (raw_tun_name r);
  tun_ip := raw_tun_ip r;
  tun_netmask := raw_tun_netmask r;
  client_pool_start := raw_client_pool_start r;
  client_pool_end := raw_client_pool_end r;
  cipher := default default_cipher (raw_cipher r);
  tun_mtu := default default_mtu (raw_tun_mtu r);
  push_routes := default [] (raw_push_routes r);
  push_dns := default [] (raw_push_dns r);
  tun_ip6 := raw_tun_ip6 r;
  tun_prefix6 := default default_tun_prefix6 (raw_tun_prefix6 r);
  client_pool_start_v6 := raw_client_pool_start_v6 r;
  client_pool_end_v6 := raw_client_pool_end_v6 r;
  push_routes_v6 := default [] (raw_push_routes_v6 r);
  keepalive_ping := default default_keepalive_ping (raw_keepalive_ping r);
  keepalive_timeout := default default_keepalive_timeout (raw_keepalive_timeout r);
  tls_auth_key := raw_tls_auth_key r;
  tls_auth_key_direction := default default_tls_auth_direction (raw_tls_auth_key_direction r);
  tls_crypt_key := raw_tls_crypt_key r;
  enable_nat := default false (raw_enable_nat r);
  wan_iface := raw_wan_iface r;
  reneg_sec := default default_reneg_sec (raw_reneg_sec r);
  client_configs := default ∅ (raw_client_configs r);
|}.

Class TomlApi := { toml_table : bytes -> option RawConfig }.

(** Deserialised addresses have the width of their type. *)
Definition ip_ok (a : IpAddr) : Prop :=
  match a with V4 v => u32_ok v | V6 v => uint_ok 128 v end.
Class TomlLaws (A : TomlApi) : Prop := {
  toml_pool_start text r : toml_table text = Some r -> ip_ok (raw_client_pool_start r);
}.

(** [eq_ignore_ascii_case]. *)
Definition ascii_lower (b : Z) : Z := if Utf8.between 65 90 b then b + 32 else b.
Definition eq_ignore_ascii_case (a b : bytes) : bool :=
  bool_decide (ascii_lower <$> a = ascii_lower <$> b).

Definition load `{TomlApi} (macos : bool) (file : option bytes) : result ServerConfig :=
  text ← Text.read_to_string file ConfigRead;
  raw ← ok_or ConfigParse (toml_table text);
  let cfg := with_defaults macos raw in
  if negb (eq_ignore_ascii_case (cipher cfg) (str "AES-256-GCM")) then Err UnsupportedCipher
  else Ok cfg.

End Config.
