(* ===== verification/Masquerade.v ===== *)
(** * Host NAT set-up (src/src/nat.rs)

    [enable_masquerade], the [Drop] of [NatGuard], and the helpers that read
    and write [/proc].  The host kernel and the [iptables] program are not part
    of this repository: [HostApi] stands for them and [HostLaws] says what
    [iptables -A] and [-D] do to the rule list.  The Linux versions of the
    functions are modelled; elsewhere they only return an error. *)

From S2P Require Import Prelude Utf8 Text.

(** A rule: table, chain, specification. *)
Definition rule : Type := bytes * bytes * list bytes.

Class HostApi := {
  host : Type;
  (* Command::new("iptables").args(args): the exit status is success *)
  iptables : host -> list bytes -> host * bool;
  (* contents of /proc/sys/net/ipv4/ip_forward, when readable *)
  proc_ip_forward : host -> option bytes;
  write_ip_forward : host -> bytes -> host * bool;
  (* contents of /proc/net/route *)
  proc_net_route : host -> option bytes;
  (* the installed rules *)
  rules : host -> list rule;
}.

(** [iptables [-t table] cmd chain spec..]; the table [filter] is the default. *)
Definition ipt_args (cmd : bytes) (r : rule) : list bytes :=
  let '(table, chain, spec) := r in
  (if bool_decide (table = str "filter") then [] else [str "-t"; table]) ++ [cmd; chain] ++ spec.

(** Remove the first occurrence. *)
Fixpoint remove_rule (r : rule) (l : list rule) : list rule :=
  match l with
  | [] => []
  | x :: l' => if bool_decide (x = r) then l' else x :: remove_rule r l'
  end.

Class HostLaws (H : HostApi) : Prop := {
  ipt_append h r h' ok : iptables h (ipt_args (str "-A") r) = (h', ok) ->
    rules h' = (if ok then rules h ++ [r] else rules h) /\ proc_ip_forward h' = proc_ip_forward h;
  (* deleting removes one copy of the rule, or fails, for want of the rule or
     for any other reason, and then changes nothing *)
  ipt_delete h r h' ok : iptables h (ipt_args (str "-D") r) = (h', ok) ->
    (if ok then r ∈ rules h /\ rules h' = remove_rule r (rules h) else rules h' = rules h) /\
    proc_ip_forward h' = proc_ip_forward h;
  write_forward h t h' ok : write_ip_forward h t = (h', ok) ->
    rules h' = rules h /\ (proc_ip_forward h' = if ok then Some t else proc_ip_forward h);
}.

Module Masquerade.
Section nat.
Context {H : HostApi}.

Record NatGuard := MkNatGuard {
  tun_iface : bytes;
  wan_iface : bytes;
  cidr : bytes;
  prior_ip_forward : option bool;
}.

Definition iptables_run (args : list bytes) : M host unit := fun h =>
  match iptables h args with
  | (h', true) => (Ok tt, h')
  | (h', false) => (Err (IptablesFailed args), h')
  end.

(** [let _ = ..], or a logged error. *)
Definition ignore_err {A} (m : M host A) : M host unit := fun h =>
  match m h with
  | (Ok _, h') | (Err _, h') => (Ok tt, h')
  | (Panic, h') => (Panic, h')
  | (Diverge, h') => (Diverge, h')
  end.

Definition read_ip_forward (h : host) : result bool :=
  s ← Text.read_to_string (proc_ip_forward h) IpForwardIo;
  Ok (bool_decide (Text.trim s = str "1")).

Definition set_ip_forward (on : bool) : M host unit := fun h =>
  match write_ip_forward h (if on then str "1" ++ [10] else str "0" ++ [10]) with
  | (h', true) => (Ok tt, h')
  | (h', false) => (Err IpForwardIo, h')
  end.

(** [u32::leading_ones]. *)
Fixpoint ones_from (n : nat) (v : Z) : nat :=
  match n with
  | O => O
  | S n' => if Z.testbit v (Z.of_nat n') then S (ones_from n' v) else O
  end.
Definition leading_ones (v : Z) : nat := ones_from 32 v.

Definition subnet_to_cidr (ip mask : Z) : bytes :=
  let prefix := leading_ones mask in
  let network := Z.land ip mask in
  Text.show_ipv4 network ++ str "/" ++ Utf8.show (Z.of_nat prefix).

(** The argument lists, as spelled in the source. *)
Definition masquerade_args (cmd cidr wan : bytes) : list bytes :=
  [str "-t"; str "nat"; cmd; str "POSTROUTING"; str "-s"; cidr; str "-o"; wan; str "-j"; str "MASQUERADE"].
Definition forward_args (cmd tun wan : bytes) : list bytes :=
  [cmd; str "FORWARD"; str "-i"; tun; str "-o"; wan; str "-j"; str "ACCEPT"].
Definition forward_back_args (cmd tun wan : bytes) : list bytes :=
  [cmd; str "FORWARD"; str "-i"; wan; str "-o"; tun; str "-m"; str "state"; str "--state";
   str "RELATED,ESTABLISHED"; str "-j"; str "ACCEPT"].

Definition enable_masquerade (tun wan : bytes) (tun_ip tun_netmask : Z) : M host NatGuard :=
  let cidr := subnet_to_cidr tun_ip tun_netmask in
  h ← get;
  let prior := match read_ip_forward h with Ok b => Some b | _ => None end in
  when_ (negb (bool_decide (prior = Some true))) (set_ip_forward true) ≫= fun _ =>
  ignore_err (iptables_run (masquerade_args (str "-D") cidr wan)) ≫= fun _ =>
  ignore_err (iptables_run (forward_args (str "-D") tun wan)) ≫= fun _ =>
  ignore_err (iptables_run (forward_back_args (str "-D") tun wan)) ≫= fun _ =>
  iptables_run (masquerade_args (str "-A") cidr wan) ≫= fun _ =>
  iptables_run (forward_args (str "-A") tun wan) ≫= fun _ =>
  iptables_run (forward_back_args (str "-A") tun wan) ≫= fun _ =>
  mret (MkNatGuard tun wan cidr prior).

Definition drop_guard (g : NatGuard) : M host unit :=
  ignore_err (iptables_run (forward_back_args (str "-D") (tun_iface g) (wan_iface g))) ≫= fun _ =>
  ignore_err (iptables_run (forward_args (str "-D") (tun_iface g) (wan_iface g))) ≫= fun _ =>
  ignore_err (iptables_run (masquerade_args (str "-D") (cidr g) (wan_iface g))) ≫= fun _ =>
  match prior_ip_forward g with
  | Some prev => ignore_err (set_ip_forward prev)
  | None => mret tt
  end.

(** The loop over the lines of [/proc/net/route] after the header. *)
Fixpoint find_default (ls : list bytes) : result bytes :=
  match ls with
  | [] => Err NoDefaultRoute
  | line :: rest =>
    let cols := Text.split_whitespace line in
    if (length cols <? 8)%nat then find_default rest else
    c1 ← index cols 1;
    if bool_decide (c1 = str "00000000") then index cols 0 else find_default rest
  end.

Definition detect_default_route_iface (h : host) : result bytes :=
  text ← Text.read_to_string (proc_net_route h) RouteFileIo;
  find_default (tail (Text.lines text)).

(** ** The rules behind the argument lists *)

Definition r_masquerade (cidr wan : bytes) : rule :=
  (str "nat", str "POSTROUTING", [str "-s"; cidr; str "-o"; wan; str "-j"; str "MASQUERADE"]).
Definition r_forward (tun wan : bytes) : rule :=
  (str "filter", str "FORWARD", [str "-i"; tun; str "-o"; wan; str "-j"; str "ACCEPT"]).
Definition r_forward_back (tun wan : bytes) : rule :=
  (str "filter", str "FORWARD",
   [str "-i"; wan; str "-o"; tun; str "-m"; str "state"; str "--state"; str "RELATED,ESTABLISHED";
    str "-j"; str "ACCEPT"]).

Definition nat_rules (tun wan cidr : bytes) : list rule :=
  [r_masquerade cidr wan; r_forward tun wan; r_forward_back tun wan].

Lemma masquerade_rule cmd cidr wan : masquerade_args cmd cidr wan = ipt_args cmd (r_masquerade cidr wan).
Proof. done. Qed.
Lemma forward_rule cmd tun wan : forward_args cmd tun wan = ipt_args cmd (r_forward tun wan).
Proof. done. Qed.
Lemma forward_back_rule cmd tun wan : forward_back_args cmd tun wan = ipt_args cmd (r_forward_back tun wan).
Proof. done. Qed.

Lemma remove_rule_absent r l : r ∉ l -> remove_rule r l = l.
Proof.
  induction l as [|x l IH]; [done|]. intros Hr. apply not_elem_of_cons in Hr as [Hx Hl]. simpl.
  by rewrite bool_decide_eq_false_2, IH.
Qed.
Lemma remove_rule_last r l : r ∉ l -> remove_rule r (l ++ [r]) = l.
Proof.
  induction l as [|x l IH]; simpl; [by rewrite bool_decide_eq_true_2|].
  intros Hr. apply not_elem_of_cons in Hr as [Hx Hl]. by rewrite bool_decide_eq_false_2, IH.
Qed.
Lemma remove_rule_perm r l : r ∈ l -> l ≡ₚ r :: remove_rule r l.
Proof.
  induction l as [|x l IH]; [by intros ?%not_elem_of_nil|]. simpl. intros Hr. case_bool_decide as Hx; [by subst|].
  apply elem_of_cons in Hr as [->|Hr]; [done|]. rewrite (IH Hr) at 1. apply Permutation_swap.
Qed.

(** The rules of the list that are not among [own], in their order. *)
Definition others (own l : list rule) : list rule := filter (fun r => r ∉ own) l.
Lemma others_own own l : l ⊆ own -> others own l = [].
Proof.
  intros Hl. unfold others. induction l as [|x l IH]; [done|]. rewrite filter_cons_False; [apply IH; set_solver|set_solver].
Qed.
Lemma others_app own l k : others own (l ++ k) = others own l ++ others own k.
Proof. apply filter_app. Qed.
Lemma others_remove own r l : r ∈ own -> others own (remove_rule r l) = others own l.
Proof.
  intros Hr. unfold others. induction l as [|x l IH]; [done|]. simpl. case_bool_decide as Hx; [subst; by rewrite filter_cons_False by tauto|].
  rewrite !filter_cons. by rewrite IH.
Qed.

(** One copy of each of [own] less. *)
Definition remove_rules (own l : list rule) : list rule := foldl (fun l r => remove_rule r l) l own.
Lemma remove_rules_absent own l : (forall r, r ∈ own -> r ∉ l) -> remove_rules own l = l.
Proof.
  unfold remove_rules. induction own as [|r own IH]; intros Ha; [done|]. simpl.
  rewrite remove_rule_absent by (apply Ha; set_solver). apply IH. set_solver.
Qed.

Lemma nat_rules_distinct tun wan cidr : NoDup (nat_rules tun wan cidr).
Proof.
  unfold nat_rules, r_masquerade, r_forward, r_forward_back.
  repeat (apply NoDup_cons; split; [rewrite ?elem_of_cons, elem_of_nil; intros E; repeat destruct E as [E|E]; discriminate || done|]).
  apply NoDup_nil_2.
Qed.

(** ** Setting up and undoing *)

(** Deleting a rule that is there works. *)
Definition deletes_work : Prop := forall h r, r ∈ rules h -> (iptables h (ipt_args (str "-D") r)).2 = true.
Definition proc_writable : Prop := forall h t, (write_ip_forward h t).2 = true.

(** [l'] is [l] after an attempt to remove one copy of each of [rs], all of them
    among [own]. *)
Record tidied (own rs l l' : list rule) : Prop := {
  td_others : others own l' = others own l;
  td_exact : deletes_work -> l' = remove_rules rs l;
}.
Lemma tidied_trans own rs1 rs2 l1 l2 l3 :
  tidied own rs1 l1 l2 -> tidied own rs2 l2 l3 -> tidied own (rs1 ++ rs2) l1 l3.
Proof.
  intros [A1 A2] [B1 B2]. split; [by etrans|]. intros Hw. unfold remove_rules. rewrite foldl_app.
  rewrite (B2 Hw), (A2 Hw). done.
Qed.

Context {HL : HostLaws H}.

Lemma delete_run own r h :
  r ∈ own ->
  exists h', ignore_err (iptables_run (ipt_args (str "-D") r)) h = (Ok tt, h') /\
    tidied own [r] (rules h) (rules h') /\ proc_ip_forward h' = proc_ip_forward h.
Proof.
  intros Hr. unfold ignore_err, iptables_run. destruct (iptables h _) as [h' ok] eqn:E.
  pose proof E as [Hd Hf]%ipt_delete. exists h'. destruct ok; (split; [done|]); (split; [|done]).
  - destruct Hd as [_ ->]. split; [by apply others_remove|done].
  - rewrite Hd. split; [done|]. intros Hw. simpl. rewrite remove_rule_absent; [done|]. intros Hin. apply Hw in Hin. by rewrite E in Hin.
Qed.

Lemma append_run r h :
  exists res h', iptables_run (ipt_args (str "-A") r) h = (res, h') /\
    proc_ip_forward h' = proc_ip_forward h /\
    ((res = Ok tt /\ rules h' = rules h ++ [r]) \/
     (res = Err (IptablesFailed (ipt_args (str "-A") r)) /\ rules h' = rules h)).
Proof.
  unfold iptables_run. destruct (iptables h _) as [h' ok] eqn:E.
  apply ipt_append in E as (Hr & Hf). destruct ok; eexists _, h'; auto.
Qed.

Lemma set_forward_run b h :
  exists res h', set_ip_forward b h = (res, h') /\ rules h' = rules h /\
    ((res = Ok tt /\ read_ip_forward h' = Ok b) \/
     (res = Err IpForwardIo /\ proc_ip_forward h' = proc_ip_forward h)).
Proof.
  unfold set_ip_forward. destruct (write_ip_forward h _) as [h' ok] eqn:E.
  apply write_forward in E as (Hr & Hf). destruct ok; eexists _, h'; (split; [done|]); (split; [done|]); [left|by right].
  split; [done|]. unfold read_ip_forward. rewrite Hf. by destruct b.
Qed.

Lemma read_ip_forward_ext h h' : proc_ip_forward h' = proc_ip_forward h -> read_ip_forward h' = read_ip_forward h.
Proof. unfold read_ip_forward. by intros ->. Qed.

(** Switching forwarding on, unless it is on. *)
Lemma forward_on h :
  let prior := match read_ip_forward h with Ok b => Some b | _ => None end in
  exists res h0, when_ (negb (bool_decide (prior = Some true))) (set_ip_forward true) h = (res, h0) /\
    rules h0 = rules h /\
    ((res = Ok tt /\ read_ip_forward h0 = Ok true) \/ (res = Err IpForwardIo /\ proc_ip_forward h0 = proc_ip_forward h)).
Proof.
  intros prior. case_bool_decide as Hp; cbn [negb when_].
  - exists (Ok tt), h. split; [done|]. split; [done|]. left. split; [done|]. unfold prior in Hp.
    by destruct (read_ip_forward h) as [[]| | |].
  - destruct (set_forward_run true h) as (res & h0 & E & R & [[-> F]|[-> F]]); eexists _, h0; eauto.
Qed.

(** The outcome of [enable_masquerade]: an attempt to remove stale rules, then
    the number of rules it installed, and the forwarding switch. *)
Lemma enable_outcome tun wan ip mask h :
  let own := nat_rules tun wan (subnet_to_cidr ip mask) in
  exists res h1, enable_masquerade tun wan ip mask h = (res, h1) /\
    ((res = Err IpForwardIo /\ rules h1 = rules h /\ proc_ip_forward h1 = proc_ip_forward h) \/
     exists l k, tidied own own (rules h) l /\ rules h1 = l ++ take k own /\ read_ip_forward h1 = Ok true /\
       match res with
       | Ok g => k = 3%nat /\
           g = MkNatGuard tun wan (subnet_to_cidr ip mask) (match read_ip_forward h with Ok b => Some b | _ => None end)
       | Err e => exists r, own !! k = Some r /\ e = IptablesFailed (ipt_args (str "-A") r)
       | _ => False
       end).
Proof.
  unfold enable_masquerade. set (cidr := subnet_to_cidr ip mask). msimp.
  set (prior := match read_ip_forward h with Ok b => Some b | _ => None end).
  destruct (forward_on h) as (res & h0 & E & R0 & [[-> F0]|[-> F0]]); fold prior in E.
  2: { rewrite E. exists (Err IpForwardIo), h0. auto. }
  rewrite E. rsimp. rewrite !masquerade_rule, !forward_rule, !forward_back_rule.
  set (r1 := r_masquerade cidr wan). set (r2 := r_forward tun wan). set (r3 := r_forward_back tun wan).
  change (nat_rules tun wan cidr) with [r1; r2; r3]. set (own := [r1; r2; r3]).
  destruct (delete_run own r1 h0) as (h1 & E1 & R1 & F1); [set_solver|]. msimp. rewrite E1.
  destruct (delete_run own r2 h1) as (h2 & E2 & R2 & F2); [set_solver|]. msimp. rewrite E2.
  destruct (delete_run own r3 h2) as (h3 & E3 & R3 & F3); [set_solver|]. msimp. rewrite E3.
  pose proof (tidied_trans _ _ _ _ _ _ (tidied_trans _ _ _ _ _ _ R1 R2) R3) as R. rewrite R0 in R.
  change (([r1] ++ [r2]) ++ [r3]) with own in R. clear R1 R2 R3.
  assert (forall hx, proc_ip_forward hx = proc_ip_forward h3 -> read_ip_forward hx = Ok true) as Hon.
  { intros hx Hx. rewrite <-F0. apply read_ip_forward_ext. congruence. }
  destruct (append_run r1 h3) as (q4 & h4 & E4 & F4 & [[-> R4]|[-> R4]]); msimp; rewrite E4.
  2: { eexists _, h4. split; [done|]. right. exists (rules h3), 0%nat. rewrite R4, app_nil_r. split_and!; auto. by exists r1. }
  destruct (append_run r2 h4) as (q5 & h5 & E5 & F5 & [[-> R5]|[-> R5]]); msimp; rewrite E5; rewrite R4 in R5.
  2: { eexists _, h5. split; [done|]. right. exists (rules h3), 1%nat. rewrite R5. split_and!; auto; [|by exists r2]. apply Hon. congruence. }
  destruct (append_run r3 h5) as (q6 & h6 & E6 & F6 & [[-> R6]|[-> R6]]); msimp; rewrite E6; rewrite R5 in R6.
  - eexists _, h6. split; [done|]. right. exists (rules h3), 3%nat. rewrite R6, <-!app_assoc. split_and!; auto. apply Hon. congruence.
  - eexists _, h6. split; [done|]. right. exists (rules h3), 2%nat. rewrite R6, <-app_assoc. split_and!; auto; [|by exists r3].
    apply Hon. congruence.
Qed.
Lemma enable_returns tun wan ip mask h : returns (enable_masquerade tun wan ip mask h).1.
Proof.
  destruct (enable_outcome tun wan ip mask h) as (res & h1 & -> & [[-> _]|(l & k & _ & _ & _ & Hr)]); [done|by destruct res].
Qed.

(** Removing the rules that were appended, the last one first. *)
Lemma remove_appended r1 r2 r3 l :
  NoDup [r1; r2; r3] -> remove_rules [r3; r2; r1] (l ++ [r1; r2; r3]) ≡ₚ l.
Proof.
  intros Hn. unfold remove_rules. cbn [foldl].
  assert (r1 <> r2 /\ r1 <> r3 /\ r2 <> r3) as (N12 & N13 & N23).
  { apply NoDup_cons in Hn as [H1 [H2 _]%NoDup_cons]. set_solver. }
  set (l0 := l ++ [r1; r2; r3]).
  assert (l0 ≡ₚ r3 :: remove_rule r3 l0) as P3 by (apply remove_rule_perm; set_solver). set (l1 := remove_rule r3 l0) in *.
  assert (r2 ∈ l1) as M2. { assert (r2 ∈ r3 :: l1) as M by (rewrite <-P3; set_solver). set_solver. }
  assert (r1 ∈ l1) as M1. { assert (r1 ∈ r3 :: l1) as M by (rewrite <-P3; set_solver). set_solver. }
  pose proof (remove_rule_perm r2 l1 M2) as P2. set (l2 := remove_rule r2 l1) in *.
  assert (r1 ∈ l2) as M1'. { assert (r1 ∈ r2 :: l2) as M by (by rewrite <-P2). set_solver. }
  pose proof (remove_rule_perm r1 l2 M1') as P1. set (l3 := remove_rule r1 l2) in *.
  rewrite P2, P1 in P3. apply (Permutation_app_inv_l [r3; r2; r1]). simpl. rewrite <-P3. unfold l0.
  rewrite (Permutation_app_comm l). simpl. rewrite (Permutation_swap r1), (Permutation_swap r1 r3).
  by rewrite (Permutation_swap r2 r3).
Qed.
Lemma remove_appended_absent r1 r2 r3 l :
  NoDup [r1; r2; r3] -> (forall r, r ∈ [r1; r2; r3] -> r ∉ l) -> remove_rules [r3; r2; r1] (l ++ [r1; r2; r3]) = l.
Proof.
  intros Hn Habs. unfold remove_rules. cbn [foldl].
  assert (r1 <> r2 /\ r1 <> r3 /\ r2 <> r3) as (N12 & N13 & N23).
  { apply NoDup_cons in Hn as [H1 [H2 _]%NoDup_cons]. set_solver. }
  assert (r1 ∉ l /\ r2 ∉ l /\ r3 ∉ l) as (A1 & A2 & A3) by (split_and!; apply Habs; set_solver).
  replace (l ++ [r1; r2; r3]) with (((l ++ [r1]) ++ [r2]) ++ [r3]) by by rewrite <-!app_assoc.
  rewrite remove_rule_last by set_solver. rewrite remove_rule_last by set_solver. by rewrite remove_rule_last.
Qed.

(** What dropping a guard does. *)
Lemma drop_outcome tun wan net prior h1 :
  let r1 := r_masquerade net wan in let r2 := r_forward tun wan in let r3 := r_forward_back tun wan in
  exists h2, drop_guard (MkNatGuard tun wan net prior) h1 = (Ok tt, h2) /\
    tidied (nat_rules tun wan net) [r3; r2; r1] (rules h1) (rules h2) /\
    (proc_writable -> forall b, prior = Some b -> read_ip_forward h2 = Ok b).
Proof.
  intros r1 r2 r3. unfold drop_guard. cbn [tun_iface wan_iface cidr prior_ip_forward].
  rewrite !masquerade_rule, !forward_rule, !forward_back_rule. msimp. fold r1 r2 r3.
  change (nat_rules tun wan net) with [r1; r2; r3]. set (own := [r1; r2; r3]).
  destruct (delete_run own r3 h1) as (h2 & E2 & R2 & F2); [set_solver|]. rewrite E2. msimp.
  destruct (delete_run own r2 h2) as (h3 & E3 & R3 & F3); [set_solver|]. rewrite E3. msimp.
  destruct (delete_run own r1 h3) as (h4 & E4 & R4 & F4); [set_solver|]. rewrite E4. msimp.
  pose proof (tidied_trans _ _ _ _ _ _ (tidied_trans _ _ _ _ _ _ R2 R3) R4) as R. cbn [app] in R.
  destruct prior as [b|]; [|by exists h4].
  unfold ignore_err. destruct (set_forward_run b h4) as (q & h5 & E5 & R5 & Hq). rewrite E5.
  exists h5. rewrite R5. split; [by destruct Hq as [[-> _]|[-> _]]|]. split; [done|].
  intros Hw b' [= <-]. destruct Hq as [[_ F]|[-> _]]; [done|]. exfalso. revert E5. unfold set_ip_forward.
  specialize (Hw h4 (if b then str "1" ++ [10] else str "0" ++ [10])). destruct (write_ip_forward h4 _) as [? []]; done.
Qed.

(** The rules a guard stands for. *)
Definition guard_rules (g : NatGuard) : list rule := nat_rules (tun_iface g) (wan_iface g) (cidr g).

(** The host [h'] is [h] after the rules [own] were set up and undone.  Rules of
    others are always as before.  If deleting rules works, one copy of each rule
    of [own] that was there before is gone (the stale rules of an earlier run),
    and if none was there the rules are exactly as before.  If [/proc] can be
    written, forwarding is switched as it was, provided that could be read. *)
Record given_back (own : list rule) (h h' : host) : Prop := {
  gb_others : others own (rules h') = others own (rules h);
  gb_rules : deletes_work -> rules h' ≡ₚ remove_rules own (rules h);
  gb_exact : deletes_work -> (forall r, r ∈ own -> r ∉ rules h) -> rules h' = rules h;
  gb_forward : proc_writable -> forall b, read_ip_forward h = Ok b -> read_ip_forward h' = Ok b;
}.

Lemma enable_drop_given_back tun wan ip mask h g h1 h2 :
  enable_masquerade tun wan ip mask h = (Ok g, h1) -> rules h2 = rules h1 ->
  exists h3, drop_guard g h2 = (Ok tt, h3) /\ given_back (guard_rules g) h h3.
Proof.
  intros E R2. destruct (enable_outcome tun wan ip mask h) as (res & h1' & E' & Hr). rewrite E in E'. injection E' as <- <-.
  destruct Hr as [[? _]|(l & k & [T1 T2] & R1 & _ & -> & ->)]; [done|]. rewrite firstn_all2 in R1 by done.
  unfold guard_rules. cbn [tun_iface wan_iface cidr]. set (net := subnet_to_cidr ip mask) in *.
  edestruct (drop_outcome tun wan net) as (h3 & E3 & [T3 T4] & F). exists h3. split; [exact E3|].
  rewrite R2, R1 in T3, T4. pose proof (nat_rules_distinct tun wan net) as Hn.
  split; [|intros Hw; rewrite (T4 Hw), (T2 Hw); by apply remove_appended| |].
  - rewrite T3, others_app, T1, (others_own _ (nat_rules tun wan net)), app_nil_r by done. done.
  - intros Hw Habs. rewrite (T4 Hw), (T2 Hw), (remove_rules_absent (nat_rules tun wan net)) by done. by apply remove_appended_absent.
  - intros Hw b Hb. apply F; [done|]. by rewrite Hb.
Qed.

End nat.

(** ** A computing instance: a host that refuses to append one given rule *)
Record toy_host := ToyHost {
  th_rules : list rule;
  th_forward : bytes;
  th_refuses : option rule;
}.

Definition toy_rule (args : list bytes) : option (bytes * rule) :=
  match args with
  | a :: b :: rest =>
    if bool_decide (a = str "-t") then
      match rest with
      | cmd :: chain :: spec => Some (cmd, (b, chain, spec))
      | _ => None
      end
    else Some (a, (str "filter", b, rest))
  | _ => None
  end.

Definition toy_iptables (h : toy_host) (args : list bytes) : toy_host * bool :=
  match toy_rule args with
  | Some (cmd, r) =>
    if bool_decide (cmd = str "-A") then
      if bool_decide (th_refuses h = Some r) then (h, false)
      else (ToyHost (th_rules h ++ [r]) (th_forward h) (th_refuses h), true)
    else if bool_decide (cmd = str "-D") then
      if bool_decide (r ∈ th_rules h)
      then (ToyHost (remove_rule r (th_rules h)) (th_forward h) (th_refuses h), true) else (h, false)
    else (h, false)
  | None => (h, false)
  end.

Definition toy_nat : HostApi := {|
  host := toy_host;
  iptables := toy_iptables;
  proc_ip_forward h := Some (th_forward h);
  write_ip_forward h t := (ToyHost (th_rules h) t (th_refuses h), true);
  proc_net_route h := None;
  rules := th_rules;
|}.

Lemma toy_rule_args cmd r : cmd <> str "-t" -> toy_rule (ipt_args cmd r) = Some (cmd, r).
Proof.
  intros Hc. destruct r as [[t c] spec]. unfold ipt_args. case_bool_decide as Ht; cbn [app toy_rule].
  - by rewrite bool_decide_eq_false_2, Ht.
  - done.
Qed.

Lemma toy_nat_laws : HostLaws toy_nat.
Proof.
  split; cbn -[ipt_args str]; unfold toy_iptables.
  - intros h r h' ok. rewrite toy_rule_args by done. rewrite (bool_decide_eq_true_2 (str "-A" = str "-A")) by done.
    case_bool_decide; by intros [= <- <-].
  - intros h r h' ok. rewrite toy_rule_args by done. rewrite (bool_decide_eq_false_2 (str "-D" = str "-A")) by done.
    rewrite (bool_decide_eq_true_2 (str "-D" = str "-D")) by done. case_bool_decide; by intros [= <- <-].
  - intros h t h' ok [= <- <-]. done.
Qed.

Definition toy_ip : Z := 0x0A080001.
Definition toy_mask : Z := 0xFFFFFF00.

End Masquerade.
