(* ===== verification/TunDev.v ===== *)
(** * The TUN device (src/src/tun_dev.rs)

    Opening the device through the tun crate and attaching an IPv6 address with
    the [ip] program.  Both are effects on the host: the operations of
    [TunApi]; what the rest of the server relies on is that they leave the
    iptables rules and the forwarding switch alone ([TunLaws]).  The Linux
    implementation; elsewhere [add_ipv6] only returns an error. *)

From S2P Require Import Prelude Utf8 Text Transport Masquerade.

(** [tun::Configuration]. *)
Record TunConfiguration := MkTunConfiguration {
  tc_name : bytes;
  tc_address : Transport.IpAddr;
  tc_netmask : Transport.IpAddr;
  tc_mtu : Z;
  tc_up : bool;
}.

Class TunApi (H : HostApi) := {
  (* tun::create_as_async(&config): whether it succeeded *)
  tun_create_as_async : TunConfiguration -> host -> host * bool;
  (* Command::new("ip").args(args): the exit status is success *)
  ip_command : list bytes -> host -> host * bool;
}.

Class TunLaws (H : HostApi) (T : TunApi H) : Prop := {
  tun_create_rules c h : rules (tun_create_as_async c h).1 = rules h;
  tun_create_forward c h : proc_ip_forward (tun_create_as_async c h).1 = proc_ip_forward h;
  ip_command_rules args h : rules (ip_command args h).1 = rules h;
  ip_command_forward args h : proc_ip_forward (ip_command args h).1 = proc_ip_forward h;
}.

Module TunDev.
Section tun.
Context {H : HostApi} {T : TunApi H}.

Definition create (name : bytes) (ip netmask : Transport.IpAddr) (mtu : Z) : M host unit := fun h =>
  match tun_create_as_async (MkTunConfiguration name ip netmask mtu true) h with
  | (h', true) => (Ok tt, h')
  | (h', false) => (Err TunCreate, h')
  end.

Definition add_ipv6 (iface : bytes) (addr prefix : Z) : M host unit := fun h =>
  let cidr := Text.show_ipv6 addr ++ str "/" ++ Utf8.show prefix in
  match ip_command [str "-6"; str "addr"; str "add"; cidr; str "dev"; iface] h with
  | (h', true) => (Ok tt, h')
  | (h', false) => (Err IpAddrAddFailed, h')
  end.

Context {TL : TunLaws H T}.

Lemma create_frame name ip netmask mtu h :
  let y := create name ip netmask mtu h in
  returns y.1 /\ rules y.2 = rules h /\ proc_ip_forward y.2 = proc_ip_forward h.
Proof.
  unfold create. set (c := MkTunConfiguration _ _ _ _ _).
  pose proof (tun_create_rules c h) as Hr. pose proof (tun_create_forward c h) as Hf.
  by destruct (tun_create_as_async c h) as [h' []].
Qed.

Lemma add_ipv6_frame iface addr prefix h :
  let y := add_ipv6 iface addr prefix h in
  returns y.1 /\ rules y.2 = rules h /\ proc_ip_forward y.2 = proc_ip_forward h.
Proof.
  unfold add_ipv6. set (args := [_; _; _; _; _; _]).
  pose proof (ip_command_rules args h) as Hr. pose proof (ip_command_forward args h) as Hf.
  by destruct (ip_command args h) as [h' []].
Qed.

End tun.

(** ** A computing instance, on the host of [Masquerade] *)

Definition toy_tun : TunApi Masquerade.toy_nat := {|
  tun_create_as_async _ h := (h, true);
  ip_command _ h := (h, true);
|}.

Lemma toy_tun_laws : TunLaws Masquerade.toy_nat toy_tun.
Proof. by split. Qed.

End TunDev.
