(* ===== verification/Session.v ===== *)
(** * Per-client connection state (src/src/session.rs)

    The [Session] record with every field of the source, its key slots, the
    rekey track, the reliability layer (packet ids, acknowledgements,
    retransmission), the construction of control packets and of data packets.
    A method taking [&mut self] is a computation in [M Session]; time
    ([Instant::now()], in nanoseconds) and random bytes are arguments. *)

From S2P Require Import Prelude Replay Buf Protocol Primitives Crypto Prf Tls Transport.

Module Session.
Import Transport Replay Crypto.
Abbreviation TlsSession := Tls.TlsSession.

Definition MAX_TLS_PAYLOAD_PER_CONTROL : nat := 1100.
(** [Duration]s and [Instant]s are in nanoseconds. *)
Definition SECOND : Z := 1000000000.
Definition CONTROL_BASE_RTO : Z := 2 * SECOND.
Definition CONTROL_MAX_ATTEMPTS : Z := 6.

(** [now.duration_since(t)], which saturates at zero. *)
Definition duration_since (now t : Z) : Z := Z.max 0 (now - t).

Record Unacked := MkUnacked {
  u_packet_id : Z;
  u_encoded : bytes;
  u_sent_at : Z;
  u_attempts : Z; (* u32 *)
}.

Record KeySlot := MkKeySlot {
  ks_key_id : Z;
  ks_cipher : DataCipher;
  ks_data_pid_out : Z;
  ks_replay : ReplayWindow;
}.

Inductive RekeyState : Type := RkHandshaking | RkKeyExchange.

Inductive State : Type :=
  | WaitingHardReset | Handshaking | KeyExchange | PushPending | Established | Closed.

#[export] Instance RekeyState_eq_dec : EqDecision RekeyState.
Proof. solve_decision. Defined.
#[export] Instance State_eq_dec : EqDecision State.
Proof. solve_decision. Defined.

Section session.
Context {B : BufApi} {C : CryptoApi} {T : TlsApi}.

Record RekeyTrack := MkRekeyTrack {
  rk_key_id : Z;
  rk_tls : TlsSession;
  rk_state : RekeyState;
  rk_server_random1 : bytes;
  rk_server_random2 : bytes;
  rk_key_method_sent : bool;
}.

Record Session := MkSession {
  server_session_id : Z;
  client_session_id : Z;
  state : State;
  next_packet_id : Z;
  pending_acks : list Z;
  received_pids : gset Z;
  tls : TlsSession;
  assigned_ip : option IpAddr;
  assigned_ip_v6 : option Z;
  peer_id : Z;
  transport : Transport;
  slots : list (option KeySlot);
  active_slot_idx : nat;
  tls_auth_pid_out : Z;
  tls_auth_replay : ReplayWindow;
  client_random1 : option bytes;
  client_random2 : option bytes;
  client_pre_master : option bytes;
  server_random1 : bytes;
  server_random2 : bytes;
  client_options : option bytes;
  client_peer_info : option bytes;
  client_cn : option bytes;
  unacked : list Unacked;
  rekey : option RekeyTrack;
  last_rekey_at : Z;
  last_seen : Z;
}.

Definition set_client_session_id (v : Z) (s : Session) : Session :=
  MkSession
    (server_session_id s) v (state s) (next_packet_id s) (pending_acks s) (received_pids s) (tls s)
    (assigned_ip s) (assigned_ip_v6 s) (peer_id s) (transport s) (slots s) (active_slot_idx s)
    (tls_auth_pid_out s) (tls_auth_replay s) (client_random1 s) (client_random2 s)
    (client_pre_master s) (server_random1 s) (server_random2 s) (client_options s) (client_peer_info
    s) (client_cn s) (unacked s) (rekey s) (last_rekey_at s) (last_seen s).
Definition set_state (v : State) (s : Session) : Session :=
  MkSession
    (server_session_id s) (client_session_id s) v (next_packet_id s) (pending_acks s) (received_pids
    s) (tls s) (assigned_ip s) (assigned_ip_v6 s) (peer_id s) (transport s) (slots s)
    (active_slot_idx s) (tls_auth_pid_out s) (tls_auth_replay s) (client_random1 s) (client_random2
    s) (client_pre_master s) (server_random1 s) (server_random2 s) (client_options s)
    (client_peer_info s) (client_cn s) (unacked s) (rekey s) (last_rekey_at s) (last_seen s).
Definition set_next_packet_id (v : Z) (s : Session) : Session :=
  MkSession
    (server_session_id s) (client_session_id s) (state s) v (pending_acks s) (received_pids s) (tls
    s) (assigned_ip s) (assigned_ip_v6 s) (peer_id s) (transport s) (slots s) (active_slot_idx s)
    (tls_auth_pid_out s) (tls_auth_replay s) (client_random1 s) (client_random2 s)
    (client_pre_master s) (server_random1 s) (server_random2 s) (client_options s) (client_peer_info
    s) (client_cn s) (unacked s) (rekey s) (last_rekey_at s) (last_seen s).
Definition set_pending_acks (v : list Z) (s : Session) : Session :=
  MkSession
    (server_session_id s) (client_session_id s) (state s) (next_packet_id s) v (received_pids s)
    (tls s) (assigned_ip s) (assigned_ip_v6 s) (peer_id s) (transport s) (slots s) (active_slot_idx
    s) (tls_auth_pid_out s) (tls_auth_replay s) (client_random1 s) (client_random2 s)
    (client_pre_master s) (server_random1 s) (server_random2 s) (client_options s) (client_peer_info
    s) (client_cn s) (unacked s) (rekey s) (last_rekey_at s) (last_seen s).
Definition set_received_pids (v : gset Z) (s : Session) : Session :=
  MkSession
    (server_session_id s) (client_session_id s) (state s) (next_packet_id s) (pending_acks s) v (tls
    s) (assigned_ip s) (assigned_ip_v6 s) (peer_id s) (transport s) (slots s) (active_slot_idx s)
    (tls_auth_pid_out s) (tls_auth_replay s) (client_random1 s) (client_random2 s)
    (client_pre_master s) (server_random1 s) (server_random2 s) (client_options s) (client_peer_info
    s) (client_cn s) (unacked s) (rekey s) (last_rekey_at s) (last_seen s).
Definition set_tls (v : TlsSession) (s : Session) : Session :=
  MkSession
    (server_session_id s) (client_session_id s) (state s) (next_packet_id s) (pending_acks s)
    (received_pids s) v (assigned_ip s) (assigned_ip_v6 s) (peer_id s) (transport s) (slots s)
    (active_slot_idx s) (tls_auth_pid_out s) (tls_auth_replay s) (client_random1 s) (client_random2
    s) (client_pre_master s) (server_random1 s) (server_random2 s) (client_options s)
    (client_peer_info s) (client_cn s) (unacked s) (rekey s) (last_rekey_at s) (last_seen s).
Definition set_assigned_ip (v : option IpAddr) (s : Session) : Session :=
  MkSession
    (server_session_id s) (client_session_id s) (state s) (next_packet_id s) (pending_acks s)
    (received_pids s) (tls s) v (assigned_ip_v6 s) (peer_id s) (transport s) (slots s)
    (active_slot_idx s) (tls_auth_pid_out s) (tls_auth_replay s) (client_random1 s) (client_random2
    s) (client_pre_master s) (server_random1 s) (server_random2 s) (client_options s)
    (client_peer_info s) (client_cn s) (unacked s) (rekey s) (last_rekey_at s) (last_seen s).
Definition set_assigned_ip_v6 (v : option Z) (s : Session) : Session :=
  MkSession
    (server_session_id s) (client_session_id s) (state s) (next_packet_id s) (pending_acks s)
    (received_pids s) (tls s) (assigned_ip s) v (peer_id s) (transport s) (slots s) (active_slot_idx
    s) (tls_auth_pid_out s) (tls_auth_replay s) (client_random1 s) (client_random2 s)
    (client_pre_master s) (server_random1 s) (server_random2 s) (client_options s) (client_peer_info
    s) (client_cn s) (unacked s) (rekey s) (last_rekey_at s) (last_seen s).
Definition set_slots (v : list (option KeySlot)) (s : Session) : Session :=
  MkSession
    (server_session_id s) (client_session_id s) (state s) (next_packet_id s) (pending_acks s)
    (received_pids s) (tls s) (assigned_ip s) (assigned_ip_v6 s) (peer_id s) (transport s) v
    (active_slot_idx s) (tls_auth_pid_out s) (tls_auth_replay s) (client_random1 s) (client_random2
    s) (client_pre_master s) (server_random1 s) (server_random2 s) (client_options s)
    (client_peer_info s) (client_cn s) (unacked s) (rekey s) (last_rekey_at s) (last_seen s).
Definition set_active_slot_idx (v : nat) (s : Session) : Session :=
  MkSession
    (server_session_id s) (client_session_id s) (state s) (next_packet_id s) (pending_acks s)
    (received_pids s) (tls s) (assigned_ip s) (assigned_ip_v6 s) (peer_id s) (transport s) (slots s)
    v (tls_auth_pid_out s) (tls_auth_replay s) (client_random1 s) (client_random2 s)
    (client_pre_master s) (server_random1 s) (server_random2 s) (client_options s) (client_peer_info
    s) (client_cn s) (unacked s) (rekey s) (last_rekey_at s) (last_seen s).
Definition set_tls_auth_pid_out (v : Z) (s : Session) : Session :=
  MkSession
    (server_session_id s) (client_session_id s) (state s) (next_packet_id s) (pending_acks s)
    (received_pids s) (tls s) (assigned_ip s) (assigned_ip_v6 s) (peer_id s) (transport s) (slots s)
    (active_slot_idx s) v (tls_auth_replay s) (client_random1 s) (client_random2 s)
    (client_pre_master s) (server_random1 s) (server_random2 s) (client_options s) (client_peer_info
    s) (client_cn s) (unacked s) (rekey s) (last_rekey_at s) (last_seen s).
Definition set_tls_auth_replay (v : ReplayWindow) (s : Session) : Session :=
  MkSession
    (server_session_id s) (client_session_id s) (state s) (next_packet_id s) (pending_acks s)
    (received_pids s) (tls s) (assigned_ip s) (assigned_ip_v6 s) (peer_id s) (transport s) (slots s)
    (active_slot_idx s) (tls_auth_pid_out s) v (client_random1 s) (client_random2 s)
    (client_pre_master s) (server_random1 s) (server_random2 s) (client_options s) (client_peer_info
    s) (client_cn s) (unacked s) (rekey s) (last_rekey_at s) (last_seen s).
Definition set_client_random1 (v : option bytes) (s : Session) : Session :=
  MkSession
    (server_session_id s) (client_session_id s) (state s) (next_packet_id s) (pending_acks s)
    (received_pids s) (tls s) (assigned_ip s) (assigned_ip_v6 s) (peer_id s) (transport s) (slots s)
    (active_slot_idx s) (tls_auth_pid_out s) (tls_auth_replay s) v (client_random2 s)
    (client_pre_master s) (server_random1 s) (server_random2 s) (client_options s) (client_peer_info
    s) (client_cn s) (unacked s) (rekey s) (last_rekey_at s) (last_seen s).
Definition set_client_random2 (v : option bytes) (s : Session) : Session :=
  MkSession
    (server_session_id s) (client_session_id s) (state s) (next_packet_id s) (pending_acks s)
    (received_pids s) (tls s) (assigned_ip s) (assigned_ip_v6 s) (peer_id s) (transport s) (slots s)
    (active_slot_idx s) (tls_auth_pid_out s) (tls_auth_replay s) (client_random1 s) v
    (client_pre_master s) (server_random1 s) (server_random2 s) (client_options s) (client_peer_info
    s) (client_cn s) (unacked s) (rekey s) (last_rekey_at s) (last_seen s).
Definition set_client_pre_master (v : option bytes) (s : Session) : Session :=
  MkSession
    (server_session_id s) (client_session_id s) (state s) (next_packet_id s) (pending_acks s)
    (received_pids s) (tls s) (assigned_ip s) (assigned_ip_v6 s) (peer_id s) (transport s) (slots s)
    (active_slot_idx s) (tls_auth_pid_out s) (tls_auth_replay s) (client_random1 s) (client_random2
    s) v (server_random1 s) (server_random2 s) (client_options s) (client_peer_info s) (client_cn s)
    (unacked s) (rekey s) (last_rekey_at s) (last_seen s).
Definition set_client_options (v : option bytes) (s : Session) : Session :=
  MkSession
    (server_session_id s) (client_session_id s) (state s) (next_packet_id s) (pending_acks s)
    (received_pids s) (tls s) (assigned_ip s) (assigned_ip_v6 s) (peer_id s) (transport s) (slots s)
    (active_slot_idx s) (tls_auth_pid_out s) (tls_auth_replay s) (client_random1 s) (client_random2
    s) (client_pre_master s) (server_random1 s) (server_random2 s) v (client_peer_info s) (client_cn
    s) (unacked s) (rekey s) (last_rekey_at s) (last_seen s).
Definition set_client_peer_info (v : option bytes) (s : Session) : Session :=
  MkSession
    (server_session_id s) (client_session_id s) (state s) (next_packet_id s) (pending_acks s)
    (received_pids s) (tls s) (assigned_ip s) (assigned_ip_v6 s) (peer_id s) (transport s) (slots s)
    (active_slot_idx s) (tls_auth_pid_out s) (tls_auth_replay s) (client_random1 s) (client_random2
    s) (client_pre_master s) (server_random1 s) (server_random2 s) (client_options s) v (client_cn
    s) (unacked s) (rekey s) (last_rekey_at s) (last_seen s).
Definition set_client_cn (v : option bytes) (s : Session) : Session :=
  MkSession
    (server_session_id s) (client_session_id s) (state s) (next_packet_id s) (pending_acks s)
    (received_pids s) (tls s) (assigned_ip s) (assigned_ip_v6 s) (peer_id s) (transport s) (slots s)
    (active_slot_idx s) (tls_auth_pid_out s) (tls_auth_replay s) (client_random1 s) (client_random2
    s) (client_pre_master s) (server_random1 s) (server_random2 s) (client_options s)
    (client_peer_info s) v (unacked s) (rekey s) (last_rekey_at s) (last_seen s).
Definition set_unacked (v : list Unacked) (s : Session) : Session :=
  MkSession
    (server_session_id s) (client_session_id s) (state s) (next_packet_id s) (pending_acks s)
    (received_pids s) (tls s) (assigned_ip s) (assigned_ip_v6 s) (peer_id s) (transport s) (slots s)
    (active_slot_idx s) (tls_auth_pid_out s) (tls_auth_replay s) (client_random1 s) (client_random2
    s) (client_pre_master s) (server_random1 s) (server_random2 s) (client_options s)
    (client_peer_info s) (client_cn s) v (rekey s) (last_rekey_at s) (last_seen s).
Definition set_rekey (v : option RekeyTrack) (s : Session) : Session :=
  MkSession
    (server_session_id s) (client_session_id s) (state s) (next_packet_id s) (pending_acks s)
    (received_pids s) (tls s) (assigned_ip s) (assigned_ip_v6 s) (peer_id s) (transport s) (slots s)
    (active_slot_idx s) (tls_auth_pid_out s) (tls_auth_replay s) (client_random1 s) (client_random2
    s) (client_pre_master s) (server_random1 s) (server_random2 s) (client_options s)
    (client_peer_info s) (client_cn s) (unacked s) v (last_rekey_at s) (last_seen s).
Definition set_last_rekey_at (v : Z) (s : Session) : Session :=
  MkSession
    (server_session_id s) (client_session_id s) (state s) (next_packet_id s) (pending_acks s)
    (received_pids s) (tls s) (assigned_ip s) (assigned_ip_v6 s) (peer_id s) (transport s) (slots s)
    (active_slot_idx s) (tls_auth_pid_out s) (tls_auth_replay s) (client_random1 s) (client_random2
    s) (client_pre_master s) (server_random1 s) (server_random2 s) (client_options s)
    (client_peer_info s) (client_cn s) (unacked s) (rekey s) v (last_seen s).
Definition set_last_seen (v : Z) (s : Session) : Session :=
  MkSession
    (server_session_id s) (client_session_id s) (state s) (next_packet_id s) (pending_acks s)
    (received_pids s) (tls s) (assigned_ip s) (assigned_ip_v6 s) (peer_id s) (transport s) (slots s)
    (active_slot_idx s) (tls_auth_pid_out s) (tls_auth_replay s) (client_random1 s) (client_random2
    s) (client_pre_master s) (server_random1 s) (server_random2 s) (client_options s)
    (client_peer_info s) (client_cn s) (unacked s) (rekey s) (last_rekey_at s) v.

(** [Session::new]; [r1] and [r2] are the 32-byte draws of the random source. *)
Definition new (server_session_id : Z) (tls : TlsSession) (peer_id : Z) (transport : Transport)
    (r1 r2 : bytes) (now : Z) : Session :=
  {| server_session_id := server_session_id; client_session_id := 0; state := WaitingHardReset;
     next_packet_id := 0; pending_acks := []; received_pids := ∅;
     tls := tls; assigned_ip := None; assigned_ip_v6 := None; peer_id := peer_id;
     transport := transport; slots := [None; None]; active_slot_idx := 0;
     tls_auth_pid_out := 1; tls_auth_replay := Replay.new;
     client_random1 := None; client_random2 := None; client_pre_master := None;
     server_random1 := r1; server_random2 := r2;
     client_options := None; client_peer_info := None; client_cn := None;
     unacked := []; rekey := None; last_rekey_at := now; last_seen := now |}.

Definition start_rekey (new_key_id : Z) (tls : TlsSession) (r1 r2 : bytes) : M Session unit :=
  modify (set_rekey (Some (MkRekeyTrack new_key_id tls RkHandshaking r1 r2 false))).

(** [slots.iter().position(|s| s.key_id == Some(key_id))]. *)
Definition position_key (key_id : Z) (l : list (option KeySlot)) : option nat :=
  fst <$> list_find (fun o => ks_key_id <$> o = Some key_id) l.

Definition promote_slot (key_id : Z) : M Session bool := fun s =>
  match position_key key_id (slots s) with
  | Some idx => (Ok true, set_active_slot_idx idx s)
  | None => (Ok false, s)
  end.

Definition record_sent (packet_id : Z) (encoded : bytes) (now : Z) : M Session unit :=
  modify (fun s => set_unacked (unacked s ++ [MkUnacked packet_id encoded now 1]) s).

Definition process_acks (acks : list Z) : M Session unit :=
  match acks with
  | [] => mret tt
  | _ => modify (fun s => set_unacked (filter (fun u => u_packet_id u ∉ acks) (unacked s)) s)
  end.

(** One entry of the retransmission loop: the entry afterwards and the bytes
    to resend. *)
Definition stale_step (now base_rto : Z) (u : Unacked) : Unacked * list bytes :=
  let shift := Z.min (saturating_sub (u_attempts u) 1) 5 in
  let backoff := base_rto * Z.shiftl 1 shift in
  if backoff <=? duration_since now (u_sent_at u)
  then (MkUnacked (u_packet_id u) (u_encoded u) now (saturating_add 32 (u_attempts u) 1), [u_encoded u])
  else (u, []).

Definition stale_unacked (now base_rto : Z) : M Session (list bytes) := fun s =>
  let kept := filter (fun u => u_attempts u < CONTROL_MAX_ATTEMPTS) (unacked s) in
  let stepped := stale_step now base_rto <$> kept in
  (Ok (concat (snd <$> stepped)), set_unacked (fst <$> stepped) s).

Definition alloc_packet_id : M Session Z := fun s =>
  (Ok (next_packet_id s), set_next_packet_id (wrapping_add 32 (next_packet_id s) 1) s).

Definition make_hard_reset_reply (ack_pid : Z) : M Session Protocol.ControlPacket :=
  pid ← alloc_packet_id;
  s ← get;
  mret (Protocol.MkControlPacket Protocol.ControlHardResetServerV2 0 (server_session_id s)
          [ack_pid] (Some (client_session_id s)) (Some pid) []).

Definition make_soft_reset_reply (new_key_id ack_pid : Z) : M Session Protocol.ControlPacket :=
  pid ← alloc_packet_id;
  s ← get;
  mret (Protocol.MkControlPacket Protocol.ControlSoftResetV1 new_key_id (server_session_id s)
          [ack_pid] (Some (client_session_id s)) (Some pid) []).

Definition make_soft_reset_init (new_key_id : Z) : M Session Protocol.ControlPacket :=
  pid ← alloc_packet_id;
  s ← get;
  mret (Protocol.MkControlPacket Protocol.ControlSoftResetV1 new_key_id (server_session_id s)
          [] None (Some pid) []).

Definition make_ack (key_id : Z) (pids : list Z) : M Session Protocol.ControlPacket :=
  s ← get;
  mret (Protocol.MkControlPacket Protocol.AckV1 key_id (server_session_id s)
          pids (Some (client_session_id s)) None []).

Definition make_control (key_id : Z) (tls_payload : bytes) : M Session Protocol.ControlPacket :=
  pid ← alloc_packet_id;
  acks ← gets pending_acks;
  modify (set_pending_acks []) ≫= fun _ =>
  s ← get;
  let remote := match acks with [] => None | _ => Some (client_session_id s) end in
  mret (Protocol.MkControlPacket Protocol.ControlV1 key_id (server_session_id s)
          acks remote (Some pid) tls_payload).

Definition next_tls_auth_pid : M Session Z := fun s =>
  (Ok (tls_auth_pid_out s),
   set_tls_auth_pid_out (default 1 (checked_add 32 (tls_auth_pid_out s) 1)) s).

Definition note_received (pid : Z) (now : Z) : M Session unit := fun s =>
  let s1 := if bool_decide (pid ∈ received_pids s) then s
            else set_pending_acks (pending_acks s ++ [pid])
                   (set_received_pids ({[pid]} ∪ received_pids s) s) in
  (Ok tt, set_last_seen now s1).

Definition finalize_keys : M Session unit := fun s =>
  let leaf := peer_certificates (Tls.tconn (tls s)) ≫= head in
  let s1 := match leaf with
            | Some der =>
              match Tls.extract_common_name der with
              | Ok cn => set_client_cn cn s
              | _ => s
              end
            | None => s
            end in
  (Ok tt, set_state KeyExchange s1).

(** [self.slots[self.active_slot_idx]]: an out-of-range index would panic. *)
Definition active_slot (s : Session) : result (option KeySlot) :=
  index (slots s) (active_slot_idx s).

(** [slot_by_key_id_mut]: the first slot with that id, with its position for
    the write back. *)
Definition slot_by_key_id (key_id : Z) (s : Session) : option (nat * KeySlot) :=
  idx ← position_key key_id (slots s);
  slot ← mjoin (slots s !! idx);
  Some (idx, slot).

(** Assigning to [self.slots[idx]]. *)
Definition put_slot (idx : nat) (slot : KeySlot) : M Session unit := fun s =>
  if decide (idx < length (slots s))%nat
  then (Ok tt, set_slots (<[idx := Some slot]> (slots s)) s)
  else (Panic, s).

Definition install_slot (slot : KeySlot) : M Session nat :=
  idx ← gets active_slot_idx;
  (if decide (idx <= 1)%nat then mret (1 - idx)%nat else lift Panic) ≫= fun idx =>
  put_slot idx slot ≫= fun _ =>
  mret idx.

Definition install_prf_slot (key_id : Z) : M Session unit :=
  s ← get;
  pre_master ← lift (ok_or MissingPreMaster (client_pre_master s));
  c_r1 ← lift (ok_or MissingRandom1 (client_random1 s));
  c_r2 ← lift (ok_or MissingRandom2 (client_random2 s));
  let c_sid := to_be 8 (client_session_id s) in
  let s_sid := to_be 8 (server_session_id s) in
  key_data ← lift (Prf.derive_openvpn_key_data pre_master c_r1 (server_random1 s) c_r2
                     (server_random2 s) c_sid s_sid);
  cipher ← lift (from_keymat_server key_data);
  let slot := MkKeySlot key_id cipher 1 Replay.new in
  active ← lift (active_slot s);
  match active with
  | None => put_slot 0 slot ≫= fun _ => modify (set_active_slot_idx 0)
  | Some _ => install_slot slot ≫= fun _ => mret tt
  end.

(** The header bytes, one per assignment of the source. *)
Definition data_packet_header (key_id peer_id pid : Z) : bytes :=
  [ Z.lor (wrap 8 (Z.shiftl (Protocol.as_u8 Protocol.DataV2) 3)) (Z.land key_id 7);
    Z.land (Z.shiftr peer_id 16) 255;
    Z.land (Z.shiftr peer_id 8) 255;
    Z.land peer_id 255 ] ++ to_be 4 pid.

Definition build_data_packet (plaintext : bytes) : M Session bytes :=
  s ← get;
  active ← lift (active_slot s);
  slot ← lift (ok_or NoActiveSlot active);
  let pid := ks_data_pid_out slot in
  put_slot (active_slot_idx s)
    (MkKeySlot (ks_key_id slot) (ks_cipher slot) (wrapping_add 32 pid 1) (ks_replay slot)) ≫= fun _ =>
  let header := data_packet_header (ks_key_id slot) (peer_id s) pid in
  ct ← lift (seal (ks_cipher slot) pid header plaintext);
  mret (header ++ ct).

(** ** Sequences of calls *)

(** Data packets built one after the other. *)
Fixpoint build_all (pts : list bytes) : M Session (list bytes) :=
  match pts with
  | [] => mret []
  | pt :: rest =>
    pkt ← build_data_packet pt;
    pkts ← build_all rest;
    mret (pkt :: pkts)
  end.

(** What the peer does with a data packet: parse, authenticate against the
    header, check the replay window. *)
Definition peer_receive (c : DataCipher) (w : ReplayWindow) (pkt : bytes) : result (bytes * ReplayWindow) :=
  dp ← Protocol.parse_data_v2 pkt;
  aad ← slice pkt 0 8;
  pt ← open c (Protocol.d_packet_id dp) aad (Protocol.d_ciphertext dp);
  let '(fresh, w') := check_and_set w (Protocol.d_packet_id dp) in
  if fresh then Ok (pt, w') else Err (ReplayRejectedData (Protocol.d_key_id dp) (Protocol.d_packet_id dp)).

Fixpoint peer_receive_all (c : DataCipher) (w : ReplayWindow) (pkts : list bytes) : result (list bytes) :=
  match pkts with
  | [] => Ok []
  | pkt :: rest =>
    '(pt, w) ← peer_receive c w pkt;
    pts ← peer_receive_all c w rest;
    Ok (pt :: pts)
  end.

(** Retransmission ticks at the given times; the resends of each. *)
Fixpoint stale_ticks (base_rto : Z) (nows : list Z) : M Session (list (list bytes)) :=
  match nows with
  | [] => mret []
  | now :: rest =>
    out ← stale_unacked now base_rto;
    outs ← stale_ticks base_rto rest;
    mret (out :: outs)
  end.

(** [n] envelope packet ids drawn in sequence. *)
Fixpoint draw_pids (n : nat) : M Session (list Z) :=
  match n with
  | O => mret []
  | S n' =>
    p ← next_tls_auth_pid;
    ps ← draw_pids n';
    mret (p :: ps)
  end.

End session.

(** ** The data channel *)

Lemma data_packet_header_eq k peer pid :
  0 <= peer < 2 ^ 24 -> data_packet_header k peer pid = Protocol.data_header k peer pid.
Proof.
  intros Hp. unfold data_packet_header, Protocol.data_header, Protocol.first_byte.
  rewrite !to_be_S, to_be_0. rewrite !Z.shiftr_div_pow2 by lia.
  change 255 with (2 ^ 8 - 1). rewrite !land_ones_mod by lia.
  by replace (peer / 256 ^ Z.of_nat 0) with peer by (symmetry; apply Z.div_1_r).
Qed.

Section data.
Context {B : BufApi} {C : CryptoApi} {T : TlsApi} {CL : CryptoLaws C}.

Lemma active_slot_lookup s k :
  active_slot s = Ok (Some k) <-> slots s !! active_slot_idx s = Some (Some k).
Proof. unfold active_slot, index. destruct (slots s !! _); simpl; naive_solver. Qed.

(** The slot after one packet was sent on it. *)
Definition bump (k : KeySlot) : KeySlot :=
  MkKeySlot (ks_key_id k) (ks_cipher k) (wrapping_add 32 (ks_data_pid_out k) 1) (ks_replay k).

Lemma build_data_packet_eq s k pt ct :
  active_slot s = Ok (Some k) ->
  let header := data_packet_header (ks_key_id k) (peer_id s) (ks_data_pid_out k) in
  seal (ks_cipher k) (ks_data_pid_out k) header pt = Ok ct ->
  build_data_packet pt s = (Ok (header ++ ct), set_slots (<[active_slot_idx s := Some (bump k)]> (slots s)) s).
Proof.
  intros Ha header Hs. unfold build_data_packet. msimp. rewrite Ha. msimp.
  apply active_slot_lookup, lookup_lt_Some in Ha. unfold put_slot.
  rewrite decide_True by done. msimp. fold header. by rewrite Hs.
Qed.

Lemma bumped_active s k :
  active_slot s = Ok (Some k) ->
  active_slot (set_slots (<[active_slot_idx s := Some (bump k)]> (slots s)) s) = Ok (Some (bump k)).
Proof.
  rewrite !active_slot_lookup. intros Hl%lookup_lt_Some. simpl. by apply list_lookup_insert_eq.
Qed.

Definition seal_fits (pt : bytes) : Prop := Z.of_nat (length pt) < 2 ^ 36.

(** The [i]-th packet built carries the packet id [data_pid_out + i], modulo
    [2^32], and is the sealing of the [i]-th plaintext under it. *)
Lemma build_all_spec s k pts :
  active_slot s = Ok (Some k) -> u32_ok (ks_data_pid_out k) -> Forall seal_fits pts ->
  exists pkts s', build_all pts s = (Ok pkts, s') /\ length pkts = length pts /\
    forall i pt, pts !! i = Some pt ->
      let pid := wrap 32 (ks_data_pid_out k + Z.of_nat i) in
      let header := data_packet_header (ks_key_id k) (peer_id s) pid in
      exists ct, seal (ks_cipher k) pid header pt = Ok ct /\ pkts !! i = Some (header ++ ct).
Proof.
  intros Ha Hk Hpts. revert s k Ha Hk.
  induction Hpts as [|pt pts Hpt _ IH]; intros s k Ha Hk; [by exists [], s|].
  set (header := data_packet_header (ks_key_id k) (peer_id s) (ks_data_pid_out k)).
  destruct (seal_total (ks_cipher k) (ks_data_pid_out k) header pt) as [ct Hct]; [done| |].
  { unfold header, data_packet_header. by rewrite length_app, length_to_be. }
  destruct (IH _ _ (bumped_active s k Ha)) as (pkts & s' & Eb & Hl & Hall).
  { apply wrap_ok. lia. }
  exists ((header ++ ct) :: pkts), s'. cbn [build_all]. msimp.
  rewrite (build_data_packet_eq s k pt ct Ha Hct). msimp. rewrite Eb. msimp.
  split; [done|]. split; [simpl; by rewrite Hl|]. intros [|i] p Hp; cbn [lookup list_lookup] in Hp |- *.
  - injection Hp as ->. rewrite Z.add_0_r, wrap_small by done. eauto.
  - destruct (Hall i p Hp) as (ct' & Hs & Hi). exists ct'.
    cbn [bump ks_data_pid_out ks_key_id ks_cipher peer_id set_slots] in Hs, Hi.
    unfold wrapping_add, wrap in *. rewrite Zplus_mod_idemp_l in Hs, Hi.
    by replace (ks_data_pid_out k + Z.of_nat (S i)) with (ks_data_pid_out k + 1 + Z.of_nat i) by lia.
Qed.

(** The peer opens a packet built for it, and its window accepts an id above
    everything it has seen. *)
Lemma peer_receive_built k peer pid pt ct w :
  0 <= ks_key_id k < 8 -> 0 <= peer < 2 ^ 24 -> u32_ok pid -> 0 <= highest w < pid ->
  seal (ks_cipher k) pid (data_packet_header (ks_key_id k) peer pid) pt = Ok ct ->
  exists w', peer_receive (mirror (ks_cipher k)) w
               (data_packet_header (ks_key_id k) peer pid ++ ct) = Ok (pt, w') /\ highest w' = pid.
Proof.
  intros Hid Hpeer Hpid Hw Hs. rewrite data_packet_header_eq in Hs |- * by done. unfold peer_receive.
  rewrite Protocol.parse_data_v2_header by done. rsimp.
  assert (length (Protocol.data_header (ks_key_id k) peer pid) = 8%nat) as Hh.
  { unfold Protocol.data_header. simpl. by rewrite length_app, !length_to_be. }
  rewrite slice_ok by (rewrite length_app; lia). rsimp. rewrite drop_0, take_app_length' by done.
  cbn [Protocol.d_packet_id Protocol.d_ciphertext]. rewrite (open_seal _ _ _ _ _ Hs). rsimp.
  unfold check_and_set. rewrite (proj2 (Z.eqb_neq pid 0)), (proj2 (Z.ltb_lt _ _)) by lia. eauto.
Qed.

Lemma peer_receive_all_built k peer pts pkts w d :
  0 <= ks_key_id k < 8 -> 0 <= peer < 2 ^ 24 -> 0 <= highest w < d -> d + Z.of_nat (length pts) <= 2 ^ 32 ->
  length pkts = length pts ->
  (forall i pt, pts !! i = Some pt ->
    let pid := wrap 32 (d + Z.of_nat i) in
    let header := data_packet_header (ks_key_id k) peer pid in
    exists ct, seal (ks_cipher k) pid header pt = Ok ct /\ pkts !! i = Some (header ++ ct)) ->
  peer_receive_all (mirror (ks_cipher k)) w pkts = Ok pts.
Proof.
  intros Hid Hpeer. revert pkts w d.
  induction pts as [|pt pts IH]; intros [|pkt pkts] w d Hw Hd Hl Hall; try done.
  cbn [length] in Hd, Hl.
  destruct (Hall 0%nat pt eq_refl) as (ct & Hs & E0).
  change (Some pkt = Some (data_packet_header (ks_key_id k) peer (wrap 32 (d + Z.of_nat 0)) ++ ct)) in E0.
  apply (inj Some) in E0 as ->.
  rewrite Z.add_0_r, wrap_small in Hs |- * by (unfold uint_ok; lia).
  destruct (peer_receive_built k peer d pt ct w) as (w' & E & Hw'); [done|done|unfold uint_ok; lia|done|done|].
  cbn [peer_receive_all]. rewrite E. rsimp.
  rewrite (IH pkts w' (d + 1)); [done|lia|lia|lia|]. intros i p Hp.
  destruct (Hall (S i) p Hp) as (ct' & ? & ?). exists ct'.
  by replace (d + 1 + Z.of_nat i) with (d + Z.of_nat (S i)) by lia.
Qed.

(** C19: data packets sent on one key slot never share an AES-GCM nonce before
    the counter wraps.  Plaintexts handed to [build_data_packet] one after the
    other all go out: the [i]-th packet is the header of this session's peer id
    and the slot's key id with the packet id [data_pid_out + i] modulo [2^32],
    followed by the tag and the ciphertext of one encryption with the slot's key,
    and the nonce of that encryption is that packet id and the slot's implicit
    IV.  The nonces of the [i]-th and the [j]-th packet are the same if and only
    if [2^32] divides [i - j]: those of the first [2^32] packets of a slot are
    pairwise distinct, and nothing in this code stops the counter after that. *)
Theorem data_nonces_distinct s k pts :
  active_slot s = Ok (Some k) -> u32_ok (ks_data_pid_out k) -> 0 <= peer_id s < 2 ^ 24 -> Forall seal_fits pts ->
  let pid i := wrap 32 (ks_data_pid_out k + Z.of_nat i) in
  let used i := to_be 4 (pid i) ++ enc_iv (ks_cipher k) in
  let header i := Protocol.data_header (ks_key_id k) (peer_id s) (pid i) in
  exists pkts s', build_all pts s = (Ok pkts, s') /\ length pkts = length pts /\
    (forall i pt, pts !! i = Some pt ->
       exists out, gcm_encrypt (enc_key (ks_cipher k)) (used i) (header i) pt = Some out /\
         pkts !! i = Some (header i ++ drop (length pt) out ++ take (length pt) out)) /\
    (forall i j, used i = used j <-> (2 ^ 32 | Z.of_nat i - Z.of_nat j)).
Proof.
  intros Ha Hk Hpeer Hpts pid used header. destruct (build_all_spec s k pts Ha Hk Hpts) as (pkts & s' & Eb & Hl & Hall).
  exists pkts, s'. split; [done|]. split; [done|]. split.
  - intros i pt Hi. destruct (Hall i pt Hi) as (ct & Hs & Hp). rewrite data_packet_header_eq in Hs, Hp by done.
    fold (pid i) in Hs, Hp. fold (header i) in Hs, Hp.
    destruct (gcm_encrypt (enc_key (ks_cipher k)) (nonce (pid i) (enc_iv (ks_cipher k))) (header i) pt) as [out|] eqn:E.
    + exists out. split; [exact E|]. rewrite (seal_eq _ _ _ _ _ E) in Hs. by injection Hs as <-.
    + unfold seal in Hs. by rewrite E in Hs.
  - intros i j. unfold used. transitivity (pid i = pid j).
    + split; [|by intros ->]. intros [E _]%app_inj_1; [|by rewrite !length_to_be].
      apply to_be_inj in E; [done|apply wrap_ok; lia..].
    + unfold pid, wrap. rewrite <-mod_eq_divide by lia.
      by replace (ks_data_pid_out k + Z.of_nat i - (ks_data_pid_out k + Z.of_nat j))
        with (Z.of_nat i - Z.of_nat j) by lia.
Qed.

(** C15: the data channel delivers.  Plaintexts handed to [build_data_packet]
    in sequence come out of the peer (which has the same key material, and a
    window that has seen only smaller ids) unchanged, in order, every one of
    them accepted by its replay window, as long as the packet id does not wrap. *)
Theorem data_stream_delivered s k pts w :
  active_slot s = Ok (Some k) -> 0 <= ks_key_id k < 8 -> 0 <= peer_id s < 2 ^ 24 ->
  Forall seal_fits pts -> 0 <= highest w < ks_data_pid_out k ->
  ks_data_pid_out k + Z.of_nat (length pts) <= 2 ^ 32 ->
  exists pkts s', build_all pts s = (Ok pkts, s') /\
    peer_receive_all (mirror (ks_cipher k)) w pkts = Ok pts.
Proof.
  intros Ha Hid Hpeer Hpts Hw Hd. destruct pts as [|pt0 pts0] eqn:Ep; [by exists [], s|].
  rewrite <-Ep in *. assert (u32_ok (ks_data_pid_out k)).
  { unfold uint_ok. rewrite Ep in Hd. cbn [length] in Hd. lia. }
  destruct (build_all_spec s k pts) as (pkts & s' & Eb & Hl & Hall); [done..|].
  exists pkts, s'. split; [done|]. by eapply peer_receive_all_built.
Qed.

End data.
(** ** Fixtures for concrete runs *)

Definition toy_cipher : DataCipher :=
  MkDataCipher (replicate 32 1) (replicate 32 2) (replicate 8 3) (replicate 8 4).

Definition toy_new : Session (T := Tls.toy_tls) :=
  new (T := Tls.toy_tls) 0x1122334455667788 (Tls.MkTlsSession (T := Tls.toy_tls) (Tls.ToyConn [] [] [] true) [])
    5 (Udp (SockV4 0x0A000001 1194)) (replicate 32 6) (replicate 32 7) 0.

(** An established session with one key slot. *)
Definition toy_session : Session (T := Tls.toy_tls) :=
  set_slots (T := Tls.toy_tls) [Some (MkKeySlot 3 toy_cipher 1 Replay.new); None]
    (set_assigned_ip (T := Tls.toy_tls) (Some (V4 0x0A080002))
      (set_state (T := Tls.toy_tls) Established toy_new)).

Lemma data_nonces_distinct_witness :
  exists pkts s', build_all (C := toy_crypto) [[1; 2]; [3]] toy_session = (Ok pkts, s') /\
    (exists out, gcm_encrypt (CryptoApi := toy_crypto) (replicate 32 1) ([0; 0; 0; 2] ++ replicate 8 3)
       (Protocol.data_header 3 5 2) [3] = Some out /\
     pkts !! 1%nat = Some (Protocol.data_header 3 5 2 ++ drop 1 out ++ take 1 out)).
Proof.
  destruct (data_nonces_distinct (C := toy_crypto) (CL := toy_crypto_laws) toy_session
    (MkKeySlot 3 toy_cipher 1 Replay.new) [[1; 2]; [3]]) as (pkts & s' & E & _ & H & _);
    [done|done|done|repeat constructor|].
  exists pkts, s'. split; [exact E|]. exact (H 1%nat [3] eq_refl).
Defined.

Lemma data_stream_delivered_witness :
  exists pkts s', build_all (C := toy_crypto) [[1; 2]; [3]] toy_session = (Ok pkts, s') /\
    peer_receive_all (C := toy_crypto) (mirror toy_cipher) Replay.new pkts = Ok [[1; 2]; [3]].
Proof.
  apply (data_stream_delivered (C := toy_crypto) (CL := toy_crypto_laws) toy_session
    (MkKeySlot 3 toy_cipher 1 Replay.new) [[1; 2]; [3]] Replay.new); try done.
  repeat constructor.
Defined.

(** ** Retransmission *)

Section reliability.
Context {B : BufApi} {C : CryptoApi} {T : TlsApi}.

(** Resends an entry may still cause. *)
Definition resends_left (u : Unacked) : nat := Z.to_nat (CONTROL_MAX_ATTEMPTS - u_attempts u).
Definition budget (us : list Unacked) : nat := sum_list_with resends_left us.

Definition attempts_ok (u : Unacked) : Prop := 1 <= u_attempts u <= CONTROL_MAX_ATTEMPTS.

Lemma stale_step_budget now base u :
  attempts_ok u -> u_attempts u < CONTROL_MAX_ATTEMPTS ->
  let '(u', out) := stale_step now base u in
  (length out + resends_left u' = resends_left u)%nat /\ attempts_ok u'.
Proof.
  unfold attempts_ok, resends_left, stale_step, saturating_add, CONTROL_MAX_ATTEMPTS. intros Ha Hlt.
  destruct (_ <=? _); cbn [length u_attempts]; [rewrite Z.min_l by lia|]; lia.
Qed.

Lemma stale_tick_budget now base us :
  Forall attempts_ok us ->
  let stepped := stale_step now base <$> filter (fun u => u_attempts u < CONTROL_MAX_ATTEMPTS) us in
  (length (concat stepped.*2) + budget stepped.*1 = budget us)%nat /\ Forall attempts_ok stepped.*1.
Proof.
  induction 1 as [|u us Hu _ [IH1 IH2]]; [done|]; cbv zeta in *. rewrite filter_cons. case_decide as Hlt.
  - pose proof (stale_step_budget now base u Hu Hlt) as Hs. rewrite !fmap_cons.
    destruct (stale_step now base u) as [u' out]. destruct Hs as [Hs Hu'].
    cbn [fst snd concat]. rewrite length_app. unfold budget in *. cbn [sum_list_with].
    split; [lia|by constructor].
  - unfold budget in *. cbn [sum_list_with].
    assert (resends_left u = 0%nat) as -> by (unfold resends_left; lia). done.
Qed.

Lemma stale_ticks_budget base nows s :
  Forall attempts_ok (unacked s) ->
  exists outs s', stale_ticks base nows s = (Ok outs, s') /\
    (length (concat outs) + budget (unacked s') = budget (unacked s))%nat.
Proof.
  revert s. induction nows as [|now nows IH]; intros s Hs; [by exists [], s|].
  pose proof (stale_tick_budget now base (unacked s) Hs) as [E Hs'].
  cbn [stale_ticks]. msimp. unfold stale_unacked at 1. msimp.
  destruct (IH (set_unacked (stale_step now base <$>
    filter (fun u => u_attempts u < CONTROL_MAX_ATTEMPTS) (unacked s)).*1 s) Hs') as (outs & s' & Eb & Hb).
  rewrite Eb. msimp. eexists _, s'. split; [done|]. cbn [concat]. rewrite length_app.
  cbn [unacked set_unacked] in Hb. lia.
Qed.

Lemma budget_fresh us : Forall (fun u => u_attempts u = 1) us -> budget us = (5 * length us)%nat.
Proof.
  unfold budget. induction 1 as [|u us Hu _ IH]; [done|]. cbn [sum_list_with length].
  unfold resends_left at 1. rewrite Hu, IH. unfold CONTROL_MAX_ATTEMPTS. lia.
Qed.

(** Retransmission is bounded.  However often and whenever the
    retransmission timer fires, packets recorded by [record_sent] (attempt 1)
    are resent at most five times each in total; and a tick never blocks or
    fails. *)
Theorem retransmit_bounded base nows s :
  Forall (fun u => u_attempts u = 1) (unacked s) ->
  exists outs s', stale_ticks base nows s = (Ok outs, s') /\
    (length (concat outs) <= 5 * length (unacked s))%nat.
Proof.
  intros Hf. destruct (stale_ticks_budget base nows s) as (outs & s' & E & Hb).
  - eapply Forall_impl; [done|]. unfold attempts_ok, CONTROL_MAX_ATTEMPTS. intros u ->. lia.
  - exists outs, s'. split; [done|]. rewrite (budget_fresh _ Hf) in Hb. lia.
Qed.

End reliability.

Lemma retransmit_bounded_witness :
  exists outs s', stale_ticks CONTROL_BASE_RTO ((fun i => 100 * SECOND * Z.of_nat i) <$> seq 1 9)
      (set_unacked (T := Tls.toy_tls) [MkUnacked 0 [1] 0 1; MkUnacked 1 [2] 0 1] toy_session) = (Ok outs, s') /\
    (length (concat outs) <= 10)%nat.
Proof.
  apply (retransmit_bounded CONTROL_BASE_RTO ((fun i => 100 * SECOND * Z.of_nat i) <$> seq 1 9)
    (set_unacked (T := Tls.toy_tls) [MkUnacked 0 [1] 0 1; MkUnacked 1 [2] 0 1] toy_session)).
  repeat constructor.
Defined.

Section reliability2.
Context {B : BufApi} {C : CryptoApi} {T : TlsApi}.

(** What the ticks do to one entry: the bytes they resend, and what is left. *)
Fixpoint resend (base : Z) (nows : list Z) (u : Unacked) : list bytes * option Unacked :=
  match nows with
  | [] => ([], Some u)
  | now :: rest =>
    if decide (u_attempts u < CONTROL_MAX_ATTEMPTS)
    then let '(u', out) := stale_step now base u in let '(outs, o) := resend base rest u' in (out ++ outs, o)
    else ([], None)
  end.

(** The entries of the queue do not depend on each other. *)
Lemma resend_all_cons base now nows us :
  let stepped := stale_step now base <$> filter (fun u => u_attempts u < CONTROL_MAX_ATTEMPTS) us in
  concat (resend base (now :: nows) <$> us).*1 ≡ₚ concat stepped.*2 ++ concat (resend base nows <$> stepped.*1).*1 /\
  omap snd (resend base (now :: nows) <$> us) = omap snd (resend base nows <$> stepped.*1).
Proof.
  induction us as [|u us [IH1 IH2]]; [done|]; cbv zeta in *. rewrite filter_cons. rewrite !fmap_cons.
  change (resend base (now :: nows) u) with (if decide (u_attempts u < CONTROL_MAX_ATTEMPTS)
    then let '(u', out) := stale_step now base u in let '(outs, o) := resend base nows u' in (out ++ outs, o) else ([], None)).
  case_decide as Hd; [|by cbn [fst snd concat omap list_omap app]].
  rewrite !fmap_cons. destruct (stale_step now base u) as [u' out]. cbn [fst snd]. destruct (resend base nows u') as [o f].
  cbn [fst snd concat]. split; [|destruct f; cbn [omap list_omap]; by rewrite IH2].
  rewrite IH1, <-!app_assoc. apply Permutation_app_head. by rewrite app_assoc, (Permutation_app_comm o), <-app_assoc.
Qed.
Lemma stale_ticks_resend base nows s :
  exists outs s', stale_ticks base nows s = (Ok outs, s') /\
    concat outs ≡ₚ concat (resend base nows <$> unacked s).*1 /\
    unacked s' = omap snd (resend base nows <$> unacked s).
Proof.
  revert s. induction nows as [|now nows IH]; intros s.
  - exists [], s. split; [done|]. cbn [resend]. induction (unacked s) as [|u us [IH1 IH2]]; [done|].
    rewrite !fmap_cons. cbn [fst snd concat omap list_omap app]. split; [done|]. by f_equal.
  - cbn [stale_ticks]. msimp. unfold stale_unacked at 1. msimp. edestruct IH as (outs & s' & E & H1 & H2). rewrite E. msimp.
    destruct (resend_all_cons base now nows (unacked s)) as [C1 C2]. eexists _, s'. split; [done|].
    cbn [concat unacked set_unacked] in *. by rewrite H1, C1, H2, C2.
Qed.

(** Tick times that do not go back and leave no gap of more than [P]. *)
Fixpoint paced (P t : Z) (nows : list Z) : Prop :=
  match nows with
  | [] => True
  | now :: rest => t <= now <= t + P /\ paced P now rest
  end.

(** [n] attempts have been made, the last at [sent], and it is [t]: the time
    until which the timer has to run so that the packet is given up. *)
Definition enough (base P n sent t : Z) : Z :=
  if n <? 6 then Z.max t (sent + base * 2 ^ (n - 1)) + base * (32 - 2 ^ n) + (7 - n) * P else t + P.

Lemma resend_gives_up base P t nows u :
  0 <= base -> 0 < P -> 1 <= u_attempts u <= 6 -> u_sent_at u <= t -> paced P t nows ->
  enough base P (u_attempts u) (u_sent_at u) t <= default t (last nows) ->
  resend base nows u = (replicate (Z.to_nat (6 - u_attempts u)) (u_encoded u), None).
Proof.
  intros Hb HP. revert t u. induction nows as [|now nows IH]; intros t u Hn Hs Hp Hlast.
  { exfalso. cbn in Hlast. unfold enough in Hlast. destruct (Z.ltb_spec (u_attempts u) 6); [|lia].
    assert (2 ^ u_attempts u <= 2 ^ 5) by (apply Z.pow_le_mono_r; lia). nia. }
  destruct Hp as [Hnow Hp]. rewrite last_cons in Hlast.
  assert (default t match last nows with Some y => Some y | None => Some now end = default now (last nows)) as Hd
    by by destruct (last nows).
  rewrite ?Hd in Hlast. clear Hd. cbn [resend]. unfold CONTROL_MAX_ATTEMPTS. case_decide as Hlt.
  2: { by replace (Z.to_nat (6 - u_attempts u)) with 0%nat by lia. }
  unfold enough in Hlast. rewrite (proj2 (Z.ltb_lt _ _)) in Hlast by done.
  assert (0 < 2 ^ (u_attempts u - 1)) as Hpos by (apply Z.pow_pos_nonneg; lia).
  assert (2 ^ u_attempts u = 2 * 2 ^ (u_attempts u - 1)) as Hpow.
  { rewrite <-Z.pow_succ_r by lia. f_equal. lia. }
  unfold stale_step, saturating_sub, saturating_add, duration_since. rewrite (Z.max_l (u_attempts u - 1)), (Z.min_l (u_attempts u - 1)) by lia.
  rewrite Z.shiftl_1_l. destruct (Z.leb_spec (base * 2 ^ (u_attempts u - 1)) (Z.max 0 (now - u_sent_at u))) as [Hdue|Hdue].
  - set (u' := MkUnacked _ _ _ _). rewrite (IH now u'); [| |cbn; lia|done|].
    + cbn [u' u_attempts u_encoded]. rewrite Z.min_l by lia.
      by replace (Z.to_nat (6 - u_attempts u)) with (S (Z.to_nat (6 - (u_attempts u + 1)))) by lia.
    + cbn [u' u_attempts]. lia.
    + cbn [u' u_attempts u_sent_at]. rewrite Z.min_l by lia. unfold enough. destruct (Z.ltb_spec (u_attempts u + 1) 6).
      * replace (u_attempts u + 1 - 1) with (u_attempts u) by lia.
        assert (2 ^ (u_attempts u + 1) = 2 * 2 ^ u_attempts u) as -> by (rewrite Z.pow_add_r by lia; lia). nia.
      * assert (u_attempts u = 5) as E by lia. rewrite E in *. nia.
  - rewrite (IH now u); [done|done|lia|done|]. unfold enough. rewrite (proj2 (Z.ltb_lt _ _)) by done. lia.
Qed.

(** C37: an unanswered packet is resent exactly five times and then given up.
    Let the retransmission timer fire at any times that are at most [P] apart,
    until [31] base timeouts and [6 P] have passed (with the two seconds and the
    500 ms of the program: 65 seconds): then every packet recorded by
    [record_sent] before the first of them, and never acknowledged, has been
    resent five times, nothing else has been resent, and the queue is empty. *)
Theorem retransmit_gives_up base P t nows s :
  0 <= base -> 0 < P ->
  Forall (fun u => u_attempts u = 1 /\ u_sent_at u <= t) (unacked s) -> paced P t nows ->
  t + 31 * base + 6 * P <= default t (last nows) ->
  exists outs s', stale_ticks base nows s = (Ok outs, s') /\
    concat outs ≡ₚ concat (replicate 5 <$> (u_encoded <$> unacked s)) /\ unacked s' = [].
Proof.
  intros Hb HP Hus Hp Hlast. destruct (stale_ticks_resend base nows s) as (outs & s' & E & H1 & H2).
  exists outs, s'. split; [done|]. rewrite H1, H2. clear E H1 H2.
  induction Hus as [|u us [Hu Hs] _ [IH1 IH2]]; [done|]. rewrite !fmap_cons.
  rewrite (resend_gives_up base P t nows u Hb HP); [|lia|done|done|].
  - rewrite Hu. cbn [fst snd concat omap list_omap]. split; [|done]. by apply Permutation_app_head.
  - rewrite Hu. unfold enough. cbn. lia.
Qed.

(** ** Packet ids of the control-channel envelope *)

Lemma draw_pids_spec n s :
  1 <= tls_auth_pid_out s < 2 ^ 32 ->
  exists pids s', draw_pids n s = (Ok pids, s') /\ length pids = n /\
    forall i p, pids !! i = Some p ->
      p = 1 + (tls_auth_pid_out s - 1 + Z.of_nat i) `mod` (2 ^ 32 - 1).
Proof.
  revert s. induction n as [|n IH]; intros s Hp; [by exists [], s|].
  cbn [draw_pids]. msimp. unfold next_tls_auth_pid at 1. msimp.
  set (q := default 1 _). assert (q = 1 + (tls_auth_pid_out s) `mod` (2 ^ 32 - 1)) as Hq.
  { unfold q, checked_add. case_decide; cbn [default].
    - rewrite Z.mod_small by lia. simpl. lia.
    - replace (tls_auth_pid_out s) with (2 ^ 32 - 1) by lia. by rewrite Z.mod_same by lia. }
  pose proof (Z.mod_pos_bound (tls_auth_pid_out s) (2 ^ 32 - 1) ltac:(lia)).
  destruct (IH (set_tls_auth_pid_out q s)) as (pids & s' & E & Hl & Hall); [cbn [tls_auth_pid_out set_tls_auth_pid_out]; lia|].
  rewrite E. msimp. exists (tls_auth_pid_out s :: pids), s'. split; [done|]. split; [simpl; lia|].
  intros [|i] p; cbn [lookup list_lookup].
  - intros [= <-]. rewrite Z.mod_small by lia. lia.
  - intros Hi. rewrite (Hall i p Hi). cbn [tls_auth_pid_out set_tls_auth_pid_out]. rewrite Hq.
    f_equal. replace (1 + tls_auth_pid_out s `mod` (2 ^ 32 - 1) - 1 + Z.of_nat i)
      with (tls_auth_pid_out s `mod` (2 ^ 32 - 1) + Z.of_nat i) by lia.
    rewrite Zplus_mod_idemp_l. f_equal. lia.
Qed.

(** The packet ids of the tls-auth / tls-crypt envelope.  Drawing them
    never fails, never yields the reserved id 0 nor an id wider than 32 bits,
    and two draws give the same id if and only if they are a multiple of
    [2^32 - 1] draws apart: no id is repeated before all of them were used. *)
Theorem envelope_pids_fresh n s :
  1 <= tls_auth_pid_out s < 2 ^ 32 ->
  exists pids s', draw_pids n s = (Ok pids, s') /\ length pids = n /\
    Forall (fun p => 0 < p < 2 ^ 32) pids /\
    forall i j p q, pids !! i = Some p -> pids !! j = Some q ->
      (p = q <-> (2 ^ 32 - 1 | Z.of_nat i - Z.of_nat j)).
Proof.
  intros Hp. destruct (draw_pids_spec n s Hp) as (pids & s' & E & Hl & Hall).
  exists pids, s'. split; [done|]. split; [done|]. split.
  - apply Forall_lookup. intros i p Hi. rewrite (Hall i p Hi).
    pose proof (Z.mod_pos_bound (tls_auth_pid_out s - 1 + Z.of_nat i) (2 ^ 32 - 1) ltac:(lia)). lia.
  - intros i j p q Hi Hj. rewrite (Hall i p Hi), (Hall j q Hj). clear.
    set (a := tls_auth_pid_out s - 1).
    replace (Z.of_nat i - Z.of_nat j) with (a + Z.of_nat i - (a + Z.of_nat j)) by lia.
    rewrite mod_eq_divide by lia. split; lia.
Qed.

End reliability2.

(** The program's timer, for 65 seconds. *)
Definition half_seconds : list Z := (fun i => Z.of_nat i * (SECOND / 2)) <$> seq 1 130.
Lemma paced_fmap P i n : 0 <= P -> paced P (Z.of_nat i * P) ((fun i => Z.of_nat i * P) <$> seq (S i) n).
Proof. intros HP. revert i. induction n as [|n IH]; intros i; [done|]. cbn [seq]. rewrite fmap_cons. split; [lia|apply IH]. Qed.

Lemma retransmit_gives_up_witness :
  exists outs s', stale_ticks CONTROL_BASE_RTO half_seconds
      (set_unacked (T := Tls.toy_tls) [MkUnacked 0 [1] 0 1; MkUnacked 1 [2] 0 1] toy_session) = (Ok outs, s') /\
    concat outs ≡ₚ replicate 5 [1] ++ replicate 5 [2] /\ unacked s' = [].
Proof.
  apply (retransmit_gives_up CONTROL_BASE_RTO (SECOND / 2) 0 half_seconds
    (set_unacked (T := Tls.toy_tls) [MkUnacked 0 [1] 0 1; MkUnacked 1 [2] 0 1] toy_session));
    [done|done|repeat constructor; done|apply (paced_fmap (SECOND / 2) 0 130); done|].
  vm_compute. discriminate.
Defined.

Lemma envelope_pids_fresh_witness :
  exists pids s', draw_pids 3 (set_tls_auth_pid_out (T := Tls.toy_tls) (2 ^ 32 - 1) toy_session) = (Ok pids, s') /\
    length pids = 3%nat /\ Forall (fun p => 0 < p < 2 ^ 32) pids.
Proof.
  destruct (envelope_pids_fresh 3 (set_tls_auth_pid_out (T := Tls.toy_tls) (2 ^ 32 - 1) toy_session))
    as (pids & s' & E & Hl & Hf & _); [done|]. eauto.
Defined.

End Session.
