(* ===== verification/SessionInv.v ===== *)
(** * The session invariant (src/src/session.rs)

    What every [Session] satisfies between two calls (machine-width fields in
    range, two slots and an index into them, live windows, an active key from
    [PushPending] on), that every method keeps it, and the theorems that need
    it: control packets built by the session can be read by the peer, key slots
    and rekeying, acknowledgement bookkeeping. *)

From S2P Require Import Prelude Replay Buf Protocol Primitives Crypto Prf Tls Transport Session.

Module SessionInv.
Import Transport Replay Crypto Session.

Definition window_ok (w : ReplayWindow) : Prop := exists seen, represents w seen.

Lemma check_and_set_window_ok w pid : window_ok w -> u32_ok pid -> window_ok (check_and_set w pid).2.
Proof.
  intros [seen Hw] Hp. destruct (check_and_set_simulates w seen pid Hw Hp) as (seen' & _ & ?). by exists seen'.
Qed.

Lemma new_window_ok : window_ok Replay.new.
Proof. exists ∅. apply new_represents. Qed.

Record slot_ok (k : KeySlot) : Prop := {
  sl_key : 0 <= ks_key_id k < 8;
  sl_pid : u32_ok (ks_data_pid_out k);
  sl_window : window_ok (ks_replay k);
}.

(** The states in which the data-channel key has been derived. *)
Definition keyed (st : State) : bool :=
  match st with PushPending | Established | Closed => true | _ => false end.

(** The states in which the client has its tunnel address. *)
Definition established (st : State) : bool :=
  match st with Established | Closed => true | _ => false end.

Section inv.
Context {B : BufApi} {C : CryptoApi} {T : TlsApi}.

Record session_ok (s : Session) : Prop := {
  so_server_sid : u64_ok (server_session_id s);
  so_client_sid : u64_ok (client_session_id s);
  so_next : u32_ok (next_packet_id s);
  so_received : set_Forall (uint_ok 32) (received_pids s);
  so_pending : forall p, p ∈ pending_acks s -> p ∈ received_pids s;
  so_pending_nodup : NoDup (pending_acks s);
  so_peer : 0 <= peer_id s < 2 ^ 24;
  so_slots : length (slots s) = 2%nat;
  so_idx : (active_slot_idx s < 2)%nat;
  so_slot : forall i k, slots s !! i = Some (Some k) -> slot_ok k;
  so_pid : 1 <= tls_auth_pid_out s < 2 ^ 32;
  so_window : window_ok (tls_auth_replay s);
  so_attempts : Forall attempts_ok (unacked s);
  so_rekey : forall rk, rekey s = Some rk -> 0 <= rk_key_id rk < 8;
  so_ip : established (state s) = true -> exists ip, assigned_ip s = Some (V4 ip);
  so_keyed : keyed (state s) = true -> exists k, active_slot s = Ok (Some k);
}.

Lemma active_slot_total s : session_ok s -> exists o, active_slot s = Ok o /\ slots s !! active_slot_idx s = Some o.
Proof.
  intros Hs. destruct (lookup_lt_is_Some_2 (slots s) (active_slot_idx s)) as [o Ho].
  { rewrite (so_slots s Hs). apply (so_idx s Hs). }
  exists o. split; [|done]. by apply index_ok.
Qed.

(** Rebuild the invariant of an updated session from the invariant of the
    original: fields that did not change are closed at once. *)
Ltac keep_ok Hs := destruct Hs; constructor; cbn -[active_slot uint_ok]; try assumption.

Lemma new_ok sid tls peer tr r1 r2 now :
  u64_ok sid -> 0 <= peer < 2 ^ 24 -> session_ok (new sid tls peer tr r1 r2 now).
Proof.
  intros Hsid Hpeer. constructor; cbn -[active_slot]; try done; try lia.
  - by intros p ?%elem_of_nil.
  - constructor.
  - intros [|[|i]] k; done.
  - apply new_window_ok.
Qed.

#[export] Instance start_rekey_ok key_id tls r1 r2 :
  TCEq (bool_decide (0 <= key_id < 8)) true -> Preserves session_ok (start_rekey key_id tls r1 r2).
Proof.
  intros Hk%TCEq_eq%bool_decide_eq_true s Hs. keep_ok Hs. by intros rk [= <-].
Qed.

#[export] Instance record_sent_ok pid enc now : Preserves session_ok (record_sent pid enc now).
Proof.
  intros s Hs. keep_ok Hs. apply Forall_app. split; [done|]. constructor; [|constructor].
  unfold attempts_ok, CONTROL_MAX_ATTEMPTS. cbn. lia.
Qed.

#[export] Instance process_acks_ok acks : Preserves session_ok (process_acks acks).
Proof.
  intros s Hs. destruct acks as [|a acks]; [done|]. keep_ok Hs.
  rewrite Forall_forall in *. intros u [_ Hu]%list_elem_of_filter. auto.
Qed.

#[export] Instance stale_unacked_ok now base : Preserves session_ok (stale_unacked now base).
Proof.
  intros s Hs. pose proof (stale_tick_budget now base (unacked s) (so_attempts s Hs)) as [_ Hu]. keep_ok Hs.
Qed.

#[export] Instance alloc_packet_id_ok : Preserves session_ok alloc_packet_id.
Proof. intros s Hs. keep_ok Hs. apply wrap_ok. lia. Qed.

#[export] Instance make_hard_reset_reply_ok ack : Preserves session_ok (make_hard_reset_reply ack).
Proof. apply _. Qed.
#[export] Instance make_soft_reset_reply_ok k ack : Preserves session_ok (make_soft_reset_reply k ack).
Proof. apply _. Qed.
#[export] Instance make_soft_reset_init_ok k : Preserves session_ok (make_soft_reset_init k).
Proof. apply _. Qed.
#[export] Instance make_ack_ok k pids : Preserves session_ok (make_ack k pids).
Proof. apply _. Qed.

#[export] Instance clear_pending_ok : Preserves session_ok (modify (set_pending_acks [])).
Proof.
  intros s Hs. keep_ok Hs; [by intros p ?%elem_of_nil|constructor].
Qed.
#[export] Instance make_control_ok k payload : Preserves session_ok (make_control k payload).
Proof. apply _. Qed.

#[export] Instance next_tls_auth_pid_ok : Preserves session_ok next_tls_auth_pid.
Proof.
  intros s Hs. keep_ok Hs. unfold checked_add. case_decide; simpl; lia.
Qed.

Lemma note_received_ok pid now : u32_ok pid -> Preserves session_ok (note_received pid now).
Proof.
  intros Hp s Hs. unfold note_received. case_bool_decide as Hin; keep_ok Hs.
  - apply set_Forall_union; [by apply set_Forall_singleton|done].
  - intros p [?| ->%list_elem_of_singleton]%elem_of_app; set_solver.
  - apply NoDup_app. split; [done|]. split; [|apply NoDup_singleton].
    intros p ? ->%list_elem_of_singleton. naive_solver.
Qed.

Lemma finalize_keys_ok : Preserves session_ok finalize_keys.
Proof.
  intros s Hs. unfold finalize_keys. cbn [snd].
  destruct (peer_certificates _ ≫= head) as [der|]; [destruct (Tls.extract_common_name der)|];
    keep_ok Hs; done.
Qed.

(** ** Key slots *)

Lemma position_key_Some key_id l i :
  position_key key_id l = Some i ->
  exists k, l !! i = Some (Some k) /\ ks_key_id k = key_id /\
    forall j k', (j < i)%nat -> l !! j = Some (Some k') -> ks_key_id k' <> key_id.
Proof.
  unfold position_key. destruct (list_find _ l) as [[j o]|] eqn:E; [|done]. intros [= <-].
  apply list_find_Some in E as (Ho & Hk & Hfirst). destruct o as [k|]; [|done]. injection Hk as Hk.
  exists k. split; [done|]. split; [done|]. intros j' k' Hlt Hj ?. eapply Hfirst; [done|done|]. simpl. congruence.
Qed.

Lemma position_key_None key_id l k i :
  position_key key_id l = None -> l !! i = Some (Some k) -> ks_key_id k <> key_id.
Proof.
  unfold position_key. destruct (list_find _ l) as [[j o]|] eqn:E; [done|]. intros _ Hi Hk.
  apply list_find_None in E. rewrite Forall_lookup in E. eapply (E i); [done|]. simpl. congruence.
Qed.

Lemma slot_by_key_id_cases key_id s :
  slot_by_key_id key_id s = None \/
  exists idx k, slot_by_key_id key_id s = Some (idx, k) /\ slots s !! idx = Some (Some k) /\
    ks_key_id k = key_id /\ position_key key_id (slots s) = Some idx.
Proof.
  unfold slot_by_key_id. destruct (position_key key_id (slots s)) as [idx|] eqn:E; [right|by left].
  pose proof (position_key_Some _ _ _ E) as (k & Hi & Hk & _). exists idx, k. cbn. by rewrite Hi.
Qed.

Lemma position_key_pair key_id a b :
  position_key key_id [a; b] =
  if decide (ks_key_id <$> a = Some key_id) then Some 0%nat
  else if decide (ks_key_id <$> b = Some key_id) then Some 1%nat else None.
Proof. unfold position_key. cbn [list_find]. repeat case_decide; done. Qed.

#[export] Instance promote_slot_ok key_id : Preserves session_ok (promote_slot key_id).
Proof.
  intros s Hs. unfold promote_slot. destruct (position_key key_id (slots s)) as [i|] eqn:E; [|done].
  apply position_key_Some in E as (k & Hi & _). keep_ok Hs.
  - apply lookup_lt_Some in Hi. lia.
  - intros _. exists k. by apply active_slot_lookup.
Qed.

(** Putting a well-formed slot anywhere keeps the invariant. *)
Lemma put_slot_ok idx slot : slot_ok slot -> Preserves session_ok (put_slot idx slot).
Proof.
  intros Hk s Hs. unfold put_slot. case_decide as Hlt; [|done].
  pose proof (active_slot_total s Hs) as (o & _ & Ho). keep_ok Hs.
  - by rewrite length_insert.
  - intros i k Hi. apply list_lookup_insert_Some in Hi as [(_ & [= ->] & _)|[_ ?]]; eauto.
  - intros Hst. destruct (so_keyed0 Hst) as [k Ha%active_slot_lookup].
    destruct (decide (idx = active_slot_idx s)) as [->|].
    + exists slot. apply active_slot_lookup. cbn. by apply list_lookup_insert_eq.
    + exists k. apply active_slot_lookup. cbn. by rewrite list_lookup_insert_ne.
Qed.

Lemma install_slot_ok slot : slot_ok slot -> Preserves session_ok (install_slot slot).
Proof.
  intros Hk. unfold install_slot. apply preserves_bind; [apply _|]. intros idx.
  apply preserves_bind; [by case_decide; apply _|]. intros i.
  apply preserves_bind; [by apply put_slot_ok|apply _].
Qed.

Lemma install_slot_eq s slot :
  session_ok s ->
  install_slot slot s =
  (Ok (1 - active_slot_idx s)%nat, set_slots (<[(1 - active_slot_idx s)%nat := Some slot]> (slots s)) s).
Proof.
  intros Hs. pose proof (so_idx s Hs). unfold install_slot. msimp. rewrite decide_True by lia. msimp.
  unfold put_slot. rewrite decide_True by (rewrite (so_slots s Hs); lia). done.
Qed.

Lemma build_data_packet_ok pt : Preserves session_ok (build_data_packet pt).
Proof.
  intros s Hs. unfold build_data_packet. msimp.
  destruct (active_slot_total s Hs) as (o & -> & Ho). msimp. destruct o as [k|]; [|done]. msimp.
  pose proof (put_slot_ok (active_slot_idx s) (bump k)) as Hput. unfold bump in Hput.
  pose proof (so_slot s Hs _ _ Ho) as [].
  specialize (Hput ltac:(constructor; cbn; [done|apply wrap_ok; lia|done]) s Hs).
  destruct (put_slot _ _ s) as [[[]| | |] s1]; try done. msimp. by destruct (seal _ _ _ _).
Qed.

(** Which inputs [install_prf_slot] finds, in the order it asks for them. *)
Definition prf_inputs (s : Session) : result (bytes * bytes * bytes) :=
  match client_pre_master s, client_random1 s, client_random2 s with
  | None, _, _ => Err MissingPreMaster
  | _, None, _ => Err MissingRandom1
  | _, _, None => Err MissingRandom2
  | Some pm, Some r1, Some r2 => Ok (pm, r1, r2)
  end.

Context {CL : CryptoLaws C}.

(** The cipher both ends derive from the key-method-2 inputs. *)
Lemma derived_cipher pm c1 s1 c2 s2 csid ssid :
  exists km c, Prf.derive_openvpn_key_data pm c1 s1 c2 s2 csid ssid = Ok km /\
               from_keymat_server km = Ok c.
Proof.
  rewrite Prf.derive_eq. eexists _, _. split; [done|]. unfold from_keymat_server.
  pose proof (Prf.length_rfc_prf (Prf.rfc_prf pm Prf.MASTER_LABEL (c1 ++ s1) 48 3) Prf.KEY_EXP_LABEL
    (c2 ++ s2 ++ csid ++ ssid) 256 16) as Hl.
  unfold KEY_SIZE, SLOT, IMPLICIT_IV_SIZE. rewrite !slice_ok by lia. done.
Qed.

Lemma install_prf_slot_eq s key_id :
  session_ok s ->
  match prf_inputs s with
  | Ok (pm, r1, r2) =>
    exists km c, Prf.derive_openvpn_key_data pm r1 (server_random1 s) r2 (server_random2 s)
                   (to_be 8 (client_session_id s)) (to_be 8 (server_session_id s)) = Ok km /\
      from_keymat_server km = Ok c /\
      install_prf_slot key_id s =
      (Ok tt,
       match slots s !! active_slot_idx s with
       | Some None => set_active_slot_idx 0 (set_slots (<[0%nat := Some (MkKeySlot key_id c 1 Replay.new)]> (slots s)) s)
       | _ => set_slots (<[(1 - active_slot_idx s)%nat := Some (MkKeySlot key_id c 1 Replay.new)]> (slots s)) s
       end)
  | Err e => install_prf_slot key_id s = (Err e, s)
  | _ => False
  end.
Proof.
  intros Hs. unfold prf_inputs, install_prf_slot.
  destruct (client_pre_master s) as [pm|] eqn:Epm, (client_random1 s) as [r1|] eqn:E1,
    (client_random2 s) as [r2|] eqn:E2; msimp; rewrite ?Epm; msimp; rewrite ?E1; msimp; rewrite ?E2; try done.
  destruct (derived_cipher pm r1 (server_random1 s) r2 (server_random2 s)
    (to_be 8 (client_session_id s)) (to_be 8 (server_session_id s))) as (km & c & Ekm & Ec).
  exists km, c. split; [done|]. split; [done|]. msimp. rewrite Ekm. msimp. rewrite Ec. msimp.
  destruct (active_slot_total s Hs) as (o & -> & ->). msimp. destruct o as [k|].
  - msimp. by rewrite install_slot_eq.
  - msimp. unfold put_slot. rewrite decide_True by (rewrite (so_slots s Hs); lia). by msimp.
Qed.

Lemma install_prf_slot_ok key_id : 0 <= key_id < 8 -> Preserves session_ok (install_prf_slot key_id).
Proof.
  intros Hk s Hs. pose proof (install_prf_slot_eq s key_id Hs) as H.
  destruct (prf_inputs s) as [[[pm r1] r2]|e| |]; [|by rewrite H|done|done].
  destruct H as (km & c & _ & _ & ->). cbn [snd].
  assert (slot_ok (MkKeySlot key_id c 1 Replay.new)) as Hslot.
  { constructor; [done|done|apply new_window_ok]. }
  destruct (active_slot_total s Hs) as (o & _ & Ho). rewrite Ho. destruct o as [k|].
  - pose proof (install_slot_ok _ Hslot s Hs) as Hi. by rewrite install_slot_eq in Hi.
  - pose proof (put_slot_ok 0 _ Hslot s Hs) as Hi. unfold put_slot in Hi.
    rewrite decide_True in Hi by (rewrite (so_slots s Hs); lia). cbn [snd] in Hi. keep_ok Hi; [lia|].
    intros _. eexists. apply active_slot_lookup. cbn. apply list_lookup_insert_eq. destruct Hs. lia.
Qed.

End inv.
(** ** Claims *)

Section claims.
Context {B : BufApi} {C : CryptoApi} {T : TlsApi} {BL : BufLaws B} {CL : CryptoLaws C}.

(** The maker yields a packet that the peer's parser reads back exactly. *)
Definition makes_readable (m : M Session Protocol.ControlPacket) (s : Session) : Prop :=
  exists p s', m s = (Ok p, s') /\ Protocol.parse (Protocol.encode p) = Ok p.

(** Every control packet a session builds can be read by the peer: the
    hard-reset reply, both soft resets, a pure ack (of at least one id) and a
    TLS-carrying packet encode to bytes that parse back to the same packet, as
    long as key ids have 3 bits and at most 255 acknowledgements are pending. *)
Theorem made_packets_readable s key_id ack pids payload :
  session_ok s -> 0 <= key_id < 8 -> u32_ok ack ->
  (0 < length pids < 256)%nat -> Forall (uint_ok 32) pids -> (length (pending_acks s) < 256)%nat ->
  makes_readable (make_hard_reset_reply ack) s /\ makes_readable (make_soft_reset_reply key_id ack) s /\
  makes_readable (make_soft_reset_init key_id) s /\ makes_readable (make_ack key_id pids) s /\
  makes_readable (make_control key_id payload) s.
Proof.
  intros Hs Hk Hack Hpids Hp32 Hlen. unfold makes_readable.
  assert (Forall (uint_ok 32) (pending_acks s)) as Hpend.
  { apply Forall_forall. intros p Hp%(so_pending s Hs). by apply (so_received s Hs). }
  destruct Hs. assert (forall i, Some (next_packet_id s) = Some i -> u32_ok i) by by intros i [= <-].
  assert (forall r, Some (client_session_id s) = Some r -> u64_ok r) by by intros r [= <-].
  split_and!; eexists _, _; (split; [reflexivity|]); apply Protocol.parse_encode_eq; constructor;
    cbn -[uint_ok]; try done; try lia; try (by constructor).
  - destruct pids; [cbn in Hpids; lia|done].
  - by destruct (pending_acks s).
  - by destruct (pending_acks s).
Qed.

(** C28: switching keys.  Installing a freshly derived slot and promoting its
    key id succeeds.  If the id differs from the one in use, the new slot becomes
    the sending slot, and packets still arriving under the old id find the old
    slot unchanged.  If the ids are equal, whichever slot sits in position 0
    sends and receives, and the other is out of reach: the old key stays in use
    although [promote_slot] reports success when the old slot was in position 0,
    and the new key replaces it at once when the old slot was in position 1. *)
Theorem rekey_switch s old new_slot :
  session_ok s -> active_slot s = Ok (Some old) -> slot_ok new_slot ->
  exists i s1 s2, install_slot new_slot s = (Ok i, s1) /\
    promote_slot (ks_key_id new_slot) s1 = (Ok true, s2) /\ session_ok s2 /\
    (ks_key_id new_slot <> ks_key_id old ->
       active_slot s2 = Ok (Some new_slot) /\
       slot_by_key_id (ks_key_id old) s2 = Some (active_slot_idx s, old) /\
       slot_by_key_id (ks_key_id new_slot) s2 = Some (i, new_slot)) /\
    (ks_key_id new_slot = ks_key_id old -> active_slot_idx s = 0%nat ->
       active_slot s2 = Ok (Some old) /\ slot_by_key_id (ks_key_id old) s2 = Some (0%nat, old)) /\
    (ks_key_id new_slot = ks_key_id old -> active_slot_idx s <> 0%nat ->
       active_slot s2 = Ok (Some new_slot) /\ slot_by_key_id (ks_key_id old) s2 = Some (0%nat, new_slot)).
Proof.
  intros Hs Ha Hk. pose proof (install_slot_ok _ Hk s Hs) as Hs1. rewrite install_slot_eq in Hs1 by done.
  cbn [snd] in Hs1. rewrite install_slot_eq by done. set (s1 := set_slots _ s) in *.
  pose proof (promote_slot_ok (ks_key_id new_slot) _ Hs1) as Hs2.
  exists (1 - active_slot_idx s)%nat, s1, (promote_slot (ks_key_id new_slot) s1).2.
  split; [done|]. split; [|split; [done|]]; clear Hs1 Hs2 Hk;
    unfold promote_slot, slot_by_key_id, active_slot, s1; cbn [slots set_slots];
    apply active_slot_lookup in Ha; pose proof (so_slots s Hs) as Hl; pose proof (so_idx s Hs) as Hi;
    destruct (slots s) as [|a [|b [|]]]; try done;
    (assert (active_slot_idx s = 0 \/ active_slot_idx s = 1)%nat as [E|E] by lia); rewrite E in *;
    cbn in Ha; injection Ha as ->; cbn [insert list_insert Nat.sub]; rewrite !position_key_pair;
    cbn [fmap option_fmap option_map];
    repeat (case_decide; simplify_eq; try done); cbn; repeat split; intros; simplify_eq; try done;
    rewrite ?position_key_pair; cbn; repeat (case_decide; simplify_eq; try done); congruence.
Qed.

(** Deriving the first data-channel key.  With no active slot,
    [install_prf_slot] either reports the first missing input (pre-master,
    random1, random2, in this order) and changes nothing, or makes the active
    slot the one keyed by OpenVPN's PRF over the client's secrets, the server's
    randoms and both session ids (client's first), with packet ids starting at
    1 and an empty replay window. *)
Theorem install_prf_slot_exact s key_id :
  session_ok s -> active_slot s = Ok None ->
  match prf_inputs s with
  | Ok (pm, r1, r2) =>
    exists km c s', Prf.derive_openvpn_key_data pm r1 (server_random1 s) r2 (server_random2 s)
                      (to_be 8 (client_session_id s)) (to_be 8 (server_session_id s)) = Ok km /\
      from_keymat_server km = Ok c /\ install_prf_slot key_id s = (Ok tt, s') /\
      active_slot s' = Ok (Some (MkKeySlot key_id c 1 Replay.new))
  | Err e => install_prf_slot key_id s = (Err e, s)
  | _ => False
  end.
Proof.
  intros Hs Ha. pose proof (install_prf_slot_eq s key_id Hs) as H.
  destruct (prf_inputs s) as [[[pm r1] r2]|e| |]; try done. destruct H as (km & c & Ekm & Ec & E).
  destruct (active_slot_total s Hs) as (o & Eo & Ho). rewrite Ha in Eo. injection Eo as <-. rewrite Ho in E.
  exists km, c. eexists. split; [done|]. split; [done|]. split; [exact E|].
  apply active_slot_lookup. cbn. apply list_lookup_insert_eq. rewrite (so_slots s Hs). lia.
Qed.

End claims.

Section acks.
Context {T : TlsApi}.

(** Packet ids noted in sequence. *)
Fixpoint note_all (pids : list Z) (now : Z) : M Session unit :=
  match pids with
  | [] => mret tt
  | pid :: rest => note_received pid now ≫= fun _ => note_all rest now
  end.

Lemma note_all_spec pids now s :
  NoDup (pending_acks s) -> (forall p, p ∈ pending_acks s -> p ∈ received_pids s) ->
  exists s' new_acks, note_all pids now s = (Ok tt, s') /\
    received_pids s' = list_to_set pids ∪ received_pids s /\
    pending_acks s' = pending_acks s ++ new_acks /\ NoDup (pending_acks s') /\
    forall p, p ∈ new_acks <-> p ∈ pids /\ p ∉ received_pids s.
Proof.
  revert s. induction pids as [|pid pids IH]; intros s Hnd Hsub.
  { exists s, []. split; [done|]. rewrite app_nil_r. set_solver. }
  cbn [note_all]. msimp. unfold note_received at 1. msimp. case_bool_decide as Hin.
  - destruct (IH (set_last_seen now s)) as (s' & acks & E & Hr & Hp & Hn & Hall); [done|done|].
    cbn [received_pids pending_acks set_last_seen] in *.
    exists s', acks. split; [done|]. split; [rewrite Hr; set_solver|]. split; [done|]. split; [done|].
    intros p. rewrite Hall. set_solver.
  - destruct (IH (set_last_seen now (set_pending_acks (pending_acks s ++ [pid])
      (set_received_pids ({[pid]} ∪ received_pids s) s)))) as (s' & acks & E & Hr & Hp & Hn & Hall).
    { cbn. apply NoDup_app. split; [done|]. split; [|apply NoDup_singleton].
      intros p Hp ->%list_elem_of_singleton. naive_solver. }
    { cbn. intros p [?| ->%list_elem_of_singleton]%elem_of_app; set_solver. }
    cbn [received_pids pending_acks set_last_seen set_pending_acks set_received_pids] in *.
    exists s', (pid :: acks). split; [done|]. split; [rewrite Hr; set_solver|].
    split; [by rewrite Hp, <-app_assoc|]. split; [done|]. intros p.
    rewrite !elem_of_cons, Hall, elem_of_union, elem_of_singleton. clear -Hin.
    destruct (decide (p = pid)) as [->|]; tauto.
Qed.

(** C38: acknowledgements.  Whatever packet ids arrive, in whatever order and
    with whatever repetitions, each id not received before is queued for
    acknowledgement exactly once, behind those already queued, and no id twice. *)
Theorem acks_exactly_once pids now s :
  session_ok s -> Forall (uint_ok 32) pids ->
  exists s' new_acks, note_all pids now s = (Ok tt, s') /\ session_ok s' /\
    pending_acks s' = pending_acks s ++ new_acks /\ NoDup (pending_acks s') /\
    forall p, p ∈ new_acks <-> p ∈ pids /\ p ∉ received_pids s.
Proof.
  intros Hs Hp. destruct (note_all_spec pids now s) as (s' & acks & E & _ & Ha & Hn & Hall);
    [apply Hs|apply Hs|]. exists s', acks. split; [done|]. split; [|done].
  assert (Preserves session_ok (note_all pids now)) as Hpres; [|specialize (Hpres s Hs); by rewrite E in Hpres].
  clear -Hp. induction Hp as [|pid pids Hpid _ IH]; cbn [note_all]; [apply _|].
  apply preserves_bind; [by apply note_received_ok|done].
Qed.

End acks.

Lemma toy_new_ok : session_ok (T := Tls.toy_tls) toy_new.
Proof. apply new_ok; done. Qed.

Lemma toy_session_ok : session_ok (T := Tls.toy_tls) toy_session.
Proof.
  pose proof toy_new_ok as []. constructor; cbn -[active_slot uint_ok] in *; try assumption; try done.
  - intros [|[|i]] k; [intros [= <-]|done|done]. constructor; [done|done|apply new_window_ok].
  - intros _. by eexists.
  - intros _. by eexists.
Qed.

Lemma made_packets_readable_witness :
  makes_readable (make_control (T := Tls.toy_tls) 3 [22; 3; 1]) toy_session.
Proof.
  apply (made_packets_readable (T := Tls.toy_tls) toy_session 3 9 [1; 2] [22; 3; 1] toy_session_ok);
    [done|done|simpl; lia|repeat constructor; done|simpl; lia].
Defined.

Lemma rekey_switch_witness :
  let slot := MkKeySlot 4 toy_cipher 1 Replay.new in
  exists s1 s2, install_slot (T := Tls.toy_tls) slot toy_session = (Ok 1%nat, s1) /\
    promote_slot 4 s1 = (Ok true, s2) /\ active_slot s2 = Ok (Some slot).
Proof.
  intros slot. edestruct (rekey_switch (T := Tls.toy_tls) toy_session _ slot toy_session_ok eq_refl)
    as (i & s1 & s2 & E1 & E2 & _ & H & _).
  - constructor; [done|done|apply new_window_ok].
  - exists s1, s2. assert (i = 1%nat) as -> by (vm_compute in E1; congruence).
    split; [done|]. split; [done|]. apply H. done.
Defined.

Definition toy_keyed : Session (T := Tls.toy_tls) :=
  set_client_random2 (T := Tls.toy_tls) (Some (replicate 32 9))
    (set_client_random1 (T := Tls.toy_tls) (Some (replicate 32 8))
      (set_client_pre_master (T := Tls.toy_tls) (Some (replicate 48 7)) toy_new)).

Lemma install_prf_slot_exact_witness :
  exists c s', install_prf_slot (C := toy_crypto) 0 toy_keyed = (Ok tt, s') /\
    active_slot s' = Ok (Some (MkKeySlot 0 c 1 Replay.new)).
Proof.
  assert (session_ok toy_keyed) as Hok.
  { pose proof toy_new_ok as []. constructor; cbn -[active_slot uint_ok] in *; assumption. }
  destruct (install_prf_slot_exact (C := toy_crypto) (CL := toy_crypto_laws) toy_keyed 0 Hok eq_refl)
    as (km & c & s' & _ & _ & E & Ha).
  exists c, s'. split; [exact E|exact Ha].
Defined.

Lemma acks_exactly_once_witness :
  exists s', note_all (T := Tls.toy_tls) [3; 1; 3; 0; 1] 77 toy_session = (Ok tt, s') /\ NoDup (pending_acks s').
Proof.
  destruct (acks_exactly_once (T := Tls.toy_tls) [3; 1; 3; 0; 1] 77 toy_session toy_session_ok)
    as (s' & acks & E & _ & _ & Hn & _); [repeat constructor; done|].
  exists s'. split; [exact E|exact Hn].
Defined.

End SessionInv.
