(* ===== verification/Server.v ===== *)
(** * The server (src/src/server.rs)

    [VpnServer] and every handler of the file.  The fields fixed by
    [VpnServer::new] form the record [VpnServer]; the maps, counters, channels
    and sockets that tasks share form [Shared].  A session lives behind an
    [Arc<Mutex<..>>]: the maps and the data workers hold a name, the sessions
    are in the heap [arcs], and a handler that locks a session works on
    [Session * Shared] and writes it back, also when it leaves with an error.
    One handler run is one atomic step (it holds the lock of its session); the
    clock is read once per run, the Unix time once per envelope. *)

From S2P Require Import Prelude Replay Buf Protocol Utf8 ControlChannel Primitives Crypto Prf.
From S2P Require Import Envelope TlsAuth TlsCrypt Text StaticKey Tls Certs Transport Config Masquerade.
From S2P Require Import Session.

Module Server.
Import Transport Session.

(** A data worker: the session it decrypts for and the packets in its channel. *)
Record Worker := MkWorker {
  w_arc : nat;
  w_inbox : list bytes;
}.

(** What a handler run reads from the outside. *)
Record Env := MkEnv {
  now : Z;                       (* Instant::now() *)
  unix_secs : Z -> option Z;     (* seconds since the epoch when wrapping packet id pid *)
  rnd_sid : bytes;               (* 8 random bytes *)
  rnd1 : bytes;                  (* 32 random bytes *)
  rnd2 : bytes;                  (* 32 random bytes *)
}.

Section server.
Context {B : BufApi} {C : CryptoApi} {T : TlsApi}.

Record VpnServer := MkVpnServer {
  cfg : Config.ServerConfig;
  tls_cfg : tls_config;
  pool_end : Z;
  pool_end_v6 : option Z;
  tls_crypt : option TlsCrypt.TlsCryptKey;
  tls_auth : option TlsAuth.TlsAuthKey;
}.

Record Shared := MkShared {
  sessions : gmap SocketAddr nat; (* address -> the Arc of its session *)
  arcs : gmap nat Session; (* the sessions behind the Arcs, locked or not *)
  routes : gmap Z SocketAddr; (* tunnel IPv4 -> address *)
  routes_v6 : gmap Z SocketAddr; (* tunnel IPv6 -> address *)
  peers : gmap Z SocketAddr; (* peer id -> address *)
  next_peer_id : Z; (* AtomicU32 *)
  next_pool_ip : Z;
  next_pool_ip_v6 : option Z;
  data_routes : gmap Z nat; (* peer id -> inlet of its data worker *)
  workers : gmap nat Worker; (* the data workers and their inboxes *)
  next_ref : nat; (* next unused Arc or worker name *)
  tun_writer_tx : bool; (* the OnceLock is set *)
  tun_open : bool; (* the TUN writer task still receives *)
  tun_queue : list bytes; (* packets sent to the TUN writer *)
  tun_written : list bytes; (* packets written to the TUN device *)
  net : Net; (* the sockets *)
}.

Definition set_sessions (v : gmap SocketAddr nat) (s : Shared) : Shared :=
  MkShared
    v (arcs s) (routes s) (routes_v6 s) (peers s) (next_peer_id s) (next_pool_ip s) (next_pool_ip_v6
    s) (data_routes s) (workers s) (next_ref s) (tun_writer_tx s) (tun_open s) (tun_queue s)
    (tun_written s) (net s).
Definition set_arcs (v : gmap nat Session) (s : Shared) : Shared :=
  MkShared
    (sessions s) v (routes s) (routes_v6 s) (peers s) (next_peer_id s) (next_pool_ip s)
    (next_pool_ip_v6 s) (data_routes s) (workers s) (next_ref s) (tun_writer_tx s) (tun_open s)
    (tun_queue s) (tun_written s) (net s).
Definition set_routes (v : gmap Z SocketAddr) (s : Shared) : Shared :=
  MkShared
    (sessions s) (arcs s) v (routes_v6 s) (peers s) (next_peer_id s) (next_pool_ip s)
    (next_pool_ip_v6 s) (data_routes s) (workers s) (next_ref s) (tun_writer_tx s) (tun_open s)
    (tun_queue s) (tun_written s) (net s).
Definition set_routes_v6 (v : gmap Z SocketAddr) (s : Shared) : Shared :=
  MkShared
    (sessions s) (arcs s) (routes s) v (peers s) (next_peer_id s) (next_pool_ip s) (next_pool_ip_v6
    s) (data_routes s) (workers s) (next_ref s) (tun_writer_tx s) (tun_open s) (tun_queue s)
    (tun_written s) (net s).
Definition set_peers (v : gmap Z SocketAddr) (s : Shared) : Shared :=
  MkShared
    (sessions s) (arcs s) (routes s) (routes_v6 s) v (next_peer_id s) (next_pool_ip s)
    (next_pool_ip_v6 s) (data_routes s) (workers s) (next_ref s) (tun_writer_tx s) (tun_open s)
    (tun_queue s) (tun_written s) (net s).
Definition set_next_peer_id (v : Z) (s : Shared) : Shared :=
  MkShared
    (sessions s) (arcs s) (routes s) (routes_v6 s) (peers s) v (next_pool_ip s) (next_pool_ip_v6 s)
    (data_routes s) (workers s) (next_ref s) (tun_writer_tx s) (tun_open s) (tun_queue s)
    (tun_written s) (net s).
Definition set_next_pool_ip (v : Z) (s : Shared) : Shared :=
  MkShared
    (sessions s) (arcs s) (routes s) (routes_v6 s) (peers s) (next_peer_id s) v (next_pool_ip_v6 s)
    (data_routes s) (workers s) (next_ref s) (tun_writer_tx s) (tun_open s) (tun_queue s)
    (tun_written s) (net s).
Definition set_next_pool_ip_v6 (v : option Z) (s : Shared) : Shared :=
  MkShared
    (sessions s) (arcs s) (routes s) (routes_v6 s) (peers s) (next_peer_id s) (next_pool_ip s) v
    (data_routes s) (workers s) (next_ref s) (tun_writer_tx s) (tun_open s) (tun_queue s)
    (tun_written s) (net s).
Definition set_data_routes (v : gmap Z nat) (s : Shared) : Shared :=
  MkShared
    (sessions s) (arcs s) (routes s) (routes_v6 s) (peers s) (next_peer_id s) (next_pool_ip s)
    (next_pool_ip_v6 s) v (workers s) (next_ref s) (tun_writer_tx s) (tun_open s) (tun_queue s)
    (tun_written s) (net s).
Definition set_workers (v : gmap nat Worker) (s : Shared) : Shared :=
  MkShared
    (sessions s) (arcs s) (routes s) (routes_v6 s) (peers s) (next_peer_id s) (next_pool_ip s)
    (next_pool_ip_v6 s) (data_routes s) v (next_ref s) (tun_writer_tx s) (tun_open s) (tun_queue s)
    (tun_written s) (net s).
Definition set_next_ref (v : nat) (s : Shared) : Shared :=
  MkShared
    (sessions s) (arcs s) (routes s) (routes_v6 s) (peers s) (next_peer_id s) (next_pool_ip s)
    (next_pool_ip_v6 s) (data_routes s) (workers s) v (tun_writer_tx s) (tun_open s) (tun_queue s)
    (tun_written s) (net s).
Definition set_tun_writer_tx (v : bool) (s : Shared) : Shared :=
  MkShared
    (sessions s) (arcs s) (routes s) (routes_v6 s) (peers s) (next_peer_id s) (next_pool_ip s)
    (next_pool_ip_v6 s) (data_routes s) (workers s) (next_ref s) v (tun_open s) (tun_queue s)
    (tun_written s) (net s).
Definition set_tun_open (v : bool) (s : Shared) : Shared :=
  MkShared
    (sessions s) (arcs s) (routes s) (routes_v6 s) (peers s) (next_peer_id s) (next_pool_ip s)
    (next_pool_ip_v6 s) (data_routes s) (workers s) (next_ref s) (tun_writer_tx s) v (tun_queue s)
    (tun_written s) (net s).
Definition set_tun_queue (v : list bytes) (s : Shared) : Shared :=
  MkShared
    (sessions s) (arcs s) (routes s) (routes_v6 s) (peers s) (next_peer_id s) (next_pool_ip s)
    (next_pool_ip_v6 s) (data_routes s) (workers s) (next_ref s) (tun_writer_tx s) (tun_open s) v
    (tun_written s) (net s).
Definition set_tun_written (v : list bytes) (s : Shared) : Shared :=
  MkShared
    (sessions s) (arcs s) (routes s) (routes_v6 s) (peers s) (next_peer_id s) (next_pool_ip s)
    (next_pool_ip_v6 s) (data_routes s) (workers s) (next_ref s) (tun_writer_tx s) (tun_open s)
    (tun_queue s) v (net s).
Definition set_net (v : Net) (s : Shared) : Shared :=
  MkShared
    (sessions s) (arcs s) (routes s) (routes_v6 s) (peers s) (next_peer_id s) (next_pool_ip s)
    (next_pool_ip_v6 s) (data_routes s) (workers s) (next_ref s) (tun_writer_tx s) (tun_open s)
    (tun_queue s) (tun_written s) v.

(** A handler that holds the lock of a session. *)
Abbreviation H := (M (Session * Shared)).

Definition on_sess {A} (m : M Session A) : H A := fun '(s, sh) => let '(r, s') := m s in (r, (s', sh)).
Definition on_shared {A} (m : M Shared A) : H A := fun '(s, sh) => let '(r, sh') := m sh in (r, (s, sh')).
Definition on_net {A} (m : M Net A) : M Shared A := fun sh => let '(r, n) := m (net sh) in (r, set_net n sh).
Definition on_tls {A} (m : M TlsSession A) : M Session A := fun s => let '(r, t) := m (tls s) in (r, set_tls t s).

(** [arc.lock()]: the session behind the name, written back at the end. *)
Definition with_session {A} (arc : nat) (m : H A) : M Shared A := fun sh =>
  match arcs sh !! arc with
  | Some s => let '(r, (s', sh')) := m (s, sh) in (r, set_arcs (<[arc := s']> (arcs sh')) sh')
  | None => (Panic, sh)
  end.

(** ** Envelope *)

Definition unix_timestamp_u32 (env : Env) (pid : Z) : Z :=
  match unix_secs env pid with Some secs => wrap 32 secs | None => 0 end.

Definition wrap_for_wire (self : VpnServer) (env : Env) (inner : bytes) : M Session bytes :=
  match tls_crypt self with
  | Some tc =>
    pid ← next_tls_auth_pid;
    let ts := unix_timestamp_u32 env pid in
    lift (TlsCrypt.wrap tc inner pid ts)
  | None =>
    match tls_auth self with
    | Some ta =>
      pid ← next_tls_auth_pid;
      let ts := unix_timestamp_u32 env pid in
      lift (TlsAuth.wrap ta inner pid ts)
    | None => mret inner
    end
  end.

Definition unwrap_control (self : VpnServer) (pkt : bytes) : result (option bytes * option Z) :=
  match tls_crypt self with
  | Some tc => '(inner, pid) ← TlsCrypt.unwrap tc pkt; Ok (Some inner, Some pid)
  | None =>
    match tls_auth self with
    | Some ta => '(inner, pid) ← TlsAuth.unwrap ta pkt; Ok (Some inner, Some pid)
    | None => Ok (None, None)
    end
  end.

(** ** Sending control packets *)

(** [out.chunks(n)]. *)
Fixpoint chunks_fuel (fuel n : nat) (l : bytes) : list bytes :=
  match fuel with
  | O => []
  | S fuel' => match l with [] => [] | _ => take n l :: chunks_fuel fuel' n (drop n l) end
  end.
Definition chunks (n : nat) (l : bytes) : list bytes := chunks_fuel (length l) n l.

Definition send_sess (wire : bytes) : H unit :=
  t ← on_sess (gets transport);
  on_shared (on_net (send t wire)).

Definition send_and_track (self : VpnServer) (env : Env) (pkt : Protocol.ControlPacket) : H unit :=
  let pid := Protocol.packet_id pkt in
  let encoded := Protocol.encode pkt in
  wire ← on_sess (wrap_for_wire self env encoded);
  send_sess wire ≫= fun _ =>
  match pid with
  | Some p => on_sess (record_sent p encoded (now env))
  | None => mret tt
  end.

(** [sess.active_slot().map(|s| s.key_id).unwrap_or(0)]. *)
Definition active_key_id (s : Session) : result Z :=
  o ← active_slot s;
  Ok (match o with Some k => ks_key_id k | None => 0 end).

(** [for chunk in out.chunks(..) { make_control; send_and_track? }]. *)
Definition send_chunks (self : VpnServer) (env : Env) (key_id : Z) (out : bytes) : H unit :=
  for_each (fun chunk =>
    pkt ← on_sess (make_control key_id chunk);
    send_and_track self env pkt) (chunks MAX_TLS_PAYLOAD_PER_CONTROL out).

Definition take_outgoing_main : M Session bytes := fun s =>
  let '(out, t) := Tls.take_outgoing (tls s) in (Ok out, set_tls t s).

Definition flush_outgoing (self : VpnServer) (env : Env) : H unit :=
  out ← on_sess take_outgoing_main;
  s ← on_sess get;
  match out with
  | _ :: _ =>
    key_id ← lift (active_key_id s);
    send_chunks self env key_id out
  | [] =>
    match pending_acks s with
    | [] => mret tt
    | pids =>
      on_sess (modify (set_pending_acks [])) ≫= fun _ =>
      key_id ← lift (active_key_id s);
      ack ← on_sess (make_ack key_id pids);
      wire ← on_sess (wrap_for_wire self env (Protocol.encode ack));
      send_sess wire
    end
  end.

(** ** Address pools *)

Definition allocate_ip (self : VpnServer) : M Shared Z := fun sh =>
  let ip := next_pool_ip sh in
  if pool_end self <? ip then (Err PoolExhausted, sh)
  else (Ok ip, set_next_pool_ip (wrapping_add 32 ip 1) sh).

Definition allocate_ip_v6 (self : VpnServer) : M Shared (option Z) := fun sh =>
  match next_pool_ip_v6 sh with
  | None => (Ok None, sh)
  | Some ip =>
    match pool_end_v6 self with
    | None => (Panic, sh)
    | Some e =>
      if e <? ip then (Err PoolV6Exhausted, sh)
      else (Ok (Some ip), set_next_pool_ip_v6 (Some (wrapping_add 128 ip 1)) sh)
    end
  end.

(** ** PUSH_REPLY *)

Definition netmask_of (addr : IpAddr) : Z :=
  match addr with V4 v => v | V6 _ => 0xFFFFFF00 end.

Definition show_ip (a : IpAddr) : bytes :=
  match a with V4 v => Text.show_ipv4 v | V6 v => Text.show_ipv6 v end.

(** [(!0u32) << (32 - bits)]. *)
Definition cidr_to_route (cidr : bytes) : option (bytes * bytes) :=
  '(net, bits) ← Text.split_once 47 cidr;
  bits ← Text.parse_u32 bits;
  if 32 <? bits then None else
  let mask := if bits =? 0 then 0 else wrap 32 (Z.shiftl (2 ^ 32 - 1) (32 - bits)) in
  Some (net, Text.show_ipv4 mask).

Definition push_route (acc : bytes * bool) (r : bytes) : bytes * bool :=
  let '(s, redirect) := acc in
  if bool_decide (r = str "0.0.0.0/0") then (s, true)
  else match cidr_to_route r with
       | Some (net, mask) => (s ++ str ",route " ++ net ++ str " " ++ mask, redirect)
       | None => (s, redirect)
       end.

Definition build_push_reply (c : Config.ServerConfig) (client_ip : Z) (client_ip6 : option Z)
    (peer_id : Z) (extra_routes : list bytes) : bytes :=
  let s := str "PUSH_REPLY" in
  let s := s ++ str ",ifconfig " ++ Text.show_ipv4 client_ip ++ str " " ++
           Text.show_ipv4 (netmask_of (Config.tun_netmask c)) in
  let s := s ++ str ",topology subnet" in
  let s := s ++ str ",route-gateway " ++ show_ip (Config.tun_ip c) in
  let s := match Config.tun_ip6 c, client_ip6 with
           | Some (V6 server6), Some client6 =>
             s ++ str ",ifconfig-ipv6 " ++ Text.show_ipv6 client6 ++ str "/" ++
             Utf8.show (Config.tun_prefix6 c) ++ str " " ++ Text.show_ipv6 server6
           | _, _ => s
           end in
  let '(s, redirect_gateway) := fold_left push_route (Config.push_routes c ++ extra_routes) (s, false) in
  let s := if redirect_gateway : bool then s ++ str ",redirect-gateway def1 bypass-dhcp" else s in
  let s := fold_left (fun s r => s ++ str ",route-ipv6 " ++ r) (Config.push_routes_v6 c) s in
  let s := fold_left (fun s dns => s ++ str ",dhcp-option DNS " ++ show_ip dns) (Config.push_dns c) s in
  let s := s ++ str ",ping " ++ Utf8.show (Config.keepalive_ping c) ++ str ",ping-restart " ++
           Utf8.show (Config.keepalive_timeout c) in
  let s := s ++ str ",cipher AES-256-GCM" in
  let s := s ++ str ",peer-id " ++ Utf8.show peer_id in
  s ++ [0].

(** ** The control plane after the handshake *)

(** Our key-method-2 message. *)
Definition server_km2 (self : VpnServer) (r1 r2 : bytes) : bytes :=
  let link_mtu := saturating_add 16 (Config.tun_mtu (cfg self)) 42 in
  let opts := ControlChannel.build_options_string link_mtu (Config.tun_mtu (cfg self)) in
  ControlChannel.encode (ControlChannel.MkServerKeyMethod2 r1 r2 opts [] [] ControlChannel.build_peer_info).

(** [State::KeyExchange]; the result says whether the loop goes on. *)
Definition drive_key_exchange (self : VpnServer) : H bool :=
  s ← on_sess get;
  pop ← lift (ControlChannel.try_parse (Tls.plaintext_in (tls s)));
  match pop with
  | ControlChannel.NeedMore => mret false
  | ControlChannel.Ready km n =>
    on_sess (on_tls (Tls.drain_plaintext n)) ≫= fun _ =>
    on_sess (modify (fun s =>
      set_client_peer_info (Some (ControlChannel.peer_info km))
        (set_client_options (Some (ControlChannel.options km))
          (set_client_random2 (Some (ControlChannel.random2 km))
            (set_client_random1 (Some (ControlChannel.random1 km))
              (set_client_pre_master (Some (ControlChannel.pre_master km)) s)))))) ≫= fun _ =>
    on_sess (install_prf_slot 0) ≫= fun _ =>
    on_sess (on_tls (Tls.send_plaintext (server_km2 self (server_random1 s) (server_random2 s)))) ≫= fun _ =>
    on_sess (modify (set_state PushPending)) ≫= fun _ =>
    mret true
  end.

(** Choosing the tunnel address of the client with override [cc]. *)
Definition choose_ip (self : VpnServer) (cc : option Config.ClientConfig) : M Shared Z :=
  match cc ≫= Config.assign_ip with
  | Some (V4 v4) =>
    used ← gets (fun sh => bool_decide (is_Some (routes sh !! v4)));
    if used : bool then bail (StaticIpInUse v4) else mret v4
  | Some (V6 _) => bail PerClientV6
  | None => allocate_ip self
  end.

(** Answering [PUSH_REQUEST]. *)
Definition handle_push_request (self : VpnServer) (addr : SocketAddr) : H unit :=
  s ← on_sess get;
  let cc := client_cn s ≫= fun cn => Config.client_configs (cfg self) !! cn in
  ip ← on_shared (choose_ip self cc);
  on_sess (modify (set_assigned_ip (Some (V4 ip)))) ≫= fun _ =>
  on_shared (modify (fun sh => set_routes (<[ip := addr]> (routes sh)) sh)) ≫= fun _ =>
  ip6 ← on_shared (allocate_ip_v6 self);
  match ip6 with
  | Some v6 =>
    on_sess (modify (set_assigned_ip_v6 (Some v6))) ≫= fun _ =>
    on_shared (modify (fun sh => set_routes_v6 (<[v6 := addr]> (routes_v6 sh)) sh))
  | None => mret tt
  end ≫= fun _ =>
  let extra_routes := match cc with Some c => Config.cc_push_routes c | None => [] end in
  let reply := build_push_reply (cfg self) ip ip6 (peer_id s) extra_routes in
  on_sess (on_tls (Tls.send_plaintext reply)) ≫= fun _ =>
  on_sess (modify (set_state Established)).

Definition drive_push_pending (self : VpnServer) (addr : SocketAddr) : H bool :=
  s ← on_sess get;
  match ControlChannel.try_pop_ascii (Tls.plaintext_in (tls s)) with
  | ControlChannel.NeedMore => mret false
  | ControlChannel.Ready msg n =>
    on_sess (on_tls (Tls.drain_plaintext n)) ≫= fun _ =>
    when_ (bool_decide (msg = str "PUSH_REQUEST")) (handle_push_request self addr) ≫= fun _ =>
    mret true
  end.

Definition drive_established : H bool :=
  s ← on_sess get;
  match ControlChannel.try_pop_ascii (Tls.plaintext_in (tls s)) with
  | ControlChannel.NeedMore => mret false
  | ControlChannel.Ready msg n =>
    on_sess (on_tls (Tls.drain_plaintext n)) ≫= fun _ =>
    if bool_decide (msg = str "EXIT") || Text.starts_with msg (str "CC_EXIT")
    then on_sess (modify (set_state Closed)) ≫= fun _ => mret false
    else mret true
  end.

(** One pass of the loop. *)
Definition drive_step (self : VpnServer) (addr : SocketAddr) : H bool :=
  st ← on_sess (gets state);
  match st with
  | KeyExchange => drive_key_exchange self
  | PushPending => drive_push_pending self addr
  | Established => drive_established
  | _ => mret false
  end.

Fixpoint drive_loop (fuel : nat) (self : VpnServer) (addr : SocketAddr) : H unit :=
  match fuel with
  | O => lift Diverge
  | S fuel' =>
    continue ← drive_step self addr;
    if continue : bool then drive_loop fuel' self addr else mret tt
  end.

(** Every pass that goes on consumes at least one byte of plaintext. *)
Definition drive_control_plane (self : VpnServer) (addr : SocketAddr) : H unit :=
  s ← on_sess get;
  drive_loop (S (length (Tls.plaintext_in (tls s)))) self addr.

(** ** Rekeying *)

(** [sess.rekey.as_mut()]; [d] when there is no rekey in progress ([Panic] for
    [unwrap]). *)
Definition on_rekey {A} (d : result A) (m : M RekeyTrack A) : M Session A := fun s =>
  match rekey s with
  | None => (d, s)
  | Some rk => let '(r, rk') := m rk in (r, set_rekey (Some rk') s)
  end.
Definition on_rk_tls {A} (m : M TlsSession A) : M RekeyTrack A := fun rk =>
  let '(r, t) := m (rk_tls rk) in
  (r, MkRekeyTrack (rk_key_id rk) t (rk_state rk) (rk_server_random1 rk) (rk_server_random2 rk)
        (rk_key_method_sent rk)).
Definition set_rk_state (st : RekeyState) : M RekeyTrack unit := modify (fun rk =>
  MkRekeyTrack (rk_key_id rk) (rk_tls rk) st (rk_server_random1 rk) (rk_server_random2 rk)
    (rk_key_method_sent rk)).
Definition set_rk_sent : M RekeyTrack unit := modify (fun rk =>
  MkRekeyTrack (rk_key_id rk) (rk_tls rk) (rk_state rk) (rk_server_random1 rk) (rk_server_random2 rk) true).

Definition drive_rekey_control_plane (self : VpnServer) : H unit :=
  s ← on_sess get;
  match rekey s with
  | None => mret tt
  | Some rk =>
    if negb (bool_decide (rk_state rk = RkKeyExchange)) then mret tt else
    pop ← lift (ControlChannel.try_parse (Tls.plaintext_in (rk_tls rk)));
    match pop with
    | ControlChannel.NeedMore => mret tt
    | ControlChannel.Ready km n =>
      let c_sid := to_be 8 (client_session_id s) in
      let s_sid := to_be 8 (server_session_id s) in
      let s_r1 := rk_server_random1 rk in
      let s_r2 := rk_server_random2 rk in
      key_data ← lift (Prf.derive_openvpn_key_data (ControlChannel.pre_master km)
        (ControlChannel.random1 km) s_r1 (ControlChannel.random2 km) s_r2 c_sid s_sid);
      cipher ← lift (Crypto.from_keymat_server key_data);
      on_sess (install_slot (MkKeySlot (rk_key_id rk) cipher 1 Replay.new)) ≫= fun _ =>
      on_sess (on_rekey Panic (
        on_rk_tls (Tls.drain_plaintext n) ≫= fun _ =>
        on_rk_tls (Tls.send_plaintext (server_km2 self s_r1 s_r2)) ≫= fun _ =>
        set_rk_sent))
    end
  end.

Definition flush_rekey_outgoing (self : VpnServer) (env : Env) : H unit :=
  s ← on_sess get;
  match rekey s with
  | None => mret tt
  | Some rk =>
    out ← on_sess (on_rekey (Ok []) (on_rk_tls (fun t => let '(out, t') := Tls.take_outgoing t in (Ok out, t'))));
    match out with
    | [] => mret tt
    | _ => send_chunks self env (rk_key_id rk) out
    end
  end.

Definition handle_rekey_control (self : VpnServer) (env : Env) (ctrl : Protocol.ControlPacket) : H unit :=
  s ← on_sess get;
  match rekey s with
  | None => mret tt
  | Some _ =>
    on_sess (on_rekey (Ok tt) (
      on_rk_tls (Tls.feed (Protocol.payload ctrl)) ≫= fun _ =>
      rk ← get;
      when_ (bool_decide (rk_state rk = RkHandshaking) && negb (Tls.is_handshaking (rk_tls rk)))
        (set_rk_state RkKeyExchange))) ≫= fun _ =>
    drive_rekey_control_plane self ≫= fun _ =>
    flush_rekey_outgoing self env ≫= fun _ =>
    s ← on_sess get;
    match rekey s with
    | Some rk =>
      if rk_key_method_sent rk then
        on_sess (promote_slot (rk_key_id rk)) ≫= fun _ =>
        on_sess (modify (set_rekey None)) ≫= fun _ =>
        on_sess (modify (set_last_rekey_at (now env)))
      else mret tt
    | None => mret tt
    end
  end.

(** ** Inbound control packets *)

Definition is_hard_reset (op : Protocol.OpCode) : bool :=
  match op with
  | Protocol.ControlHardResetClientV2 | Protocol.ControlHardResetClientV1
  | Protocol.ControlHardResetClientV3 => true
  | _ => false
  end.

Definition fresh_ref : M Shared nat := fun sh =>
  (Ok (next_ref sh), set_next_ref (S (next_ref sh)) sh).

Definition spawn_data_worker (peer_id : Z) (arc : nat) : M Shared unit :=
  sh ← get;
  if tun_writer_tx sh then
    w ← fresh_ref;
    modify (fun sh =>
      set_data_routes (<[peer_id := w]> (data_routes sh))
        (set_workers (<[w := MkWorker arc []]> (workers sh)) sh))
  else mret tt.

(** A handler on a session that is not shared yet. *)
Definition with_local {A} (s : Session) (m : H A) : M Shared Session := fun sh =>
  match m (s, sh) with
  | (Ok _, (s', sh')) => (Ok s', sh')
  | (Err e, (_, sh')) => (Err e, sh')
  | (Panic, (_, sh')) => (Panic, sh')
  | (Diverge, (_, sh')) => (Diverge, sh')
  end.

(** [fetch_add(1) & 0x00FF_FFFF]. *)
Definition take_peer_id : M Shared Z := fun sh =>
  (Ok (Z.land (next_peer_id sh) 0xFFFFFF), set_next_peer_id (wrapping_add 32 (next_peer_id sh) 1) sh).

Definition new_session (self : VpnServer) (env : Env) (addr : SocketAddr) (ctrl : Protocol.ControlPacket)
    (replay_pid : option Z) (tr : Transport) : M Shared unit :=
  t ← lift (Tls.new (tls_cfg self));
  let server_sid := from_be (rnd_sid env) in
  peer_id ← take_peer_id;
  let sess := Session.new server_sid t peer_id tr (rnd1 env) (rnd2 env) (now env) in
  let sess := set_client_session_id (Protocol.session_id ctrl) sess in
  let sess := set_state Handshaking sess in
  let sess := match replay_pid with
              | Some pid => set_tls_auth_replay (Replay.check_and_set (tls_auth_replay sess) pid).2 sess
              | None => sess
              end in
  let ack_pid := default 0 (Protocol.packet_id ctrl) in
  sess ← with_local sess (
    reply ← on_sess (make_hard_reset_reply ack_pid);
    send_and_track self env reply);
  arc ← fresh_ref;
  modify (fun sh =>
    set_peers (<[peer_id := addr]> (peers sh))
      (set_sessions (<[addr := arc]> (sessions sh))
        (set_arcs (<[arc := sess]> (arcs sh)) sh))) ≫= fun _ =>
  spawn_data_worker peer_id arc.

(** The replay check of the envelope's packet id. *)
Definition check_replay (replay_pid : option Z) : M Session unit :=
  match replay_pid with
  | None => mret tt
  | Some pid => fun s =>
    let '(fresh, w) := Replay.check_and_set (tls_auth_replay s) pid in
    let s := set_tls_auth_replay w s in
    if fresh then (Ok tt, s) else (Err (ReplayRejectedControl pid), s)
  end.

(** [OpCode::ControlV1]. *)
Definition handle_control_v1 (self : VpnServer) (env : Env) (addr : SocketAddr)
    (ctrl : Protocol.ControlPacket) : H unit :=
  s ← on_sess get;
  let is_rekey := match rekey s with
                  | Some r => rk_key_id r =? Protocol.key_id ctrl
                  | None => false
                  end in
  if is_rekey then handle_rekey_control self env ctrl
  else
    on_sess (on_tls (Tls.feed (Protocol.payload ctrl))) ≫= fun _ =>
    s ← on_sess get;
    when_ (bool_decide (state s = Handshaking) && negb (Tls.is_handshaking (tls s)))
      (on_sess finalize_keys) ≫= fun _ =>
    drive_control_plane self addr ≫= fun _ =>
    flush_outgoing self env.

(** [OpCode::ControlSoftResetV1]. *)
Definition handle_soft_reset (self : VpnServer) (env : Env) (ctrl : Protocol.ControlPacket) : H unit :=
  s ← on_sess get;
  match rekey s with
  | Some _ => mret tt
  | None =>
    if negb (bool_decide (state s = Established)) then mret tt
    else
      let new_key_id := Protocol.key_id ctrl in
      new_tls ← lift (Tls.new (tls_cfg self));
      on_sess (start_rekey new_key_id new_tls (rnd1 env) (rnd2 env)) ≫= fun _ =>
      let ack_pid := default 0 (Protocol.packet_id ctrl) in
      reply ← on_sess (make_soft_reset_reply new_key_id ack_pid);
      send_and_track self env reply
  end.

(** The part of [handle_control_packet] that runs under the session's lock. *)
Definition handle_known (self : VpnServer) (env : Env) (addr : SocketAddr) (ctrl : Protocol.ControlPacket)
    (replay_pid : option Z) : H unit :=
  on_sess (modify (set_last_seen (now env))) ≫= fun _ =>
  on_sess (check_replay replay_pid) ≫= fun _ =>
  match Protocol.acks ctrl with
  | [] => mret tt
  | acks => on_sess (process_acks acks)
  end ≫= fun _ =>
  match Protocol.packet_id ctrl with
  | Some pid => on_sess (note_received pid (now env))
  | None => mret tt
  end ≫= fun _ =>
  match Protocol.op ctrl with
  | Protocol.ControlV1 => handle_control_v1 self env addr ctrl
  | Protocol.ControlSoftResetV1 => handle_soft_reset self env ctrl
  | _ => mret tt
  end.

Definition handle_control_packet (self : VpnServer) (env : Env) (addr : SocketAddr) (pkt : bytes)
    (replay_pid : option Z) (tr : Transport) : M Shared unit :=
  ctrl ← lift (Protocol.parse pkt);
  sh ← get;
  match sessions sh !! addr with
  | None =>
    if is_hard_reset (Protocol.op ctrl) then new_session self env addr ctrl replay_pid tr
    else mret tt
  | Some arc => with_session arc (handle_known self env addr ctrl replay_pid)
  end.

(** ** The data plane *)

Definition route_data (pkt : bytes) : M Shared unit := fun sh =>
  match Protocol.parse_data_v2 pkt with
  | Ok dp =>
    match data_routes sh !! Protocol.d_peer_id dp with
    | Some w =>
      match workers sh !! w with
      | Some wk => (Ok tt, set_workers (<[w := MkWorker (w_arc wk) (w_inbox wk ++ [pkt])]> (workers sh)) sh)
      | None => (Ok tt, sh)
      end
    | None => (Ok tt, sh)
    end
  | Err _ => (Ok tt, sh)
  | Panic => (Panic, sh)
  | Diverge => (Diverge, sh)
  end.

(** [tun_tx.send(..)]. *)
Definition tun_send (pkt : bytes) : M Shared unit := fun sh =>
  if tun_open sh then (Ok tt, set_tun_queue (tun_queue sh ++ [pkt]) sh)
  else (Err TunChannelClosed, sh).

(** The part of [decrypt_and_forward] under the session's lock. *)
Definition open_packet (env : Env) (pkt : bytes) (dp : Protocol.DataPacketV2) : M Session bytes :=
  aad ← lift (slice pkt 0 8);
  s ← get;
  '(idx, slot) ← lift (ok_or (NoKeySlot (Protocol.d_key_id dp)) (slot_by_key_id (Protocol.d_key_id dp) s));
  plaintext ← lift (Crypto.open (ks_cipher slot) (Protocol.d_packet_id dp) aad (Protocol.d_ciphertext dp));
  let '(fresh, w) := Replay.check_and_set (ks_replay slot) (Protocol.d_packet_id dp) in
  put_slot idx (MkKeySlot (ks_key_id slot) (ks_cipher slot) (ks_data_pid_out slot) w) ≫= fun _ =>
  if fresh : bool then
    modify (set_last_seen (now env)) ≫= fun _ => mret plaintext
  else bail (ReplayRejectedData (Protocol.d_key_id dp) (Protocol.d_packet_id dp)).

Definition decrypt_and_forward (env : Env) (arc : nat) (pkt : bytes) : M Shared unit :=
  dp ← lift (Protocol.parse_data_v2 pkt);
  plaintext ← with_session arc (on_sess (open_packet env pkt dp));
  if bool_decide (plaintext = Protocol.PING_PAYLOAD) then mret tt
  else tun_send plaintext.

(** The destination of an IP packet, or nowhere. *)
Definition tun_route (ip_pkt : bytes) (sh : Shared) : result (option SocketAddr) :=
  match ip_pkt with
  | [] => Ok None
  | first :: _ =>
    match Z.shiftr first 4 with
    | 4 =>
      if (length ip_pkt <? 20)%nat then Ok None else
      dst ← slice ip_pkt 16 20;
      Ok (routes sh !! from_be dst)
    | 6 =>
      if (length ip_pkt <? 40)%nat then Ok None else
      dst ← slice ip_pkt 24 40;
      Ok (routes_v6 sh !! from_be dst)
    | _ => Ok None
    end
  end.

Definition forward_tun_to_client (ip_pkt : bytes) : M Shared unit :=
  sh ← get;
  dst ← lift (tun_route ip_pkt sh);
  match dst ≫= fun addr => sessions sh !! addr with
  | None => mret tt
  | Some arc => with_session arc (
      s ← on_sess get;
      active ← lift (active_slot s);
      match active with
      | None => mret tt
      | Some _ =>
        bytes ← on_sess (build_data_packet ip_pkt);
        send_sess bytes
      end)
  end.

(** ** The tasks of [run] *)

(** Log the error and carry on. *)
Definition logged {S A} (m : M S A) : M S unit := fun s =>
  match m s with
  | (Ok _, s') | (Err _, s') => (Ok tt, s')
  | (Panic, s') => (Panic, s')
  | (Diverge, s') => (Diverge, s')
  end.

(** A datagram, or a packet of a TCP stream: the same dispatch. *)
Definition dispatch (self : VpnServer) (env : Env) (addr : SocketAddr) (tr : Transport) (pkt : bytes) :
    M Shared unit :=
  match pkt with
  | [] => mret tt
  | first :: _ =>
    match Protocol.from_u8 (Z.shiftr first 3) with
    | Ok op =>
      if Protocol.is_data op then route_data pkt
      else
        match unwrap_control self pkt with
        | Ok (inner_owned, replay_pid) =>
          let inner_pkt := default pkt inner_owned in
          logged (handle_control_packet self env addr inner_pkt replay_pid tr)
        | Err _ => mret tt
        | Panic => lift Panic
        | Diverge => lift Diverge
        end
    | Err _ => mret tt
    | Panic => lift Panic
    | Diverge => lift Diverge
    end
  end.

(** One packet of a data worker's channel. *)
Definition worker_step (env : Env) (w : nat) : M Shared unit := fun sh =>
  match workers sh !! w with
  | Some (MkWorker arc (raw :: rest)) =>
    logged (decrypt_and_forward env arc raw)
      (set_workers (<[w := MkWorker arc rest]> (workers sh)) sh)
  | _ => (Ok tt, sh)
  end.

(** One packet of the TUN writer's channel; [write_ok] is what the device
    answers.  A failed write ends the task. *)
Definition is_ip_packet (pkt : bytes) : bool :=
  match pkt with
  | b :: _ => (Z.shiftr b 4 =? 4) || (Z.shiftr b 4 =? 6)
  | [] => false
  end.

Definition tun_writer_step (write_ok : bool) : M Shared unit := fun sh =>
  match tun_open sh, tun_queue sh with
  | true, pkt :: rest =>
    let sh := set_tun_queue rest sh in
    if negb (is_ip_packet pkt) then (Ok tt, sh)
    else if write_ok then (Ok tt, set_tun_written (tun_written sh ++ [pkt]) sh)
    else (Ok tt, set_tun_open false (set_tun_queue [] sh))
  | _, _ => (Ok tt, sh)
  end.

(** Forgetting a session: its address, tunnel addresses, peer id and inlet. *)
Definition forget (addr : SocketAddr) (s : Session) (sh : Shared) : Shared :=
  let sh := set_sessions (delete addr (sessions sh)) sh in
  let sh := match assigned_ip s with
            | Some (V4 ip) => set_routes (delete ip (routes sh)) sh
            | _ => sh
            end in
  let sh := match assigned_ip_v6 s with
            | Some ip6 => set_routes_v6 (delete ip6 (routes_v6 sh)) sh
            | None => sh
            end in
  let sh := set_peers (delete (peer_id s) (peers sh)) sh in
  set_data_routes (delete (peer_id s) (data_routes sh)) sh.

(** The idle reaper, for one address of its list. *)
Definition reap_one (self : VpnServer) (env : Env) (addr : SocketAddr) : M Shared unit := fun sh =>
  match sessions sh !! addr with
  | None => (Ok tt, sh)
  | Some arc =>
    match arcs sh !! arc with
    | None => (Panic, sh)
    | Some s =>
      let idle_timeout := Config.keepalive_timeout (cfg self) * SECOND in
      if idle_timeout <=? duration_since (now env) (last_seen s)
      then (Ok tt, forget addr s sh)
      else (Ok tt, sh)
    end
  end.

(** The server-initiated rekey, for one address of its list. *)
Definition rekey_due (self : VpnServer) (env : Env) (s : Session) : bool :=
  bool_decide (state s = Established) &&
  match rekey s with None => true | Some _ => false end &&
  negb (duration_since (now env) (last_rekey_at s) <? Config.reneg_sec (cfg self) * SECOND).

Definition start_server_rekey (self : VpnServer) (env : Env) : H unit :=
  s ← on_sess get;
  if negb (rekey_due self env s) then mret tt else
  active_key_id ← lift (active_key_id s);
  let new_key_id := Z.land (wrapping_add 8 active_key_id 1) 7 in
  new_tls ← lift (Tls.new (tls_cfg self));
  on_sess (start_rekey new_key_id new_tls (rnd1 env) (rnd2 env)) ≫= fun _ =>
  on_sess (modify (set_last_rekey_at (now env))) ≫= fun _ =>
  pkt ← on_sess (make_soft_reset_init new_key_id);
  send_and_track self env pkt.

(** The body of a task's loop for one address of its snapshot: skip it if the
    session has gone, otherwise lock it and run, logging errors. *)
Definition for_session (addr : SocketAddr) (m : H unit) : M Shared unit :=
  sh ← get;
  match sessions sh !! addr with
  | None => mret tt
  | Some arc => logged (with_session arc m)
  end.

Definition rekey_one (self : VpnServer) (env : Env) (addr : SocketAddr) : M Shared unit :=
  for_session addr (start_server_rekey self env).

(** The keepalive ping. *)
Definition send_ping : H unit :=
  s ← on_sess get;
  active ← lift (active_slot s);
  match state s, active with
  | Established, Some _ =>
    bytes ← on_sess (build_data_packet Protocol.PING_PAYLOAD);
    send_sess bytes
  | _, _ => mret tt
  end.
Definition ping_one (addr : SocketAddr) : M Shared unit := for_session addr send_ping.

(** The retransmit timer: wrap every stale packet afresh, then send what could
    be wrapped. *)
Fixpoint wrap_all (self : VpnServer) (env : Env) (inners : list bytes) : M Session (list bytes) :=
  match inners with
  | [] => mret []
  | inner :: rest => fun s =>
    match wrap_for_wire self env inner s with
    | (Ok wire, s1) => (wires ← wrap_all self env rest; mret (wire :: wires)) s1
    | (Err _, s1) => wrap_all self env rest s1
    | (Panic, s1) => (Panic, s1)
    | (Diverge, s1) => (Diverge, s1)
    end
  end.

Definition retransmit (self : VpnServer) (env : Env) : H unit :=
  stale_inner ← on_sess (stale_unacked (now env) CONTROL_BASE_RTO);
  wire_list ← on_sess (wrap_all self env stale_inner);
  for_each (fun wire => logged (send_sess wire)) wire_list.
Definition retransmit_one (self : VpnServer) (env : Env) (addr : SocketAddr) : M Shared unit :=
  for_session addr (retransmit self env).

(** A tick of a task: its body for every address of the snapshot.  The order
    is the map's and may be anything; the theorems do not depend on it. *)
Definition tick (body : SocketAddr -> M Shared unit) : M Shared unit :=
  sh ← get;
  for_each body (map_to_list (sessions sh)).*1.

Definition reaper_tick (self : VpnServer) (env : Env) : M Shared unit := tick (reap_one self env).
(** Only spawned when [reneg_sec > 0]. *)
Definition rekey_tick (self : VpnServer) (env : Env) : M Shared unit :=
  when_ (0 <? Config.reneg_sec (cfg self)) (tick (rekey_one self env)).
Definition ping_tick : M Shared unit := tick ping_one.
Definition retransmit_tick (self : VpnServer) (env : Env) : M Shared unit := tick (retransmit_one self env).

(** The start of [run]: the TUN writer's channel is published. *)
Definition run_start : M Shared unit := modify (fun sh => set_tun_writer_tx true (set_tun_open true sh)).

(** The TUN reader. *)
Definition tun_read (ip_pkt : bytes) : M Shared unit :=
  match ip_pkt with
  | [] => mret tt
  | _ => logged (forward_tun_to_client ip_pkt)
  end.

(** [shutdown_clients]. *)
Definition shutdown_one (self : VpnServer) (env : Env) : H unit :=
  s ← on_sess get;
  if negb (bool_decide (state s = Established)) then mret tt else
  on_sess (on_tls (Tls.send_plaintext (str "RESTART,1" ++ [0]))) ≫= fun _ =>
  flush_outgoing self env.
Definition shutdown_clients (self : VpnServer) (env : Env) : M Shared unit :=
  tick (fun addr => for_session addr (shutdown_one self env)).

(** ** TCP streams *)

(** The writer task's framing; over-long packets are dropped. *)
Definition frame (bs : bytes) : bytes :=
  if 65535 <? Z.of_nat (length bs) then []
  else to_be 2 (wrap 16 (Z.of_nat (length bs))) ++ bs.

(** The reader's loop over the bytes received until end of file: the packets
    it dispatches.  A packet cut short by the end of file is dropped. *)
Fixpoint deframe_fuel (fuel : nat) (stream : bytes) : list bytes :=
  match fuel with
  | O => []
  | S fuel' =>
    match stream with
    | b0 :: b1 :: rest =>
      let len := Z.to_nat (from_be [b0; b1]) in
      if (len =? 0)%nat then deframe_fuel fuel' rest
      else if (length rest <? len)%nat then []
      else take len rest :: deframe_fuel fuel' (drop len rest)
    | _ => []
    end
  end.
Definition deframe (stream : bytes) : list bytes := deframe_fuel (length stream) stream.

(** A new stream: its writer channel. *)
Definition tcp_accept : M Shared nat := fun sh =>
  let tx := next_ref sh in
  let n := net sh in
  (Ok tx, set_net (MkNet (udp_answers n) (udp_sent n) (<[tx := []]> (tcp_queues n)))
            (set_next_ref (S tx) sh)).

(** The writer task of a stream ends at its first failed write, and its
    channel closes. *)
Definition tcp_writer_failed (tx : nat) : M Shared unit := modify (fun sh =>
  let n := net sh in
  set_net (MkNet (udp_answers n) (udp_sent n) (delete tx (tcp_queues n))) sh).

(** The end of the reader: evict the session of this peer. *)
Definition tcp_closed (peer : SocketAddr) : M Shared unit := fun sh =>
  match sessions sh !! peer with
  | None => (Ok tt, sh)
  | Some arc =>
    match arcs sh !! arc with
    | None => (Panic, set_sessions (delete peer (sessions sh)) sh)
    | Some s => (Ok tt, forget peer s sh)
    end
  end.

Definition run_tcp_stream (self : VpnServer) (envs : nat -> Env) (peer : SocketAddr) (stream : bytes) :
    M Shared unit :=
  tx ← tcp_accept;
  for_each (fun '(env, pkt) => dispatch self env peer (Tcp tx) pkt)
    (imap (fun i pkt => (envs i, pkt)) (deframe stream)) ≫= fun _ =>
  tcp_closed peer.

(** ** Start-up *)

(** [VpnServer::new]: [bind_ok] is the outcome of binding the socket,
    [read_file] gives the contents of the certificate and key files, [n] is the
    state of the sockets; NAT acts on the host. *)
Definition load_envelope_keys `{StaticKey.HexApi} (c : Config.ServerConfig) (read_file : bytes -> option bytes) :
    result (option TlsCrypt.TlsCryptKey * option TlsAuth.TlsAuthKey) :=
  match Config.tls_crypt_key c with
  | Some path =>
    km ← StaticKey.parse_static_key_file (read_file path);
    key ← TlsCrypt.from_static_key_server km;
    Ok (Some key, None)
  | None =>
    match Config.tls_auth_key c with
    | Some path =>
      km ← StaticKey.parse_static_key_file (read_file path);
      key ← TlsAuth.from_static_key_server km (Config.tls_auth_key_direction c);
      Ok (None, Some key)
    | None => Ok (None, None)
    end
  end.

Definition pool_v6 (c : Config.ServerConfig) : result (option Z * option Z) :=
  match Config.tun_ip6 c, Config.client_pool_start_v6 c, Config.client_pool_end_v6 c with
  | None, _, _ => Ok (None, None)
  | Some _, Some (V6 s), Some (V6 e) => Ok (Some s, Some e)
  | Some _, _, _ => Err PoolV6Missing
  end.

Definition nat_setup {HA : HostApi} (c : Config.ServerConfig) : M host (option Masquerade.NatGuard) :=
  if Config.enable_nat c then
    h ← get;
    wan ← match Config.wan_iface c with
          | Some s => mret s
          | None => lift (Masquerade.detect_default_route_iface h)
          end;
    tun_ip_v4 ← match Config.tun_ip c with V4 a => mret a | V6 _ => bail NatNeedsV4Ip end;
    tun_mask_v4 ← match Config.tun_netmask c with V4 a => mret a | V6 _ => bail NatNeedsV4Mask end;
    g ← Masquerade.enable_masquerade (Config.tun_name c) wan tun_ip_v4 tun_mask_v4;
    mret (Some g)
  else mret None.

Definition new {HA : HostApi} {P : PemApi} {TC : TlsConfigApi T} `{StaticKey.HexApi}
    (c : Config.ServerConfig) (bind_ok : bool) (read_file : bytes -> option bytes) (n : Net) :
    M host (VpnServer * Shared * option Masquerade.NatGuard) :=
  when_ (negb bind_ok) (bail BindFailed) ≫= fun _ =>
  tls_cfg ← lift (Certs.build_server_config (read_file (Config.ca c)) (read_file (Config.cert c))
                    (read_file (Config.key c)));
  '(tc, ta) ← lift (load_envelope_keys c read_file);
  pool_start ← match Config.client_pool_start c with V4 a => mret a | V6 _ => bail PoolStartNotV4 end;
  pool_end ← match Config.client_pool_end c with V4 a => mret a | V6 _ => bail PoolEndNotV4 end;
  '(next6, end6) ← lift (pool_v6 c);
  guard ← nat_setup c;
  mret (MkVpnServer c tls_cfg pool_end end6 tc ta,
        MkShared ∅ ∅ ∅ ∅ ∅ 1 pool_start next6 ∅ ∅ 0 false false [] [] n,
        guard).

End server.
End Server.
