(* ===== verification/PushReply.v ===== *)
(** * The text of PUSH_REPLY (src/src/server.rs, [build_push_reply])

    The reply is a comma-separated list of directives ended by a NUL byte.  The
    list as a specification, the proof that [build_push_reply] prints it, and a
    reader for the other end: what the client finds in the reply is what the
    server assigned. *)

From S2P Require Import Prelude Replay Buf Protocol Utf8 ControlChannel Primitives Crypto Prf.
From S2P Require Import Envelope TlsAuth TlsCrypt Text StaticKey Tls Certs Transport Config Masquerade.
From S2P Require Import Session Server.

Module PushReply.
Import Transport Session Server.

(** ** The directives *)

Definition default_route : bytes := str "0.0.0.0/0".

(** A pushed IPv4 route; the default route and malformed ones are not printed. *)
Definition route_directive (r : bytes) : option bytes :=
  if bool_decide (r = default_route) then None
  else '(net, mask) ← cidr_to_route r; Some (str "route " ++ net ++ str " " ++ mask).

Definition main_directives (c : Config.ServerConfig) (ip : Z) (ip6 : option Z) (extra : list bytes) : list bytes :=
  [ str "PUSH_REPLY";
    str "ifconfig " ++ Text.show_ipv4 ip ++ str " " ++ Text.show_ipv4 (netmask_of (Config.tun_netmask c));
    str "topology subnet";
    str "route-gateway " ++ show_ip (Config.tun_ip c) ] ++
  match Config.tun_ip6 c, ip6 with
  | Some (V6 server6), Some client6 =>
    [str "ifconfig-ipv6 " ++ Text.show_ipv6 client6 ++ str "/" ++ Utf8.show (Config.tun_prefix6 c) ++ str " " ++
     Text.show_ipv6 server6]
  | _, _ => []
  end ++
  omap route_directive (Config.push_routes c ++ extra) ++
  (if bool_decide (default_route ∈ Config.push_routes c ++ extra) then [str "redirect-gateway def1 bypass-dhcp"] else []) ++
  ((fun r => str "route-ipv6 " ++ r) <$> Config.push_routes_v6 c) ++
  ((fun dns => str "dhcp-option DNS " ++ show_ip dns) <$> Config.push_dns c) ++
  [ str "ping " ++ Utf8.show (Config.keepalive_ping c);
    str "ping-restart " ++ Utf8.show (Config.keepalive_timeout c);
    str "cipher AES-256-GCM" ].
Definition directives (c : Config.ServerConfig) (ip : Z) (ip6 : option Z) (peer : Z) (extra : list bytes) : list bytes :=
  main_directives c ip ip6 extra ++ [str "peer-id " ++ Utf8.show peer].

(** ** The other end *)

(** The pieces of a text between separators. *)
Fixpoint split_on (sep : Z) (s : bytes) : list bytes :=
  match s with
  | [] => [[]]
  | b :: r =>
    match split_on sep r with
    | piece :: pieces => if b =? sep then [] :: piece :: pieces else (b :: piece) :: pieces
    | [] => []
    end
  end.

Definition strip_prefix (prefix s : bytes) : option bytes :=
  if Text.starts_with s prefix then Some (drop (length prefix) s) else None.

(** The argument of the first directive of that name. *)
Definition directive (name : bytes) (ds : list bytes) : option bytes := head (omap (strip_prefix name) ds).

Definition client_ifconfig (ds : list bytes) : option (Z * Z) :=
  arg ← directive (str "ifconfig ") ds;
  '(ip, mask) ← Text.split_once 32 arg;
  ip ← Text.read_ipv4 ip;
  mask ← Text.read_ipv4 mask;
  Some (ip, mask).
Definition client_peer_id (ds : list bytes) : option Z := directive (str "peer-id ") ds ≫= Text.parse_u32.

(** ** Printing *)

Definition comma (d : bytes) : bytes := 44 :: d.

Lemma join_commas x l : Text.join [44] (x :: l) = x ++ concat (comma <$> l).
Proof.
  revert x. induction l as [|y l IH]; intros x; [by rewrite app_nil_r|]. rewrite fmap_cons. cbn [concat].
  change (Text.join [44] (x :: y :: l)) with (x ++ [44] ++ Text.join [44] (y :: l)). by rewrite IH.
Qed.

Lemma omap_cons_eq {A1 A2} (f : A1 -> option A2) x l :
  omap f (x :: l) = match f x with Some y => y :: omap f l | None => omap f l end.
Proof. done. Qed.

Lemma push_route_eq s b r :
  push_route (s, b) r =
  (s ++ match route_directive r with Some d => comma d | None => [] end, b || bool_decide (r = default_route)).
Proof.
  unfold push_route, route_directive. fold default_route. case_bool_decide; [by rewrite app_nil_r, orb_true_r|].
  rewrite orb_false_r. destruct (cidr_to_route r) as [[net mask]|]; [done|]. cbn. by rewrite app_nil_r.
Qed.

Lemma push_routes_fold rs s b :
  fold_left push_route rs (s, b) =
  (s ++ concat (comma <$> omap route_directive rs), b || bool_decide (default_route ∈ rs)).
Proof.
  revert s b. induction rs as [|r rs IH]; intros s b.
  { cbn. rewrite bool_decide_eq_false_2 by apply not_elem_of_nil. by rewrite app_nil_r, orb_false_r. }
  cbn [fold_left]. rewrite push_route_eq, IH, omap_cons_eq. f_equal.
  - destruct (route_directive r); [by rewrite fmap_cons; cbn [concat]; rewrite app_assoc|by rewrite app_nil_r].
  - rewrite <-orb_assoc. f_equal. apply Bool.eq_iff_eq_true.
    rewrite orb_true_iff, !bool_decide_eq_true, elem_of_cons. naive_solver.
Qed.

Lemma fold_append {A} (f : A -> bytes) l s : fold_left (fun s x => s ++ f x) l s = s ++ concat (f <$> l).
Proof.
  revert s. induction l as [|x l IH]; intros s; cbn [fold_left]; [by rewrite app_nil_r|].
  rewrite IH, fmap_cons. cbn [concat]. by rewrite app_assoc.
Qed.

Lemma concat_app_bytes (l1 l2 : list bytes) : concat (l1 ++ l2) = concat l1 ++ concat l2.
Proof. apply concat_app. Qed.

Lemma build_push_reply_eq c ip ip6 peer extra :
  build_push_reply c ip ip6 peer extra = Text.join [44] (directives c ip ip6 peer extra) ++ [0].
Proof.
  unfold directives, main_directives. rewrite <-!app_assoc, <-app_comm_cons, join_commas. unfold build_push_reply. cbv zeta.
  rewrite push_routes_fold. cbn [orb]. rewrite !fmap_app, !concat_app_bytes.
  rewrite (fold_append (fun r => str ",route-ipv6 " ++ r)), (fold_append (fun dns => str ",dhcp-option DNS " ++ show_ip dns)).
  rewrite <-!list_fmap_compose.
  replace ((comma ∘ (fun r => str "route-ipv6 " ++ r)) <$> Config.push_routes_v6 c)
    with ((fun r => str ",route-ipv6 " ++ r) <$> Config.push_routes_v6 c) by done.
  replace ((comma ∘ (fun dns => str "dhcp-option DNS " ++ show_ip dns)) <$> Config.push_dns c)
    with ((fun dns => str ",dhcp-option DNS " ++ show_ip dns) <$> Config.push_dns c) by done.
  set (rts := concat _). set (r6 := concat _). set (dns := concat _). clearbody rts r6 dns.
  destruct (Config.tun_ip6 c) as [[|s6]|], ip6 as [c6|], (bool_decide (default_route ∈ _));
    cbn [concat fmap list_fmap app comma]; unfold comma; rewrite <-?app_assoc; cbn [app]; rewrite ?app_nil_r.
  all: repeat (rewrite <-?app_assoc; cbn [app]; f_equal).
Qed.

(** ** Reading *)

(** ASCII without comma and NUL. *)
Definition clean_byte (b : Z) : bool := (0 <? b) && (b <? 128) && negb (b =? 44).
Definition clean (s : bytes) : Prop := Forall (fun b => clean_byte b = true) s.

Lemma clean_byte_spec b : clean_byte b = true <-> 0 < b < 128 /\ b <> 44.
Proof. unfold clean_byte. rewrite !andb_true_iff, negb_true_iff, !Z.ltb_lt, Z.eqb_neq. naive_solver. Qed.

Lemma clean_app s1 s2 : clean (s1 ++ s2) <-> clean s1 /\ clean s2.
Proof. apply Forall_app. Qed.
Lemma clean_eval s : forallb clean_byte s = true -> clean s.
Proof. intros H. apply Forall_forall. intros b Hb. rewrite forallb_forall in H. by apply H, list_elem_of_In. Qed.

Lemma clean_digits s : Forall Text.digit s -> clean s.
Proof. intros H. eapply Forall_impl; [exact H|]. intros b Hb. apply clean_byte_spec. unfold Text.digit in Hb. lia. Qed.
Lemma clean_show n : 0 <= n -> clean (Utf8.show n).
Proof. intros Hn. apply clean_digits. by apply Text.show_digits. Qed.

Lemma clean_ipv4 ip : clean (Text.show_ipv4 ip).
Proof.
  unfold Text.show_ipv4, Text.octets. pose proof (to_be_ok 4 ip) as Hok.
  destruct (to_be 4 ip) as [|a [|b [|c [|d [|]]]]]; try by constructor. rewrite !Forall_cons in Hok.
  destruct Hok as ([Ha _] & [Hb _] & [Hc _] & [Hd _] & _).
  rewrite !clean_app. split_and!; by (apply clean_show || apply clean_eval).
Qed.

Lemma clean_hex n fuel acc : clean acc -> clean (Text.hex_fuel fuel n acc).
Proof.
  revert n acc. induction fuel as [|fuel IH]; intros n acc Ha; [done|]. cbn [Text.hex_fuel].
  assert (clean ((if n `mod` 16 <? 10 then 48 + n `mod` 16 else 87 + n `mod` 16) :: acc)) as H.
  { constructor; [|done]. apply clean_byte_spec. pose proof (Z.mod_pos_bound n 16 ltac:(lia)). case_match; lia. }
  destruct (n <? 16); [exact H|by apply IH].
Qed.

Lemma clean_join sep l : clean sep -> Forall clean l -> clean (Text.join sep l).
Proof.
  intros Hsep. induction 1 as [|x l Hx Hl IH]; [constructor|]. destruct l as [|y l]; [done|].
  change (Text.join sep (x :: y :: l)) with (x ++ sep ++ Text.join sep (y :: l)). by rewrite !clean_app.
Qed.

Lemma clean_ipv6 ip : clean (Text.show_ipv6 ip).
Proof.
  unfold Text.show_ipv6. case_bool_decide; [apply clean_app; split; [by apply clean_eval|apply clean_ipv4]|].
  assert (forall l, clean (Text.join (str ":") (Text.show_hex <$> l))) as Hj.
  { intros l. apply clean_join; [by apply clean_eval|]. apply Forall_fmap, Forall_true. intros n. apply clean_hex. constructor. }
  destruct (Text.zero_run _ _ _ _) as [start len]. destruct (1 <? len)%nat; [|apply Hj].
  rewrite !clean_app. split_and!; [apply Hj|by apply clean_eval|apply Hj].
Qed.

Lemma clean_show_ip a : clean (show_ip a).
Proof. destruct a; [apply clean_ipv4|apply clean_ipv6]. Qed.

Lemma clean_split_once c s x y : clean s -> Text.split_once c s = Some (x, y) -> clean x.
Proof.
  revert x y. induction s as [|b s IH]; intros x y; [done|]. intros [Hb Hs]%Forall_cons. cbn [Text.split_once].
  destruct (b =? c); [intros [= <- _]; constructor|]. destruct (Text.split_once c s) as [[x' y']|]; [|done].
  intros [= <- _]. constructor; [done|]. by eapply IH.
Qed.

Lemma clean_route r d : clean r -> route_directive r = Some d -> clean d.
Proof.
  intros Hr. unfold route_directive. case_bool_decide; [done|]. unfold cidr_to_route.
  destruct (Text.split_once 47 r) as [[net bits]|] eqn:E; [|done]. cbn [mbind option_bind].
  destruct (Text.parse_u32 bits) as [v|]; [|done]. cbn [mbind option_bind]. destruct (32 <? v); [done|].
  intros Hd. apply (inj Some) in Hd. subst d. rewrite !clean_app. split_and!; [by apply clean_eval|by eapply clean_split_once|by apply clean_eval|apply clean_ipv4].
Qed.

(** What the configuration may put into the reply without breaking it. *)
Record push_ok (c : Config.ServerConfig) (extra : list bytes) : Prop := {
  pu_routes : Forall clean (Config.push_routes c ++ extra);
  pu_routes6 : Forall clean (Config.push_routes_v6 c);
  pu_numbers : 0 <= Config.tun_prefix6 c /\ 0 <= Config.keepalive_ping c /\ 0 <= Config.keepalive_timeout c;
}.

Ltac clean := repeat first [rewrite clean_app; split | apply clean_show; lia | apply clean_ipv4 | apply clean_ipv6
  | apply clean_show_ip | apply clean_eval; vm_compute; reflexivity].

Lemma directives_clean c ip ip6 peer extra :
  push_ok c extra -> 0 <= peer -> Forall clean (directives c ip ip6 peer extra).
Proof.
  intros [Hr H6 (N1 & N2 & N3)] Hp. unfold directives, main_directives. rewrite !Forall_app. split_and!.
  - repeat (constructor; [clean|]). constructor.
  - destruct (Config.tun_ip6 c) as [[]|], ip6; repeat constructor. clean.
  - apply Forall_forall. intros d (r & Hd & Hin)%list_elem_of_omap. eapply clean_route; [|exact Hin].
    rewrite Forall_forall in Hr. by apply Hr.
  - case_bool_decide; repeat constructor; clean.
  - apply Forall_fmap. eapply Forall_impl; [exact H6|]. intros r Hc. cbn -[str app]. by rewrite clean_app; split; [clean|].
  - apply Forall_fmap, Forall_true. intros d. cbn -[str app]. clean.
  - repeat (constructor; [clean|]). constructor.
  - apply Forall_singleton. clean.
Qed.

Lemma split_on_piece p s : clean p -> split_on 44 (p ++ 44 :: s) = p :: split_on 44 s.
Proof.
  assert (forall s, split_on 44 s <> []) as Hne by (clear; induction s as [|b r IH]; cbn; [done|]; by repeat case_match).
  induction 1 as [|b p Hb _ IH]; cbn [app split_on].
  - destruct (split_on 44 s) eqn:E; [by apply Hne in E|]. by rewrite Z.eqb_refl.
  - rewrite IH. apply clean_byte_spec in Hb as [_ Hb]. by rewrite (proj2 (Z.eqb_neq _ _)).
Qed.
Lemma split_on_last p : clean p -> split_on 44 p = [p].
Proof.
  induction 1 as [|b p Hb _ IH]; [done|]. cbn [split_on]. rewrite IH. apply clean_byte_spec in Hb as [_ Hb].
  by rewrite (proj2 (Z.eqb_neq _ _)).
Qed.
Lemma split_join x l : Forall clean (x :: l) -> split_on 44 (Text.join [44] (x :: l)) = x :: l.
Proof.
  revert x. induction l as [|y l IH]; intros x Hl; [apply split_on_last; by apply Forall_cons in Hl as [? _]|].
  apply Forall_cons in Hl as [Hx Hl]. change (Text.join [44] (x :: y :: l)) with (x ++ 44 :: Text.join [44] (y :: l)).
  by rewrite split_on_piece, IH.
Qed.

(** The directive of a name that no earlier one begins with. *)
Lemma strip_prefix_app p s : strip_prefix p (p ++ s) = Some s.
Proof. unfold strip_prefix, Text.starts_with. by rewrite take_app_length, bool_decide_eq_true_2, drop_app_length. Qed.

Lemma directive_skip name ds1 ds2 :
  Forall (fun d => strip_prefix name d = None) ds1 -> directive name (ds1 ++ ds2) = directive name ds2.
Proof.
  unfold directive. induction 1 as [|d ds1 Hd _ IH]; [done|]. cbn [app]. by rewrite omap_cons_eq, Hd.
Qed.

Definition text_byte (b : Z) : Prop := 0 < b < 128.

Lemma position_nul_text s r : Forall text_byte s -> ControlChannel.position_nul (s ++ 0 :: r) = Some (length s).
Proof.
  induction 1 as [|b s Hb _ IH]; [done|]. cbn [app ControlChannel.position_nul]. unfold text_byte in Hb.
  rewrite (proj2 (Z.eqb_neq _ _)) by lia. by rewrite IH.
Qed.

Lemma join_text l : Forall clean l -> Forall text_byte (Text.join [44] l).
Proof.
  induction 1 as [|d l Hd Hl IH]; [constructor|].
  assert (Forall text_byte d) as Hd'.
  { eapply Forall_impl; [exact Hd|]. intros b Hb. by apply clean_byte_spec in Hb as [? _]. }
  destruct l as [|d' l]; [done|]. change (Text.join [44] (d :: d' :: l)) with (d ++ [44] ++ Text.join [44] (d' :: l)).
  rewrite !Forall_app. split_and!; [done|by repeat constructor|done].
Qed.

(** A NUL-terminated text is popped whole. *)
Lemma pop_text s : Forall text_byte s -> ControlChannel.try_pop_ascii (s ++ [0]) = ControlChannel.Ready s (length (s ++ [0])).
Proof.
  intros Hs. unfold ControlChannel.try_pop_ascii. rewrite position_nul_text by done.
  rewrite take_app_length, length_app, Utf8.from_utf8_lossy_valid; [done|].
  apply Utf8.valid_ascii. eapply Forall_impl; [exact Hs|]. intros b Hb. unfold text_byte in Hb. lia.
Qed.

Lemma not_in_ipv4 ip : 32 ∉ Text.show_ipv4 ip.
Proof.
  unfold Text.show_ipv4, Text.octets. pose proof (to_be_ok 4 ip) as Hok.
  destruct (to_be 4 ip) as [|a [|b [|c [|d [|]]]]]; try apply not_elem_of_nil. rewrite !Forall_cons in Hok.
  destruct Hok as ([Ha _] & [Hb _] & [Hc _] & [Hd _] & _).
  assert (forall v, 0 <= v -> 32 ∉ Utf8.show v) as Hv.
  { intros v Hv. apply Text.not_digit; [unfold Text.digit; lia|]. by apply Text.show_digits. }
  rewrite !not_elem_of_app. split_and!; auto; intros H%list_elem_of_singleton; done.
Qed.

(** Directives begin with their names. *)
Definition names : list bytes :=
  [str "PUSH_REPLY"; str "ifconfig "; str "topology "; str "route-gateway "; str "ifconfig-ipv6 "; str "route ";
   str "route-ipv6 "; str "dhcp-option "; str "ping "; str "ping-restart "; str "cipher "].
Definition named (d : bytes) : Prop := Exists (fun name => exists arg, d = name ++ arg) names.

Lemma named_other d : named d -> strip_prefix (str "peer-id ") d = None /\ d <> str "redirect-gateway def1 bypass-dhcp".
Proof.
  unfold named, names. rewrite !Exists_cons, Exists_nil. intros H.
  repeat (destruct H as [(arg & ->)|H]; [split; [vm_compute; reflexivity|discriminate]|]). done.
Qed.

Ltac named := unfold named, names;
  repeat first [apply Exists_cons_hd; eexists; reflexivity | apply Exists_cons_tl].

Lemma main_named c ip ip6 extra d :
  d ∈ main_directives c ip ip6 extra ->
  named d \/ (d = str "redirect-gateway def1 bypass-dhcp" /\ default_route ∈ Config.push_routes c ++ extra).
Proof.
  unfold main_directives. rewrite !elem_of_app. intros [H|[H|[H|[H|[H|[H|H]%elem_of_app]%elem_of_app]]]].
  - left. rewrite !elem_of_cons, elem_of_nil in H. destruct H as [-> |[-> |[-> |[-> |[]]]]]; named.
  - left. destruct (Config.tun_ip6 c) as [[]|], ip6; try by apply elem_of_nil in H.
    apply list_elem_of_singleton in H as ->. named.
  - left. apply list_elem_of_omap in H as (r & _ & H). unfold route_directive in H. case_bool_decide; [done|].
    destruct (cidr_to_route r) as [[net mask]|]; [|done]. apply (inj Some) in H. subst d. named.
  - case_bool_decide; [|by apply elem_of_nil in H]. apply list_elem_of_singleton in H as ->. auto.
  - left. apply list_elem_of_fmap in H as (r & -> & _). named.
  - left. apply list_elem_of_fmap in H as (r & -> & _). named.
  - left. rewrite !elem_of_cons, elem_of_nil in H. destruct H as [-> |[-> |[-> |[]]]]; named.
Qed.

Lemma no_peer_before c ip ip6 extra :
  Forall (fun d => strip_prefix (str "peer-id ") d = None) (main_directives c ip ip6 extra).
Proof.
  apply Forall_forall. intros d [Hd|[-> _]]%main_named; [by apply named_other|vm_compute; reflexivity].
Qed.

Lemma redirect_iff c ip ip6 peer extra :
  str "redirect-gateway def1 bypass-dhcp" ∈ directives c ip ip6 peer extra <-> default_route ∈ Config.push_routes c ++ extra.
Proof.
  unfold directives. rewrite elem_of_app, list_elem_of_singleton. split.
  - intros [[Hn|[_ H]]%main_named|H]; [by apply named_other in Hn as [_ ?]|done|discriminate H].
  - intros H. left. unfold main_directives. rewrite !elem_of_app. do 3 right. left. rewrite bool_decide_eq_true_2 by done.
    by apply list_elem_of_singleton.
Qed.

(** C24: the client finds in the reply what the server assigned.  If the
    configured route texts are ASCII without commas and NUL bytes, the reply is
    one NUL-terminated message, which splits at its commas into exactly the
    intended directives: address and netmask, gateway, the well-formed routes
    of the configuration and of the client in order, [redirect-gateway] if and
    only if the default route is among them, the IPv6 routes, the DNS servers,
    keepalive, cipher and peer id.  Reading them, the client gets the tunnel
    address, the netmask and the peer id back. *)
Theorem push_reply_readable c ip ip6 peer extra :
  push_ok c extra -> u32_ok ip -> u32_ok (netmask_of (Config.tun_netmask c)) -> u32_ok peer ->
  let reply := build_push_reply c ip ip6 peer extra in
  let ds := directives c ip ip6 peer extra in
  exists msg, ControlChannel.try_pop_ascii reply = ControlChannel.Ready msg (length reply) /\ split_on 44 msg = ds /\
    client_ifconfig ds = Some (ip, netmask_of (Config.tun_netmask c)) /\ client_peer_id ds = Some peer /\
    (str "redirect-gateway def1 bypass-dhcp" ∈ ds <-> default_route ∈ Config.push_routes c ++ extra).
Proof.
  intros Hok Hip Hmask Hpeer reply ds. pose proof (directives_clean c ip ip6 peer extra Hok ltac:(apply Hpeer)) as Hc.
  fold ds in Hc. exists (Text.join [44] ds). subst reply. rewrite build_push_reply_eq. fold ds.
  split; [by apply pop_text, join_text|]. split; [|split; [|split]].
  - subst ds. unfold directives, main_directives in *. rewrite <-!app_comm_cons in *. by apply split_join.
  - unfold client_ifconfig. subst ds. unfold directives, main_directives. rewrite <-!app_comm_cons.
    change (str "PUSH_REPLY" :: ?l) with ([str "PUSH_REPLY"] ++ l).
    rewrite directive_skip by (constructor; [vm_compute; reflexivity|constructor]).
    unfold directive. rewrite omap_cons_eq, strip_prefix_app. cbn [head mbind option_bind].
    change (str " " ++ ?x) with (32 :: x). rewrite Text.split_once_app by apply not_in_ipv4. cbn [mbind option_bind].
    rewrite Text.read_show_ipv4 by done. cbn [mbind option_bind]. by rewrite Text.read_show_ipv4.
  - unfold client_peer_id. subst ds. unfold directives. rewrite directive_skip by apply no_peer_before.
    unfold directive. rewrite omap_cons_eq, strip_prefix_app. by apply Text.parse_u32_show.
  - apply redirect_iff.
Qed.
End PushReply.
