(* ===== verification/Frames.v ===== *)
(** * What handlers leave alone (src/src/server.rs)

    Every handler that holds a session's lock, except the answer to
    [PUSH_REQUEST], keeps the session's tunnel addresses and its peer id, and
    of the shared state uses only the sockets: [quiet].  Instances of [Moves],
    one per operation. *)

From S2P Require Import Prelude Replay Buf Protocol Utf8 ControlChannel Primitives Crypto Prf.
From S2P Require Import Envelope TlsAuth TlsCrypt Text StaticKey Tls Certs Transport Config Masquerade.
From S2P Require Import Session Server.

Module Frames.
Import Transport Session Server.

(** Structural descent through a handler; the leaves are instances of [Moves],
    and [lift] takes a session operation to the handler's state. *)
Ltac descend lift :=
  repeat first
    [ exact _
    | apply moves_bind; [exact _| |]
    | apply moves_for_each; [exact _|]
    | apply moves_when
    | match goal with |- forall _, Moves _ _ => intros ? end
    | match goal with |- Moves _ (let _ := _ in _) => cbv zeta end
    | match goal with |- Moves _ (match ?x with _ => _ end) => destruct x end
    | match goal with |- Moves _ (on_sess _) => apply lift end
    | match goal with |- Moves _ (modify _) => intros ?; by constructor end ].

Section frames.
Context {B : BufApi} {C : CryptoApi} {T : TlsApi}.

(** A session keeps its addresses and its peer id. *)
Record sess_quiet (s s' : Session) : Prop := {
  q_ip : assigned_ip s' = assigned_ip s;
  q_ip6 : assigned_ip_v6 s' = assigned_ip_v6 s;
  q_peer : peer_id s' = peer_id s;
}.
(** And the handler that holds its lock only uses the sockets. *)
Record quiet (x y : Session * Shared) : Prop := {
  q_sess : sess_quiet x.1 y.1;
  q_shared : exists n, y.2 = set_net n x.2;
}.

#[export] Instance sess_quiet_preorder : PreOrder sess_quiet.
Proof. split; [by intros s; constructor|]. intros s1 s2 s3 [] []. constructor; congruence. Qed.
#[export] Instance quiet_preorder : PreOrder quiet.
Proof.
  split.
  - intros [s sh]. split; [reflexivity|]. exists (net sh). by destruct sh.
  - intros [s1 h1] [s2 h2] [s3 h3] [Q1 [n1 E1]] [Q2 [n2 E2]]. cbn in *. split; [by etrans|]. exists n2. cbn. by rewrite E2, E1.
Qed.

#[export] Instance on_sess_quiet {A} (m : M Session A) : Moves sess_quiet m -> Moves quiet (on_sess m).
Proof.
  intros Hm [s sh]. specialize (Hm s). unfold on_sess. destruct (m s) as [r s']. split; [done|].
  exists (net sh). by destruct sh.
Qed.
#[export] Instance on_net_quiet {A} (m : M Net A) : Moves quiet (on_shared (on_net m)).
Proof.
  intros [s sh]. unfold on_shared, on_net. destruct (m (net sh)) as [r n]. split; [cbn; reflexivity|]. by exists n.
Qed.
#[export] Instance on_tls_quiet {A} (m : M TlsSession A) : Moves sess_quiet (on_tls m).
Proof. intros s. unfold on_tls. by destruct (m (tls s)). Qed.
#[export] Instance on_rekey_quiet {A} (d : result A) (m : M RekeyTrack A) : Moves sess_quiet (on_rekey d m).
Proof. intros s. unfold on_rekey. destruct (rekey s) as [rk|]; [by destruct (m rk)|cbn; reflexivity]. Qed.

(** A change of other fields. *)
Ltac other_fields := intros s; by constructor.

#[export] Instance put_slot_quiet i k : Moves sess_quiet (put_slot i k).
Proof. intros s. unfold put_slot. case_decide; by constructor. Qed.
#[export] Instance record_sent_quiet pid enc t : Moves sess_quiet (record_sent pid enc t).
Proof. other_fields. Qed.
#[export] Instance process_acks_quiet acks : Moves sess_quiet (process_acks acks).
Proof. destruct acks; other_fields. Qed.
#[export] Instance stale_unacked_quiet t base : Moves sess_quiet (stale_unacked t base).
Proof. other_fields. Qed.
#[export] Instance alloc_packet_id_quiet : Moves sess_quiet alloc_packet_id.
Proof. other_fields. Qed.
#[export] Instance next_tls_auth_pid_quiet : Moves sess_quiet next_tls_auth_pid.
Proof. other_fields. Qed.
#[export] Instance note_received_quiet pid t : Moves sess_quiet (note_received pid t).
Proof. intros s. unfold note_received. case_bool_decide; by constructor. Qed.
#[export] Instance finalize_keys_quiet : Moves sess_quiet finalize_keys.
Proof. intros s. unfold finalize_keys. repeat case_match; by constructor. Qed.
#[export] Instance promote_slot_quiet k : Moves sess_quiet (promote_slot k).
Proof. intros s. unfold promote_slot. case_match; by constructor. Qed.
#[export] Instance start_rekey_quiet k t r1 r2 : Moves sess_quiet (start_rekey k t r1 r2).
Proof. other_fields. Qed.
#[export] Instance check_replay_quiet pid : Moves sess_quiet (check_replay pid).
Proof.
  destruct pid; [|apply _]. intros s. unfold check_replay. destruct (Replay.check_and_set _ _) as [[] ?]; by constructor.
Qed.
#[export] Instance take_outgoing_quiet : Moves sess_quiet take_outgoing_main.
Proof. intros s. unfold take_outgoing_main. by destruct (Tls.take_outgoing (tls s)). Qed.
#[export] Instance set_state_quiet st : Moves sess_quiet (modify (set_state st)).
Proof. other_fields. Qed.

Ltac quiet := descend on_sess_quiet.

#[export] Instance make_control_quiet k p : Moves sess_quiet (make_control k p).
Proof. unfold make_control. quiet. Qed.
#[export] Instance make_hard_reset_reply_quiet a : Moves sess_quiet (make_hard_reset_reply a).
Proof. unfold make_hard_reset_reply. quiet. Qed.
#[export] Instance make_soft_reset_reply_quiet k a : Moves sess_quiet (make_soft_reset_reply k a).
Proof. unfold make_soft_reset_reply. quiet. Qed.
#[export] Instance make_soft_reset_init_quiet k : Moves sess_quiet (make_soft_reset_init k).
Proof. unfold make_soft_reset_init. quiet. Qed.
#[export] Instance make_ack_quiet k pids : Moves sess_quiet (make_ack k pids).
Proof. unfold make_ack. quiet. Qed.
#[export] Instance install_slot_quiet k : Moves sess_quiet (install_slot k).
Proof. unfold install_slot. quiet. Qed.
#[export] Instance install_prf_slot_quiet k : Moves sess_quiet (install_prf_slot k).
Proof. unfold install_prf_slot. quiet. Qed.
#[export] Instance build_data_packet_quiet pt : Moves sess_quiet (build_data_packet pt).
Proof. unfold build_data_packet. quiet. Qed.
#[export] Instance wrap_for_wire_quiet self env inner : Moves sess_quiet (wrap_for_wire self env inner).
Proof. unfold wrap_for_wire. quiet. Qed.
#[export] Instance open_packet_quiet env pkt dp : Moves sess_quiet (open_packet env pkt dp).
Proof. unfold open_packet. quiet. Qed.

#[export] Instance send_sess_quiet wire : Moves quiet (send_sess wire).
Proof. unfold send_sess. quiet. Qed.
#[export] Instance send_and_track_quiet self env pkt : Moves quiet (send_and_track self env pkt).
Proof. unfold send_and_track. quiet. Qed.
#[export] Instance send_chunks_quiet self env k out : Moves quiet (send_chunks self env k out).
Proof. unfold send_chunks. quiet. Qed.
#[export] Instance flush_outgoing_quiet self env : Moves quiet (flush_outgoing self env).
Proof. unfold flush_outgoing. quiet. Qed.
#[export] Instance drive_key_exchange_quiet self : Moves quiet (drive_key_exchange self).
Proof. unfold drive_key_exchange. quiet. Qed.
#[export] Instance drive_established_quiet : Moves quiet drive_established.
Proof. unfold drive_established. quiet. Qed.
#[export] Instance drive_rekey_quiet self : Moves quiet (drive_rekey_control_plane self).
Proof. unfold drive_rekey_control_plane. quiet. Qed.
#[export] Instance flush_rekey_quiet self env : Moves quiet (flush_rekey_outgoing self env).
Proof. unfold flush_rekey_outgoing. quiet. Qed.
#[export] Instance handle_rekey_quiet self env ctrl : Moves quiet (handle_rekey_control self env ctrl).
Proof. unfold handle_rekey_control. quiet. Qed.
#[export] Instance handle_soft_reset_quiet self env ctrl : Moves quiet (handle_soft_reset self env ctrl).
Proof. unfold handle_soft_reset. quiet. Qed.
#[export] Instance start_server_rekey_quiet self env : Moves quiet (start_server_rekey self env).
Proof. unfold start_server_rekey. quiet. Qed.
#[export] Instance send_ping_quiet : Moves quiet send_ping.
Proof. unfold send_ping. quiet. Qed.
#[export] Instance shutdown_one_quiet self env : Moves quiet (shutdown_one self env).
Proof. unfold shutdown_one. quiet. Qed.
#[export] Instance logged_moves {S A} (R : S -> S -> Prop) (m : M S A) : Moves R m -> Moves R (logged m).
Proof. intros Hm s. specialize (Hm s). unfold logged. by destruct (m s) as [[] ?]. Qed.
#[export] Instance wrap_all_quiet self env inners : Moves sess_quiet (wrap_all self env inners).
Proof.
  induction inners as [|i inners IH]; cbn [wrap_all]; [apply _|]. intros s.
  pose proof (wrap_for_wire_quiet self env i s) as Hw. destruct (wrap_for_wire self env i s) as [[w|e| |] s1]; try done.
  - etrans; [exact Hw|]. apply (moves_bind sess_quiet); [exact IH|quiet].
  - etrans; [exact Hw|apply IH].
Qed.
#[export] Instance retransmit_quiet self env : Moves quiet (retransmit self env).
Proof. unfold retransmit. quiet. Qed.

End frames.
End Frames.
