(* ===== verification/ServerInv.v ===== *)
(** * The server invariant (src/src/server.rs)

    What the shared state satisfies between two handler runs, and that every
    handler, from any such state and on any input, returns, keeps it, and moves
    each session forward only: the handlers neither panic nor loop. *)

From S2P Require Import Prelude Replay Buf Protocol Utf8 ControlChannel Primitives Crypto Prf.
From S2P Require Import Envelope TlsAuth TlsCrypt Text StaticKey Tls Certs Transport Config Masquerade.
From S2P Require Import Session SessionInv Server.

Module ServerInv.
Import Transport Session SessionInv Server.

(** The order of the session states. *)
Definition rank (st : State) : nat :=
  match st with
  | WaitingHardReset => 0 | Handshaking => 1 | KeyExchange => 2 | PushPending => 3
  | Established => 4 | Closed => 5
  end.

Section inv.
Context {B : BufApi} {C : CryptoApi} {T : TlsApi}.
Context {BL : BufLaws B} {CL : CryptoLaws C} {TL : TlsLaws T}.

(** How a session may change: its state never goes back, its identity stays,
    and an envelope's packet id once refused stays refused. *)
Record sess_le (s s' : Session) : Prop := {
  le_rank : (rank (state s) <= rank (state s'))%nat;
  le_peer : peer_id s' = peer_id s;
  le_transport : transport s' = transport s;
  le_server_sid : server_session_id s' = server_session_id s;
  le_client_sid : client_session_id s' = client_session_id s;
  le_replay : forall pid, u32_ok pid -> Replay.rejects (tls_auth_replay s) pid -> Replay.rejects (tls_auth_replay s') pid;
}.

#[export] Instance sess_le_preorder : PreOrder sess_le.
Proof.
  split; [by intros s; constructor|]. intros s1 s2 s3 [] []. constructor; [lia|congruence..|auto].
Qed.

Record worker_ok (sh : Shared) (w : Worker) : Prop := {
  wk_arc : is_Some (arcs sh !! w_arc w);
  wk_inbox : Forall (fun p => bytes_ok p) (w_inbox w);
}.

Record shared_ok (self : VpnServer) (sh : Shared) : Prop := {
  sh_sessions : forall addr arc, sessions sh !! addr = Some arc -> is_Some (arcs sh !! arc);
  sh_arcs : map_Forall (fun _ s => session_ok s) (arcs sh);
  sh_arc_names : forall arc, is_Some (arcs sh !! arc) -> (arc < next_ref sh)%nat;
  sh_workers : map_Forall (fun _ w => worker_ok sh w) (workers sh);
  sh_peer_id : u32_ok (next_peer_id sh);
  sh_pool : u32_ok (next_pool_ip sh);
  sh_pool_v6 : is_Some (next_pool_ip_v6 sh) -> is_Some (pool_end_v6 self);
}.

(** What a handler that holds one session's lock leaves alone. *)
Record frame_eq (sh sh' : Shared) : Prop := {
  fr_sessions : sessions sh' = sessions sh;
  fr_arcs : arcs sh' = arcs sh;
  fr_peers : peers sh' = peers sh;
  fr_peer_id : next_peer_id sh' = next_peer_id sh;
  fr_data_routes : data_routes sh' = data_routes sh;
  fr_workers : workers sh' = workers sh;
  fr_ref : next_ref sh' = next_ref sh;
  fr_tun : tun_queue sh' = tun_queue sh;
  fr_written : tun_written sh' = tun_written sh;
}.

#[export] Instance frame_eq_preorder : PreOrder frame_eq.
Proof.
  split; [by intros s; constructor|]. intros s1 s2 s3 [] []. constructor; congruence.
Qed.

Definition ctx_ok (self : VpnServer) (x : Session * Shared) : Prop := session_ok x.1 /\ shared_ok self x.2.
Definition ctx_le (x y : Session * Shared) : Prop := sess_le x.1 y.1 /\ frame_eq x.2 y.2.

#[export] Instance ctx_le_preorder : PreOrder ctx_le.
Proof.
  split; [by intros x; split; reflexivity|]. intros x y z [] []. split; by etrans.
Qed.

Abbreviation H := (M (Session * Shared)).
Abbreviation safe_s := (safe session_ok sess_le).
Abbreviation safe_h self := (safe (ctx_ok self) ctx_le).

(** ** Lifting *)

Lemma safe_on_sess self {A} (m : M Session A) : safe_s m -> safe_h self (on_sess m).
Proof.
  intros Hm [s sh] [Hs Hsh]. destruct (Hm s Hs) as (Hr & Hs' & Hle). cbn in *.
  destruct (m s) as [r s']. split; [done|]. split; [by split|]. split; [done|]. cbn. reflexivity.
Qed.

Lemma safe_on_shared self {A} (m : M Shared A) :
  safe (shared_ok self) frame_eq m -> safe_h self (on_shared m).
Proof.
  intros Hm [s sh] [Hs Hsh]. destruct (Hm sh Hsh) as (Hr & Hsh' & Hle). cbn in *.
  destruct (m sh) as [r sh']. split; [done|]. split; [by split|]. split; [cbn; reflexivity|done].
Qed.

Lemma safe_on_net self {A} (m : M Net A) :
  (forall n, returns (m n).1) -> safe (shared_ok self) frame_eq (on_net m).
Proof.
  intros Hm sh Hsh. specialize (Hm (net sh)). unfold on_net. destruct (m (net sh)) as [r n]. cbn in *.
  split; [done|]. split; [|by constructor]. destruct Hsh. constructor; try assumption.
  cbn in *. intros w wk Hw. destruct (sh_workers0 w wk Hw). by constructor.
Qed.

Lemma set_tls_ok t s : session_ok s -> session_ok (set_tls t s).
Proof. intros []. by constructor. Qed.

Lemma safe_on_tls {A} (m : M TlsSession A) : (forall t, returns (m t).1) -> safe_s (on_tls m).
Proof.
  intros Hm s Hs. specialize (Hm (tls s)). unfold on_tls. destruct (m (tls s)) as [r t]. cbn in *.
  split; [done|]. split; [by apply set_tls_ok|]. by constructor.
Qed.

(** Reading the locked session gives a session that satisfies its invariant. *)
Lemma safe_get_sess self {A} (f : Session -> H A) :
  (forall s, session_ok s -> safe_h self (f s)) -> safe_h self (on_sess get ≫= f).
Proof. intros Hf [s sh] [Hs Hsh]. by apply (Hf s Hs (s, sh)). Qed.

(** ** Session operations *)

(** A session operation with a preservation lemma that returns by computation
    and does not touch the state machine. *)
Ltac sess_op lem :=
  apply safe_intro; [apply lem; try done|by intros s Hs|by intros s Hs; constructor].

Lemma record_sent_safe pid enc t : safe_s (record_sent pid enc t).
Proof. sess_op record_sent_ok. Qed.
Lemma process_acks_safe acks : safe_s (process_acks acks).
Proof. destruct acks; [apply safe_ret; apply _|sess_op process_acks_ok]. Qed.
Lemma stale_unacked_safe t base : safe_s (stale_unacked t base).
Proof. sess_op stale_unacked_ok. Qed.
Lemma make_hard_reset_reply_safe a : safe_s (make_hard_reset_reply a).
Proof. sess_op make_hard_reset_reply_ok. Qed.
Lemma make_soft_reset_reply_safe k a : safe_s (make_soft_reset_reply k a).
Proof. sess_op make_soft_reset_reply_ok. Qed.
Lemma make_soft_reset_init_safe k : safe_s (make_soft_reset_init k).
Proof. sess_op make_soft_reset_init_ok. Qed.
Lemma make_ack_safe k pids : safe_s (make_ack k pids).
Proof. sess_op make_ack_ok. Qed.
Lemma make_control_safe k p : safe_s (make_control k p).
Proof. sess_op make_control_ok. Qed.
Lemma next_tls_auth_pid_safe : safe_s next_tls_auth_pid.
Proof. sess_op next_tls_auth_pid_ok. Qed.
Lemma clear_pending_safe : safe_s (modify (set_pending_acks [])).
Proof. sess_op clear_pending_ok. Qed.

Lemma note_received_safe pid t : u32_ok pid -> safe_s (note_received pid t).
Proof.
  intros Hp. apply safe_intro; [by apply note_received_ok|by intros s Hs|].
  intros s Hs. unfold note_received. case_bool_decide; by constructor.
Qed.

Lemma promote_slot_safe k : safe_s (promote_slot k).
Proof.
  apply safe_intro; [apply _|..]; intros s Hs; unfold promote_slot; case_match; by constructor.
Qed.

Lemma start_rekey_safe k t r1 r2 : 0 <= k < 8 -> safe_s (start_rekey k t r1 r2).
Proof.
  intros Hk. apply safe_intro; [|by intros s Hs|by intros s Hs; constructor].
  apply start_rekey_ok. by apply TCEq_eq, bool_decide_eq_true.
Qed.

Lemma install_slot_safe k : slot_ok k -> safe_s (install_slot k).
Proof.
  intros Hk. apply safe_intro; [by apply install_slot_ok|..]; intros s Hs; rewrite install_slot_eq by done;
    [done|by constructor].
Qed.

Lemma install_prf_slot_safe k : 0 <= k < 8 -> safe_s (install_prf_slot k).
Proof.
  intros Hk. apply safe_intro; [by apply install_prf_slot_ok|..]; intros s Hs;
    pose proof (install_prf_slot_eq s k Hs) as H; destruct (prf_inputs s) as [[[]]| | |]; try done.
  - by destruct H as (? & ? & _ & _ & ->).
  - by rewrite H.
  - destruct H as (? & ? & _ & _ & ->). repeat case_match; by constructor.
  - rewrite H. cbn. reflexivity.
Qed.

Lemma build_data_packet_safe pt : safe_s (build_data_packet pt).
Proof.
  apply safe_intro; [apply build_data_packet_ok|..]; intros s Hs; unfold build_data_packet; msimp;
    destruct (active_slot_total s Hs) as (o & -> & Ho); msimp; (destruct o as [k|]; msimp; [|done || by constructor]);
    unfold put_slot; rewrite decide_True by (rewrite (so_slots s Hs); apply (so_idx s Hs)); msimp;
    pose proof (Crypto.seal_returns (ks_cipher k) (ks_data_pid_out k)
      (data_packet_header (ks_key_id k) (peer_id s) (ks_data_pid_out k)) pt);
    destruct (Crypto.seal _ _ _ _); try done; by constructor.
Qed.

Lemma finalize_keys_safe s :
  session_ok s -> state s = Handshaking -> returns (finalize_keys s).1 /\ session_ok (finalize_keys s).2 /\
  sess_le s (finalize_keys s).2.
Proof.
  intros Hs Hst. split; [done|]. split; [by apply finalize_keys_ok|]. unfold finalize_keys. cbn [snd].
  destruct (peer_certificates _ ≫= head) as [der|]; [destruct (Tls.extract_common_name der)|];
    constructor; cbn; rewrite ?Hst; cbn; (lia || done).
Qed.

Lemma set_last_seen_safe t : safe_s (modify (set_last_seen t)).
Proof. intros s Hs. split; [done|]. split; [|by constructor]. destruct Hs. by constructor. Qed.
Lemma set_last_rekey_safe t : safe_s (modify (set_last_rekey_at t)).
Proof. intros s Hs. split; [done|]. split; [|by constructor]. destruct Hs. by constructor. Qed.
Lemma clear_rekey_safe : safe_s (modify (set_rekey None)).
Proof. intros s Hs. split; [done|]. split; [|by constructor]. destruct Hs. by constructor. Qed.

Lemma check_replay_safe pid : (forall p, pid = Some p -> u32_ok p) -> safe_s (check_replay pid).
Proof.
  intros Hp. destruct pid as [p|]; [|apply safe_ret; apply _]. specialize (Hp p eq_refl).
  intros s Hs. unfold check_replay. pose proof (check_and_set_window_ok _ p (so_window s Hs) Hp) as Hw.
  destruct (so_window s Hs) as [seen Hrep].
  pose proof (fun q Hq => Replay.rejects_mono _ _ q p Hrep Hq Hp) as Hrej.
  destruct (Replay.check_and_set (tls_auth_replay s) p) as [fresh w]. cbn [snd] in Hw.
  assert (session_ok (set_tls_auth_replay w s)) by (destruct Hs; by constructor).
  assert (sess_le s (set_tls_auth_replay w s)) by (constructor; [done..|]; exact Hrej).
  by destruct fresh.
Qed.

Lemma set_km2_safe km : safe_s (modify (fun s =>
  set_client_peer_info (Some (ControlChannel.peer_info km))
    (set_client_options (Some (ControlChannel.options km))
      (set_client_random2 (Some (ControlChannel.random2 km))
        (set_client_random1 (Some (ControlChannel.random1 km))
          (set_client_pre_master (Some (ControlChannel.pre_master km)) s)))))).
Proof. intros s Hs. split; [done|]. split; [|by constructor]. destruct Hs. by constructor. Qed.

(** ** Envelope and sending *)

Lemma env_wrap_returns {K} `{EnvelopeLaws K} (k : K) inner pid ts : returns (env_wrap k inner pid ts).
Proof.
  destruct (Nat.ltb_spec (length inner) 9).
  - by destruct (env_wrap_short k inner pid ts) as [e ->].
  - by destruct (env_wrap_total k inner pid ts) as [w ->].
Qed.

Lemma wrap_for_wire_safe self env inner : safe_s (wrap_for_wire self env inner).
Proof.
  unfold wrap_for_wire. destruct (tls_crypt self) as [tc|]; [|destruct (tls_auth self) as [ta|]].
  - apply safe_bind; [apply _|apply next_tls_auth_pid_safe|]. intros pid. apply safe_lift; [apply _|].
    apply (@env_wrap_returns _ TlsCrypt.tls_crypt_envelope TlsCrypt.tls_crypt_laws).
  - apply safe_bind; [apply _|apply next_tls_auth_pid_safe|]. intros pid. apply safe_lift; [apply _|].
    apply (@env_wrap_returns _ TlsAuth.tls_auth_envelope TlsAuth.tls_auth_laws).
  - apply safe_ret; apply _.
Qed.

Lemma send_sess_safe self wire : safe_h self (send_sess wire).
Proof.
  unfold send_sess. apply safe_bind; [apply _|apply safe_on_sess|].
  - apply safe_gets; apply _.
  - intros t. apply safe_on_shared, safe_on_net. intros n.
    destruct (send t wire n) as [r n'] eqn:E. by apply (send_sent t t) in E as [_ ?].
Qed.

Lemma send_and_track_safe self env pkt : safe_h self (send_and_track self env pkt).
Proof.
  unfold send_and_track. apply safe_bind; [apply _|apply safe_on_sess, wrap_for_wire_safe|]. intros wire.
  apply safe_bind; [apply _|apply send_sess_safe|]. intros _.
  destruct (Protocol.packet_id pkt); [apply safe_on_sess, record_sent_safe|apply safe_ret; apply _].
Qed.

Lemma send_chunks_safe self env k out : safe_h self (send_chunks self env k out).
Proof.
  apply safe_for_each; [apply _|]. intros chunk.
  apply safe_bind; [apply _|apply safe_on_sess, make_control_safe|]. intros pkt. apply send_and_track_safe.
Qed.

Lemma active_key_id_ok s : session_ok s -> exists k, active_key_id s = Ok k /\ 0 <= k < 8.
Proof.
  intros Hs. unfold active_key_id. destruct (active_slot_total s Hs) as (o & -> & Ho). rsimp.
  destruct o as [k|]; eexists; (split; [done|]); [apply (so_slot s Hs _ _ Ho)|lia].
Qed.

Lemma flush_outgoing_safe self env : safe_h self (flush_outgoing self env).
Proof.
  unfold flush_outgoing. apply safe_bind; [apply _|apply safe_on_sess|].
  { intros s Hs. unfold take_outgoing_main. destruct (Tls.take_outgoing (tls s)) as [out t].
    split; [done|]. split; [by apply set_tls_ok|by constructor]. }
  intros out. apply safe_get_sess. intros s Hs. destruct (active_key_id_ok s Hs) as (k & Ek & _).
  destruct out as [|b out].
  - destruct (pending_acks s) as [|p pids]; [apply safe_ret; apply _|].
    apply safe_bind; [apply _|apply safe_on_sess, clear_pending_safe|]. intros _.
    rewrite Ek. apply safe_bind; [apply _|by apply safe_lift; [apply _|]|]. intros k'.
    apply safe_bind; [apply _|apply safe_on_sess, make_ack_safe|]. intros ack.
    apply safe_bind; [apply _|apply safe_on_sess, wrap_for_wire_safe|]. intros wire. apply send_sess_safe.
  - rewrite Ek. apply safe_bind; [apply _|by apply safe_lift; [apply _|]|]. intros k'. apply send_chunks_safe.
Qed.

(** ** The control plane after the handshake *)

Lemma on_sess_run {A} (m : M Session A) s sh :
  on_sess m (s, sh) = ((m s).1, ((m s).2, sh)).
Proof. unfold on_sess. by destruct (m s). Qed.
Lemma on_shared_run {A} (m : M Shared A) (s : Session) sh :
  on_shared m (s, sh) = ((m sh).1, (s, (m sh).2)).
Proof. unfold on_shared. by destruct (m sh). Qed.
Lemma on_tls_run {A} (m : M TlsSession A) s :
  on_tls m s = ((m (tls s)).1, set_tls (m (tls s)).2 s).
Proof. unfold on_tls. by destruct (m (tls s)). Qed.

Ltac hsimp := repeat first [progress msimp | rewrite on_sess_run | rewrite on_shared_run | rewrite on_tls_run].

Lemma drain_plaintext_run n t :
  (n <= length (Tls.plaintext_in t))%nat ->
  Tls.drain_plaintext n t = (Ok tt, Tls.MkTlsSession (Tls.tconn t) (drop n (Tls.plaintext_in t))).
Proof. intros. unfold Tls.drain_plaintext. by rewrite (proj2 (Nat.leb_le _ _)). Qed.

Lemma send_plaintext_returns d t : returns (Tls.send_plaintext d t).1.
Proof. unfold Tls.send_plaintext. by destruct (writer_write_all _ _) as [? []]. Qed.
Lemma send_plaintext_in d t : Tls.plaintext_in (Tls.send_plaintext d t).2 = Tls.plaintext_in t.
Proof. unfold Tls.send_plaintext. by destruct (writer_write_all _ _) as [? []]. Qed.

Lemma set_state_ok st s :
  session_ok s -> (keyed st = true -> exists k, active_slot s = Ok (Some k)) ->
  (established st = true -> exists ip, assigned_ip s = Some (V4 ip)) -> session_ok (set_state st s).
Proof. intros [] Hk He. by constructor. Qed.

Lemma install_prf_slot_live key_id s pm r1 r2 :
  session_ok s -> 0 <= key_id < 8 -> prf_inputs s = Ok (pm, r1, r2) ->
  exists s', install_prf_slot key_id s = (Ok tt, s') /\ session_ok s' /\ sess_le s s' /\
    state s' = state s /\ tls s' = tls s /\ exists k, active_slot s' = Ok (Some k).
Proof.
  intros Hs Hk Hin. pose proof (install_prf_slot_safe key_id Hk s Hs) as (_ & Hok & Hle).
  pose proof (install_prf_slot_eq s key_id Hs) as H. rewrite Hin in H. destruct H as (km & c & _ & _ & E).
  rewrite E in Hok, Hle |- *. eexists. split; [done|]. split; [done|]. split; [done|].
  destruct (active_slot_total s Hs) as (o & _ & Ho). rewrite Ho. destruct o as [k|].
  - split; [done|]. split; [done|]. exists k. apply active_slot_lookup. cbn.
    pose proof (so_idx s Hs). by rewrite list_lookup_insert_ne by lia.
  - split; [done|]. split; [done|]. eexists. apply active_slot_lookup. cbn.
    apply list_lookup_insert_eq. rewrite (so_slots s Hs). lia.
Qed.

(** What one pass of the loop establishes, for the induction over passes. *)
Definition pass_ok (self : VpnServer) (x : Session * Shared) (y : result bool * (Session * Shared)) : Prop :=
  returns y.1 /\ ctx_ok self y.2 /\ ctx_le x y.2 /\
  (y.1 = Ok true ->
   (length (Tls.plaintext_in (tls y.2.1)) < length (Tls.plaintext_in (tls x.1)))%nat).

Lemma pass_stop self x r : ctx_ok self x -> returns r -> r <> Ok true -> pass_ok self x (r, x).
Proof. intros. split; [done|]. split; [done|]. split; [cbn; reflexivity|done]. Qed.

Lemma drive_key_exchange_pass self s sh :
  ctx_ok self (s, sh) -> state s = KeyExchange -> pass_ok self (s, sh) (drive_key_exchange self (s, sh)).
Proof.
  intros [Hs Hsh] Hst. cbn in Hs, Hsh. unfold drive_key_exchange. hsimp.
  pose proof (ControlChannel.try_parse_returns (Tls.plaintext_in (tls s))) as Hret.
  destruct (ControlChannel.try_parse (Tls.plaintext_in (tls s))) as [[km n|]|e| |] eqn:Ep; try done; hsimp.
  all: try by apply pass_stop.
  apply ControlChannel.try_parse_ready_bound in Ep. rewrite drain_plaintext_run by lia. hsimp.
  match goal with |- context [install_prf_slot 0 ?x] => set (s2 := x) end.
  assert (session_ok s2 /\ sess_le s s2) as [Hs2 Hle2].
  { pose proof (set_km2_safe km (set_tls (Tls.MkTlsSession (Tls.tconn (tls s)) (drop n (Tls.plaintext_in (tls s)))) s)
      (set_tls_ok _ _ Hs)) as (_ & H1 & H2). split; [exact H1|]. etrans; [|exact H2]. by constructor. }
  destruct (install_prf_slot_live 0 s2 _ _ _ Hs2 ltac:(lia) eq_refl) as (s3 & E3 & Hs3 & Hle3 & Hst3 & Ht3 & Ha3).
  rewrite E3. hsimp.
  set (reply := server_km2 _ _ _). pose proof (send_plaintext_returns reply (tls s3)) as Hsend.
  pose proof (send_plaintext_in reply (tls s3)) as Hin.
  destruct (Tls.send_plaintext reply (tls s3)) as [r4 t4]. cbn in Hsend, Hin.
  destruct r4 as [[]|e4| |]; try done; hsimp.
  - split; [done|]. split; [split; [|done]|split; [split; [|cbn; reflexivity]|]].
    + cbn. apply set_state_ok; [by apply set_tls_ok|intros _; exact Ha3|done].
    + etrans; [exact Hle2|]. etrans; [exact Hle3|]. constructor; try done. cbn. rewrite Hst3. cbn. rewrite Hst. cbn. lia.
    + intros _. cbn. rewrite Hin, Ht3. cbn. rewrite length_drop. lia.
  - split; [done|]. split; [split; [by apply set_tls_ok|done]|split; [split; [|cbn; reflexivity]|done]].
    etrans; [exact Hle2|]. etrans; [exact Hle3|]. by constructor.
Qed.

(** ** Answering PUSH_REQUEST *)

Lemma allocate_ip_safe self : safe (shared_ok self) frame_eq (allocate_ip self).
Proof.
  intros sh Hsh. unfold allocate_ip. case_match; [by split_and!; [..|reflexivity]|]. split; [done|].
  split; [|by constructor]. destruct Hsh. constructor; try assumption; cbn in *.
  - intros w wk Hw. destruct (sh_workers0 w wk Hw). by constructor.
  - apply wrap_ok. lia.
Qed.

Lemma allocate_ip_v6_safe self : safe (shared_ok self) frame_eq (allocate_ip_v6 self).
Proof.
  intros sh Hsh. unfold allocate_ip_v6. destruct (next_pool_ip_v6 sh) as [ip|] eqn:E; [|by split_and!; [..|reflexivity]].
  destruct (sh_pool_v6 self sh Hsh) as [e He]; [by rewrite E|]. rewrite He.
  case_match; [by split_and!; [..|reflexivity]|]. split; [done|].
  split; [|by constructor]. destruct Hsh. constructor; try assumption; cbn in *.
  - intros w wk Hw. destruct (sh_workers0 w wk Hw). by constructor.
  - intros _. by eexists.
Qed.

Lemma choose_ip_safe self cc : safe (shared_ok self) frame_eq (choose_ip self cc).
Proof.
  unfold choose_ip. destruct (cc ≫= Config.assign_ip) as [[v4|v6]|]; [| |apply allocate_ip_safe].
  - apply safe_bind; [apply _|apply safe_gets; apply _|]. intros [].
    + intros sh Hsh. by split_and!; [..|reflexivity].
    + apply safe_ret; apply _.
  - intros sh Hsh. by split_and!; [..|reflexivity].
Qed.

Lemma insert_route_safe self ip addr :
  safe (shared_ok self) frame_eq (modify (fun sh => set_routes (<[ip := addr]> (routes sh)) sh)).
Proof.
  intros sh Hsh. split; [done|]. split; [|by constructor]. destruct Hsh. constructor; try assumption; cbn in *.
  intros w wk Hw. destruct (sh_workers0 w wk Hw). by constructor.
Qed.
Lemma insert_route_v6_safe self ip addr :
  safe (shared_ok self) frame_eq (modify (fun sh => set_routes_v6 (<[ip := addr]> (routes_v6 sh)) sh)).
Proof.
  intros sh Hsh. split; [done|]. split; [|by constructor]. destruct Hsh. constructor; try assumption; cbn in *.
  intros w wk Hw. destruct (sh_workers0 w wk Hw). by constructor.
Qed.

Lemma set_assigned_ip_ok ip s : session_ok s -> session_ok (set_assigned_ip (Some (V4 ip)) s).
Proof. intros []. constructor; try assumption. intros _. by exists ip. Qed.
Lemma set_assigned_ip_v6_ok v s : session_ok s -> session_ok (set_assigned_ip_v6 v s).
Proof. intros []. by constructor. Qed.

(** The tail of the answer: the reply is queued and the session established. *)
Lemma finish_push_safe self reply s sh :
  ctx_ok self (s, sh) -> state s = PushPending -> (exists ip, assigned_ip s = Some (V4 ip)) ->
  let y := (on_sess (on_tls (Tls.send_plaintext reply)) ≫= fun _ =>
            on_sess (modify (set_state Established))) (s, sh) in
  returns y.1 /\ ctx_ok self y.2 /\ ctx_le (s, sh) y.2 /\ Tls.plaintext_in (tls y.2.1) = Tls.plaintext_in (tls s).
Proof.
  intros [Hs Hsh] Hst Hip. hsimp. pose proof (send_plaintext_returns reply (tls s)) as Hr.
  pose proof (send_plaintext_in reply (tls s)) as Hin.
  destruct (Tls.send_plaintext reply (tls s)) as [[[]|e| |] t]; try done; hsimp; cbn in Hin;
    (split; [done|]); (split; [split; [|done]|]).
  - cbn. apply set_state_ok; [by apply set_tls_ok| |done]. intros _. apply (so_keyed s Hs). by rewrite Hst.
  - split; [|exact Hin]. split; [constructor; cbn; rewrite ?Hst; cbn; (lia || done)|cbn; reflexivity].
  - by apply set_tls_ok.
  - split; [|exact Hin]. split; [by constructor|cbn; reflexivity].
Qed.

Lemma handle_push_request_safe self addr s sh :
  ctx_ok self (s, sh) -> state s = PushPending ->
  let y := handle_push_request self addr (s, sh) in
  returns y.1 /\ ctx_ok self y.2 /\ ctx_le (s, sh) y.2 /\ Tls.plaintext_in (tls y.2.1) = Tls.plaintext_in (tls s).
Proof.
  intros [Hs Hsh] Hst. unfold handle_push_request. hsimp. cbn in Hs, Hsh.
  set (cc := client_cn s ≫= _).
  pose proof (choose_ip_safe self cc sh Hsh) as (Hr1 & Hsh1 & Hf1).
  destruct (choose_ip self cc sh) as [[ip|e| |] sh1]; [| |done..]; hsimp; cbn in Hsh1, Hf1.
  2: { split; [done|]. split; [done|]. split; [split; [cbn; reflexivity|done]|done]. }
  pose proof (insert_route_safe self ip addr sh1 Hsh1) as (_ & Hsh2 & Hf2). cbn in Hsh2, Hf2.
  set (sh2 := set_routes _ sh1) in *. set (s1 := set_assigned_ip (Some (V4 ip)) s).
  assert (session_ok s1) as Hs1 by by apply set_assigned_ip_ok.
  assert (sess_le s s1) as Hle1 by by constructor.
  pose proof (allocate_ip_v6_safe self sh2 Hsh2) as (Hr3 & Hsh3 & Hf3).
  destruct (allocate_ip_v6 self sh2) as [[ip6|e| |] sh3]; [| |done..]; hsimp; cbn in Hsh3, Hf3.
  2: { split; [done|]. split; [done|]. split; [|done]. split; [done|]. cbn. by do 2 (etrans; [eassumption|]). }
  assert (frame_eq sh sh3) as Hf by by do 2 (etrans; [eassumption|]).
  destruct ip6 as [v6|]; hsimp.
  - pose proof (insert_route_v6_safe self v6 addr sh3 Hsh3) as (_ & Hsh4 & Hf4). cbn in Hsh4, Hf4.
    set (sh4 := set_routes_v6 _ sh3) in *. set (s2 := set_assigned_ip_v6 (Some v6) s1).
    match goal with |- context [Tls.send_plaintext ?reply] =>
      pose proof (finish_push_safe self reply s2 sh4
        (conj (set_assigned_ip_v6_ok _ _ Hs1) Hsh4) Hst (ex_intro _ ip eq_refl)) as F end.
    revert F. cbv zeta. hsimp. intros (F1 & F2 & [F3 F4] & F5).
    split; [exact F1|]. split; [exact F2|]. split; [|exact F5]. split; [|by do 2 (etrans; [eassumption|])].
    etrans; [|exact F3]. by constructor.
  - match goal with |- context [Tls.send_plaintext ?reply] =>
      pose proof (finish_push_safe self reply s1 sh3 (conj Hs1 Hsh3) Hst (ex_intro _ ip eq_refl)) as F end.
    revert F. cbv zeta. hsimp. intros (F1 & F2 & [F3 F4] & F5).
    split; [exact F1|]. split; [exact F2|]. split; [|exact F5]. split; [by etrans|by etrans].
Qed.

Lemma drive_push_pending_pass self addr s sh :
  ctx_ok self (s, sh) -> state s = PushPending -> pass_ok self (s, sh) (drive_push_pending self addr (s, sh)).
Proof.
  intros [Hs Hsh] Hst. cbn in Hs, Hsh. unfold drive_push_pending. hsimp.
  destruct (ControlChannel.try_pop_ascii _) as [msg n|] eqn:Ep; [|by apply pass_stop].
  apply ControlChannel.try_pop_ascii_bound in Ep. hsimp. rewrite drain_plaintext_run by lia. hsimp.
  match goal with |- context [set_tls ?t s] => set (s1 := set_tls t s) end.
  assert (session_ok s1) as Hs1 by by apply set_tls_ok. assert (sess_le s s1) as Hle1 by by constructor.
  case_bool_decide; hsimp.
  - pose proof (handle_push_request_safe self addr s1 sh (conj Hs1 Hsh) Hst) as (F1 & F2 & [F3 F4] & F5).
    destruct (handle_push_request self addr (s1, sh)) as [[[]|e| |] [s2 sh2]]; try done; hsimp; cbn in *;
      (split; [done|]); (split; [done|]); (split; [split; [by etrans|done]|]); [|done].
    intros _. cbn. rewrite F5. cbn. rewrite length_drop. lia.
  - split; [done|]. split; [done|]. split; [split; [done|cbn; reflexivity]|]. intros _. cbn. rewrite length_drop. lia.
Qed.

Lemma drive_established_pass self s sh :
  ctx_ok self (s, sh) -> state s = Established -> pass_ok self (s, sh) (drive_established (s, sh)).
Proof.
  intros [Hs Hsh] Hst. cbn in Hs, Hsh. unfold drive_established. hsimp.
  destruct (ControlChannel.try_pop_ascii _) as [msg n|] eqn:Ep; [|by apply pass_stop].
  apply ControlChannel.try_pop_ascii_bound in Ep. hsimp. rewrite drain_plaintext_run by lia. hsimp.
  match goal with |- context [set_tls ?t s] => set (s1 := set_tls t s) end.
  assert (session_ok s1) as Hs1 by by apply set_tls_ok. assert (sess_le s s1) as Hle1 by by constructor.
  destruct (_ || _); hsimp.
  - split; [done|]. split; [split; [|done]|split; [split; [|cbn; reflexivity]|done]].
    + cbn. apply set_state_ok; [done|intros _; apply (so_keyed s1 Hs1)|intros _; apply (so_ip s1 Hs1)];
        by (cbn; rewrite Hst).
    + etrans; [exact Hle1|]. constructor; cbn; rewrite ?Hst; cbn; (lia || done).
  - split; [done|]. split; [done|]. split; [split; [done|cbn; reflexivity]|]. intros _. cbn. rewrite length_drop. lia.
Qed.

Lemma drive_step_pass self addr x : ctx_ok self x -> pass_ok self x (drive_step self addr x).
Proof.
  destruct x as [s sh]. intros Hx. unfold drive_step. hsimp.
  destruct (state s) eqn:Est; [by apply pass_stop|by apply pass_stop| | | |by apply pass_stop].
  - by apply drive_key_exchange_pass.
  - by apply drive_push_pending_pass.
  - by apply drive_established_pass.
Qed.

(** The loop ends: every pass that goes on shortens the plaintext. *)
Lemma drive_loop_safe fuel self addr x :
  ctx_ok self x -> (length (Tls.plaintext_in (tls x.1)) < fuel)%nat ->
  let y := drive_loop fuel self addr x in returns y.1 /\ ctx_ok self y.2 /\ ctx_le x y.2.
Proof.
  revert x. induction fuel as [|fuel IH]; intros x Hx Hf; [lia|]. cbn [drive_loop]. msimp.
  pose proof (drive_step_pass self addr x Hx) as (Hr & Hx' & Hle & Hdec).
  destruct (drive_step self addr x) as [[[]|e| |] x']; try done; cbn in *.
  destruct (IH x' Hx') as (H1 & H2 & H3); [specialize (Hdec eq_refl); lia|].
  split; [done|]. split; [done|]. by etrans.
Qed.

Lemma drive_control_plane_safe self addr : safe_h self (drive_control_plane self addr).
Proof.
  intros [s sh] Hx. unfold drive_control_plane. hsimp. by apply drive_loop_safe; [|cbn; lia].
Qed.

(** ** Rekeying *)

(** A computation on the rekey track that returns and keeps its key id. *)
Definition rk_safe {A} (m : M RekeyTrack A) : Prop :=
  forall rk, returns (m rk).1 /\ rk_key_id (m rk).2 = rk_key_id rk.

Lemma on_rekey_some_safe {A} (d : result A) (m : M RekeyTrack A) s rk :
  session_ok s -> rekey s = Some rk -> returns (m rk).1 -> rk_key_id (m rk).2 = rk_key_id rk ->
  let y := on_rekey d m s in returns y.1 /\ session_ok y.2 /\ sess_le s y.2.
Proof.
  intros Hs E Hr Hk. unfold on_rekey. rewrite E. destruct (m rk) as [r rk']. cbn in *.
  split; [done|]. split; [|by constructor]. pose proof (so_rekey s Hs rk E). destruct Hs. constructor; try assumption.
  cbn. intros rk0 [= <-]. by rewrite Hk.
Qed.

Lemma safe_on_rekey {A} (d : A) (m : M RekeyTrack A) : rk_safe m -> safe_s (on_rekey (Ok d) m).
Proof.
  intros Hm s Hs. destruct (rekey s) as [rk|] eqn:E.
  - destruct (Hm rk). by eapply on_rekey_some_safe.
  - unfold on_rekey. rewrite E. by split_and!; [..|reflexivity].
Qed.

Lemma rk_safe_tls {A} (m : M TlsSession A) : (forall t, returns (m t).1) -> rk_safe (on_rk_tls m).
Proof. intros Hm rk. specialize (Hm (rk_tls rk)). unfold on_rk_tls. by destruct (m (rk_tls rk)). Qed.
Lemma rk_safe_bind {A1 A2} (m : M RekeyTrack A1) (f : A1 -> M RekeyTrack A2) :
  rk_safe m -> (forall a, rk_safe (f a)) -> rk_safe (m ≫= f).
Proof.
  intros Hm Hf rk. destruct (Hm rk) as [Hr Hk]. unfold mbind, M_bind.
  destruct (m rk) as [[a|e| |] rk']; cbn in *; try done. destruct (Hf a rk') as [? Hk']. split; [done|congruence].
Qed.

(** What the rekey track does once the client's key-method-2 is parsed. *)
Lemma rekey_reply_safe n wire rk :
  (n <= length (Tls.plaintext_in (rk_tls rk)))%nat ->
  let y := (on_rk_tls (Tls.drain_plaintext n) ≫= fun _ =>
            on_rk_tls (Tls.send_plaintext wire) ≫= fun _ => set_rk_sent) rk in
  returns y.1 /\ rk_key_id y.2 = rk_key_id rk.
Proof.
  intros Hn y.
  assert (rk_safe (on_rk_tls (Tls.send_plaintext wire) ≫= fun _ => set_rk_sent)) as Htail.
  { apply rk_safe_bind; [apply rk_safe_tls, send_plaintext_returns|done]. }
  subst y. unfold mbind at 1 3, M_bind at 1 3, on_rk_tls at 1 3. rewrite drain_plaintext_run by done.
  exact (Htail (MkRekeyTrack _ _ _ _ _ _)).
Qed.

Lemma drive_rekey_safe self : safe_h self (drive_rekey_control_plane self).
Proof.
  intros [s sh] Hx. unfold drive_rekey_control_plane. hsimp.
  destruct (rekey s) as [rk|] eqn:Erk; [|by split_and!; [..|reflexivity]].
  case_bool_decide; hsimp; [|by split_and!; [..|reflexivity]].
  pose proof (ControlChannel.try_parse_returns (Tls.plaintext_in (rk_tls rk))) as Hret.
  destruct (ControlChannel.try_parse _) as [[km n|]|e| |] eqn:Ep; hsimp; [|by split_and!; [..|reflexivity]..|done|done].
  apply ControlChannel.try_parse_ready_bound in Ep. destruct Hx as [Hs Hsh]. cbn in Hs, Hsh.
  destruct (derived_cipher (ControlChannel.pre_master km) (ControlChannel.random1 km) (rk_server_random1 rk)
    (ControlChannel.random2 km) (rk_server_random2 rk) (to_be 8 (client_session_id s))
    (to_be 8 (server_session_id s))) as (kd & c & -> & Ec). hsimp. rewrite Ec. hsimp.
  set (slot := MkKeySlot (rk_key_id rk) c 1 Replay.new).
  assert (slot_ok slot) as Hslot by (constructor; [by apply (so_rekey s Hs)|done|apply new_window_ok]).
  pose proof (install_slot_safe slot Hslot s Hs) as (_ & Hs1 & Hle1). rewrite install_slot_eq in Hs1, Hle1 |- * by done.
  cbn [snd] in Hs1, Hle1. hsimp. set (s1 := set_slots _ s) in *.
  destruct (rekey_reply_safe n (server_km2 self (rk_server_random1 rk) (rk_server_random2 rk)) rk) as [Hr Hk]; [lia|].
  destruct (on_rekey_some_safe Panic _ s1 rk Hs1 Erk Hr Hk) as (F1 & F2 & F3).
  split; [exact F1|]. split; [by split|]. split; [by etrans|cbn; reflexivity].
Qed.

Lemma flush_rekey_safe self env : safe_h self (flush_rekey_outgoing self env).
Proof.
  unfold flush_rekey_outgoing. apply safe_get_sess. intros s Hs.
  destruct (rekey s) as [rk|]; [|apply safe_ret; apply _].
  apply safe_bind; [apply _|apply safe_on_sess, safe_on_rekey, rk_safe_tls|].
  - intros t. by destruct (Tls.take_outgoing t).
  - intros [|b out]; [apply safe_ret; apply _|apply send_chunks_safe].
Qed.

Lemma handle_rekey_control_safe self env ctrl : safe_h self (handle_rekey_control self env ctrl).
Proof.
  unfold handle_rekey_control. apply safe_get_sess. intros s Hs.
  destruct (rekey s) as [rk|]; [|apply safe_ret; apply _].
  apply safe_bind; [apply _|apply safe_on_sess, safe_on_rekey|].
  { apply rk_safe_bind; [apply rk_safe_tls, Tls.feed_returns|]. intros _.
    apply rk_safe_bind; [by intros rk'|]. intros rk'. by destruct (_ && _). }
  intros _. apply safe_bind; [apply _|apply drive_rekey_safe|]. intros _.
  apply safe_bind; [apply _|apply flush_rekey_safe|]. intros _. apply safe_get_sess. intros s' Hs'.
  destruct (rekey s') as [rk'|]; [|apply safe_ret; apply _].
  destruct (rk_key_method_sent rk'); [|apply safe_ret; apply _].
  apply safe_bind; [apply _|apply safe_on_sess, promote_slot_safe|]. intros _.
  apply safe_bind; [apply _|apply safe_on_sess, clear_rekey_safe|]. intros _.
  apply safe_on_sess, set_last_rekey_safe.
Qed.

(** ** Handling a packet of a known session *)

Lemma handle_control_v1_safe self env addr ctrl : safe_h self (handle_control_v1 self env addr ctrl).
Proof.
  unfold handle_control_v1. apply safe_get_sess. intros s Hs.
  destruct (match rekey s with Some r => _ | None => _ end); [apply handle_rekey_control_safe|].
  apply safe_bind; [apply _|apply safe_on_sess, safe_on_tls, Tls.feed_returns|]. intros _.
  assert (forall x, ctx_ok self x ->
    let y := when_ (bool_decide (state x.1 = Handshaking) && negb (Tls.is_handshaking (tls x.1)))
               (on_sess finalize_keys) x in
    returns y.1 /\ ctx_ok self y.2 /\ ctx_le x y.2) as Hfin.
  { intros [s' sh'] [Hs' Hsh']. cbn [fst]. case_bool_decide as Hst; cbn [andb]; [|by split_and!; [..|reflexivity]].
    destruct (negb _); cbn [when_]; [|by split_and!; [..|reflexivity]].
    rewrite on_sess_run. destruct (finalize_keys_safe s' Hs' Hst) as (? & ? & ?).
    split; [done|]. split; [done|]. split; [done|cbn; reflexivity]. }
  assert (safe_h self (drive_control_plane self addr ≫= fun _ => flush_outgoing self env)) as Htail.
  { apply safe_bind; [apply _|apply drive_control_plane_safe|]. intros _. apply flush_outgoing_safe. }
  intros x Hx. specialize (Hfin x Hx). destruct x as [s' sh']. hsimp. cbn [fst] in Hfin.
  destruct (when_ _ _ (s', sh')) as [[[]|e| |] x']; try done. destruct Hfin as (_ & Hx' & Hle).
  destruct (Htail x' Hx') as (F1 & F2 & F3). split; [done|]. split; [done|]. by etrans.
Qed.

Lemma tls_new_returns c : returns (Tls.new c).
Proof. unfold Tls.new. by destruct (new_connection c). Qed.

Lemma handle_soft_reset_safe self env ctrl :
  0 <= Protocol.key_id ctrl < 8 -> safe_h self (handle_soft_reset self env ctrl).
Proof.
  intros Hk. unfold handle_soft_reset. apply safe_get_sess. intros s Hs.
  destruct (rekey s); [apply safe_ret; apply _|]. destruct (negb _); [apply safe_ret; apply _|].
  apply safe_bind; [apply _|apply safe_lift; [apply _|apply tls_new_returns]|]. intros t.
  apply safe_bind; [apply _|by apply safe_on_sess, start_rekey_safe|]. intros _.
  apply safe_bind; [apply _|apply safe_on_sess, make_soft_reset_reply_safe|]. intros p. apply send_and_track_safe.
Qed.

(** What follows the replay check. *)
Lemma known_tail_safe self env addr ctrl :
  Protocol.packet_ok ctrl ->
  safe_h self (
    match Protocol.acks ctrl with
    | [] => mret tt
    | acks => on_sess (process_acks acks)
    end ≫= fun _ =>
    match Protocol.packet_id ctrl with
    | Some pid => on_sess (note_received pid (now env))
    | None => mret tt
    end ≫= fun _ =>
    match Protocol.op ctrl with
    | Protocol.ControlV1 => handle_control_v1 self env addr ctrl
    | Protocol.ControlSoftResetV1 => handle_soft_reset self env ctrl
    | _ => mret tt
    end).
Proof.
  intros Hc.
  apply safe_bind; [apply _|destruct (Protocol.acks ctrl); [apply safe_ret; apply _|apply safe_on_sess, process_acks_safe]|].
  intros _. apply safe_bind; [apply _| |].
  { destruct (Protocol.packet_id ctrl) as [pid|] eqn:E; [|apply safe_ret; apply _].
    apply safe_on_sess, note_received_safe. by apply (Protocol.pk_pid ctrl Hc). }
  intros _. destruct (Protocol.op ctrl); try (apply safe_ret; apply _).
  - apply handle_soft_reset_safe, Hc.
  - apply handle_control_v1_safe.
Qed.

Lemma handle_known_safe self env addr ctrl replay_pid :
  Protocol.packet_ok ctrl -> (forall p, replay_pid = Some p -> u32_ok p) ->
  safe_h self (handle_known self env addr ctrl replay_pid).
Proof.
  intros Hc Hp. unfold handle_known.
  apply safe_bind; [apply _|apply safe_on_sess, set_last_seen_safe|]. intros _.
  apply safe_bind; [apply _|by apply safe_on_sess, check_replay_safe|]. intros _. by apply known_tail_safe.
Qed.

(** The packet id of the envelope is refused from then on. *)
Lemma handle_known_marks self env addr ctrl pid x :
  Protocol.packet_ok ctrl -> u32_ok pid -> ctx_ok self x ->
  Replay.rejects (tls_auth_replay (handle_known self env addr ctrl (Some pid) x).2.1) pid.
Proof.
  intros Hc Hp [Hs Hsh]. destruct x as [s sh]. cbn in Hs, Hsh. unfold handle_known. rewrite bind_run, on_sess_run.
  cbn [modify fst snd]. set (s1 := set_last_seen (now env) s).
  destruct (set_last_seen_safe (now env) s Hs) as (_ & Hs1 & _). cbn in Hs1. fold s1 in Hs1. rewrite bind_run, on_sess_run.
  assert (forall q, Some pid = Some q -> u32_ok q) as Hq by by intros q [= <-].
  destruct (check_replay_safe (Some pid) Hq s1 Hs1) as (_ & Hs2 & _). destruct (so_window s1 Hs1) as [seen Hrep].
  pose proof (Replay.rejects_again _ _ pid Hrep Hp) as Hrej. unfold check_replay in *.
  destruct (Replay.check_and_set (tls_auth_replay s1) pid) as [fresh w]. cbn in Hrej. destruct fresh; [|done].
  destruct (known_tail_safe self env addr ctrl Hc (set_tls_auth_replay w s1, sh)) as (_ & _ & [Hle _]); [done|].
  by apply (le_replay _ _ Hle).
Qed.

(** A refused packet id leaves everything but the time of the last packet. *)
Lemma handle_known_refused self env addr ctrl pid s sh :
  Replay.rejects (tls_auth_replay s) pid ->
  handle_known self env addr ctrl (Some pid) (s, sh) =
    (Err (ReplayRejectedControl pid), (set_last_seen (now env) s, sh)).
Proof.
  intros Hrej. unfold handle_known. rewrite bind_run, on_sess_run. cbn [modify fst snd]. rewrite bind_run, on_sess_run.
  unfold check_replay. change (tls_auth_replay (set_last_seen (now env) s)) with (tls_auth_replay s).
  pose proof (Replay.rejects_same _ _ Hrej) as Hw. unfold Replay.rejects in Hrej.
  destruct (Replay.check_and_set (tls_auth_replay s) pid) as [fresh w]. cbn in Hrej, Hw. subst fresh w. by destruct s.
Qed.

End inv.
End ServerInv.
