(* ===== verification/System.v ===== *)
(** * The running server (src/src/server.rs, [run])

    Everything that can happen to the shared state once [run] has started, as
    one event per handler run: a datagram or stream packet, a data worker's or
    the TUN writer's next packet, an IP packet from the TUN, a timer's visit to
    one address.  Timers visit the addresses of a snapshot one by one and other
    tasks may run in between, so a visit to any address at any time is an event
    of its own.  The step relation, the reachable states, and the theorems that
    hold in all of them. *)

From S2P Require Import Prelude Replay Buf Protocol Utf8 ControlChannel Primitives Crypto Prf.
From S2P Require Import Envelope TlsAuth TlsCrypt Text StaticKey Tls Certs Transport Config Masquerade.
From S2P Require Import Session SessionInv Server ServerInv.

Module System.
Import Transport Session SessionInv Server ServerInv.

Definition env_ok (env : Env) : Prop := length (rnd_sid env) = 8%nat /\ bytes_ok (rnd_sid env).

Inductive event : Type :=
  | EvPacket (env : Env) (addr : SocketAddr) (tr : Transport) (pkt : bytes)
  | EvWorker (env : Env) (w : nat)
  | EvTunWriter (write_ok : bool)
  | EvTunRead (ip_pkt : bytes)
  | EvReap (env : Env) (addr : SocketAddr)
  | EvRekey (env : Env) (addr : SocketAddr)
  | EvPing (addr : SocketAddr)
  | EvRetransmit (env : Env) (addr : SocketAddr)
  | EvTcpAccept
  | EvTcpWriterFailed (tx : nat)
  | EvTcpClosed (peer : SocketAddr)
  | EvShutdown (env : Env) (addr : SocketAddr).

(** What the sockets deliver are bytes; the random source gives 8 of them. *)
Definition event_ok (ev : event) : Prop :=
  match ev with
  | EvPacket env _ _ pkt => env_ok env /\ bytes_ok pkt
  | EvTunRead pkt => bytes_ok pkt
  | _ => True
  end.

Section system.
Context {B : BufApi} {C : CryptoApi} {T : TlsApi}.

Definition handle (self : VpnServer) (ev : event) : M Shared unit :=
  match ev with
  | EvPacket env addr tr pkt => dispatch self env addr tr pkt
  | EvWorker env w => worker_step env w
  | EvTunWriter ok => tun_writer_step ok
  | EvTunRead pkt => tun_read pkt
  | EvReap env addr => reap_one self env addr
  | EvRekey env addr => when_ (0 <? Config.reneg_sec (cfg self)) (rekey_one self env addr)
  | EvPing addr => ping_one addr
  | EvRetransmit env addr => retransmit_one self env addr
  | EvTcpAccept => tcp_accept ≫= fun _ => mret tt
  | EvTcpWriterFailed tx => tcp_writer_failed tx
  | EvTcpClosed peer => tcp_closed peer
  | EvShutdown env addr => for_session addr (shutdown_one self env)
  end.

Inductive step (self : VpnServer) : Shared -> Shared -> Prop :=
  | Step ev sh r sh' : event_ok ev -> handle self ev sh = (r, sh') -> step self sh sh'.

Context {BL : BufLaws B} {CL : CryptoLaws C} {TL : TlsLaws T}.

(** Sessions evolve forward; none disappears from under the names that are
    still held. *)
Definition shared_le (sh sh' : Shared) : Prop :=
  forall arc s, arcs sh !! arc = Some s -> exists s', arcs sh' !! arc = Some s' /\ sess_le s s'.

#[export] Instance shared_le_preorder : PreOrder shared_le.
Proof.
  split.
  - intros sh arc s Hs. exists s. split; [done|reflexivity].
  - intros x y z H1 H2 arc s Hs. destruct (H1 arc s Hs) as (s1 & E1 & L1).
    destruct (H2 arc s1 E1) as (s2 & E2 & L2). exists s2. split; [done|by etrans].
Qed.

Abbreviation safe_sh self := (safe (shared_ok self) shared_le).

Lemma frame_shared_le sh sh' : frame_eq sh sh' -> shared_le sh sh'.
Proof. intros Hf arc s Hs. exists s. rewrite (fr_arcs _ _ Hf). split; [done|reflexivity]. Qed.

Lemma worker_ok_mono sh sh' w :
  (forall arc, is_Some (arcs sh !! arc) -> is_Some (arcs sh' !! arc)) -> worker_ok sh w -> worker_ok sh' w.
Proof. intros Ha []. constructor; auto. Qed.

(** Binding a name that is in use, or the next one, to a session. *)
Lemma insert_arc_ok self arc s sh :
  shared_ok self sh -> session_ok s -> (arc < next_ref sh)%nat ->
  shared_ok self (set_arcs (<[arc := s]> (arcs sh)) sh).
Proof.
  intros [] Hs Hn. constructor; cbn; try assumption.
  - intros addr a Ha. apply lookup_insert_is_Some'. right. eauto.
  - by apply map_Forall_insert_2.
  - intros a [->|?]%lookup_insert_is_Some'; auto.
  - intros w wk Hw. eapply worker_ok_mono; [|by apply sh_workers0 in Hw]. cbn.
    intros a Ha. apply lookup_insert_is_Some'. by right.
Qed.

Lemma with_session_safe self arc {A} (m : M (Session * Shared) A) sh :
  safe (ctx_ok self) ctx_le m -> shared_ok self sh -> is_Some (arcs sh !! arc) ->
  returns (with_session arc m sh).1 /\ shared_ok self (with_session arc m sh).2 /\
  shared_le sh (with_session arc m sh).2.
Proof.
  intros Hm Hsh [s Hs]. unfold with_session. rewrite Hs.
  pose proof (sh_arcs self sh Hsh arc s Hs) as Hok. cbn in Hok.
  destruct (Hm (s, sh) (conj Hok Hsh)) as (Hr & [Hs' Hsh'] & [Hle Hf]).
  destruct (m (s, sh)) as [r [s' sh']]. cbn in *. split; [done|]. split.
  - apply insert_arc_ok; [done|done|]. rewrite (fr_ref _ _ Hf). apply (sh_arc_names self sh Hsh). by exists s.
  - intros a s0 Ha. cbn. rewrite (fr_arcs _ _ Hf). destruct (decide (a = arc)) as [->|Hne].
    + exists s'. rewrite lookup_insert_eq. split; [done|]. rewrite Hs in Ha. by injection Ha as <-.
    + exists s0. rewrite lookup_insert_ne by done. split; [done|reflexivity].
Qed.

Lemma logged_safe {S A} (I : S -> Prop) (R : S -> S -> Prop) (m : M S A) :
  safe I R m -> safe I R (logged m).
Proof.
  intros Hm s Hs. destruct (Hm s Hs) as (Hr & H1 & H2). unfold logged. by destruct (m s) as [[a|e| |] s'].
Qed.

Lemma for_session_safe self addr m :
  safe (ctx_ok self) ctx_le m -> safe_sh self (for_session addr m).
Proof.
  intros Hm sh Hsh. unfold for_session. msimp. destruct (sessions sh !! addr) as [arc|] eqn:E.
  - destruct (with_session_safe self arc m sh Hm Hsh) as (Hr & H1 & H2); [by apply (sh_sessions self sh Hsh addr)|].
    unfold logged. by destruct (with_session arc m sh) as [[a|e| |] s'].
  - split; [done|]. split; [done|]. cbn. reflexivity.
Qed.

(** ** A new session *)

Lemma land_24 z : 0 <= Z.land z 0xFFFFFF < 2 ^ 24.
Proof. change 0xFFFFFF with (2 ^ 24 - 1). rewrite land_ones_mod by lia. by apply Z.mod_pos_bound. Qed.

Lemma shared_ok_counters self sh p r :
  shared_ok self sh -> u32_ok p -> (next_ref sh <= r)%nat ->
  shared_ok self (set_next_peer_id p sh) /\ shared_ok self (set_next_ref r sh).
Proof.
  intros [] Hp Hr. split; constructor; cbn; try assumption.
  1,3: intros w wk Hw; eapply worker_ok_mono; [|by apply sh_workers0 in Hw]; done.
  intros arc Ha. specialize (sh_arc_names0 arc Ha). lia.
Qed.

Lemma spawn_data_worker_safe self peer arc sh :
  shared_ok self sh -> is_Some (arcs sh !! arc) ->
  returns (spawn_data_worker peer arc sh).1 /\ shared_ok self (spawn_data_worker peer arc sh).2 /\
  shared_le sh (spawn_data_worker peer arc sh).2.
Proof.
  intros Hsh Ha. unfold spawn_data_worker. msimp. destruct (tun_writer_tx sh).
  - unfold fresh_ref. msimp. split; [done|]. split.
    + destruct Hsh. constructor; cbn; try assumption.
      * intros a Hs. specialize (sh_arc_names0 a Hs). lia.
      * apply map_Forall_insert_2; [|intros w wk Hw]; [by constructor; [|constructor]|].
        eapply worker_ok_mono; [|by apply sh_workers0 in Hw]. done.
    + intros a s Hs. exists s. split; [done|reflexivity].
  - split; [done|]. split; [done|]. cbn. reflexivity.
Qed.

Lemma new_session_ok env ctrl replay_pid t peer tr :
  env_ok env -> Protocol.packet_ok ctrl -> (forall p, replay_pid = Some p -> u32_ok p) -> 0 <= peer < 2 ^ 24 ->
  let sess := set_state Handshaking (set_client_session_id (Protocol.session_id ctrl)
    (Session.new (from_be (rnd_sid env)) t peer tr (rnd1 env) (rnd2 env) (now env))) in
  session_ok (match replay_pid with
              | Some pid => set_tls_auth_replay (Replay.check_and_set (tls_auth_replay sess) pid).2 sess
              | None => sess
              end).
Proof.
  intros [Hl Hb] Hc Hp Hpeer sess.
  assert (session_ok sess) as Hs.
  { assert (u64_ok (from_be (rnd_sid env))) as Hsid by by apply from_be_u64.
    pose proof (new_ok (from_be (rnd_sid env)) t peer tr (rnd1 env) (rnd2 env) (now env) Hsid Hpeer) as [].
    constructor; try assumption; try done. apply Hc. }
  destruct replay_pid as [p|]; [|done].
  pose proof (check_and_set_window_ok _ p (so_window sess Hs) (Hp p eq_refl)). destruct Hs. by constructor.
Qed.

Lemma new_session_safe self env addr ctrl replay_pid tr :
  env_ok env -> Protocol.packet_ok ctrl -> (forall p, replay_pid = Some p -> u32_ok p) ->
  safe_sh self (new_session self env addr ctrl replay_pid tr).
Proof.
  intros He Hc Hp sh Hsh. unfold new_session. msimp. pose proof (tls_new_returns (tls_cfg self)) as Hr.
  destruct (Tls.new (tls_cfg self)) as [t|e| |]; try done; msimp.
  unfold take_peer_id. msimp. set (peer := Z.land _ _).
  pose proof (new_session_ok env ctrl replay_pid t peer tr He Hc Hp (land_24 _)) as Hsess. cbv zeta in Hsess.
  match goal with |- context [with_local ?s ?m] => set (sess := s) in *; set (hello := m) end.
  set (sh1 := set_next_peer_id _ sh). assert (shared_ok self sh1) as Hsh1.
  { apply (shared_ok_counters self sh _ (next_ref sh)); [done|apply wrap_ok; lia|done]. }
  assert (safe (ctx_ok self) ctx_le hello) as Hm.
  { apply safe_bind; [apply _|apply safe_on_sess, make_hard_reset_reply_safe|]. intros p. apply send_and_track_safe. }
  destruct (Hm (sess, sh1) (conj Hsess Hsh1)) as (Hr2 & [Hs2 Hsh2] & [_ Hf2]). unfold with_local.
  destruct (hello (sess, sh1)) as [[u|e| |] [s2 sh2]]; try done; cbn in Hs2, Hsh2, Hf2; msimp.
  2: { split; [done|]. split; [done|]. by apply frame_shared_le in Hf2. }
  unfold fresh_ref. msimp. set (sh3 := set_peers _ _).
  assert (shared_ok self sh3) as Hsh3.
  { pose proof (insert_arc_ok self (next_ref sh2) s2 (set_next_ref (S (next_ref sh2)) sh2)) as H.
    destruct H as []; [by apply (shared_ok_counters self sh2 (next_peer_id sh2)); [|apply Hsh2|lia]|done|cbn; lia|].
    constructor; cbn; try assumption.
    - intros a arc Ha. apply lookup_insert_is_Some'. apply lookup_insert_Some in Ha as [[_ <-]|[_ Ha]]; [by left|].
      right. by apply (sh_sessions self sh2 Hsh2 a).
    - intros w wk Hw. eapply worker_ok_mono; [|by apply sh_workers0 in Hw]. done. }
  destruct (spawn_data_worker_safe self peer (next_ref sh2) sh3 Hsh3) as (F1 & F2 & F3).
  { cbn. rewrite lookup_insert_eq. by eexists. }
  split; [done|]. split; [done|]. etrans; [|exact F3]. intros a s Ha. exists s. cbn.
  rewrite lookup_insert_ne.
  - rewrite (fr_arcs _ _ Hf2). split; [done|reflexivity].
  - intros <-. pose proof (sh_arc_names self sh Hsh (next_ref sh2)) as Hlt. rewrite Ha in Hlt.
    specialize (Hlt ltac:(by eexists)). rewrite (fr_ref _ _ Hf2) in Hlt. cbn in Hlt. lia.
Qed.

(** ** Inbound packets *)

Lemma parse_ok pkt ctrl : bytes_ok pkt -> Protocol.parse pkt = Ok ctrl -> Protocol.packet_ok ctrl.
Proof. intros Hb E. destruct (Protocol.parse_cases pkt Hb) as [[e E']|(p & E' & Hp & _)]; congruence. Qed.
Lemma parse_returns pkt : bytes_ok pkt -> returns (Protocol.parse pkt).
Proof. intros Hb. by destruct (Protocol.parse_cases pkt Hb) as [[e ->]|(p & -> & _ & _)]. Qed.

Lemma handle_control_packet_safe self env addr pkt replay_pid tr :
  env_ok env -> bytes_ok pkt -> (forall p, replay_pid = Some p -> u32_ok p) ->
  safe_sh self (handle_control_packet self env addr pkt replay_pid tr).
Proof.
  intros He Hb Hp. unfold handle_control_packet. apply safe_bind_result; [apply _|by apply parse_returns|].
  intros ctrl Hc%parse_ok; [|done]. intros sh Hsh. msimp.
  destruct (sessions sh !! addr) as [arc|] eqn:E.
  - apply with_session_safe; [by apply handle_known_safe|done|by apply (sh_sessions self sh Hsh addr)].
  - destruct (is_hard_reset _); [by apply new_session_safe|]. split; [done|]. split; [done|]. cbn. reflexivity.
Qed.

Lemma unwrap_control_ok self pkt :
  bytes_ok pkt -> returns (unwrap_control self pkt) /\
  forall inner pid, unwrap_control self pkt = Ok (inner, pid) ->
    bytes_ok (default pkt inner) /\ (forall p, pid = Some p -> u32_ok p).
Proof.
  intros Hb. unfold unwrap_control. destruct (tls_crypt self) as [tc|]; [|destruct (tls_auth self) as [ta|]].
  - pose proof (@env_unwrap_returns _ _ TlsCrypt.tls_crypt_laws tc pkt) as Hr.
    pose proof (@env_unwrap_authentic _ _ TlsCrypt.tls_crypt_laws tc pkt) as Ha. cbn in Hr, Ha.
    destruct (TlsCrypt.unwrap tc pkt) as [[i p]|e| |]; try done. split; [done|]. intros inner pid [= <- <-].
    destruct (Ha i p Hb eq_refl) as (? & _ & ? & _). split; [done|]. by intros ? [= <-].
  - pose proof (@env_unwrap_returns _ _ TlsAuth.tls_auth_laws ta pkt) as Hr.
    pose proof (@env_unwrap_authentic _ _ TlsAuth.tls_auth_laws ta pkt) as Ha. cbn in Hr, Ha.
    destruct (TlsAuth.unwrap ta pkt) as [[i p]|e| |]; try done. split; [done|]. intros inner pid [= <- <-].
    destruct (Ha i p Hb eq_refl) as (? & _ & ? & _). split; [done|]. by intros ? [= <-].
  - split; [done|]. by intros inner pid [= <- <-].
Qed.

Lemma route_data_safe self pkt : bytes_ok pkt -> safe_sh self (route_data pkt).
Proof.
  intros Hb sh Hsh. unfold route_data. destruct (Protocol.parse_data_v2_exact pkt Hb) as [Hr _].
  destruct (Protocol.parse_data_v2 pkt) as [dp|e| |]; try done.
  destruct (data_routes sh !! _) as [w|]; [|by split_and!; [..|cbn; reflexivity]].
  destruct (workers sh !! w) as [wk|] eqn:E; [|by split_and!; [..|cbn; reflexivity]].
  split; [done|]. split; [|intros a s Hs; exists s; split; [done|reflexivity]].
  pose proof (sh_workers self sh Hsh w wk E) as [Ha Hi]. destruct Hsh. constructor; cbn; try assumption.
  apply map_Forall_insert_2.
  - constructor; [done|]. cbn. apply Forall_app. split; [done|]. by constructor.
  - intros w' wk' Hw. eapply worker_ok_mono; [|by apply sh_workers0 in Hw]. done.
Qed.

Lemma dispatch_safe self env addr tr pkt : env_ok env -> bytes_ok pkt -> safe_sh self (dispatch self env addr tr pkt).
Proof.
  intros He Hb. unfold dispatch. destruct pkt as [|first rest] eqn:Epkt; [apply safe_ret; apply _|]. rewrite <-Epkt in *.
  destruct (Protocol.from_u8 (Z.shiftr first 3)) as [op|e| |] eqn:Eop; [|apply safe_ret; apply _|..].
  2-3: unfold Protocol.from_u8 in Eop; repeat case_match; done.
  destruct (Protocol.is_data op); [by apply route_data_safe|].
  destruct (unwrap_control_ok self pkt Hb) as [Hr Hu].
  destruct (unwrap_control self pkt) as [[inner pid]|e| |]; [|apply safe_ret; apply _|done..].
  destruct (Hu inner pid eq_refl). by apply logged_safe, handle_control_packet_safe.
Qed.

(** ** The data plane *)

Lemma open_packet_safe env pkt dp :
  (8 <= length pkt)%nat -> u32_ok (Protocol.d_packet_id dp) -> safe session_ok sess_le (open_packet env pkt dp).
Proof.
  intros Hl Hpid s Hs. unfold open_packet. msimp. rewrite slice_ok by lia. msimp.
  destruct (slot_by_key_id_cases (Protocol.d_key_id dp) s) as [->|(idx & k & -> & Hk & Hkid & _)];
    msimp; [by split_and!; [..|reflexivity]|].
  pose proof (Crypto.open_returns (ks_cipher k) (Protocol.d_packet_id dp) (take (8 - 0) (drop 0 pkt))
    (Protocol.d_ciphertext dp)) as Hr.
  destruct (Crypto.open _ _ _ _) as [pt|e| |]; [|by split_and!; [..|reflexivity]|done..]; msimp.
  pose proof (so_slot s Hs idx k Hk) as [Hk1 Hk2 Hk3].
  pose proof (check_and_set_window_ok _ _ Hk3 Hpid) as Hw.
  destruct (Replay.check_and_set (ks_replay k) _) as [fresh w]. cbn in Hw. msimp.
  pose proof (put_slot_ok idx (MkKeySlot (ks_key_id k) (ks_cipher k) (ks_data_pid_out k) w)) as Hput.
  specialize (Hput ltac:(by constructor) s Hs). unfold put_slot in *.
  rewrite decide_True in * by by eapply lookup_lt_Some. msimp. cbn [snd] in Hput.
  destruct fresh; msimp.
  - split; [done|]. split; [|by constructor]. destruct Hput. by constructor.
  - split; [done|]. split; [done|by constructor].
Qed.

Lemma tun_send_safe self pkt : safe_sh self (tun_send pkt).
Proof.
  intros sh Hsh. unfold tun_send. destruct (tun_open sh); [|by split_and!; [..|reflexivity]].
  split; [done|]. split; [|intros a s Hs; exists s; split; [done|reflexivity]].
  destruct Hsh. constructor; cbn; try assumption.
  intros w' wk' Hw. eapply worker_ok_mono; [|by apply sh_workers0 in Hw]. done.
Qed.

Lemma decrypt_and_forward_safe self env arc pkt sh :
  bytes_ok pkt -> shared_ok self sh -> is_Some (arcs sh !! arc) ->
  returns (decrypt_and_forward env arc pkt sh).1 /\ shared_ok self (decrypt_and_forward env arc pkt sh).2 /\
  shared_le sh (decrypt_and_forward env arc pkt sh).2.
Proof.
  intros Hb Hsh Ha. unfold decrypt_and_forward. msimp.
  destruct (Protocol.parse_data_v2_exact pkt Hb) as [Hr Hd].
  destruct (Protocol.parse_data_v2 pkt) as [dp|e| |]; [|by split_and!; [..|reflexivity]|done..]; msimp.
  destruct (proj1 (Hd dp) eq_refl) as (_ & _ & Hpid & Hpkt).
  assert (8 <= length pkt)%nat as Hl.
  { rewrite Hpkt, length_app. unfold Protocol.data_header. cbn [length]. rewrite length_app, !length_to_be. lia. }
  destruct (with_session_safe self arc (on_sess (open_packet env pkt dp)) sh) as (F1 & F2 & F3);
    [by apply safe_on_sess, open_packet_safe|done|done|].
  destruct (with_session _ _ sh) as [[pt|e| |] sh']; try done; cbn in F2, F3.
  case_bool_decide; [done|]. destruct (tun_send_safe self pt sh' F2) as (G1 & G2 & G3).
  split; [done|]. split; [done|]. by etrans.
Qed.

Lemma worker_step_safe self env w : safe_sh self (worker_step env w).
Proof.
  intros sh Hsh. unfold worker_step.
  destruct (workers sh !! w) as [[arc [|raw rest]]|] eqn:E; [by split_and!; [..|reflexivity]| |by split_and!; [..|reflexivity]].
  destruct (sh_workers self sh Hsh w _ E) as [Ha Hi]. cbn in Ha, Hi. apply Forall_cons in Hi as [Hraw Hrest].
  set (sh1 := set_workers _ sh). assert (shared_ok self sh1) as Hsh1.
  { destruct Hsh. constructor; cbn; try assumption. apply map_Forall_insert_2; [by constructor|].
    intros w' wk' Hw. eapply worker_ok_mono; [|by apply sh_workers0 in Hw]. done. }
  destruct (decrypt_and_forward_safe self env arc raw sh1 Hraw Hsh1 Ha) as (F1 & F2 & F3).
  unfold logged. destruct (decrypt_and_forward env arc raw sh1) as [[u|e| |] sh']; done.
Qed.

Lemma tun_route_returns pkt sh : returns (tun_route pkt sh).
Proof.
  unfold tun_route. destruct pkt as [|b pkt]; [done|].
  repeat match goal with |- returns (match ?x with _ => _ end) => destruct x eqn:?; try done end;
    match goal with H : (_ <? _)%nat = false |- _ => apply Nat.ltb_ge in H end; by rewrite slice_ok by lia.
Qed.

Lemma forward_safe self pkt : safe_sh self (forward_tun_to_client pkt).
Proof.
  intros sh Hsh. unfold forward_tun_to_client. msimp. pose proof (tun_route_returns pkt sh) as Hr.
  destruct (tun_route pkt sh) as [dst|e| |]; try done; msimp.
  destruct (dst ≫= _) as [arc|] eqn:E; [|by split_and!; [..|reflexivity]].
  apply bind_Some in E as (addr & _ & E).
  apply with_session_safe; [|done|by apply (sh_sessions self sh Hsh addr)].
  apply safe_get_sess. intros s Hs. destruct (active_slot_total s Hs) as (o & Ea & _). rewrite Ea.
  apply safe_bind; [apply _|by apply safe_lift; [apply _|]|]. intros [k|]; [|apply safe_ret; apply _].
  apply safe_bind; [apply _|apply safe_on_sess, build_data_packet_safe|]. intros bs. apply send_sess_safe.
Qed.

(** ** Timers, TCP *)

Lemma shared_ok_maps self sh f :
  shared_ok self sh -> (sessions (f sh) ⊆ sessions sh) -> arcs (f sh) = arcs sh -> next_ref (f sh) = next_ref sh ->
  workers (f sh) = workers sh -> next_peer_id (f sh) = next_peer_id sh -> next_pool_ip (f sh) = next_pool_ip sh ->
  next_pool_ip_v6 (f sh) = next_pool_ip_v6 sh -> shared_ok self (f sh) /\ shared_le sh (f sh).
Proof.
  intros [] Hss Ha Hr Hw Hp Hi H6. split.
  - constructor; rewrite ?Ha, ?Hr, ?Hp, ?Hi, ?H6; try assumption.
    + intros addr arc E. eapply sh_sessions0. by eapply lookup_weaken.
    + rewrite Hw. intros w wk E. eapply worker_ok_mono; [|by apply sh_workers0 in E]. by rewrite Ha.
  - intros arc s E. exists s. rewrite Ha. split; [done|reflexivity].
Qed.

Lemma forget_sessions addr s sh : sessions (forget addr s sh) = delete addr (sessions sh).
Proof. unfold forget. destruct (assigned_ip s) as [[]|], (assigned_ip_v6 s); done. Qed.

Lemma forget_safe self addr s sh :
  shared_ok self sh -> shared_ok self (forget addr s sh) /\ shared_le sh (forget addr s sh).
Proof.
  intros Hsh. apply (shared_ok_maps self sh (forget addr s)); [done| |unfold forget; by repeat case_match..].
  rewrite forget_sessions. apply delete_subseteq.
Qed.

Lemma reap_one_safe self env addr : safe_sh self (reap_one self env addr).
Proof.
  intros sh Hsh. unfold reap_one. destruct (sessions sh !! addr) as [arc|] eqn:E; [|by split_and!; [..|reflexivity]].
  destruct (sh_sessions self sh Hsh addr arc E) as [s Es]. rewrite Es.
  destruct (_ <=? _); [|by split_and!; [..|reflexivity]]. split; [done|]. by apply forget_safe.
Qed.

Lemma tcp_closed_safe self peer : safe_sh self (tcp_closed peer).
Proof.
  intros sh Hsh. unfold tcp_closed. destruct (sessions sh !! peer) as [arc|] eqn:E; [|by split_and!; [..|reflexivity]].
  destruct (sh_sessions self sh Hsh peer arc E) as [s Es]. rewrite Es. split; [done|]. by apply forget_safe.
Qed.

Lemma tcp_accept_safe self : safe_sh self (tcp_accept ≫= fun _ => mret tt).
Proof.
  intros sh Hsh. unfold tcp_accept. msimp. split; [done|]. cbn [snd].
  split; [|intros a s Hs; exists s; split; [done|reflexivity]].
  destruct (shared_ok_counters self sh (next_peer_id sh) (S (next_ref sh)) Hsh) as [_ H]; [apply Hsh|lia|].
  destruct H. constructor; cbn in *; try assumption.
  intros w wk Hw. eapply worker_ok_mono; [|by apply sh_workers0 in Hw]. done.
Qed.

Lemma tcp_writer_failed_safe self tx : safe_sh self (tcp_writer_failed tx).
Proof. intros sh Hsh. split; [done|]. by apply (shared_ok_maps self sh (fun sh => (tcp_writer_failed tx sh).2)). Qed.

Lemma tun_writer_safe self ok : safe_sh self (tun_writer_step ok).
Proof.
  intros sh Hsh. unfold tun_writer_step.
  destruct (tun_open sh), (tun_queue sh) as [|p rest]; try by split_and!; [..|reflexivity].
  split; [by repeat case_match|].
  destruct (shared_ok_maps self sh (fun sh => (if negb (is_ip_packet p) then (Ok tt, set_tun_queue rest sh)
    else if ok then (Ok tt, set_tun_written (tun_written (set_tun_queue rest sh) ++ [p]) (set_tun_queue rest sh))
    else (Ok tt, set_tun_open false (set_tun_queue [] (set_tun_queue rest sh)))).2) Hsh) as [H1 H2];
    [by repeat case_match..|]. by split.
Qed.

Lemma start_server_rekey_safe self env : safe (ctx_ok self) ctx_le (start_server_rekey self env).
Proof.
  unfold start_server_rekey. apply safe_get_sess. intros s Hs. destruct (negb _); [apply safe_ret; apply _|].
  destruct (active_key_id_ok s Hs) as (k & -> & Hk).
  apply safe_bind; [apply _|by apply safe_lift; [apply _|]|]. intros k'.
  apply safe_bind; [apply _|apply safe_lift; [apply _|apply tls_new_returns]|]. intros t.
  apply safe_bind; [apply _|apply safe_on_sess, start_rekey_safe; rewrite Protocol.land7_mod; by apply Z.mod_pos_bound|].
  intros _. apply safe_bind; [apply _|apply safe_on_sess, set_last_rekey_safe|]. intros _.
  apply safe_bind; [apply _|apply safe_on_sess, make_soft_reset_init_safe|]. intros p. apply send_and_track_safe.
Qed.

Lemma send_ping_safe self : safe (ctx_ok self) ctx_le send_ping.
Proof.
  unfold send_ping. apply safe_get_sess. intros s Hs. destruct (active_slot_total s Hs) as (o & -> & _).
  apply safe_bind; [apply _|by apply safe_lift; [apply _|]|]. intros a.
  destruct (state s), a; try (apply safe_ret; apply _).
  apply safe_bind; [apply _|apply safe_on_sess, build_data_packet_safe|]. intros bs. apply send_sess_safe.
Qed.

Lemma wrap_all_safe self env inners : safe session_ok sess_le (wrap_all self env inners).
Proof.
  induction inners as [|i inners IH]; cbn [wrap_all]; [apply safe_ret; apply _|].
  intros s Hs. destruct (wrap_for_wire_safe self env i s Hs) as (Hr & Hs1 & Hle1).
  destruct (wrap_for_wire self env i s) as [[w|e| |] s1]; cbn in Hr, Hs1, Hle1; [..|done|done].
  - msimp. destruct (IH s1 Hs1) as (Hr2 & Hs2 & Hle2).
    destruct (wrap_all self env inners s1) as [[ws|e| |] s2]; cbn in *; try done;
      (split; [done|]); (split; [done|]); by etrans.
  - destruct (IH s1 Hs1) as (Hr2 & Hs2 & Hle2). split; [done|]. split; [done|]. by etrans.
Qed.

Lemma retransmit_safe self env : safe (ctx_ok self) ctx_le (retransmit self env).
Proof.
  unfold retransmit. apply safe_bind; [apply _|apply safe_on_sess, stale_unacked_safe|]. intros inners.
  apply safe_bind; [apply _|apply safe_on_sess, wrap_all_safe|]. intros wires.
  apply safe_for_each; [apply _|]. intros w. apply logged_safe, send_sess_safe.
Qed.

Lemma shutdown_one_safe self env : safe (ctx_ok self) ctx_le (shutdown_one self env).
Proof.
  unfold shutdown_one. apply safe_get_sess. intros s Hs. destruct (negb _); [apply safe_ret; apply _|].
  apply safe_bind; [apply _|apply safe_on_sess, safe_on_tls, send_plaintext_returns|]. intros _.
  apply flush_outgoing_safe.
Qed.

Lemma handle_safe self ev : event_ok ev -> safe_sh self (handle self ev).
Proof.
  intros He. destruct ev; cbn [handle].
  - by apply dispatch_safe; apply He.
  - apply worker_step_safe.
  - apply tun_writer_safe.
  - unfold tun_read. destruct ip_pkt; [apply safe_ret; apply _|apply logged_safe, forward_safe].
  - apply reap_one_safe.
  - apply safe_when; [apply _|]. apply for_session_safe, start_server_rekey_safe.
  - apply for_session_safe, send_ping_safe.
  - apply for_session_safe, retransmit_safe.
  - apply tcp_accept_safe.
  - apply tcp_writer_failed_safe.
  - apply tcp_closed_safe.
  - apply for_session_safe, shutdown_one_safe.
Qed.

(** ** Reachable states *)

Lemma steps_ok self sh sh' :
  shared_ok self sh -> rtc (step self) sh sh' -> shared_ok self sh' /\ shared_le sh sh'.
Proof.
  intros Hsh Hsteps. induction Hsteps as [sh|sh sh1 sh2 [ev sh0 r sh1' He E] _ IH]; [split; [done|reflexivity]|].
  destruct (handle_safe self ev He sh0 Hsh) as (_ & Hok & Hle). rewrite E in Hok, Hle. cbn in Hok, Hle.
  destruct (IH Hok) as [? ?]. split; [done|by etrans].
Qed.

(** A freshly created server, as [VpnServer::new] returns it, with the TUN
    writer published by [run]. *)
Definition initial (self : VpnServer) (sh : Shared) : Prop :=
  exists (HA : HostApi) (HP : PemApi) (TC : TlsConfigApi T) (HX : StaticKey.HexApi)
      c bind_ok read_file n (h : host) g h' sh0,
    Server.new c bind_ok read_file n h = (Ok (self, sh0, g), h') /\ run_start sh0 = (Ok tt, sh) /\
    u32_ok (next_pool_ip sh0).

(** What it looks like. *)
Lemma initial_fresh self sh :
  initial self sh ->
  exists a next6 n, sh = MkShared ∅ ∅ ∅ ∅ ∅ 1 a next6 ∅ ∅ 0 true true [] [] n /\ u32_ok a /\
    Config.client_pool_start (cfg self) = V4 a /\ Config.client_pool_end (cfg self) = V4 (pool_end self) /\
    pool_v6 (cfg self) = Ok (next6, pool_end_v6 self).
Proof.
  intros (HA & HP & TC & HX & c & bind_ok & rf & n & h & g & h' & sh0 & E & Er & Hpool). revert E.
  unfold Server.new. msimp. destruct bind_ok; msimp; [|done].
  destruct (Certs.build_server_config _ _ _) as [tc| | |]; msimp; [|done..].
  destruct (load_envelope_keys c rf) as [[k1 k2]| | |]; msimp; [|done..].
  destruct (Config.client_pool_start c) as [a|] eqn:Es; msimp; [|done].
  destruct (Config.client_pool_end c) as [e|] eqn:Ee; msimp; [|done].
  destruct (pool_v6 c) as [[n6 e6]| | |] eqn:E6; msimp; [|done..].
  destruct (nat_setup c h) as [[gd| | |] h1]; msimp; [|done..].
  intros [= <- <- <- <-]. unfold run_start in Er. cbn in Er. injection Er as <-. by exists a, n6, n.
Qed.

Lemma initial_ok self sh : initial self sh -> shared_ok self sh.
Proof.
  intros (a & n6 & n & -> & Ha & _ & _ & E6)%initial_fresh. constructor; cbn; try done.
  - by intros arc [s ?].
  - intros [x ->]. unfold pool_v6 in E6. repeat case_match; simplify_eq; by eexists.
Qed.

(** C1: the server never panics and never hangs.  From a server that has
    started, after any number of events of any kind (any datagrams and stream
    packets, however malformed, replayed, reordered or forged; any timer,
    worker, TUN and TCP activity, in any interleaving), the next event's
    handler returns, and the shared state still satisfies the invariant: every
    session name that the maps and workers hold is bound, every session is well
    formed, and the counters keep their width. *)
Theorem server_never_panics self sh0 sh ev :
  initial self sh0 -> rtc (step self) sh0 sh -> event_ok ev ->
  shared_ok self sh /\ exists r sh', handle self ev sh = (r, sh') /\ returns r /\ shared_ok self sh'.
Proof.
  intros Hi Hsteps He. destruct (steps_ok self sh0 sh (initial_ok _ _ Hi) Hsteps) as [Hok _]. split; [done|].
  destruct (handle_safe self ev He sh Hok) as (Hr & Hok' & _). destruct (handle self ev sh) as [r sh']. eauto.
Qed.

(** Sessions only move forward.  Whatever happens between two moments, a
    session keeps its peer id, its transport and both session ids, and its
    state never goes back in the order waiting, handshaking, key exchange, push
    pending, established, closed; from push pending on it has a key slot to
    send with, and once established it has its tunnel address. *)
Theorem session_state_monotone self sh0 sh sh' arc s :
  initial self sh0 -> rtc (step self) sh0 sh -> rtc (step self) sh sh' -> arcs sh !! arc = Some s ->
  exists s', arcs sh' !! arc = Some s' /\ (rank (state s) <= rank (state s'))%nat /\
    peer_id s' = peer_id s /\ transport s' = transport s /\
    server_session_id s' = server_session_id s /\ client_session_id s' = client_session_id s /\
    (keyed (state s') = true -> exists k, active_slot s' = Ok (Some k)) /\
    (established (state s') = true -> exists ip, assigned_ip s' = Some (V4 ip)).
Proof.
  intros Hi Hsteps Hsteps' Hs. destruct (steps_ok self sh0 sh (initial_ok _ _ Hi) Hsteps) as [Hok _].
  destruct (steps_ok self sh sh' Hok Hsteps') as [Hok' Hle]. destruct (Hle arc s Hs) as (s' & Hs' & []).
  exists s'. pose proof (sh_arcs self sh' Hok' arc s' Hs') as Hsok. cbn in Hsok. destruct Hsok. split_and!; done.
Qed.

End system.
End System.
