(* ===== verification/Tasks.v ===== *)
(** * The handlers as programs of atomic actions (src/src/server.rs)

    [Server] runs a handler in one step.  In the program the handlers of
    different tasks interleave: every access to a shared map, counter, channel
    or socket is atomic by itself, a session is reached only under its lock, and
    other tasks run in between.  Here each handler is a program over such
    actions, and [program_alone] shows that run without interruption it is the
    handler of [Server].  [Interleaving] lets the tasks take turns. *)

From S2P Require Import Prelude Replay Buf Protocol Utf8 ControlChannel Primitives Crypto Prf.
From S2P Require Import Envelope TlsAuth TlsCrypt Text StaticKey Tls Certs Transport Config Masquerade.
From S2P Require Import Session SessionInv Server ServerInv System.

Module Tasks.
Import Transport Session Server System.

(** ** Programs *)

Section prog.
Context {T : TlsApi}.

(** One action on the shared state, [arc.lock()], or the end of a guard's
    life, which leaves the session as it is then; between two actions a task
    only computes. *)
Inductive prog (A : Type) : Type :=
  | Ret (a : A)
  | Atomic (X : Type) (op : Shared -> X * Shared) (k : X -> prog A)
  | Lock (arc : nat) (k : option Session -> prog A)
  | Unlock (arc : nat) (s : Session) (p : prog A).

Fixpoint pbind {X Y} (p : prog X) (f : X -> prog Y) : prog Y :=
  match p with
  | Ret _ a => f a
  | Atomic _ Z op k => Atomic Y Z op (fun x => pbind (k x) f)
  | Lock _ arc k => Lock Y arc (fun o => pbind (k o) f)
  | Unlock _ arc s p => Unlock Y arc s (pbind p f)
  end.

(** A task's code. *)
Definition Task (A : Type) : Type := prog (result A).
(** Code that owns a session: it holds the lock, or nobody else knows of it. *)
Definition Locked (A : Type) : Type := Session -> prog (result A * Session).

#[export] Instance Task_ret : MRet Task := fun A a => Ret _ (Ok a).
#[export] Instance Task_bind : MBind Task := fun A B f p =>
  pbind p (fun r => match r with
                    | Ok a => f a
                    | Err e => Ret _ (Err e)
                    | Panic => Ret _ Panic
                    | Diverge => Ret _ Diverge
                    end).
#[export] Instance Locked_ret : MRet Locked := fun A a s => Ret _ (Ok a, s).
#[export] Instance Locked_bind : MBind Locked := fun A B f m s =>
  pbind (m s) (fun '(r, s') => match r with
                               | Ok a => f a s'
                               | Err e => Ret _ (Err e, s')
                               | Panic => Ret _ (Panic, s')
                               | Diverge => Ret _ (Diverge, s')
                               end).

Definition atomically {A} (m : M Shared A) : Task A := Atomic _ _ m (Ret _).
Definition local {A} (m : M Session A) : Locked A := fun s => Ret _ (m s).
Definition atomic {A} (m : M Shared A) : Locked A := fun s => Atomic _ _ m (fun r => Ret _ (r, s)).

(** [let mut sess = arc.lock().await; ..]: the guard is dropped on every way
    out, with what has happened to the session until then. *)
Definition locked {A} (arc : nat) (m : Locked A) : Task A :=
  Lock _ arc (fun o =>
    match o with
    | None => Ret _ Panic
    | Some s => pbind (m s) (fun '(r, s') => Unlock _ arc s' (Ret _ r))
    end).

(** Code on a session that is not shared yet. *)
Definition unshared {A} (s : Session) (m : Locked A) : Task Session :=
  pbind (m s) (fun '(r, s') => match r with
                               | Ok _ => Ret _ (Ok s')
                               | Err e => Ret _ (Err e)
                               | Panic => Ret _ Panic
                               | Diverge => Ret _ Diverge
                               end).

Definition logged {A} (p : Task A) : Task unit :=
  pbind p (fun r => match r with
                    | Ok _ | Err _ => Ret _ (Ok tt)
                    | Panic => Ret _ Panic
                    | Diverge => Ret _ Diverge
                    end).

Fixpoint each {A} (body : A -> Locked unit) (xs : list A) : Locked unit :=
  match xs with
  | [] => mret tt
  | x :: rest => body x ≫= fun _ => each body rest
  end.
Fixpoint each_task {A} (body : A -> Task unit) (xs : list A) : Task unit :=
  match xs with
  | [] => mret tt
  | x :: rest => body x ≫= fun _ => each_task body rest
  end.
Definition when_locked (b : bool) (m : Locked unit) : Locked unit := if b then m else mret tt.

(** ** A program without interruption *)

Fixpoint alone {A} (p : prog A) (sh : Shared) : A * Shared :=
  match p with
  | Ret _ a => (a, sh)
  | Atomic _ _ op k => let '(x, sh') := op sh in alone (k x) sh'
  | Lock _ arc k => alone (k (arcs sh !! arc)) sh
  | Unlock _ arc s p => alone p (set_arcs (<[arc := s]> (arcs sh)) sh)
  end.

End prog.
Arguments Ret {T A}.
Arguments Atomic {T A X}.
Arguments Lock {T A}.
Arguments Unlock {T A}.

Section tasks.
Context {B : BufApi} {C : CryptoApi} {T : TlsApi}.

(** ** Handlers that hold a session *)

Definition send_sess (wire : bytes) : Locked unit :=
  t ← local (gets transport);
  atomic (on_net (send t wire)).

Definition send_and_track (self : VpnServer) (env : Env) (pkt : Protocol.ControlPacket) : Locked unit :=
  let pid := Protocol.packet_id pkt in
  let encoded := Protocol.encode pkt in
  wire ← local (wrap_for_wire self env encoded);
  send_sess wire ≫= fun _ =>
  match pid with
  | Some p => local (record_sent p encoded (now env))
  | None => mret tt
  end.

Definition send_chunks (self : VpnServer) (env : Env) (key_id : Z) (out : bytes) : Locked unit :=
  each (fun chunk =>
    pkt ← local (make_control key_id chunk);
    send_and_track self env pkt) (chunks MAX_TLS_PAYLOAD_PER_CONTROL out).

Definition flush_outgoing (self : VpnServer) (env : Env) : Locked unit :=
  out ← local take_outgoing_main;
  s ← local get;
  match out with
  | _ :: _ =>
    key_id ← local (lift (active_key_id s));
    send_chunks self env key_id out
  | [] =>
    match pending_acks s with
    | [] => mret tt
    | pids =>
      local (modify (set_pending_acks [])) ≫= fun _ =>
      key_id ← local (lift (active_key_id s));
      ack ← local (make_ack key_id pids);
      wire ← local (wrap_for_wire self env (Protocol.encode ack));
      send_sess wire
    end
  end.

Definition drive_key_exchange (self : VpnServer) : Locked bool :=
  s ← local get;
  pop ← local (lift (ControlChannel.try_parse (Tls.plaintext_in (tls s))));
  match pop with
  | ControlChannel.NeedMore => mret false
  | ControlChannel.Ready km n =>
    local (on_tls (Tls.drain_plaintext n)) ≫= fun _ =>
    local (modify (fun s =>
      set_client_peer_info (Some (ControlChannel.peer_info km))
        (set_client_options (Some (ControlChannel.options km))
          (set_client_random2 (Some (ControlChannel.random2 km))
            (set_client_random1 (Some (ControlChannel.random1 km))
              (set_client_pre_master (Some (ControlChannel.pre_master km)) s)))))) ≫= fun _ =>
    local (install_prf_slot 0) ≫= fun _ =>
    local (on_tls (Tls.send_plaintext (server_km2 self (server_random1 s) (server_random2 s)))) ≫= fun _ =>
    local (modify (set_state PushPending)) ≫= fun _ =>
    mret true
  end.

(** The check of a static address, the allocation and the insertion of the
    route are separate actions. *)
Definition choose_ip (self : VpnServer) (cc : option Config.ClientConfig) : Locked Z :=
  match cc ≫= Config.assign_ip with
  | Some (V4 v4) =>
    used ← atomic (gets (fun sh => bool_decide (is_Some (routes sh !! v4))));
    if used : bool then local (bail (StaticIpInUse v4)) else mret v4
  | Some (V6 _) => local (bail PerClientV6)
  | None => atomic (allocate_ip self)
  end.

Definition handle_push_request (self : VpnServer) (addr : SocketAddr) : Locked unit :=
  s ← local get;
  let cc := client_cn s ≫= fun cn => Config.client_configs (cfg self) !! cn in
  ip ← choose_ip self cc;
  local (modify (set_assigned_ip (Some (V4 ip)))) ≫= fun _ =>
  atomic (modify (fun sh => set_routes (<[ip := addr]> (routes sh)) sh)) ≫= fun _ =>
  ip6 ← atomic (allocate_ip_v6 self);
  match ip6 with
  | Some v6 =>
    local (modify (set_assigned_ip_v6 (Some v6))) ≫= fun _ =>
    atomic (modify (fun sh => set_routes_v6 (<[v6 := addr]> (routes_v6 sh)) sh))
  | None => mret tt
  end ≫= fun _ =>
  let extra_routes := match cc with Some c => Config.cc_push_routes c | None => [] end in
  let reply := build_push_reply (cfg self) ip ip6 (peer_id s) extra_routes in
  local (on_tls (Tls.send_plaintext reply)) ≫= fun _ =>
  local (modify (set_state Established)).

Definition drive_push_pending (self : VpnServer) (addr : SocketAddr) : Locked bool :=
  s ← local get;
  match ControlChannel.try_pop_ascii (Tls.plaintext_in (tls s)) with
  | ControlChannel.NeedMore => mret false
  | ControlChannel.Ready msg n =>
    local (on_tls (Tls.drain_plaintext n)) ≫= fun _ =>
    when_locked (bool_decide (msg = str "PUSH_REQUEST")) (handle_push_request self addr) ≫= fun _ =>
    mret true
  end.

Definition drive_established : Locked bool :=
  s ← local get;
  match ControlChannel.try_pop_ascii (Tls.plaintext_in (tls s)) with
  | ControlChannel.NeedMore => mret false
  | ControlChannel.Ready msg n =>
    local (on_tls (Tls.drain_plaintext n)) ≫= fun _ =>
    if bool_decide (msg = str "EXIT") || Text.starts_with msg (str "CC_EXIT")
    then local (modify (set_state Closed)) ≫= fun _ => mret false
    else mret true
  end.

Definition drive_step (self : VpnServer) (addr : SocketAddr) : Locked bool :=
  st ← local (gets state);
  match st with
  | KeyExchange => drive_key_exchange self
  | PushPending => drive_push_pending self addr
  | Established => drive_established
  | _ => mret false
  end.

Fixpoint drive_loop (fuel : nat) (self : VpnServer) (addr : SocketAddr) : Locked unit :=
  match fuel with
  | O => local (lift Diverge)
  | S fuel' =>
    continue ← drive_step self addr;
    if continue : bool then drive_loop fuel' self addr else mret tt
  end.

Definition drive_control_plane (self : VpnServer) (addr : SocketAddr) : Locked unit :=
  s ← local get;
  drive_loop (S (length (Tls.plaintext_in (tls s)))) self addr.

Definition drive_rekey_control_plane (self : VpnServer) : Locked unit :=
  s ← local get;
  match rekey s with
  | None => mret tt
  | Some rk =>
    if negb (bool_decide (rk_state rk = RkKeyExchange)) then mret tt else
    pop ← local (lift (ControlChannel.try_parse (Tls.plaintext_in (rk_tls rk))));
    match pop with
    | ControlChannel.NeedMore => mret tt
    | ControlChannel.Ready km n =>
      let c_sid := to_be 8 (client_session_id s) in
      let s_sid := to_be 8 (server_session_id s) in
      let s_r1 := rk_server_random1 rk in
      let s_r2 := rk_server_random2 rk in
      key_data ← local (lift (Prf.derive_openvpn_key_data (ControlChannel.pre_master km)
        (ControlChannel.random1 km) s_r1 (ControlChannel.random2 km) s_r2 c_sid s_sid));
      cipher ← local (lift (Crypto.from_keymat_server key_data));
      local (install_slot (MkKeySlot (rk_key_id rk) cipher 1 Replay.new)) ≫= fun _ =>
      local (on_rekey Panic (
        on_rk_tls (Tls.drain_plaintext n) ≫= fun _ =>
        on_rk_tls (Tls.send_plaintext (server_km2 self s_r1 s_r2)) ≫= fun _ =>
        set_rk_sent))
    end
  end.

Definition flush_rekey_outgoing (self : VpnServer) (env : Env) : Locked unit :=
  s ← local get;
  match rekey s with
  | None => mret tt
  | Some rk =>
    out ← local (on_rekey (Ok []) (on_rk_tls (fun t => let '(out, t') := Tls.take_outgoing t in (Ok out, t'))));
    match out with
    | [] => mret tt
    | _ => send_chunks self env (rk_key_id rk) out
    end
  end.

Definition handle_rekey_control (self : VpnServer) (env : Env) (ctrl : Protocol.ControlPacket) : Locked unit :=
  s ← local get;
  match rekey s with
  | None => mret tt
  | Some _ =>
    local (on_rekey (Ok tt) (
      on_rk_tls (Tls.feed (Protocol.payload ctrl)) ≫= fun _ =>
      rk ← get;
      when_ (bool_decide (rk_state rk = RkHandshaking) && negb (Tls.is_handshaking (rk_tls rk)))
        (set_rk_state RkKeyExchange))) ≫= fun _ =>
    drive_rekey_control_plane self ≫= fun _ =>
    flush_rekey_outgoing self env ≫= fun _ =>
    s ← local get;
    match rekey s with
    | Some rk =>
      if rk_key_method_sent rk then
        local (promote_slot (rk_key_id rk)) ≫= fun _ =>
        local (modify (set_rekey None)) ≫= fun _ =>
        local (modify (set_last_rekey_at (now env)))
      else mret tt
    | None => mret tt
    end
  end.

Definition handle_control_v1 (self : VpnServer) (env : Env) (addr : SocketAddr)
    (ctrl : Protocol.ControlPacket) : Locked unit :=
  s ← local get;
  let is_rekey := match rekey s with
                  | Some r => rk_key_id r =? Protocol.key_id ctrl
                  | None => false
                  end in
  if is_rekey then handle_rekey_control self env ctrl
  else
    local (on_tls (Tls.feed (Protocol.payload ctrl))) ≫= fun _ =>
    s ← local get;
    when_locked (bool_decide (state s = Handshaking) && negb (Tls.is_handshaking (tls s)))
      (local finalize_keys) ≫= fun _ =>
    drive_control_plane self addr ≫= fun _ =>
    flush_outgoing self env.

Definition handle_soft_reset (self : VpnServer) (env : Env) (ctrl : Protocol.ControlPacket) : Locked unit :=
  s ← local get;
  match rekey s with
  | Some _ => mret tt
  | None =>
    if negb (bool_decide (state s = Established)) then mret tt
    else
      let new_key_id := Protocol.key_id ctrl in
      new_tls ← local (lift (Tls.new (tls_cfg self)));
      local (start_rekey new_key_id new_tls (rnd1 env) (rnd2 env)) ≫= fun _ =>
      let ack_pid := default 0 (Protocol.packet_id ctrl) in
      reply ← local (make_soft_reset_reply new_key_id ack_pid);
      send_and_track self env reply
  end.

Definition handle_known (self : VpnServer) (env : Env) (addr : SocketAddr) (ctrl : Protocol.ControlPacket)
    (replay_pid : option Z) : Locked unit :=
  local (modify (set_last_seen (now env))) ≫= fun _ =>
  local (check_replay replay_pid) ≫= fun _ =>
  match Protocol.acks ctrl with
  | [] => mret tt
  | acks => local (process_acks acks)
  end ≫= fun _ =>
  match Protocol.packet_id ctrl with
  | Some pid => local (note_received pid (now env))
  | None => mret tt
  end ≫= fun _ =>
  match Protocol.op ctrl with
  | Protocol.ControlV1 => handle_control_v1 self env addr ctrl
  | Protocol.ControlSoftResetV1 => handle_soft_reset self env ctrl
  | _ => mret tt
  end.

Definition start_server_rekey (self : VpnServer) (env : Env) : Locked unit :=
  s ← local get;
  if negb (rekey_due self env s) then mret tt else
  active_key_id ← local (lift (active_key_id s));
  let new_key_id := Z.land (wrapping_add 8 active_key_id 1) 7 in
  new_tls ← local (lift (Tls.new (tls_cfg self)));
  local (start_rekey new_key_id new_tls (rnd1 env) (rnd2 env)) ≫= fun _ =>
  local (modify (set_last_rekey_at (now env))) ≫= fun _ =>
  pkt ← local (make_soft_reset_init new_key_id);
  send_and_track self env pkt.

Definition shutdown_one (self : VpnServer) (env : Env) : Locked unit :=
  s ← local get;
  if negb (bool_decide (state s = Established)) then mret tt else
  local (on_tls (Tls.send_plaintext (str "RESTART,1" ++ [0]))) ≫= fun _ =>
  flush_outgoing self env.

(** ** Tasks *)

Definition find_session (addr : SocketAddr) : Task (option nat) :=
  atomically (gets (fun sh => sessions sh !! addr)).

(** Allocating the [Arc]: nobody else knows the name yet. *)
Definition new_arc (s : Session) : M Shared nat :=
  arc ← fresh_ref;
  modify (fun sh => set_arcs (<[arc := s]> (arcs sh)) sh) ≫= fun _ => mret arc.

Definition spawn_data_worker (peer_id : Z) (arc : nat) : Task unit :=
  ready ← atomically (gets tun_writer_tx);
  if ready : bool then
    atomically (
      w ← fresh_ref;
      modify (fun sh =>
        set_data_routes (<[peer_id := w]> (data_routes sh))
          (set_workers (<[w := MkWorker arc []]> (workers sh)) sh)))
  else mret tt.

Definition new_session (self : VpnServer) (env : Env) (addr : SocketAddr) (ctrl : Protocol.ControlPacket)
    (replay_pid : option Z) (tr : Transport) : Task unit :=
  t ← (Ret (Tls.new (tls_cfg self)) : Task _);
  let server_sid := from_be (rnd_sid env) in
  peer_id ← atomically take_peer_id;
  let sess := Session.new server_sid t peer_id tr (rnd1 env) (rnd2 env) (now env) in
  let sess := set_client_session_id (Protocol.session_id ctrl) sess in
  let sess := set_state Handshaking sess in
  let sess := match replay_pid with
              | Some pid => set_tls_auth_replay (Replay.check_and_set (tls_auth_replay sess) pid).2 sess
              | None => sess
              end in
  let ack_pid := default 0 (Protocol.packet_id ctrl) in
  sess ← unshared sess (
    reply ← local (make_hard_reset_reply ack_pid);
    send_and_track self env reply);
  arc ← atomically (new_arc sess);
  atomically (modify (fun sh => set_sessions (<[addr := arc]> (sessions sh)) sh)) ≫= fun _ =>
  atomically (modify (fun sh => set_peers (<[peer_id := addr]> (peers sh)) sh)) ≫= fun _ =>
  spawn_data_worker peer_id arc.

Definition handle_control_packet (self : VpnServer) (env : Env) (addr : SocketAddr) (pkt : bytes)
    (replay_pid : option Z) (tr : Transport) : Task unit :=
  ctrl ← (Ret (Protocol.parse pkt) : Task _);
  unknown ← (if is_hard_reset (Protocol.op ctrl)
             then atomically (gets (fun sh => bool_decide (sessions sh !! addr = None)))
             else mret false);
  if unknown : bool then new_session self env addr ctrl replay_pid tr
  else
    o ← find_session addr;
    match o with
    | None => mret tt
    | Some arc => locked arc (handle_known self env addr ctrl replay_pid)
    end.

(** The packet goes into the worker's channel while the map's entry is held. *)
Definition dispatch (self : VpnServer) (env : Env) (addr : SocketAddr) (tr : Transport) (pkt : bytes) : Task unit :=
  match pkt with
  | [] => mret tt
  | first :: _ =>
    match Protocol.from_u8 (Z.shiftr first 3) with
    | Ok op =>
      if Protocol.is_data op then atomically (route_data pkt)
      else
        match unwrap_control self pkt with
        | Ok (inner_owned, replay_pid) =>
          let inner_pkt := default pkt inner_owned in
          logged (handle_control_packet self env addr inner_pkt replay_pid tr)
        | Err _ => mret tt
        | Panic => Ret Panic
        | Diverge => Ret Diverge
        end
    | Err _ => mret tt
    | Panic => Ret Panic
    | Diverge => Ret Diverge
    end
  end.

Definition decrypt_and_forward (env : Env) (arc : nat) (pkt : bytes) : Task unit :=
  dp ← (Ret (Protocol.parse_data_v2 pkt) : Task _);
  plaintext ← locked arc (local (open_packet env pkt dp));
  if bool_decide (plaintext = Protocol.PING_PAYLOAD) then mret tt
  else atomically (tun_send plaintext).

(** [rx.recv()] of a data worker. *)
Definition recv_data (w : nat) : M Shared (option (nat * bytes)) := fun sh =>
  match workers sh !! w with
  | Some (MkWorker arc (raw :: rest)) => (Ok (Some (arc, raw)), set_workers (<[w := MkWorker arc rest]> (workers sh)) sh)
  | _ => (Ok None, sh)
  end.
Definition worker_step (env : Env) (w : nat) : Task unit :=
  o ← atomically (recv_data w);
  match o with
  | Some (arc, raw) => logged (decrypt_and_forward env arc raw)
  | None => mret tt
  end.

(** [tun_writer_rx.recv()] and [tun_tx.write_all(..)]. *)
Definition recv_tun : M Shared (option bytes) := fun sh =>
  match tun_open sh, tun_queue sh with
  | true, pkt :: rest => (Ok (Some pkt), set_tun_queue rest sh)
  | _, _ => (Ok None, sh)
  end.
Definition write_tun (write_ok : bool) (pkt : bytes) : M Shared unit := modify (fun sh =>
  if write_ok then set_tun_written (tun_written sh ++ [pkt]) sh else set_tun_open false (set_tun_queue [] sh)).
Definition tun_writer_step (write_ok : bool) : Task unit :=
  o ← atomically recv_tun;
  match o with
  | Some pkt => if negb (is_ip_packet pkt) then mret tt else atomically (write_tun write_ok pkt)
  | None => mret tt
  end.

Definition forward_tun_to_client (ip_pkt : bytes) : Task unit :=
  dst ← atomically (fun sh => (tun_route ip_pkt sh, sh));
  match dst with
  | None => mret tt
  | Some addr =>
    o ← find_session addr;
    match o with
    | None => mret tt
    | Some arc => locked arc (
        s ← local get;
        active ← local (lift (active_slot s));
        match active with
        | None => mret tt
        | Some _ =>
          bytes ← local (build_data_packet ip_pkt);
          send_sess bytes
        end)
    end
  end.
Definition tun_read (ip_pkt : bytes) : Task unit :=
  match ip_pkt with
  | [] => mret tt
  | _ => logged (forward_tun_to_client ip_pkt)
  end.

(** What forgetting a session removes besides its address, one map at a time. *)
Definition releases (s : Session) : list (M Shared unit) :=
  match assigned_ip s with
  | Some (V4 ip) => [modify (fun sh => set_routes (delete ip (routes sh)) sh)]
  | _ => []
  end ++
  match assigned_ip_v6 s with
  | Some ip6 => [modify (fun sh => set_routes_v6 (delete ip6 (routes_v6 sh)) sh)]
  | None => []
  end ++
  [ modify (fun sh => set_peers (delete (peer_id s) (peers sh)) sh);
    modify (fun sh => set_data_routes (delete (peer_id s) (data_routes sh)) sh) ].

(** The reaper looks at a session under its lock and evicts it afterwards. *)
Definition reap_one (self : VpnServer) (env : Env) (addr : SocketAddr) : Task unit :=
  o ← find_session addr;
  match o with
  | None => mret tt
  | Some arc =>
    s ← locked arc (local get);
    let idle_timeout := Config.keepalive_timeout (cfg self) * SECOND in
    if idle_timeout <=? duration_since (now env) (last_seen s)
    then
      atomically (modify (fun sh => set_sessions (delete addr (sessions sh)) sh)) ≫= fun _ =>
      each_task atomically (releases s)
    else mret tt
  end.

(** The end of a TCP stream takes the session out of the map first and cleans
    up under its lock. *)
Definition remove_session (peer : SocketAddr) : M Shared (option nat) := fun sh =>
  (Ok (sessions sh !! peer), set_sessions (delete peer (sessions sh)) sh).
Definition tcp_closed (peer : SocketAddr) : Task unit :=
  o ← atomically (remove_session peer);
  match o with
  | None => mret tt
  | Some arc => locked arc (s ← local get; each atomic (releases s))
  end.

Definition for_session (addr : SocketAddr) (m : Locked unit) : Task unit :=
  o ← find_session addr;
  match o with
  | None => mret tt
  | Some arc => logged (locked arc m)
  end.

(** The ping and the retransmit timers send after they have dropped the lock. *)
Definition build_ping : Locked (option (Transport * bytes)) :=
  s ← local get;
  active ← local (lift (active_slot s));
  match state s, active with
  | Established, Some _ =>
    bytes ← local (build_data_packet Protocol.PING_PAYLOAD);
    t ← local (gets transport);
    mret (Some (t, bytes))
  | _, _ => mret None
  end.
Definition ping_one (addr : SocketAddr) : Task unit :=
  o ← find_session addr;
  match o with
  | None => mret tt
  | Some arc => logged (
      o ← locked arc build_ping;
      match o with
      | Some (t, bytes) => atomically (on_net (send t bytes))
      | None => mret tt
      end)
  end.

Definition collect_stale (self : VpnServer) (env : Env) : Locked (Transport * list bytes) :=
  stale_inner ← local (stale_unacked (now env) CONTROL_BASE_RTO);
  wire_list ← local (wrap_all self env stale_inner);
  t ← local (gets transport);
  mret (t, wire_list).
Definition retransmit_one (self : VpnServer) (env : Env) (addr : SocketAddr) : Task unit :=
  o ← find_session addr;
  match o with
  | None => mret tt
  | Some arc => logged (
      '(t, wire_list) ← locked arc (collect_stale self env);
      each_task (fun wire => logged (atomically (on_net (send t wire)))) wire_list)
  end.

(** ** The program of an event *)

Definition program (self : VpnServer) (ev : event) : Task unit :=
  match ev with
  | EvPacket env addr tr pkt => dispatch self env addr tr pkt
  | EvWorker env w => worker_step env w
  | EvTunWriter ok => tun_writer_step ok
  | EvTunRead pkt => tun_read pkt
  | EvReap env addr => reap_one self env addr
  | EvRekey env addr =>
    if 0 <? Config.reneg_sec (cfg self) then for_session addr (start_server_rekey self env) else mret tt
  | EvPing addr => ping_one addr
  | EvRetransmit env addr => retransmit_one self env addr
  | EvTcpAccept => atomically (tcp_accept ≫= fun _ => mret tt)
  | EvTcpWriterFailed tx => atomically (tcp_writer_failed tx)
  | EvTcpClosed peer => tcp_closed peer
  | EvShutdown env addr => for_session addr (shutdown_one self env)
  end.

(** ** Without interruption, the programs are the handlers *)

Lemma alone_bind {X Y} (p : prog X) (f : X -> prog Y) sh :
  alone (pbind p f) sh = let '(x, sh') := alone p sh in alone (f x) sh'.
Proof.
  revert sh. induction p as [a|Z op k IH|arc k IH|arc s p IH]; intros sh; cbn; [done| | |]; [|apply IH..].
  destruct (op sh) as [z sh']. apply IH.
Qed.

Class RunsL {A} (p : Locked A) (m : M (Session * Shared) A) : Prop :=
  runs_locked s sh : alone (p s) sh = let '(r, (s', sh')) := m (s, sh) in (r, s', sh').
Class RunsT {A} (p : Task A) (m : M Shared A) : Prop := runs_task sh : alone p sh = m sh.

#[export] Instance runs_ret {A} (a : A) : RunsL (mret a) (mret a).
Proof. done. Qed.
#[export] Instance runs_local {A} (m : M Session A) : RunsL (local m) (on_sess m).
Proof. intros s sh. cbn. by destruct (m s). Qed.
#[export] Instance runs_lift {A} (r : result A) : RunsL (local (lift r)) (lift r).
Proof. done. Qed.
#[export] Instance runs_bail {A} (e : error) : RunsL (A := A) (local (bail e)) (bail e).
Proof. done. Qed.
#[export] Instance runs_atomic {A} (m : M Shared A) : RunsL (atomic m) (on_shared m).
Proof. intros s sh. cbn. by destruct (m sh). Qed.
#[export] Instance runs_bind {X Y} (p : Locked X) m (f : X -> Locked Y) g :
  RunsL p m -> (forall x, RunsL (f x) (g x)) -> RunsL (p ≫= f) (m ≫= g).
Proof.
  intros Hp Hf s sh. unfold mbind, Locked_bind, M_bind. rewrite alone_bind, (Hp s sh).
  destruct (m (s, sh)) as [[x|e| |] [s' sh']]; [apply Hf|done..].
Qed.
#[export] Instance runs_each {X} (f : X -> Locked unit) g xs :
  (forall x, RunsL (f x) (g x)) -> RunsL (each f xs) (for_each g xs).
Proof. intros Hf. induction xs as [|x xs IH]; cbn; [apply _|]. by apply runs_bind. Qed.
#[export] Instance runs_when b p m : RunsL p m -> RunsL (when_locked b p) (when_ b m).
Proof. intros. destruct b; [done|apply _]. Qed.

#[export] Instance runs_atomically {A} (m : M Shared A) : RunsT (atomically m) m.
Proof. intros sh. cbn. by destruct (m sh). Qed.
#[export] Instance runs_task_ret {A} (a : A) : RunsT (mret a) (mret a).
Proof. done. Qed.
#[export] Instance runs_task_lift {A} (r : result A) : RunsT (Ret r) (lift r).
Proof. done. Qed.
#[export] Instance runs_task_bind {X Y} (p : Task X) m (f : X -> Task Y) g :
  RunsT p m -> (forall x, RunsT (f x) (g x)) -> RunsT (p ≫= f) (m ≫= g).
Proof.
  intros Hp Hf sh. unfold mbind, Task_bind, M_bind. rewrite alone_bind, (Hp sh).
  destruct (m sh) as [[x|e| |] sh']; [apply Hf|done..].
Qed.
#[export] Instance runs_each_task {X} (f : X -> Task unit) g xs :
  (forall x, RunsT (f x) (g x)) -> RunsT (each_task f xs) (for_each g xs).
Proof. intros Hf. induction xs as [|x xs IH]; cbn; [apply _|]. by apply runs_task_bind. Qed.
#[export] Instance runs_logged {A} (p : Task A) m : RunsT p m -> RunsT (logged p) (Server.logged m).
Proof.
  intros Hp sh. unfold logged, Server.logged. rewrite alone_bind, (Hp sh). by destruct (m sh) as [[] ?].
Qed.
#[export] Instance runs_with_session {A} arc (p : Locked A) m : RunsL p m -> RunsT (locked arc p) (with_session arc m).
Proof.
  intros Hp sh. unfold with_session. cbn. destruct (arcs sh !! arc) as [s|]; [|done].
  rewrite alone_bind, (Hp s sh). by destruct (m (s, sh)) as [r [s' sh']].
Qed.
#[export] Instance runs_unshared {A} s (p : Locked A) m : RunsL p m -> RunsT (unshared s p) (with_local s m).
Proof.
  intros Hp sh. unfold unshared, with_local. rewrite alone_bind, (Hp s sh).
  by destruct (m (s, sh)) as [[] [s' sh']].
Qed.

(** Both sides have the same shape. *)
Ltac same_shape :=
  repeat first
    [ exact _
    | apply runs_bind | apply runs_task_bind | apply runs_each | apply runs_each_task | apply runs_when
    | match goal with
      | |- forall _, _ => intros ?
      | |- RunsL (let _ := _ in _) _ => cbv zeta
      | |- RunsL (match ?x with _ => _ end) _ => destruct x
      | |- RunsT (match ?x with _ => _ end) _ => destruct x
      end ].

#[export] Instance runs_send_sess w : RunsL (send_sess w) (Server.send_sess w).
Proof. unfold send_sess, Server.send_sess. same_shape. Qed.
#[export] Instance runs_send_and_track self env pkt : RunsL (send_and_track self env pkt) (Server.send_and_track self env pkt).
Proof. unfold send_and_track, Server.send_and_track. same_shape. Qed.
#[export] Instance runs_send_chunks self env k out : RunsL (send_chunks self env k out) (Server.send_chunks self env k out).
Proof. unfold send_chunks, Server.send_chunks. same_shape. Qed.
#[export] Instance runs_flush self env : RunsL (flush_outgoing self env) (Server.flush_outgoing self env).
Proof. unfold flush_outgoing, Server.flush_outgoing. same_shape. Qed.
#[export] Instance runs_key_exchange self : RunsL (drive_key_exchange self) (Server.drive_key_exchange self).
Proof. unfold drive_key_exchange, Server.drive_key_exchange. same_shape. Qed.
#[export] Instance runs_choose_ip self cc : RunsL (choose_ip self cc) (on_shared (Server.choose_ip self cc)).
Proof.
  unfold choose_ip, Server.choose_ip. destruct (cc ≫= Config.assign_ip) as [[v4|v6]|]; [|done|apply _].
  intros s sh. unfold on_shared. rewrite bind_run. unfold mbind, Locked_bind. rewrite alone_bind. cbn [alone atomic gets].
  by case_bool_decide.
Qed.
#[export] Instance runs_push_request self addr : RunsL (handle_push_request self addr) (Server.handle_push_request self addr).
Proof. unfold handle_push_request, Server.handle_push_request. same_shape. Qed.
#[export] Instance runs_push_pending self addr : RunsL (drive_push_pending self addr) (Server.drive_push_pending self addr).
Proof. unfold drive_push_pending, Server.drive_push_pending. same_shape. Qed.
#[export] Instance runs_established : RunsL drive_established Server.drive_established.
Proof. unfold drive_established, Server.drive_established. same_shape. Qed.
#[export] Instance runs_drive_step self addr : RunsL (drive_step self addr) (Server.drive_step self addr).
Proof. unfold drive_step, Server.drive_step. same_shape. Qed.
#[export] Instance runs_drive_loop fuel self addr : RunsL (drive_loop fuel self addr) (Server.drive_loop fuel self addr).
Proof. induction fuel as [|fuel IH]; cbn [drive_loop Server.drive_loop]; same_shape. Qed.
#[export] Instance runs_drive self addr : RunsL (drive_control_plane self addr) (Server.drive_control_plane self addr).
Proof. unfold drive_control_plane, Server.drive_control_plane. same_shape. Qed.
#[export] Instance runs_drive_rekey self : RunsL (drive_rekey_control_plane self) (Server.drive_rekey_control_plane self).
Proof. unfold drive_rekey_control_plane, Server.drive_rekey_control_plane. same_shape. Qed.
#[export] Instance runs_flush_rekey self env : RunsL (flush_rekey_outgoing self env) (Server.flush_rekey_outgoing self env).
Proof. unfold flush_rekey_outgoing, Server.flush_rekey_outgoing. same_shape. Qed.
#[export] Instance runs_rekey_control self env ctrl :
  RunsL (handle_rekey_control self env ctrl) (Server.handle_rekey_control self env ctrl).
Proof. unfold handle_rekey_control, Server.handle_rekey_control. same_shape. Qed.
#[export] Instance runs_control_v1 self env addr ctrl :
  RunsL (handle_control_v1 self env addr ctrl) (Server.handle_control_v1 self env addr ctrl).
Proof. unfold handle_control_v1, Server.handle_control_v1. same_shape. Qed.
#[export] Instance runs_soft_reset self env ctrl : RunsL (handle_soft_reset self env ctrl) (Server.handle_soft_reset self env ctrl).
Proof. unfold handle_soft_reset, Server.handle_soft_reset. same_shape. Qed.
#[export] Instance runs_known self env addr ctrl pid :
  RunsL (handle_known self env addr ctrl pid) (Server.handle_known self env addr ctrl pid).
Proof. unfold handle_known, Server.handle_known. same_shape. Qed.
#[export] Instance runs_server_rekey self env : RunsL (start_server_rekey self env) (Server.start_server_rekey self env).
Proof. unfold start_server_rekey, Server.start_server_rekey. same_shape. Qed.
#[export] Instance runs_shutdown_one self env : RunsL (shutdown_one self env) (Server.shutdown_one self env).
Proof. unfold shutdown_one, Server.shutdown_one. same_shape. Qed.

Lemma alone_task_bind {X Y} (p : Task X) (f : X -> Task Y) sh :
  alone (p ≫= f) sh = match alone p sh with
                      | (Ok a, sh') => alone (f a) sh'
                      | (Err e, sh') => (Err e, sh')
                      | (Panic, sh') => (Panic, sh')
                      | (Diverge, sh') => (Diverge, sh')
                      end.
Proof. unfold mbind, Task_bind. rewrite alone_bind. by destruct (alone p sh) as [[] ?]. Qed.
Lemma alone_atomically {A} (m : M Shared A) sh : alone (atomically m) sh = m sh.
Proof. apply runs_atomically. Qed.
Lemma alone_find addr sh : alone (find_session addr) sh = (Ok (sessions sh !! addr), sh).
Proof. done. Qed.

(** Run a task whose shape differs from the handler's. *)
Ltac task_run :=
  repeat first [rewrite alone_task_bind | rewrite alone_atomically | rewrite alone_find | progress msimp].

#[export] Instance runs_spawn peer arc : RunsT (spawn_data_worker peer arc) (Server.spawn_data_worker peer arc).
Proof.
  intros sh. unfold spawn_data_worker, Server.spawn_data_worker. task_run. destruct (tun_writer_tx sh); [|done]. by task_run.
Qed.
#[export] Instance runs_new_session self env addr ctrl pid tr :
  RunsT (new_session self env addr ctrl pid tr) (Server.new_session self env addr ctrl pid tr).
Proof.
  unfold new_session, Server.new_session. apply runs_task_bind; [apply _|]. intros t.
  apply runs_task_bind; [apply _|]. intros peer. cbv zeta. apply runs_task_bind; [apply _|]. intros sess sh.
  unfold new_arc, fresh_ref. task_run. apply runs_spawn.
Qed.
#[export] Instance runs_control_packet self env addr pkt pid tr :
  RunsT (handle_control_packet self env addr pkt pid tr) (Server.handle_control_packet self env addr pkt pid tr).
Proof.
  unfold handle_control_packet, Server.handle_control_packet. apply runs_task_bind; [apply _|]. intros ctrl sh. task_run.
  destruct (is_hard_reset _); task_run.
  - destruct (sessions sh !! addr) as [arc|] eqn:E; cbn.
    + task_run. rewrite E. apply runs_with_session, _.
    + apply runs_new_session.
  - cbn. task_run. destruct (sessions sh !! addr); [apply runs_with_session, _|done].
Qed.
#[export] Instance runs_dispatch self env addr tr pkt : RunsT (dispatch self env addr tr pkt) (Server.dispatch self env addr tr pkt).
Proof.
  unfold dispatch, Server.dispatch. destruct pkt as [|b rest]; [apply _|].
  destruct (Protocol.from_u8 _); [|apply _..]. destruct (Protocol.is_data _); [apply _|].
  destruct (unwrap_control self _) as [[inner pid]|e| |]; apply _.
Qed.
#[export] Instance runs_decrypt env arc pkt : RunsT (decrypt_and_forward env arc pkt) (Server.decrypt_and_forward env arc pkt).
Proof. unfold decrypt_and_forward, Server.decrypt_and_forward. same_shape. Qed.
#[export] Instance runs_worker env w : RunsT (worker_step env w) (Server.worker_step env w).
Proof.
  intros sh. unfold worker_step, Server.worker_step, recv_data. task_run.
  destruct (workers sh !! w) as [[arc [|raw rest]]|]; [done| |done]. apply runs_logged, _.
Qed.
#[export] Instance runs_tun_writer ok : RunsT (tun_writer_step ok) (Server.tun_writer_step ok).
Proof.
  intros sh. unfold tun_writer_step, Server.tun_writer_step, recv_tun. task_run.
  destruct (tun_open sh), (tun_queue sh) as [|p rest]; try done. destruct (is_ip_packet p), ok; done.
Qed.
#[export] Instance runs_forward pkt : RunsT (forward_tun_to_client pkt) (Server.forward_tun_to_client pkt).
Proof.
  intros sh. unfold forward_tun_to_client, Server.forward_tun_to_client. task_run.
  destruct (tun_route pkt sh) as [[addr|]|e| |]; try done. cbn [mbind option_bind]. task_run.
  destruct (sessions sh !! addr) as [arc|]; [|done]. apply runs_with_session. same_shape.
Qed.
#[export] Instance runs_tun_read pkt : RunsT (tun_read pkt) (Server.tun_read pkt).
Proof. unfold tun_read, Server.tun_read. destruct pkt; apply _. Qed.

(** Giving everything back, step by step. *)
Lemma alone_releases addr s sh :
  for_each id (releases s) (set_sessions (delete addr (sessions sh)) sh) = (Ok tt, forget addr s sh).
Proof. unfold releases, forget. by destruct (assigned_ip s) as [[]|], (assigned_ip_v6 s). Qed.
Lemma set_arcs_id arc s sh : arcs sh !! arc = Some s -> set_arcs (<[arc := s]> (arcs sh)) sh = sh.
Proof. intros E. rewrite insert_id by done. by destruct sh. Qed.
#[export] Instance runs_reap self env addr : RunsT (reap_one self env addr) (Server.reap_one self env addr).
Proof.
  intros sh. unfold reap_one, Server.reap_one. task_run. destruct (sessions sh !! addr) as [arc|]; [|done].
  task_run. cbn [alone locked]. destruct (arcs sh !! arc) as [s|] eqn:E; [|done]. cbn [local get pbind alone].
  rewrite set_arcs_id by done. destruct (_ <=? _); [|done]. task_run. etrans; [|apply alone_releases].
  apply runs_each_task. intros m. apply runs_atomically.
Qed.
Lemma on_shared_each ms s sh :
  for_each on_shared ms (s, sh) = ((for_each id ms sh).1, (s, (for_each id ms sh).2)).
Proof.
  revert sh. induction ms as [|m ms IH]; intros sh; [done|]. cbn [for_each]. msimp. cbn [on_shared id].
  destruct (m sh) as [[[]|e| |] sh2]; cbn; [apply IH|done..].
Qed.
Lemma forget_arcs addr s sh : arcs (forget addr s sh) = arcs sh.
Proof. unfold forget. by destruct (assigned_ip s) as [[]|], (assigned_ip_v6 s). Qed.
#[export] Instance runs_tcp_closed peer : RunsT (tcp_closed peer) (Server.tcp_closed peer).
Proof.
  intros sh. unfold tcp_closed, Server.tcp_closed, remove_session. task_run.
  destruct (sessions sh !! peer) as [arc|] eqn:Ep.
  2: { cbn. rewrite delete_id by done. by destruct sh. }
  rewrite (runs_with_session arc _ (s ← on_sess get; for_each on_shared (releases s))) by same_shape.
  unfold with_session. cbn [arcs set_sessions]. destruct (arcs sh !! arc) as [s|] eqn:E; [|done].
  rewrite bind_run. cbn [on_sess get]. rewrite on_shared_each, alone_releases. cbn [fst snd].
  by rewrite set_arcs_id by by rewrite forget_arcs.
Qed.
#[export] Instance runs_for_session addr p m : RunsL p m -> RunsT (for_session addr p) (Server.for_session addr m).
Proof.
  intros Hp sh. unfold for_session, Server.for_session. task_run. destruct (sessions sh !! addr); [|done].
  apply runs_logged, _.
Qed.

(** A send does not depend on the sessions: it may come after the unlock. *)
Lemma send_after_unlock t wire a sh :
  on_net (send t wire) (set_arcs a sh) = ((on_net (send t wire) sh).1, set_arcs a (on_net (send t wire) sh).2).
Proof. unfold on_net. cbn [net set_arcs]. by destruct (send t wire (net sh)). Qed.
Lemma send_sess_run wire s sh :
  Server.send_sess wire (s, sh) = ((on_net (send (transport s) wire) sh).1, (s, (on_net (send (transport s) wire) sh).2)).
Proof. unfold Server.send_sess. rewrite bind_run. cbn [on_sess gets]. by rewrite ServerInv.on_shared_run. Qed.
Lemma send_arcs t wire sh : arcs (on_net (send t wire) sh).2 = arcs sh.
Proof. unfold on_net. by destruct (send t wire (net sh)). Qed.

Ltac hsimp :=
  repeat first [progress msimp | rewrite ServerInv.on_sess_run | rewrite ServerInv.on_shared_run | rewrite send_sess_run].

#[export] Instance runs_ping addr : RunsT (ping_one addr) (Server.ping_one addr).
Proof.
  intros sh. unfold ping_one, Server.ping_one, Server.for_session. task_run.
  destruct (sessions sh !! addr) as [arc|]; [|done]. revert sh. apply runs_logged. intros sh. task_run.
  unfold with_session, send_ping. cbn [alone locked]. destruct (arcs sh !! arc) as [s|]; [|done]. hsimp.
  unfold build_ping. change (local get ≫= ?f) with (fun s => f s s). cbv beta.
  destruct (active_slot s) as [o|e| |]; [|done..]. change (local (lift (Ok o)) ≫= ?f) with (f o).
  hsimp. destruct (state s), o as [k|]; try done. hsimp.
  unfold local, mbind, Locked_bind, mret, Locked_ret. destruct (build_data_packet Protocol.PING_PAYLOAD s) as [[bs|e| |] s']; try done.
  hsimp. cbn [pbind gets alone]. task_run. rewrite send_after_unlock. by rewrite send_arcs.
Qed.

Lemma sends_after_unlock s wires a sh :
  let y := for_each (fun w => Server.logged (Server.send_sess w)) wires (s, sh) in
  alone (each_task (fun w => logged (atomically (on_net (send (transport s) w)))) wires) (set_arcs a sh) =
    (y.1, set_arcs a y.2.2) /\ y.2.1 = s /\ arcs y.2.2 = arcs sh.
Proof.
  revert sh. induction wires as [|w wires IH]; intros sh; [done|]. cbn [for_each each_task].
  rewrite alone_task_bind, bind_run. unfold logged at 1. rewrite alone_bind, alone_atomically, send_after_unlock.
  pose proof (send_arcs (transport s) w sh) as Ha. pose proof (send_sess_run w s sh) as Es.
  assert (Server.logged (Server.send_sess w) (s, sh) = match Server.send_sess w (s, sh) with
    | (Ok _, y) | (Err _, y) => (Ok tt, y) | (Panic, y) => (Panic, y) | (Diverge, y) => (Diverge, y) end) as -> by done.
  rewrite Es. destruct (on_net (send (transport s) w) sh) as [[[]|e| |] sh1]; try done;
    cbn [fst snd alone] in Ha |- *; destruct (IH sh1) as (-> & H1 & H2); rewrite <-Ha; done.
Qed.
#[export] Instance runs_retransmit self env addr : RunsT (retransmit_one self env addr) (Server.retransmit_one self env addr).
Proof.
  intros sh. unfold retransmit_one, Server.retransmit_one, Server.for_session. task_run.
  destruct (sessions sh !! addr) as [arc|]; [|done]. revert sh. apply runs_logged. intros sh. task_run.
  unfold with_session, retransmit. cbn [alone locked]. destruct (arcs sh !! arc) as [s|]; [|done]. hsimp.
  unfold collect_stale, local, mbind, Locked_bind, mret, Locked_ret.
  destruct (stale_unacked (now env) CONTROL_BASE_RTO s) as [[l|e| |] s1]; try done. cbn [pbind fst snd]. unfold M_bind.
  rewrite ServerInv.on_sess_run. destruct (wrap_all self env l s1) as [[ws|e| |] s2]; try done. cbn [pbind fst snd gets alone].
  destruct (sends_after_unlock s2 ws (<[arc:=s2]> (arcs sh)) sh) as (E & H1 & H2). rewrite E.
  destruct (for_each _ ws (s2, sh)) as [r [s3 sh3]]. cbn in *. by rewrite H1, H2.
Qed.

(** Run without interruption, the program of an event does what [handle] says,
    whatever the state. *)
Lemma program_alone self ev sh : alone (program self ev) sh = handle self ev sh.
Proof.
  destruct ev; cbn [program handle]; try apply (@runs_task _ _ _ _).
  unfold when_, rekey_one. destruct (0 <? _); [apply runs_for_session, _|done].
Qed.

End tasks.
End Tasks.
