(* ===== verification/Main.v ===== *)
(** * The program (src/src/main.rs, and [run] of src/src/server.rs)

    [main]: load the configuration, create the server, run it until Ctrl-C and
    drop it.  The command line is parsed by clap, so [main] starts from the
    parsed [Args]; setting up the log output is not modelled beyond the choice
    of the filter.  What happens while the server runs is a list of events of
    [System]; leaving [run], with or without an error, drops the server and
    with it the [NatGuard]. *)

From S2P Require Import Prelude Replay Buf Protocol Utf8 ControlChannel Primitives Crypto Prf.
From S2P Require Import Envelope TlsAuth TlsCrypt Text StaticKey Tls Certs Transport Config Masquerade.
From S2P Require Import TunDev Session SessionInv Server ServerInv System.

Module Main.
Import Transport Session Server ServerInv System.

Record Args := MkArgs {
  config : bytes;
  log : option bytes;
}.

(** [EnvFilter]: [--log], or else a valid [RUST_LOG], or else [info]. *)
Definition log_filter (args : Args) (rust_log : option bytes) : bytes :=
  match log args with
  | Some l => l
  | None => default (str "info") rust_log
  end.

Section main.
Context {B : BufApi} {C : CryptoApi} {T : TlsApi} {HA : HostApi} {TA : TunApi HA}.
Context {P : PemApi} {TC : TlsConfigApi T} {HX : StaticKey.HexApi} {TM : Config.TomlApi}.

Abbreviation World := (host * Shared)%type.
Definition on_host {A} (m : M host A) : M World A := fun '(h, sh) => let '(r, h') := m h in (r, (h', sh)).
Definition on_server {A} (m : M Shared A) : M World A := fun '(h, sh) => let '(r, sh') := m sh in (r, (h, sh')).

(** The device at the start of [run]. *)
Definition run_setup (self : VpnServer) : M host unit :=
  let c := cfg self in
  TunDev.create (Config.tun_name c) (Config.tun_ip c) (Config.tun_netmask c) (Config.tun_mtu c) ≫= fun _ =>
  match Config.tun_ip6 c with
  | Some (V6 v6) => TunDev.add_ipv6 (Config.tun_name c) v6 (Config.tun_prefix6 c)
  | _ => mret tt
  end.

(** [run]: [tcp_bind_ok] is the outcome of binding the TCP listener, [evs] what
    happens until Ctrl-C, [bye] what the notification of the clients reads. *)
Definition run (self : VpnServer) (tcp_bind_ok : bool) (evs : list event) (bye : Env) : M World unit :=
  on_host (run_setup self) ≫= fun _ =>
  on_server run_start ≫= fun _ =>
  match Config.listen_tcp (cfg self) with
  | Some _ => when_ (negb tcp_bind_ok) (bail BindTcpFailed)
  | None => mret tt
  end ≫= fun _ =>
  on_server (for_each (fun ev => logged (handle self ev)) evs) ≫= fun _ =>
  on_server (shutdown_clients self bye).

(** Dropping the server: the guard, when there is one.  Its errors are logged. *)
Definition drop_server (g : option Masquerade.NatGuard) : M host unit :=
  match g with
  | Some guard => Masquerade.drop_guard guard
  | None => mret tt
  end.

(** [server.run().await], at the end of which the server is dropped. *)
Definition run_and_drop (self : VpnServer) (sh : Shared) (g : option Masquerade.NatGuard)
    (tcp_bind_ok : bool) (evs : list event) (bye : Env) : M host unit := fun h =>
  let '(r, (h1, _)) := run self tcp_bind_ok evs bye (h, sh) in
  match drop_server g h1 with
  | (Ok _, h2) | (Err _, h2) => (r, h2)
  | (Panic, h2) => (Panic, h2)
  | (Diverge, h2) => (Diverge, h2)
  end.

Definition main (args : Args) (read_file : bytes -> option bytes) (bind_ok tcp_bind_ok : bool) (n : Net)
    (evs : list event) (bye : Env) : M host unit :=
  c ← lift (Config.load false (read_file (config args)));
  '(self, sh, g) ← Server.new c bind_ok read_file n;
  run_and_drop self sh g tcp_bind_ok evs bye.

(** ** Start-up *)

Lemma load_envelope_keys_Ok c rf tc ta :
  load_envelope_keys c rf = Ok (tc, ta) ->
  (is_Some tc <-> is_Some (Config.tls_crypt_key c)) /\
  (is_Some ta <-> Config.tls_crypt_key c = None /\ is_Some (Config.tls_auth_key c)).
Proof.
  unfold load_envelope_keys, is_Some. destruct (Config.tls_crypt_key c) as [path|].
  - destruct (StaticKey.parse_static_key_file _); rsimp; try done.
    destruct (TlsCrypt.from_static_key_server _); rsimp; try done. intros [= <- <-]. naive_solver.
  - destruct (Config.tls_auth_key c) as [path|]; [|intros [= <- <-]; naive_solver].
    destruct (StaticKey.parse_static_key_file _); rsimp; try done.
    destruct (TlsAuth.from_static_key_server _ _); rsimp; try done. intros [= <- <-]. naive_solver.
Qed.

Lemma find_default_returns ls : returns (Masquerade.find_default ls).
Proof.
  induction ls as [|l ls IH]; [done|]. cbn [Masquerade.find_default].
  destruct (Nat.ltb_spec (length (Text.split_whitespace l)) 8) as [|Hlen]; [done|].
  destruct (index_lt (Text.split_whitespace l) 1) as (c1 & -> & _); [lia|].
  destruct (index_lt (Text.split_whitespace l) 0) as (c0 & -> & _); [lia|]. rsimp. by case_bool_decide.
Qed.

Lemma detect_returns h : returns (Masquerade.detect_default_route_iface h).
Proof.
  unfold Masquerade.detect_default_route_iface, Text.read_to_string.
  destruct (proc_net_route h) as [t|]; [|done]. rsimp. destruct (Utf8.valid_utf8 t); [|done]. rsimp. apply find_default_returns.
Qed.

Context {HL : HostLaws HA}.

(** NAT set-up either leaves the host alone or is one call of
    [enable_masquerade]. *)
Lemma nat_setup_cases c h r h1 :
  nat_setup c h = (r, h1) ->
  match r with
  | Ok None => h1 = h /\ Config.enable_nat c = false
  | Ok (Some g) => Config.enable_nat c = true /\
      exists wan ip mask, Masquerade.enable_masquerade (Config.tun_name c) wan ip mask h = (Ok g, h1)
  | Err e => Config.enable_nat c = true /\
      (h1 = h \/ exists wan ip mask, Masquerade.enable_masquerade (Config.tun_name c) wan ip mask h = (Err e, h1))
  | _ => exists wan ip mask r', Masquerade.enable_masquerade (Config.tun_name c) wan ip mask h = (r', h1) /\ ~ returns r'
  end.
Proof.
  unfold nat_setup. destruct (Config.enable_nat c); [|by intros [= <- <-]]. msimp.
  pose proof (detect_returns h) as Hd.
  destruct (Config.wan_iface c) as [wan|]; [|destruct (Masquerade.detect_default_route_iface h) as [wan|e| |]];
    msimp; try done; [| |by intros [= <- <-]; auto].
  all: destruct (Config.tun_ip c) as [ip|ip]; msimp; [|by intros [= <- <-]; auto].
  all: destruct (Config.tun_netmask c) as [mask|mask]; msimp; [|by intros [= <- <-]; auto].
  all: destruct (Masquerade.enable_masquerade _ _ _ _ h) as [[g|e| |] h'] eqn:E; msimp; intros [= <- <-]; eauto 10.
Qed.

Lemma nat_setup_returns c h : returns (nat_setup c h).1.
Proof.
  destruct (nat_setup c h) as [r h1] eqn:E. apply nat_setup_cases in E.
  destruct r as [[g|]|e| |]; [done..| |]; destruct E as (wan & ip & mask & r' & E & Hr);
    pose proof (Masquerade.enable_returns (Config.tun_name c) wan ip mask h) as H; by rewrite E in H.
Qed.

(** What [VpnServer::new] does before it touches the host. *)
Definition new_checks (c : Config.ServerConfig) (bind_ok : bool) (read_file : bytes -> option bytes) :
    result (tls_config * (option TlsCrypt.TlsCryptKey * option TlsAuth.TlsAuthKey) * (Z * Z) * (option Z * option Z)) :=
  (if bind_ok then Ok tt else Err BindFailed) ≫= fun _ =>
  t ← Certs.build_server_config (read_file (Config.ca c)) (read_file (Config.cert c)) (read_file (Config.key c));
  keys ← load_envelope_keys c read_file;
  a ← match Config.client_pool_start c with V4 a => Ok a | V6 _ => Err PoolStartNotV4 end;
  e ← match Config.client_pool_end c with V4 e => Ok e | V6 _ => Err PoolEndNotV4 end;
  p6 ← pool_v6 c;
  Ok (t, keys, (a, e), p6).

(** The state [VpnServer::new] creates. *)
Definition fresh_shared (a : Z) (next6 : option Z) (n : Net) : Shared :=
  MkShared ∅ ∅ ∅ ∅ ∅ 1 a next6 ∅ ∅ 0 false false [] [] n.

Lemma new_run c bind_ok rf n h :
  Server.new c bind_ok rf n h =
  match new_checks c bind_ok rf with
  | Ok (t, (tc, ta), (a, e), (next6, end6)) =>
    match nat_setup c h with
    | (Ok g, h1) => (Ok (MkVpnServer c t e end6 tc ta, fresh_shared a next6 n, g), h1)
    | (Err e, h1) => (Err e, h1)
    | (Panic, h1) => (Panic, h1)
    | (Diverge, h1) => (Diverge, h1)
    end
  | Err e => (Err e, h)
  | Panic => (Panic, h)
  | Diverge => (Diverge, h)
  end.
Proof.
  unfold Server.new, new_checks. msimp. destruct bind_ok; msimp; [|done].
  destruct (Certs.build_server_config _ _ _) as [t| | |]; msimp; try done.
  destruct (load_envelope_keys c rf) as [[tc ta]| | |]; msimp; try done.
  destruct (Config.client_pool_start c); msimp; [|done]. destruct (Config.client_pool_end c); msimp; [|done].
  destruct (pool_v6 c) as [[n6 e6]| | |]; msimp; try done.
Qed.

Context {HXL : StaticKey.HexLaws HX}.

Lemma load_envelope_keys_returns c rf : returns (load_envelope_keys c rf).
Proof.
  unfold load_envelope_keys. destruct (Config.tls_crypt_key c) as [path|]; [|destruct (Config.tls_auth_key c) as [path|]; [|done]].
  - destruct (StaticKey.parse_file_cases (rf path)) as [[e ->]|(km & -> & Hl)]; [done|]. rsimp.
    unfold TlsCrypt.from_static_key_server. unfold StaticKey.STATIC_KEY_LEN in Hl.
    rewrite !slice_ok by (unfold TlsCrypt.SLOT, TlsCrypt.KEY_LEN; lia). done.
  - destruct (StaticKey.parse_file_cases (rf path)) as [[e ->]|(km & -> & Hl)]; [done|]. rsimp.
    unfold TlsAuth.from_static_key_server. unfold StaticKey.STATIC_KEY_LEN in Hl.
    destruct (Config.tls_auth_key_direction c) as [|[]|]; rsimp; try done;
      rewrite !slice_ok by (unfold TlsAuth.SLOT_LEN; lia); done.
Qed.

Lemma new_checks_returns c bind_ok rf : returns (new_checks c bind_ok rf).
Proof.
  unfold new_checks. destruct bind_ok; rsimp; [|done].
  pose proof (Certs.build_server_config_returns (rf (Config.ca c)) (rf (Config.cert c)) (rf (Config.key c))) as H1.
  pose proof (load_envelope_keys_returns c rf) as H2.
  destruct (Certs.build_server_config _ _ _) as [t| | |]; rsimp; try done.
  destruct (load_envelope_keys c rf); rsimp; try done. destruct (Config.client_pool_start c); rsimp; [|done].
  destruct (Config.client_pool_end c); rsimp; [|done]. unfold pool_v6. by repeat case_match.
Qed.

(** What [new] does to the host. *)
Lemma new_host c bind_ok rf n h r h1 :
  Server.new c bind_ok rf n h = (r, h1) ->
  match r with
  | Ok (_, _, None) => h1 = h
  | Ok (_, _, Some g) =>
      exists wan ip mask, Masquerade.enable_masquerade (Config.tun_name c) wan ip mask h = (Ok g, h1)
  | Err e => h1 = h \/ Config.enable_nat c = true /\
      exists wan ip mask, Masquerade.enable_masquerade (Config.tun_name c) wan ip mask h = (Err e, h1)
  | _ => False
  end.
Proof.
  rewrite new_run. pose proof (new_checks_returns c bind_ok rf) as Hret.
  destruct (new_checks c bind_ok rf) as [[[[t [tc ta]] [a e]] [n6 e6]]|e| |]; [|by intros [= <- <-]; left|done..].
  pose proof (nat_setup_returns c h) as Hr. destruct (nat_setup c h) as [res h2] eqn:En.
  apply nat_setup_cases in En. destruct res as [[g|]|e'| |]; cbn in Hr; try done; intros [= <- <-].
  - apply En.
  - apply En.
  - destruct En as [Hn [->|?]]; auto.
Qed.

(** C25: start-up is all or nothing.  [VpnServer::new] never panics.  When it
    succeeds, the socket is bound, the TLS configuration authenticates clients
    against exactly the certificates of the CA file (at least one), the server
    has a tls-crypt key if one is configured and otherwise a tls-auth key if
    that is configured (so at most one of them), it starts with no session and
    the whole pool, and it holds a NAT guard exactly if NAT is enabled.  When
    it fails, either the host is untouched, or everything but NAT had succeeded
    and [enable_masquerade] failed. *)
Theorem startup_exact c bind_ok rf n h r h1 :
  Server.new c bind_ok rf n h = (r, h1) ->
  match r with
  | Ok (self, sh, g) =>
    bind_ok = true /\ cfg self = c /\
    (exists chain k cas v, Certs.load_certs (rf (Config.ca c)) = Ok cas /\ cas <> [] /\
       verifier_build cas = Some v /\ with_single_cert v chain k = Some (tls_cfg self)) /\
    (is_Some (tls_crypt self) <-> is_Some (Config.tls_crypt_key c)) /\
    (is_Some (tls_auth self) <-> Config.tls_crypt_key c = None /\ is_Some (Config.tls_auth_key c)) /\
    sessions sh = ∅ /\ Config.client_pool_start c = V4 (next_pool_ip sh) /\
    Config.client_pool_end c = V4 (pool_end self) /\ (is_Some g <-> Config.enable_nat c = true)
  | Err e => h1 = h \/ Config.enable_nat c = true /\
      exists wan ip mask, Masquerade.enable_masquerade (Config.tun_name c) wan ip mask h = (Err e, h1)
  | _ => False
  end.
Proof.
  intros E. pose proof (new_host _ _ _ _ _ _ _ E) as Hh. destruct r as [[[self sh] g]| | |]; [|done..].
  clear Hh. revert E. rewrite new_run.
  destruct (new_checks c bind_ok rf) as [[[[t [tc ta]] [a e]] [n6 e6]]|e| |] eqn:Ec; [|done..].
  destruct (nat_setup c h) as [res h2] eqn:En. apply nat_setup_cases in En. destruct res as [g'|e'| |]; try done.
  intros [= <- <- <- <-]. unfold new_checks in Ec. destruct bind_ok; [|done]. rsimp in Ec.
  destruct (Certs.build_server_config _ _ _) as [t'| | |] eqn:Eb; rsimp in Ec; try done.
  destruct (load_envelope_keys c rf) as [[tc' ta']| | |] eqn:Ek; rsimp in Ec; try done.
  apply load_envelope_keys_Ok in Ek as [K1 K2].
  destruct (Config.client_pool_start c); rsimp in Ec; [|done]. destruct (Config.client_pool_end c); rsimp in Ec; [|done].
  destruct (pool_v6 c) as [p6| | |]; rsimp in Ec; try done. injection Ec as <- <- <- <- <- ->.
  apply Certs.build_server_config_Ok in Eb as (chain & k & cas & v & _ & _ & Hca & _ & Hv & Hs).
  split_and!; try done.
  - exists chain, k, cas, v. split; [done|]. split; [|done]. by apply Certs.load_certs_Ok in Hca as (f & _ & _ & ?).
  - cbn. destruct g' as [g|]; [destruct En as [Hn _]|destruct En as [_ Hn]]; rewrite Hn; unfold is_Some; naive_solver.
Qed.

(** ** The whole program *)

Context {TUL : TunLaws HA TA} {TML : Config.TomlLaws TM}.
Context {BL : BufLaws B} {CL : CryptoLaws C} {TL : TlsLaws T}.

Lemma run_setup_frame self h :
  let y := run_setup self h in
  returns y.1 /\ rules y.2 = rules h /\ proc_ip_forward y.2 = proc_ip_forward h.
Proof.
  unfold run_setup. msimp. set (c := cfg self).
  pose proof (TunDev.create_frame (Config.tun_name c) (Config.tun_ip c) (Config.tun_netmask c) (Config.tun_mtu c) h)
    as (H1 & H2 & H3).
  destruct (TunDev.create _ _ _ _ h) as [[u|e| |] h']; try done. cbn in H2, H3.
  destruct (Config.tun_ip6 c) as [[v4|v6]|]; try done.
  pose proof (TunDev.add_ipv6_frame (Config.tun_name c) v6 (Config.tun_prefix6 c) h') as (G1 & G2 & G3).
  split; [done|]. by rewrite G2, G3.
Qed.

Lemma run_events_safe self evs bye :
  Forall event_ok evs ->
  safe (shared_ok self) shared_le
    (for_each (fun ev => logged (handle self ev)) evs ≫= fun _ => shutdown_clients self bye).
Proof.
  intros Hevs. apply safe_bind; [apply _| |].
  - induction Hevs as [|ev evs Hev _ IH]; cbn [for_each]; [apply safe_ret; apply _|].
    apply safe_bind; [apply _|by apply logged_safe, handle_safe|done].
  - intros _ sh Hsh. unfold shutdown_clients, tick. msimp.
    apply safe_for_each; [apply _| |done]. intros addr. apply for_session_safe, shutdown_one_safe.
Qed.

Lemma on_server_bind {A1 A2} (m : M Shared A1) (f : A1 -> M Shared A2) x :
  (on_server m ≫= fun a => on_server (f a)) x = on_server (m ≫= f) x.
Proof. destruct x as [h sh]. rewrite bind_run. cbn [on_server]. rewrite bind_run. by destruct (m sh) as [[] ?]. Qed.

(** [run] returns and leaves the host as its set-up does. *)
Lemma run_frame self sh tcp_bind_ok evs bye h :
  shared_ok self (run_start sh).2 -> Forall event_ok evs ->
  let y := run self tcp_bind_ok evs bye (h, sh) in
  returns y.1 /\ rules y.2.1 = rules h /\ proc_ip_forward y.2.1 = proc_ip_forward h.
Proof.
  intros Hsh Hevs. unfold run. rewrite bind_run. cbn [on_host].
  pose proof (run_setup_frame self h) as (R1 & R2 & R3).
  destruct (run_setup self h) as [[u|e| |] h1]; try done. cbn in R2, R3. rewrite bind_run. cbn [on_server].
  change (run_start sh) with (@Ok unit tt, (run_start sh).2). set (sh1 := (run_start sh).2) in *. clearbody sh1.
  cbn beta iota. rewrite bind_run.
  assert (let y := (match Config.listen_tcp (cfg self) with
    | Some _ => when_ (negb tcp_bind_ok) (bail BindTcpFailed) | None => mret tt end : M World unit) (h1, sh1) in
    y = (Ok tt, (h1, sh1)) \/ y = (Err BindTcpFailed, (h1, sh1))) as [-> | ->].
  { destruct (Config.listen_tcp _), tcp_bind_ok; auto. }
  2: done.
  rewrite on_server_bind. destruct (run_events_safe self evs bye Hevs sh1 Hsh) as (Hr & _). cbn [on_server].
  by destruct ((for_each (fun ev => logged (handle self ev)) evs ≫= fun _ => shutdown_clients self bye) sh1) as [r sh2].
Qed.

Lemma load_pool file c : Config.load false file = Ok c -> Config.ip_ok (Config.client_pool_start c).
Proof.
  unfold Config.load. destruct (Text.read_to_string _ _) as [t| | |]; rsimp; try done.
  destruct (Config.toml_table t) as [raw|] eqn:E; rsimp; [|done].
  destruct (Config.eq_ignore_ascii_case _ _); rsimp; [|done]. intros [= <-]. by apply Config.toml_pool_start in E.
Qed.

Lemma load_returns file : returns (Config.load false file).
Proof.
  unfold Config.load, Text.read_to_string. destruct file as [t|]; rsimp; [|done].
  destruct (Utf8.valid_utf8 t); rsimp; [|done]. destruct (Config.toml_table t); rsimp; [|done].
  by destruct (Config.eq_ignore_ascii_case _ _).
Qed.

(** A server that [new] created can be run. *)
Lemma new_runs c bind_ok rf n h self sh g h1 :
  Config.ip_ok (Config.client_pool_start c) -> Server.new c bind_ok rf n h = (Ok (self, sh, g), h1) ->
  shared_ok self (run_start sh).2.
Proof.
  intros Hip E. apply initial_ok. exists HA, P, TC, HX, c, bind_ok, rf, n, h, g, h1, sh.
  split; [done|]. split; [done|]. revert E. rewrite new_run.
  destruct (new_checks c bind_ok rf) as [[[[t [tc ta]] [a e]] [n6 e6]]|e| |] eqn:Ec; try done.
  destruct (nat_setup c h) as [[] ?]; try done. intros [= _ <- _ _]. cbn. unfold new_checks in Ec.
  destruct bind_ok; [|done]. rsimp in Ec. destruct (Certs.build_server_config _ _ _); rsimp in Ec; try done.
  destruct (load_envelope_keys c rf); rsimp in Ec; try done. destruct (Config.client_pool_start c); rsimp in Ec; [|done].
  destruct (Config.client_pool_end c); rsimp in Ec; [|done]. destruct (pool_v6 c); rsimp in Ec; try done.
  by simplify_eq.
Qed.

(** NAT set-up that failed: nothing but [/proc] was tried, or the rule that
    [iptables] did not append and those after it are missing while the ones
    before it, and forwarding, stay. *)
Definition half_way (own : list rule) (e : error) (h h' : host) : Prop :=
  (e = IpForwardIo /\ rules h' = rules h /\ proc_ip_forward h' = proc_ip_forward h) \/
  exists k rl, own !! k = Some rl /\ e = IptablesFailed (ipt_args (str "-A") rl) /\
    Masquerade.others own (rules h') = Masquerade.others own (rules h) /\
    (Masquerade.deletes_work -> rules h' = Masquerade.remove_rules own (rules h) ++ take k own) /\
    Masquerade.read_ip_forward h' = Ok true.

Lemma enable_half_way tun wan ip mask h e h1 :
  Masquerade.enable_masquerade tun wan ip mask h = (Err e, h1) ->
  half_way (Masquerade.nat_rules tun wan (Masquerade.subnet_to_cidr ip mask)) e h h1.
Proof.
  intros E. destruct (Masquerade.enable_outcome tun wan ip mask h) as (res & h2 & E2 & Hr). rewrite E in E2.
  injection E2 as <- <-. destruct Hr as [([= ->] & R & F)|(l & k & [T1 T2] & R & F & rl & Hk & ->)]; [by left|right].
  exists k, rl. split; [done|]. split; [done|]. split; [|split; [|done]].
  - rewrite R, Masquerade.others_app, T1, (Masquerade.others_own _ (take k _)), app_nil_r; [done|].
    intros x Hx. by eapply elem_of_take in Hx as (i & ? & _); apply list_elem_of_lookup; eexists.
  - intros Hw. by rewrite R, (T2 Hw).
Qed.

(** C12: the program gives the host back.  Whatever is installed on the host and
    whatever the configuration, the files and the network do and happens while
    it runs, [main] returns.  If the configuration cannot be loaded, or NAT is not
    enabled, or [new] fails before NAT set-up, the iptables rules and the
    forwarding switch are untouched.  If [new] has set up NAT, then however the
    program ends, with an error of [run] as well, the host is given back: rules
    of others are as before; if deleting rules works, one stale copy of each of
    the three rules is gone when there was one, and the rules are exactly as
    before when there was none; if [/proc] is writable and was readable,
    forwarding is as before.  If NAT set-up itself fails, [main] fails with its
    error and what it did so far stays: forwarding on, and the rules before the
    one that could not be appended. *)
Theorem main_restores_host args rf bind_ok tcp_bind_ok n evs bye h :
  Forall event_ok evs ->
  exists r h', main args rf bind_ok tcp_bind_ok n evs bye h = (r, h') /\ returns r /\
  match Config.load false (rf (config args)) with
  | Ok c =>
    match Server.new c bind_ok rf n h with
    | (Ok (_, _, None), _) => rules h' = rules h /\ proc_ip_forward h' = proc_ip_forward h
    | (Ok (_, _, Some g), _) => Masquerade.given_back (Masquerade.guard_rules g) h h'
    | (Err e, _) => r = Err e /\
        (h' = h \/ Config.enable_nat c = true /\
         exists wan cidr, half_way (Masquerade.nat_rules (Config.tun_name c) wan cidr) e h h')
    | _ => False
    end
  | Err e => r = Err e /\ h' = h
  | _ => False
  end.
Proof.
  intros Hevs. unfold main. rewrite bind_run. cbn [lift]. pose proof (load_returns (rf (config args))) as Hl.
  destruct (Config.load false _) as [c|e| |] eqn:Ec; [|by eexists _, _|done..].
  apply load_pool in Ec. rewrite bind_run. destruct (Server.new c bind_ok rf n h) as [r h1] eqn:En.
  pose proof (new_host _ _ _ _ _ _ _ En) as Hh. destruct r as [[[self sh] g]|e| |]; [| |done..].
  2: { eexists _, _. split; [done|]. split; [done|]. split; [done|]. destruct Hh as [-> |(Hn & wan & ip & mask & E)]; [by left|].
       right. split; [done|]. eexists wan, _. by eapply enable_half_way. }
  cbn beta iota. unfold run_and_drop. pose proof (new_runs _ _ _ _ _ _ _ _ _ Ec En) as Hok.
  destruct (run_frame self sh tcp_bind_ok evs bye h1 Hok Hevs) as (Hr & R1 & F1).
  destruct (run self tcp_bind_ok evs bye (h1, sh)) as [r [h2 sh2]]. cbn in Hr, R1, F1.
  destruct g as [g|]; cbn [drop_server].
  - destruct Hh as (wan & ip & mask & E).
    destruct (Masquerade.enable_drop_given_back _ _ _ _ _ _ _ _ E R1) as (h3 & -> & Hg). by exists r, h3.
  - subst h1. by exists r, h2.
Qed.

End main.

End Main.
