(* ===== verification/Addressing.v ===== *)
(** * Tunnel addresses (src/src/server.rs)

    Who owns which tunnel address, over whole runs of one handler at a time: an
    abstract table of leases with one labelled transition per event, the
    invariant that ties the server's routes and pools to its sessions, and the
    proof that every event is the transition of the table that its label
    allows. *)

From S2P Require Import Prelude Replay Buf Protocol Utf8 ControlChannel Primitives Crypto Prf.
From S2P Require Import Envelope TlsAuth TlsCrypt Text StaticKey Tls Certs Transport Config Masquerade.
From S2P Require Import Session SessionInv Server Frames ServerInv System.

#[export] Instance IpAddr_countable : Countable IpAddr.
Proof.
  refine (inj_countable' (fun a => match a with V4 v => inl v | V6 v => inr v end)
    (fun x => match x with inl v => V4 v | inr v => V6 v end) _).
  by intros [].
Defined.

Module Addressing.
Import Transport Session SessionInv Server Frames ServerInv System.

(** ** The specification: a table of leases *)

(** What a connected client holds: its IPv4 and its IPv6 tunnel address. *)
Definition Holding : Type := option IpAddr * option Z.

Record Leases := MkLeases {
  holders : gmap SocketAddr Holding;
  owner : gmap IpAddr SocketAddr;
}.

Inductive action :=
  | Stay
  | Join (addr : SocketAddr)
  | Grant (addr : SocketAddr) (ip : Z) (ip6 : option Z)
  | Leave (addr : SocketAddr).

Definition lease6 (addr : SocketAddr) (ip6 : option Z) (m : gmap IpAddr SocketAddr) : gmap IpAddr SocketAddr :=
  match ip6 with Some i => <[V6 i := addr]> m | None => m end.
(** The addresses of [h] are nobody's. *)
Definition unlease (h : Holding) (m : gmap IpAddr SocketAddr) : gmap IpAddr SocketAddr :=
  let m := match h.1 with Some (V4 ip) => delete (V4 ip) m | _ => m end in
  match h.2 with Some ip6 => delete (V6 ip6) m | None => m end.

(** One transition.  A client that joins holds nothing; an address is granted to
    a connected client and only while nobody owns it; a client that leaves gives
    back what it holds; nothing else changes.  [contested] addresses, those that
    the configuration both pins to a client and puts into the pool, may be
    granted over another owner. *)
Inductive lease_step (contested : Z -> Prop) : action -> Leases -> Leases -> Prop :=
  | LStay l : lease_step contested Stay l l
  | LJoin addr l : holders l !! addr = None ->
      lease_step contested (Join addr) l (MkLeases (<[addr := (None, None)]> (holders l)) (owner l))
  | LGrant addr ip ip6 h l : holders l !! addr = Some h ->
      owner l !! V4 ip = None \/ contested ip ->
      (forall i, ip6 = Some i -> owner l !! V6 i = None) ->
      lease_step contested (Grant addr ip ip6) l
        (MkLeases (<[addr := (Some (V4 ip), match ip6 with Some i => Some i | None => h.2 end)]> (holders l))
                  (lease6 addr ip6 (<[V4 ip := addr]> (owner l))))
  | LLeave addr h l : holders l !! addr = Some h ->
      lease_step contested (Leave addr) l (MkLeases (delete addr (holders l)) (unlease h (owner l))).

(** A control packet can make its sender, and nobody else, join or get
    addresses; only the reaper and the end of a TCP stream make the client they
    are about leave; no other event touches the table. *)
Definition causes (ev : event) (act : action) : Prop :=
  match act with
  | Stay => True
  | Join addr | Grant addr _ _ => exists env tr pkt, ev = EvPacket env addr tr pkt
  | Leave addr => (exists env, ev = EvReap env addr) \/ ev = EvTcpClosed addr
  end.

(** What the specification promises: an address that is not contested passes to
    another client only through a moment in which nobody owns it. *)
Lemma lease_exclusive contested act l l' ip a b :
  lease_step contested act l l' -> owner l !! ip = Some a -> owner l' !! ip = Some b ->
  (forall v, ip = V4 v -> ~ contested v) -> b = a.
Proof.
  intros [| | addr v4 v6 h l0 Hh H4 H6 | addr h l0 Hh] Ha; cbn [owner]; try congruence.
  - intros Hb Hc. unfold lease6 in Hb. destruct v6 as [i|].
    + apply lookup_insert_Some in Hb as [[<- <-]|[_ Hb]]; [by rewrite H6 in Ha|].
      apply lookup_insert_Some in Hb as [[<- <-]|[_ Hb]]; [|congruence]. destruct H4 as [H4|H4]; [congruence|by apply Hc in H4].
    + apply lookup_insert_Some in Hb as [[<- <-]|[_ Hb]]; [|congruence]. destruct H4 as [H4|H4]; [congruence|by apply Hc in H4].
  - intros Hb _. assert (owner l0 !! ip = Some b) as E; [|congruence]. revert Hb. unfold unlease.
    destruct h.1 as [[v|v]|], h.2 as [i|]; cbn; rewrite ?lookup_delete_Some; naive_solver.
Qed.

Section addressing.
Context {B : BufApi} {C : CryptoApi} {T : TlsApi}.

Definition holding (s : Session) : Holding := (assigned_ip s, assigned_ip_v6 s).
(** What the client at [a] holds in the state [sh]. *)
Definition hold (sh : Shared) (a : SocketAddr) : option Holding :=
  holding <$> (sessions sh !! a ≫= fun arc => arcs sh !! arc).

(** The table that the server stands for: the connected clients with the
    addresses in their sessions, and the routes. *)
Record represents (sh : Shared) (l : Leases) : Prop := {
  rep_holders : forall a, holders l !! a = hold sh a;
  rep_v4 : forall ip, owner l !! V4 ip = routes sh !! ip;
  rep_v6 : forall ip, owner l !! V6 ip = routes_v6 sh !! ip;
}.

(** Every state stands for exactly one table. *)
Definition leases (sh : Shared) : Leases :=
  MkLeases (omap (fun arc => holding <$> arcs sh !! arc) (sessions sh))
           (kmap V4 (routes sh) ∪ kmap V6 (routes_v6 sh)).
Lemma leases_represents sh : represents sh (leases sh).
Proof.
  constructor; cbn; intros x.
  - rewrite lookup_omap. unfold hold. destruct (sessions sh !! x); [done|]. done.
  - rewrite lookup_union_l; [by rewrite lookup_kmap by congruence|].
    apply lookup_kmap_None; [congruence|done].
  - rewrite lookup_union_r; [by rewrite lookup_kmap by congruence|].
    apply lookup_kmap_None; [congruence|done].
Qed.
Lemma represents_leases sh l : represents sh l -> l = leases sh.
Proof.
  intros [R1 R2 R3]. destruct (leases_represents sh) as [L1 L2 L3]. destruct l as [h o], (leases sh) as [h' o']. cbn in *.
  f_equal; apply map_eq; [intros a; by rewrite R1, L1|]. intros [v|v]; [by rewrite R2, L2|by rewrite R3, L3].
Qed.

(** ** The invariant *)

(** A static address of the configuration. *)
Definition static (self : VpnServer) (ip : Z) : Prop :=
  exists cn c, Config.client_configs (cfg self) !! cn = Some c /\ Config.assign_ip c = Some (V4 ip).
(** One that also lies in the pool, which starts at [lo]. *)
Definition contested (self : VpnServer) (lo ip : Z) : Prop := static self ip /\ lo <= ip <= pool_end self.

(** The configured pools end below the last address of their family. *)
Record pools_ok (self : VpnServer) : Prop := {
  po_end : pool_end self < 2 ^ 32 - 1;
  po_end6 : forall e, pool_end_v6 self = Some e -> e < 2 ^ 128 - 1;
}.

(** [h a]: what the client at [a] holds. *)
Record addr_inv (self : VpnServer) (lo : Z) (h : SocketAddr -> option Holding) (sh : Shared) : Prop := {
  ai_inj : forall a1 a2 arc, sessions sh !! a1 = Some arc -> sessions sh !! a2 = Some arc -> a1 = a2;
  ai_route : forall a ip o6, h a = Some (Some (V4 ip), o6) -> ~ contested self lo ip -> routes sh !! ip = Some a;
  ai_route6 : forall a o4 ip, h a = Some (o4, Some ip) -> routes_v6 sh !! ip = Some a;
  ai_issued : forall ip a, routes sh !! ip = Some a -> lo <= ip < next_pool_ip sh \/ static self ip;
  ai_issued6 : forall ip a, routes_v6 sh !! ip = Some a -> exists n, next_pool_ip_v6 sh = Some n /\ 0 <= ip < n;
  ai_next : 0 <= lo <= next_pool_ip sh;
  ai_next6 : forall n, next_pool_ip_v6 sh = Some n -> uint_ok 128 n;
}.

Definition sys_ok self lo sh : Prop := addr_inv self lo (hold sh) sh.

(** While the session of [addr] is locked. *)
Definition hold_locked (addr : SocketAddr) (x : Session * Shared) (a : SocketAddr) : option Holding :=
  if decide (a = addr) then Some (holding x.1) else hold x.2 a.
Definition ctx_addr self lo addr (x : Session * Shared) : Prop := addr_inv self lo (hold_locked addr x) x.2.

Lemma hold_locked_self addr x : hold_locked addr x addr = Some (holding x.1).
Proof. unfold hold_locked. by rewrite decide_True. Qed.
Lemma hold_locked_other addr x a : a <> addr -> hold_locked addr x a = hold x.2 a.
Proof. intros. unfold hold_locked. by rewrite decide_False. Qed.

Lemma addr_inv_ext self lo h h' sh sh' :
  (forall a, h' a = h a) -> sessions sh' = sessions sh -> routes sh' = routes sh -> routes_v6 sh' = routes_v6 sh ->
  next_pool_ip sh' = next_pool_ip sh -> next_pool_ip_v6 sh' = next_pool_ip_v6 sh ->
  addr_inv self lo h sh -> addr_inv self lo h' sh'.
Proof.
  intros Eh E1 E2 E3 E4 E5 []. constructor; rewrite ?E1, ?E2, ?E3, ?E4, ?E5; try assumption;
    intros a ? ?; rewrite Eh; eauto.
Qed.

Lemma quiet_hold addr x y : quiet x y -> forall a, hold_locked addr y a = hold_locked addr x a.
Proof.
  intros [[Q1 Q2 _] [n E]] a. unfold hold_locked, holding. case_decide; [by rewrite Q1, Q2|].
  rewrite E. done.
Qed.
Lemma quiet_ctx self lo addr x y : quiet x y -> ctx_addr self lo addr x -> ctx_addr self lo addr y.
Proof.
  intros Q. pose proof (quiet_hold addr x y Q) as Hh. destruct Q as [_ [n E]]. unfold ctx_addr. rewrite E.
  by apply addr_inv_ext; try done; intros a; rewrite <-Hh, E.
Qed.

Section run.
Context {self : VpnServer} {lo : Z} (Hpool : pools_ok self).
Abbreviation ctx_addr := (ctx_addr self lo).
Abbreviation sys_ok := (sys_ok self lo).
Abbreviation contested := (contested self lo).

(** ** Assigning an address *)

(** The handler has granted [ip], and [ip6] if there is one, to the session of
    [addr]. *)
Record granted (addr : SocketAddr) (ip : Z) (ip6 : option Z) (x y : Session * Shared) : Prop := {
  gr_free : routes x.2 !! ip = None \/ contested ip;
  gr_issued : lo <= ip < next_pool_ip y.2 \/ static self ip;
  gr_next : next_pool_ip x.2 <= next_pool_ip y.2;
  gr_ip : assigned_ip y.1 = Some (V4 ip);
  gr_routes : routes y.2 = <[ip := addr]> (routes x.2);
  gr_v6 : match ip6 with
          | None => assigned_ip_v6 y.1 = assigned_ip_v6 x.1 /\ routes_v6 y.2 = routes_v6 x.2 /\
              next_pool_ip_v6 y.2 = next_pool_ip_v6 x.2
          | Some i => assigned_ip_v6 y.1 = Some i /\ routes_v6 y.2 = <[i := addr]> (routes_v6 x.2) /\
              next_pool_ip_v6 x.2 = Some i /\ next_pool_ip_v6 y.2 = Some (i + 1) /\ i + 1 < 2 ^ 128
          end;
  gr_sessions : sessions y.2 = sessions x.2;
  gr_arcs : arcs y.2 = arcs x.2;
}.

(** Nothing, or one grant. *)
Definition outcome (addr : SocketAddr) (x y : Session * Shared) : Prop :=
  quiet x y \/ exists ip ip6, granted addr ip ip6 x y.

Lemma granted_quiet_l addr ip ip6 x y z : quiet x y -> granted addr ip ip6 y z -> granted addr ip ip6 x z.
Proof.
  intros [[Q1 Q2 _] [n E]] []. rewrite E in *. cbn in *. constructor; try done.
  destruct ip6; [done|]. by rewrite <-Q2.
Qed.
Lemma granted_quiet_r addr ip ip6 x y z : granted addr ip ip6 x y -> quiet y z -> granted addr ip ip6 x z.
Proof.
  intros [] [[Q1 Q2 _] [n E]]. constructor; rewrite ?E, ?Q1, ?Q2; try done.
Qed.
Lemma outcome_quiet_l addr x y z : quiet x y -> outcome addr y z -> outcome addr x z.
Proof. intros Q [Q'|(ip & ip6 & G)]; [left; by etrans|right]. exists ip, ip6. by eapply granted_quiet_l. Qed.
Lemma outcome_quiet_r addr x y z : outcome addr x y -> quiet y z -> outcome addr x z.
Proof. intros [Q|(ip & ip6 & G)] Q'; [left; by etrans|right]. exists ip, ip6. by eapply granted_quiet_r. Qed.

(** A grant keeps the invariant. *)
Lemma granted_free6 addr ip i x y :
  ctx_addr addr x -> granted addr ip (Some i) x y -> routes_v6 x.2 !! i = None.
Proof.
  intros Hx G. destruct (gr_v6 _ _ _ _ _ G) as (_ & _ & E & _). destruct (routes_v6 x.2 !! i) eqn:Er; [|done].
  apply (ai_issued6 _ _ _ _ Hx) in Er as (n & En & Hlt). rewrite E in En. injection En as <-. lia.
Qed.
Lemma granted_hold addr ip ip6 x y a :
  granted addr ip ip6 x y -> a <> addr -> hold_locked addr y a = hold_locked addr x a.
Proof.
  intros G Hne. rewrite !hold_locked_other by done. unfold hold.
  by rewrite (gr_sessions _ _ _ _ _ G), (gr_arcs _ _ _ _ _ G).
Qed.
Lemma granted_ctx addr ip ip6 x y : ctx_addr addr x -> granted addr ip ip6 x y -> ctx_addr addr y.
Proof.
  intros Hx G. pose proof (granted_hold addr ip ip6 x y) as Hh.
  assert (forall i, ip6 = Some i -> routes_v6 x.2 !! i = None) as Hf6 by (intros i ->; by eapply granted_free6).
  destruct G as [Hfree Hiss Hnext Eip Er E6 Es Ea]. destruct Hx as [Hinj Hr Hr6 Hi Hi6 Hx Hx6].
  constructor; rewrite ?Es; try done.
  - intros a v o6 Ev Hc. rewrite Er. destruct (decide (a = addr)) as [->|Hne].
    + rewrite hold_locked_self in Ev. unfold holding in Ev. rewrite Eip in Ev. injection Ev as <- _. by rewrite lookup_insert_eq.
    + rewrite Hh in Ev by done. pose proof (Hr a v o6 Ev Hc) as Hv. rewrite lookup_insert_ne; [done|].
      intros ->. destruct Hfree; congruence.
  - intros a o4 v Ev. destruct (decide (a = addr)) as [->|Hne].
    + rewrite hold_locked_self in Ev. unfold holding in Ev. injection Ev as _ Ev. destruct ip6 as [i|].
      * destruct E6 as (E6 & -> & _). rewrite E6 in Ev. injection Ev as <-. by rewrite lookup_insert_eq.
      * destruct E6 as (E6 & -> & _). apply (Hr6 addr (assigned_ip x.1)). rewrite hold_locked_self. unfold holding. by rewrite <-E6, Ev.
    + rewrite Hh in Ev by done. pose proof (Hr6 a o4 v Ev) as Hv. destruct ip6 as [i|].
      * destruct E6 as (_ & -> & _). rewrite lookup_insert_ne; [done|]. intros ->. by rewrite Hf6 in Hv.
      * by destruct E6 as (_ & -> & _).
  - intros v a. rewrite Er. intros [[<- <-]|[_ H]]%lookup_insert_Some; [done|]. destruct (Hi _ _ H); [left; lia|by right].
  - intros v a. destruct ip6 as [i|].
    + destruct E6 as (_ & -> & E & -> & _). pose proof (Hx6 i E) as Hb. unfold uint_ok in Hb.
      intros [[<- <-]|[_ H]]%lookup_insert_Some; (eexists; split; [done|]); [lia|].
      destruct (Hi6 _ _ H) as (n & En & Hlt). rewrite E in En. injection En as <-. lia.
    + destruct E6 as (_ & -> & ->). apply Hi6.
  - lia.
  - intros n. destruct ip6 as [i|].
    + destruct E6 as (_ & _ & E & -> & Hlt). intros [= <-]. pose proof (Hx6 i E). unfold uint_ok in *. lia.
    + destruct E6 as (_ & _ & ->). apply Hx6.
Qed.
Lemma outcome_ctx addr x y : ctx_addr addr x -> outcome addr x y -> ctx_addr addr y.
Proof. intros Hx [Q|(ip & ip6 & G)]; [by eapply quiet_ctx|by eapply granted_ctx]. Qed.

Lemma choose_ip_cases s sh r sh1 :
  let cc := client_cn s ≫= fun cn => Config.client_configs (cfg self) !! cn in
  choose_ip self cc sh = (r, sh1) ->
  match r with
  | Ok ip => (sh1 = sh /\ static self ip /\ routes sh !! ip = None) \/
      (ip = next_pool_ip sh /\ ip <= pool_end self /\ sh1 = set_next_pool_ip (wrapping_add 32 ip 1) sh)
  | _ => sh1 = sh
  end.
Proof.
  cbv zeta. unfold choose_ip. destruct (client_cn s) as [cn|] eqn:Ecn; cbn [mbind option_bind];
    [destruct (Config.client_configs (cfg self) !! cn) as [c|] eqn:Ec; cbn [mbind option_bind];
     [destruct (Config.assign_ip c) as [[v4|v6]|] eqn:Ea|]|].
  1: { msimp. case_bool_decide as Hu; intros [= <- <-]; [done|]. left. split; [done|]. split; [by exists cn, c|].
       by apply eq_None_not_Some. }
  1: by intros [= <- <-].
  all: unfold allocate_ip; destruct (Z.ltb_spec (pool_end self) (next_pool_ip sh)); intros [= <- <-]; [done|by right].
Qed.

(** The address the handler has chosen can be granted. *)
Lemma chosen_granted addr s sh ip sh1 :
  let cc := client_cn s ≫= fun cn => Config.client_configs (cfg self) !! cn in
  ctx_addr addr (s, sh) -> choose_ip self cc sh = (Ok ip, sh1) ->
  granted addr ip None (s, sh)
    (set_assigned_ip (Some (V4 ip)) s, set_routes (<[ip := addr]> (routes sh1)) sh1).
Proof.
  cbv zeta. intros Hx E%choose_ip_cases. pose proof (ai_next _ _ _ _ Hx) as Hn. cbn in Hn.
  destruct E as [(-> & Hst & Hf)|(-> & Hle & ->)].
  - constructor; cbn; auto; lia.
  - pose proof (po_end _ Hpool).
    assert (wrapping_add 32 (next_pool_ip sh) 1 = next_pool_ip sh + 1) as -> by (apply wrap_small; unfold uint_ok; lia).
    constructor; cbn; auto; try lia. destruct (routes sh !! next_pool_ip sh) as [a|] eqn:Er; [right|by left].
    apply (ai_issued _ _ _ _ Hx) in Er as [?|?]; cbn in *; [lia|]. split; [done|lia].
Qed.

(** Answering [PUSH_REQUEST]: nothing changes, or one grant; after success the
    session is established. *)
Lemma push_outcome addr x r y :
  ctx_addr addr x -> handle_push_request self addr x = (r, y) ->
  quiet x y \/ exists ip ip6, granted addr ip ip6 x y /\ (forall u, r = Ok u -> state y.1 = Established).
Proof.
  destruct x as [s sh]. intros Hx. unfold handle_push_request. msimp. rewrite on_sess_run. msimp. rewrite on_shared_run.
  destruct (choose_ip self _ sh) as [r1 sh1] eqn:E. cbn [fst snd]. destruct r1 as [ip|e| |].
  2-4: apply choose_ip_cases in E as ->; intros [= <- <-]; left; reflexivity.
  apply (chosen_granted addr) in E as G; [|done]. rewrite bind_run, on_sess_run. cbn [modify fst snd].
  rewrite bind_run, on_shared_run. cbn [modify fst snd]. rewrite bind_run, on_shared_run.
  pose proof (granted_ctx _ _ _ _ _ Hx G) as Hx1.
  revert G Hx1. generalize (set_assigned_ip (Some (V4 ip)) s) (set_routes (<[ip := addr]> (routes sh1)) sh1).
  intros s1 sh2 G Hx1. unfold allocate_ip_v6.
  assert (forall reply z r y, (on_sess (on_tls (Tls.send_plaintext reply)) ≫= fun _ => on_sess (modify (set_state Established))) z
    = (r, y) -> quiet z y /\ forall u, r = Ok u -> state y.1 = Established) as Htail.
  { intros reply z r0 y0 E0. split.
    - assert (Moves quiet (on_sess (on_tls (Tls.send_plaintext reply)) ≫= fun _ => on_sess (modify (set_state Established)))) as Hm
        by apply _. specialize (Hm z). by rewrite E0 in Hm.
    - intros u ->. revert E0. destruct z as [s0 h0]. msimp. rewrite on_sess_run.
      destruct (on_tls _ s0) as [[] s2]; cbn; try done. by intros [= _ <-]. }
  assert (forall reply z ip6, granted addr ip ip6 (s, sh) z ->
    (on_sess (on_tls (Tls.send_plaintext reply)) ≫= fun _ => on_sess (modify (set_state Established))) z = (r, y) ->
    quiet (s, sh) y \/ exists ip ip6, granted addr ip ip6 (s, sh) y /\ (forall u, r = Ok u -> state y.1 = Established)) as Hdone.
  { intros reply z ip6 Gz [Q Hst]%Htail. right. exists ip, ip6. split; [by eapply granted_quiet_r|done]. }
  destruct (next_pool_ip_v6 sh2) as [ip6|] eqn:E6; [|by apply (Hdone _ _ None)].
  destruct (pool_end_v6 self) as [e|] eqn:Ee; [|intros [= <- <-]; right; by exists ip, None].
  destruct (Z.ltb_spec e ip6); [intros [= <- <-]; right; by exists ip, None|]. cbn [fst snd]. rewrite bind_run. msimp.
  rewrite on_sess_run. cbn [modify fst snd]. msimp. rewrite on_shared_run. cbn [modify fst snd]. apply (Hdone _ _ (Some ip6)).
  pose proof (po_end6 _ Hpool e Ee). pose proof (ai_next6 _ _ _ _ Hx1 ip6 E6) as Hb. cbn in Hb. unfold uint_ok in Hb.
  assert (wrapping_add 128 ip6 1 = ip6 + 1) as -> by (apply wrap_small; unfold uint_ok; lia).
  destruct G as [G1 G2 G3 G4 G5 (G6 & G7 & G8) G9 G10]. cbn in *. constructor; cbn; try done.
  rewrite G7. split_and!; try done; [congruence|lia].
Qed.

(** Code that grants at most once. *)
Definition grants {A} (addr : SocketAddr) (m : M (Session * Shared) A) : Prop :=
  forall x, ctx_addr addr x -> outcome addr x (m x).2.

Lemma grants_quiet {A} addr (m : M (Session * Shared) A) : Moves quiet m -> grants addr m.
Proof. intros Hm x _. left. apply Hm. Qed.
Lemma grants_bind_l {X Y} addr (m : M (Session * Shared) X) (f : X -> M (Session * Shared) Y) :
  Moves quiet m -> (forall a, grants addr (f a)) -> grants addr (m ≫= f).
Proof.
  intros Hm Hf x Hx. specialize (Hm x). rewrite bind_run. destruct (m x) as [[a|e| |] y]; cbn in *; try by left.
  eapply outcome_quiet_l; [exact Hm|]. apply Hf. by eapply quiet_ctx.
Qed.
Lemma grants_bind_r {X Y} addr (m : M (Session * Shared) X) (f : X -> M (Session * Shared) Y) :
  grants addr m -> (forall a, Moves quiet (f a)) -> grants addr (m ≫= f).
Proof.
  intros Hm Hf x Hx. specialize (Hm x Hx). rewrite bind_run. destruct (m x) as [[a|e| |] y]; cbn in *; try done.
  eapply outcome_quiet_r; [exact Hm|]. apply Hf.
Qed.

(** Once established, the control plane grants nothing. *)
Definition served (s : Session) : Prop := state s = Established \/ state s = Closed.

Lemma drive_established_served x : state x.1 = Established -> served (drive_established x).2.1.
Proof.
  destruct x as [s sh]. cbn. intros Hs. unfold drive_established. msimp. rewrite on_sess_run. msimp.
  destruct (ControlChannel.try_pop_ascii _) as [msg n|]; [|by left]. msimp. rewrite on_sess_run.
  assert (state (on_tls (Tls.drain_plaintext n) s).2 = Established) as Hd.
  { unfold on_tls. by destruct (Tls.drain_plaintext n (tls s)). }
  destruct (on_tls _ s) as [[] s1]; cbn in *; try by left. destruct (_ || _); [|by left]. msimp. rewrite on_sess_run. by right.
Qed.
Lemma drive_loop_served addr fuel x : served x.1 -> quiet x (drive_loop fuel self addr x).2.
Proof.
  revert x. induction fuel as [|fuel IH]; intros [s sh] Hs; cbn [drive_loop]; [cbn; reflexivity|].
  rewrite bind_run. unfold drive_step. rewrite bind_run, on_sess_run. cbn [gets fst snd].
  destruct Hs as [Hs|Hs]; cbn in Hs; rewrite Hs; [|cbn; reflexivity].
  pose proof (drive_established_served (s, sh) Hs) as Hd. pose proof (drive_established_quiet (s, sh)) as Q.
  destruct (drive_established (s, sh)) as [[[]|e| |] y]; cbn in *; try done. etrans; [exact Q|by apply IH].
Qed.

Lemma drive_push_outcome addr x r y :
  ctx_addr addr x -> drive_push_pending self addr x = (r, y) ->
  quiet x y \/ exists ip ip6, granted addr ip ip6 x y /\ (forall b, r = Ok b -> state y.1 = Established).
Proof.
  destruct x as [s sh]. intros Hx. unfold drive_push_pending. msimp. rewrite on_sess_run. msimp.
  destruct (ControlChannel.try_pop_ascii _) as [msg n|]; [|intros [= <- <-]; left; reflexivity].
  rewrite bind_run. pose proof (_ : Moves quiet (on_sess (on_tls (Tls.drain_plaintext n)))) as Q. specialize (Q (s, sh)).
  destruct (on_sess _ (s, sh)) as [[u|e| |] z]; cbn [snd] in Q; [|by intros [= <- <-]; left..].
  rewrite bind_run. destruct (bool_decide _); cbn [when_]; [|intros [= <- <-]; by left].
  destruct (handle_push_request self addr z) as [r1 y1] eqn:Ep.
  apply (push_outcome addr z r1 y1) in Ep; [|by eapply quiet_ctx].
  destruct Ep as [Q'|(ip & ip6 & G & Hst)].
  - destruct r1; intros [= <- <-]; left; by etrans.
  - apply (granted_quiet_l _ _ _ _ _ _ Q) in G. destruct r1 as [u1|e| |]; intros [= <- <-]; right; exists ip, ip6;
      (split; [done|]); intros; try done. by apply (Hst u1).
Qed.
Lemma drive_loop_grants addr fuel : grants addr (drive_loop fuel self addr).
Proof.
  induction fuel as [|fuel IH]; intros [s sh] Hx; cbn [drive_loop]; [left; cbn; reflexivity|].
  rewrite bind_run. unfold drive_step. rewrite bind_run, on_sess_run. cbn [gets fst snd].
  assert (forall m : M (Session * Shared) bool, Moves quiet m -> outcome addr (s, sh)
    (match m (s, sh) with (Ok a, y) => (if a : bool then drive_loop fuel self addr else mret tt) y
     | (Err e, y) => (Err e, y) | (Panic, y) => (Panic, y) | (Diverge, y) => (Diverge, y) end).2) as Hq.
  { intros m Hm. specialize (Hm (s, sh)). destruct (m (s, sh)) as [[[]|e| |] y]; cbn [snd] in *; try by left.
    eapply outcome_quiet_l; [exact Hm|]. apply IH. by eapply quiet_ctx. }
  destruct (state s); try (apply (Hq _ _)). destruct (drive_push_pending self addr (s, sh)) as [r y] eqn:E.
  apply drive_push_outcome in E as [Q|(ip & ip6 & G & Hst)]; [|..|done].
  - destruct r as [[]|e| |]; cbn [snd]; try by left. eapply outcome_quiet_l; [exact Q|]. apply IH. by eapply quiet_ctx.
  - destruct r as [[]|e| |]; cbn [snd]; try by right; exists ip, ip6.
    eapply outcome_quiet_r; [right; by exists ip, ip6|]. apply drive_loop_served. left. by eapply Hst.
Qed.

Lemma handle_known_grants env addr ctrl pid : grants addr (handle_known self env addr ctrl pid).
Proof.
  unfold handle_known. apply grants_bind_l; [apply on_sess_quiet; intros s; by constructor|]. intros _.
  apply grants_bind_l; [apply _|]. intros _. apply grants_bind_l; [destruct (Protocol.acks ctrl); apply _|]. intros _.
  apply grants_bind_l; [destruct (Protocol.packet_id ctrl); apply _|]. intros _.
  destruct (Protocol.op ctrl); try (apply grants_quiet; apply _). unfold handle_control_v1.
  apply grants_bind_l; [apply _|]. intros s.
  destruct (match rekey s with Some r => _ | None => _ end); [apply grants_quiet; apply _|].
  apply grants_bind_l; [apply _|]. intros _. apply grants_bind_l; [apply _|]. intros s'.
  apply grants_bind_l; [apply _|]. intros _. apply grants_bind_r; [|intros _; apply _].
  unfold drive_control_plane. apply grants_bind_l; [apply _|]. intros s''. apply drive_loop_grants.
Qed.

(** ** Events *)

(** The transition that takes [sh] to [sh'], for whatever table [sh] stands. *)
Definition moves_by (act : action) (sh sh' : Shared) : Prop :=
  forall l, represents sh l -> exists l', lease_step contested act l l' /\ represents sh' l'.
(** The event keeps the invariant, and is a transition it may cause. *)
Definition effect (ev : event) (sh sh' : Shared) : Prop :=
  sys_ok sh' /\ exists act, causes ev act /\ moves_by act sh sh'.

(** What the table and the invariant do not see. *)
Record unmoved (sh sh' : Shared) : Prop := {
  sl_sessions : sessions sh' = sessions sh;
  sl_hold : forall a, hold sh' a = hold sh a;
  sl_routes : routes sh' = routes sh;
  sl_routes6 : routes_v6 sh' = routes_v6 sh;
  sl_next : next_pool_ip sh' = next_pool_ip sh;
  sl_next6 : next_pool_ip_v6 sh' = next_pool_ip_v6 sh;
}.
Lemma unmoved_refl sh : unmoved sh sh.
Proof. by constructor. Qed.
Lemma unmoved_trans sh1 sh2 sh3 : unmoved sh1 sh2 -> unmoved sh2 sh3 -> unmoved sh1 sh3.
Proof. intros [] []. constructor; congruence. Qed.
Lemma unmoved_effect ev sh sh' : unmoved sh sh' -> sys_ok sh -> effect ev sh sh'.
Proof.
  intros [] Hok. split; [by eapply addr_inv_ext|]. exists Stay. split; [done|]. intros l [R1 R2 R3]. exists l.
  split; [constructor|]. constructor; congruence.
Qed.
(** A change of other fields. *)
Lemma unmoved_ext sh sh' :
  sessions sh' = sessions sh -> arcs sh' = arcs sh -> routes sh' = routes sh -> routes_v6 sh' = routes_v6 sh ->
  next_pool_ip sh' = next_pool_ip sh -> next_pool_ip_v6 sh' = next_pool_ip_v6 sh -> unmoved sh sh'.
Proof. intros E1 E2 E3 E4 E5 E6. constructor; try done. intros a. unfold hold. by rewrite E1, E2. Qed.

(** Locking the session of [addr] and writing it back. *)
Lemma with_session_effect ev addr arc {A} (m : M (Session * Shared) A) sh :
  (exists env tr pkt, ev = EvPacket env addr tr pkt) ->
  safe (ctx_ok self) ctx_le m -> grants addr m ->
  shared_ok self sh -> sessions sh !! addr = Some arc -> sys_ok sh -> effect ev sh (with_session arc m sh).2.
Proof.
  intros Hev Hsafe Hm Hsh Ha Hok. destruct (sh_sessions self sh Hsh addr arc Ha) as [s Es].
  unfold with_session. rewrite Es. destruct (Hsafe (s, sh)) as (_ & _ & _ & Hf).
  { split; [by apply (sh_arcs self sh Hsh arc s)|done]. }
  assert (forall a, hold_locked addr (s, sh) a = hold sh a) as H0.
  { intros a. unfold hold_locked. case_decide as Hd; [|done]. subst a. unfold hold. rewrite Ha. cbn. by rewrite Es. }
  assert (ctx_addr addr (s, sh)) as Hx by by eapply addr_inv_ext.
  pose proof (Hm _ Hx) as Ho. pose proof (outcome_ctx _ _ _ Hx Ho) as Hy.
  destruct (m (s, sh)) as [r [s' sh']]. cbn in Ho, Hy, Hf |- *. destruct Hf as [Es' Ea' _ _ _ _ _ _ _].
  set (sh2 := set_arcs (<[arc := s']> (arcs sh')) sh').
  assert (forall a, hold sh2 a = hold_locked addr (s', sh') a) as H2.
  { intros a. unfold hold_locked, hold. cbn. rewrite Es'. case_decide as Hd.
    - subst a. rewrite Ha. cbn. by rewrite lookup_insert_eq.
    - destruct (sessions sh !! a) as [arc'|] eqn:E; [|done]. cbn. rewrite lookup_insert_ne; [done|].
      intros <-. apply Hd. by eapply (ai_inj _ _ _ _ Hok). }
  split; [by apply (addr_inv_ext self lo (hold_locked addr (s', sh')) _ sh')|].
  destruct Ho as [Q|(ip & ip6 & G)].
  - exists Stay. split; [done|]. intros l [R1 R2 R3]. exists l. split; [constructor|].
    pose proof (quiet_hold addr _ _ Q) as Hq. destruct Q as [_ [n E]]. cbn in E.
    constructor; [|subst sh'; cbn; done..]. intros a. by rewrite R1, H2, Hq, H0.
  - exists (Grant addr ip ip6). split; [done|]. intros l [R1 R2 R3].
    pose proof (fun i => granted_free6 addr ip i (s, sh) (s', sh') Hx) as Hf6.
    pose proof (fun a => granted_hold addr ip ip6 (s, sh) (s', sh') a) as Hh.
    pose proof G as [G1 _ _ G4 G5 G6 _ _]. cbn in *.
    eexists. split.
    + apply (LGrant _ addr ip ip6 (holding s)).
      * rewrite R1. unfold hold. rewrite Ha. cbn. by rewrite Es.
      * by rewrite R2.
      * intros i ->. rewrite R3. by apply Hf6.
    + constructor; cbn [holders owner].
      * intros a. rewrite H2. destruct (decide (a = addr)) as [->|Hne].
        -- rewrite lookup_insert_eq, hold_locked_self. unfold holding. cbn. rewrite G4.
           destruct ip6; [by destruct G6 as (-> & _)|by destruct G6 as (-> & _)].
        -- rewrite lookup_insert_ne, R1, (Hh a G Hne), H0 by done. done.
      * intros v. transitivity ((<[V4 ip := addr]> (owner l)) !! V4 v).
        { unfold lease6. destruct ip6; [by rewrite lookup_insert_ne|done]. }
        cbn. rewrite G5. destruct (decide (v = ip)) as [->|]; [by rewrite !lookup_insert_eq|].
        by rewrite !lookup_insert_ne by congruence.
      * intros v. unfold lease6. cbn. destruct ip6 as [i|].
        -- destruct G6 as (_ & -> & _). destruct (decide (v = i)) as [->|]; [by rewrite !lookup_insert_eq|].
           rewrite !lookup_insert_ne by congruence. apply R3.
        -- destruct G6 as (_ & -> & _). rewrite lookup_insert_ne by done. apply R3.
Qed.

(** Any bound session, for a quiet handler. *)
Lemma with_session_unmoved arc {A} (m : M (Session * Shared) A) sh : Moves quiet m -> unmoved sh (with_session arc m sh).2.
Proof.
  intros Hm. unfold with_session. destruct (arcs sh !! arc) as [s|] eqn:Es; [|apply unmoved_refl].
  destruct (Hm (s, sh)) as [[Q1 Q2 Q3] [n E]]. destruct (m (s, sh)) as [r [s' sh']]. cbn in *. subst sh'.
  constructor; try done. intros a. unfold hold. cbn. destruct (sessions sh !! a) as [arc'|]; [|done]. cbn.
  destruct (decide (arc' = arc)) as [->|]; [|by rewrite lookup_insert_ne]. rewrite lookup_insert_eq, Es. cbn.
  unfold holding. by rewrite Q1, Q2.
Qed.
Lemma for_session_unmoved addr m sh : Moves quiet m -> unmoved sh (for_session addr m sh).2.
Proof.
  intros Hm. unfold for_session. msimp. destruct (sessions sh !! addr) as [arc|]; [|apply unmoved_refl].
  pose proof (with_session_unmoved arc m sh Hm) as H. unfold logged. by destruct (with_session arc m sh) as [[] ?].
Qed.

(** A session without addresses joins. *)
Lemma join_effect ev addr arc s sh sh' :
  (exists env tr pkt, ev = EvPacket env addr tr pkt) ->
  sys_ok sh -> shared_ok self sh -> sessions sh !! addr = None -> arcs sh !! arc = None ->
  assigned_ip s = None -> assigned_ip_v6 s = None ->
  sessions sh' = <[addr := arc]> (sessions sh) -> arcs sh' = <[arc := s]> (arcs sh) ->
  routes sh' = routes sh -> routes_v6 sh' = routes_v6 sh ->
  next_pool_ip sh' = next_pool_ip sh -> next_pool_ip_v6 sh' = next_pool_ip_v6 sh -> effect ev sh sh'.
Proof.
  intros Hev [Hinj Hr Hr6 Hi Hi6 Hx Hx6] Hsh Ha Hf N4 N6 E1 E2 E3 E4 E5 E6.
  assert (forall a, sessions sh !! a <> Some arc) as Hnew.
  { intros a Ea. apply (sh_sessions self sh Hsh) in Ea. rewrite Hf in Ea. by destruct Ea. }
  assert (hold sh' addr = Some (None, None)) as Hself.
  { unfold hold. rewrite E1, E2, lookup_insert_eq. cbn. rewrite lookup_insert_eq. cbn. unfold holding. by rewrite N4, N6. }
  assert (forall a, a <> addr -> hold sh' a = hold sh a) as Hother.
  { intros a Hne. unfold hold. rewrite E1, E2, lookup_insert_ne by done. destruct (sessions sh !! a) as [arc'|] eqn:E; [|done].
    cbn. rewrite lookup_insert_ne; [done|]. intros <-. by apply (Hnew a). }
  split.
  - constructor; rewrite ?E1, ?E3, ?E4, ?E5, ?E6; try assumption.
    + intros a1 a2 arc' H1 H2.
      apply lookup_insert_Some in H1 as [[<- <-]|[_ H1]]; apply lookup_insert_Some in H2 as [[<- Ec]|[_ H2]]; try done.
      * by apply Hnew in H2.
      * subst arc'. by apply Hnew in H1.
      * by eapply Hinj.
    + intros a ip o6. destruct (decide (a = addr)) as [->|Hne]; [by rewrite Hself|rewrite Hother by done; apply Hr].
    + intros a o4 ip. destruct (decide (a = addr)) as [->|Hne]; [by rewrite Hself|rewrite Hother by done; apply Hr6].
  - exists (Join addr). split; [done|]. intros l [R1 R2 R3]. eexists. split.
    + apply LJoin. rewrite R1. unfold hold. by rewrite Ha.
    + constructor; cbn [holders owner]; [|by rewrite E3|by rewrite E4]. intros a.
      destruct (decide (a = addr)) as [->|Hne]; [by rewrite lookup_insert_eq|]. by rewrite lookup_insert_ne, R1, Hother.
Qed.

Lemma new_session_effect ev env addr ctrl pid tr sh :
  (exists env tr pkt, ev = EvPacket env addr tr pkt) ->
  sys_ok sh -> shared_ok self sh -> sessions sh !! addr = None ->
  effect ev sh (new_session self env addr ctrl pid tr sh).2.
Proof.
  intros Hev Hok Hsh Ha. unfold new_session. msimp.
  destruct (Tls.new (tls_cfg self)) as [t|e| |]; try (by apply unmoved_effect; [apply unmoved_refl|]); msimp.
  unfold take_peer_id. msimp. match goal with |- context [with_local ?s ?m] => set (sess := s); set (hello := m) end.
  set (sh1 := set_next_peer_id _ sh).
  assert (assigned_ip sess = None /\ assigned_ip_v6 sess = None) as [N4 N6] by by subst sess; destruct pid.
  assert (Moves quiet hello) as Hq by apply _. destruct (Hq (sess, sh1)) as [[Q1 Q2 _] [n En]]. unfold with_local.
  destruct (hello (sess, sh1)) as [[u|e| |] [s2 sh2]]; cbn in *; subst sh2; msimp; [|by apply unmoved_effect; [apply unmoved_ext|]..].
  unfold fresh_ref. msimp. unfold spawn_data_worker. msimp.
  assert (arcs sh !! next_ref sh = None) as Hfresh.
  { destruct (arcs sh !! next_ref sh) eqn:E; [|done]. pose proof (sh_arc_names self sh Hsh (next_ref sh)) as Hlt.
    rewrite E in Hlt. specialize (Hlt ltac:(by eexists)). lia. }
  destruct (tun_writer_tx _); unfold fresh_ref; msimp;
    (eapply (join_effect ev addr (next_ref sh) s2 sh); [exact Hev|exact Hok|exact Hsh|exact Ha|exact Hfresh|congruence..|done|done|done|done|done|done]).
Qed.

(** ** Eviction *)

(** The routes without those of [s]. *)
Lemma forget_routes addr s sh :
  routes (forget addr s sh) =
    match assigned_ip s with Some (V4 ip) => delete ip (routes sh) | _ => routes sh end /\
  routes_v6 (forget addr s sh) =
    match assigned_ip_v6 s with Some ip => delete ip (routes_v6 sh) | None => routes_v6 sh end /\
  arcs (forget addr s sh) = arcs sh /\ next_pool_ip (forget addr s sh) = next_pool_ip sh /\
  next_pool_ip_v6 (forget addr s sh) = next_pool_ip_v6 sh.
Proof. unfold forget. by destruct (assigned_ip s) as [[]|], (assigned_ip_v6 s). Qed.

Lemma forget_effect ev addr arc s sh :
  (exists env, ev = EvReap env addr) \/ ev = EvTcpClosed addr ->
  sys_ok sh -> sessions sh !! addr = Some arc -> arcs sh !! arc = Some s -> effect ev sh (forget addr s sh).
Proof.
  intros Hev [Hinj Hr Hr6 Hi Hi6 Hx Hx6] Ha Hs.
  destruct (forget_routes addr s sh) as (E4 & E6 & Ea & En & En6). pose proof (forget_sessions addr s sh) as Es.
  assert (hold sh addr = Some (holding s)) as Hself by (unfold hold; rewrite Ha; cbn; by rewrite Hs).
  assert (hold (forget addr s sh) addr = None) as Hgone by (unfold hold; by rewrite Es, lookup_delete_eq).
  assert (forall a, a <> addr -> hold (forget addr s sh) a = hold sh a) as Hother.
  { intros a Hne. unfold hold. by rewrite Es, Ea, lookup_delete_ne. }
  split.
  - constructor; rewrite ?Es, ?En, ?En6; try assumption.
    + intros a1 a2 arc' [_ H1]%lookup_delete_Some [_ H2]%lookup_delete_Some. by eapply Hinj.
    + intros a ip o6. destruct (decide (a = addr)) as [->|Hne]; [by rewrite Hgone|]. rewrite Hother by done. intros E Hc.
      pose proof (Hr a ip o6 E Hc) as Hra. rewrite E4. destruct (assigned_ip s) as [[ip'|]|] eqn:Eip; [|done..].
      rewrite lookup_delete_ne; [done|]. intros ->. assert (routes sh !! ip = Some addr) as Hrb; [|congruence].
      apply (Hr addr ip (assigned_ip_v6 s)); [|done]. rewrite Hself. unfold holding. by rewrite Eip.
    + intros a o4 ip. destruct (decide (a = addr)) as [->|Hne]; [by rewrite Hgone|]. rewrite Hother by done. intros E.
      pose proof (Hr6 a o4 ip E) as Hra. rewrite E6. destruct (assigned_ip_v6 s) as [ip'|] eqn:Eip; [|done].
      rewrite lookup_delete_ne; [done|]. intros ->. assert (routes_v6 sh !! ip = Some addr) as Hrb; [|congruence].
      apply (Hr6 addr (assigned_ip s)). rewrite Hself. unfold holding. by rewrite Eip.
    + intros ip a. rewrite E4. destruct (assigned_ip s) as [[ip'|]|]; eauto. intros [_ H]%lookup_delete_Some. eauto.
    + intros ip a. rewrite E6. destruct (assigned_ip_v6 s) as [ip'|]; eauto. intros [_ H]%lookup_delete_Some. eauto.
  - exists (Leave addr). split; [done|]. intros l [R1 R2 R3]. eexists. split; [apply LLeave; by rewrite R1|].
    constructor; cbn [holders owner].
    + intros a. destruct (decide (a = addr)) as [->|Hne]; [by rewrite lookup_delete_eq|]. by rewrite lookup_delete_ne, R1, Hother.
    + intros v. rewrite E4. unfold unlease, holding. cbn.
      destruct (assigned_ip_v6 s) as [i|]; [rewrite lookup_delete_ne by done|]; (destruct (assigned_ip s) as [[ip|]|]; [|apply R2..]);
        (destruct (decide (v = ip)) as [->|]; [by rewrite !lookup_delete_eq|rewrite !lookup_delete_ne by congruence; apply R2]).
    + intros v. rewrite E6. unfold unlease, holding. cbn.
      assert ((match assigned_ip s with Some (V4 ip) => delete (V4 ip) (owner l) | _ => owner l end) !! V6 v = routes_v6 sh !! v) as Ho.
      { destruct (assigned_ip s) as [[ip|]|]; [rewrite lookup_delete_ne by done|..]; apply R3. }
      destruct (assigned_ip_v6 s) as [i|]; [|exact Ho].
      destruct (decide (v = i)) as [->|]; [by rewrite !lookup_delete_eq|]. by rewrite !lookup_delete_ne by congruence.
Qed.

Context {BL : BufLaws B} {CL : CryptoLaws C} {TL : TlsLaws T}.

Lemma dispatch_effect env addr tr pkt sh :
  bytes_ok pkt -> shared_ok self sh -> sys_ok sh ->
  effect (EvPacket env addr tr pkt) sh (dispatch self env addr tr pkt sh).2.
Proof.
  intros Hb Hsh Hok. assert (forall sh', unmoved sh sh' -> effect (EvPacket env addr tr pkt) sh sh') as Hst.
  { intros sh' H. by apply unmoved_effect. }
  unfold dispatch. destruct pkt as [|first rest] eqn:Epkt; [apply Hst, unmoved_refl|]. rewrite <-Epkt in *.
  destruct (Protocol.from_u8 _) as [op|e| |]; [|apply Hst, unmoved_refl..]. destruct (Protocol.is_data op).
  { apply Hst. unfold route_data. repeat case_match; try apply unmoved_refl. by apply unmoved_ext. }
  destruct (unwrap_control_ok self pkt Hb) as [_ Hu].
  destruct (unwrap_control self pkt) as [[inner pid]|e| |]; [|apply Hst, unmoved_refl..].
  destruct (Hu inner pid eq_refl) as [Hbi Hpid].
  assert (effect (EvPacket env addr tr pkt) sh (handle_control_packet self env addr (default pkt inner) pid tr sh).2) as H.
  { unfold handle_control_packet. msimp. destruct (Protocol.parse _) as [ctrl|e| |] eqn:Ep; msimp; try apply Hst, unmoved_refl.
    destruct (sessions sh !! addr) as [arc|] eqn:Ea.
    - apply (with_session_effect _ addr); [by eauto| |apply handle_known_grants|done..].
      apply handle_known_safe; [by eapply parse_ok|done].
    - destruct (is_hard_reset _); [apply new_session_effect; eauto|apply Hst, unmoved_refl]. }
  unfold logged. by destruct (handle_control_packet _ _ _ _ _ _ sh) as [[] ?].
Qed.

Lemma worker_unmoved env w sh : unmoved sh (worker_step env w sh).2.
Proof.
  unfold worker_step. destruct (workers sh !! w) as [[arc [|raw rest]]|]; [apply unmoved_refl| |apply unmoved_refl].
  set (sh1 := set_workers _ sh). assert (unmoved sh sh1) as H1 by by apply unmoved_ext.
  assert (unmoved sh1 (decrypt_and_forward env arc raw sh1).2) as H.
  { unfold decrypt_and_forward. msimp. destruct (Protocol.parse_data_v2 raw) as [dp|e| |]; msimp; try apply unmoved_refl.
    pose proof (with_session_unmoved arc (on_sess (open_packet env raw dp)) sh1 _) as H.
    destruct (with_session _ _ sh1) as [[pt|e| |] sh2]; try done. case_bool_decide; [done|].
    unfold tun_send. destruct (tun_open sh2); [|done]. eapply unmoved_trans; [exact H|by apply unmoved_ext]. }
  unfold logged. destruct (decrypt_and_forward env arc raw sh1) as [[] ?]; by eapply unmoved_trans.
Qed.

Lemma tun_read_unmoved pkt sh : unmoved sh (tun_read pkt sh).2.
Proof.
  unfold tun_read. destruct pkt as [|b pkt]; [apply unmoved_refl|].
  assert (unmoved sh (forward_tun_to_client (b :: pkt) sh).2) as H.
  { unfold forward_tun_to_client. msimp. destruct (tun_route _ sh) as [dst|e| |]; msimp; try apply unmoved_refl.
    destruct (dst ≫= _) as [arc|]; [|apply unmoved_refl]. apply with_session_unmoved.
    apply moves_bind; [apply _|apply _|]. intros s. apply moves_bind; [apply _|apply _|]. intros []; apply _. }
  unfold logged. by destruct (forward_tun_to_client _ sh) as [[] ?].
Qed.

Lemma handle_effect ev sh :
  event_ok ev -> shared_ok self sh -> sys_ok sh -> effect ev sh (handle self ev sh).2.
Proof.
  intros He Hsh Hok. assert (forall sh', unmoved sh sh' -> effect ev sh sh') as Hst by (intros sh' H; by apply unmoved_effect).
  destruct ev; cbn [handle].
  - by apply dispatch_effect; [apply He|..].
  - apply Hst, worker_unmoved.
  - apply Hst. unfold tun_writer_step. repeat case_match; try apply unmoved_refl; by apply unmoved_ext.
  - apply Hst, tun_read_unmoved.
  - unfold reap_one. repeat case_match; try apply Hst, unmoved_refl. eapply forget_effect; eauto.
  - apply Hst. destruct (0 <? _); [|apply unmoved_refl]. apply for_session_unmoved; apply _.
  - apply Hst, for_session_unmoved; apply _.
  - apply Hst, for_session_unmoved; apply _.
  - apply Hst. by apply unmoved_ext.
  - apply Hst. by apply unmoved_ext.
  - unfold tcp_closed. destruct (sessions sh !! peer) as [arc|] eqn:Ea; [|apply Hst, unmoved_refl].
    destruct (sh_sessions self sh Hsh peer arc Ea) as [s Es]. rewrite Es. eapply forget_effect; eauto.
  - apply Hst, for_session_unmoved; apply _.
Qed.

Lemma steps_addr sh sh' : shared_ok self sh -> sys_ok sh -> rtc (step self) sh sh' -> sys_ok sh'.
Proof.
  intros Hsh Hok Hsteps. induction Hsteps as [sh|sh sh1 sh2 [ev sh0 r sh1' He E] _ IH]; [done|].
  destruct (handle_safe self ev He sh0 Hsh) as (_ & Hsh' & _). destruct (handle_effect ev sh0 He Hsh Hok) as [Hok' _].
  rewrite E in Hsh', Hok'. by apply IH.
Qed.

End run.

Context {BL : BufLaws B} {CL : CryptoLaws C} {TL : TlsLaws T}.

(** The pools of a server that has just started; IPv6 addresses have 128 bits. *)
Definition config_ok (self : VpnServer) (sh0 : Shared) : Prop :=
  pools_ok self /\ forall n, next_pool_ip_v6 sh0 = Some n -> uint_ok 128 n.

Lemma reachable_addr self sh0 sh :
  initial self sh0 -> config_ok self sh0 -> rtc (step self) sh0 sh -> sys_ok self (next_pool_ip sh0) sh.
Proof.
  intros Hi [Hp H6] Hsteps. apply (steps_addr Hp sh0); [by apply initial_ok| |done].
  apply initial_fresh in Hi as (a & n6 & n & -> & Ha & _). constructor; cbn in *; try done. unfold uint_ok in Ha. lia.
Qed.

Definition current (sh : Shared) (a : SocketAddr) (s : Session) : Prop :=
  exists arc, sessions sh !! a = Some arc /\ arcs sh !! arc = Some s.
Lemma current_hold sh a s : current sh a s -> hold sh a = Some (holding s).
Proof. intros (arc & Ha & Hs). unfold hold. rewrite Ha. cbn. by rewrite Hs. Qed.

(** C8: tunnel addresses are unique and routed to their owner, as long as
    handlers run one at a time.  If the pools end below the last address of
    their family, then after any events whatsoever, failed and repeated
    requests, evictions and reconnections included: when a connected client has
    an IPv6 tunnel address, or an IPv4 tunnel address that the configuration does
    not both pin to a client and put into the pool, the server routes that
    address to this client and no other connected client has it. *)
Theorem tunnel_addresses_unique self sh0 sh a s :
  initial self sh0 -> config_ok self sh0 -> rtc (step self) sh0 sh -> current sh a s ->
  (forall ip, assigned_ip s = Some (V4 ip) -> ~ contested self (next_pool_ip sh0) ip ->
     routes sh !! ip = Some a /\
     forall a' s', current sh a' s' -> assigned_ip s' = Some (V4 ip) -> a' = a) /\
  (forall ip, assigned_ip_v6 s = Some ip -> routes_v6 sh !! ip = Some a /\
     forall a' s', current sh a' s' -> assigned_ip_v6 s' = Some ip -> a' = a).
Proof.
  intros Hi Hc Hsteps Hcur%current_hold. destruct (reachable_addr self sh0 sh Hi Hc Hsteps) as [_ Hr Hr6 _ _ _ _].
  assert (forall a0 s0 ip, hold sh a0 = Some (holding s0) -> assigned_ip s0 = Some (V4 ip) ->
    ~ contested self (next_pool_ip sh0) ip -> routes sh !! ip = Some a0) as H4.
  { intros a0 s0 ip Hh E. apply (Hr a0 ip (assigned_ip_v6 s0)). rewrite Hh. unfold holding. by rewrite E. }
  assert (forall a0 s0 ip, hold sh a0 = Some (holding s0) -> assigned_ip_v6 s0 = Some ip -> routes_v6 sh !! ip = Some a0) as H6.
  { intros a0 s0 ip Hh E. apply (Hr6 a0 (assigned_ip s0)). rewrite Hh. unfold holding. by rewrite E. }
  split.
  - intros ip E Hn. pose proof (H4 _ _ _ Hcur E Hn). split; [done|]. intros a' s' Hcur'%current_hold E'.
    pose proof (H4 _ _ _ Hcur' E' Hn). congruence.
  - intros ip E. pose proof (H6 _ _ _ Hcur E). split; [done|]. intros a' s' Hcur'%current_hold E'.
    pose proof (H6 _ _ _ Hcur' E'). congruence.
Qed.

(** C5: every event is one transition of the lease table that it may cause, as
    long as handlers run one at a time.  If the pools end below the last address
    of their family, then in every reachable state the handler of any event
    changes the table that the state stands for ([leases]: what each connected
    client holds, and the owner of every routed address) by a single step of the
    specification, with a label that [causes] allows: a control packet makes
    nobody but its sender join or get addresses, and an IPv6 address only when
    nobody owns it, an IPv4 address only when nobody owns it or the
    configuration both pins it to a client and puts it into the pool; eviction
    takes away what the session of the evicted client holds, no more and no
    less; nothing else touches the table. *)
Theorem server_refines_leases self sh0 sh ev r sh' :
  initial self sh0 -> config_ok self sh0 -> rtc (step self) sh0 sh -> event_ok ev ->
  handle self ev sh = (r, sh') ->
  exists act, causes ev act /\ lease_step (contested self (next_pool_ip sh0)) act (leases sh) (leases sh').
Proof.
  intros Hi Hc Hsteps He E. pose proof (reachable_addr self sh0 sh Hi Hc Hsteps) as Hok.
  destruct (steps_ok self sh0 sh (initial_ok _ _ Hi) Hsteps) as [Hsh _].
  destruct (handle_effect (proj1 Hc) ev sh He Hsh Hok) as [_ (act & Hact & Hm)]. rewrite E in Hm. exists act. split; [done|].
  destruct (Hm (leases sh) (leases_represents sh)) as (l' & H1 & H2%represents_leases). by subst l'.
Qed.

End addressing.
End Addressing.
