(* ===== verification/Interleaving.v ===== *)
(** * The tasks interleaved (src/src/server.rs)

    The tasks that [run] spawns and what each of them does next, the locks of
    the sessions, and one action of one task at a time, in any order.  A logic
    for the programs of [Tasks], and that what it proves of each program holds
    in every interleaving. *)

From S2P Require Import Prelude Replay Buf Protocol Utf8 ControlChannel Primitives Crypto Prf.
From S2P Require Import Envelope TlsAuth TlsCrypt Text StaticKey Tls Certs Transport Config Masquerade.
From S2P Require Import Session SessionInv Server Frames ServerInv System Tasks Addressing.

(** The tasks.  Each runs one handler after the other. *)
Inductive slot : Type :=
  | UdpLoop | TcpListener | TcpReader (tx : nat) | TcpWriter (tx : nat) | DataWorker (w : nat)
  | TunWriter | TunReader | Reaper | RekeyTimer | PingTimer | RetransmitTimer.

#[export] Instance slot_eq_dec : EqDecision slot.
Proof. solve_decision. Defined.
#[export] Instance slot_countable : Countable slot.
Proof.
  refine (inj_countable' (fun t => match t with
      | UdpLoop => (0, 0) | TcpListener => (1, 0) | TcpReader tx => (2, tx) | TcpWriter tx => (3, tx)
      | DataWorker w => (4, w) | TunWriter => (5, 0) | TunReader => (6, 0) | Reaper => (7, 0)
      | RekeyTimer => (8, 0) | PingTimer => (9, 0) | RetransmitTimer => (10, 0) end)%nat
    (fun x => match x with
      | (0, _) => UdpLoop | (1, _) => TcpListener | (2, tx) => TcpReader tx | (3, tx) => TcpWriter tx
      | (4, w) => DataWorker w | (5, _) => TunWriter | (6, _) => TunReader | (7, _) => Reaper
      | (8, _) => RekeyTimer | (9, _) => PingTimer | _ => RetransmitTimer end)%nat _).
  by intros [].
Defined.

Module Interleaving.
Import Transport Session SessionInv Server Frames ServerInv System Tasks Addressing.

(** Which task handles which event. *)
Definition runs (t : slot) (ev : event) : bool :=
  match t, ev with
  | UdpLoop, EvPacket _ _ (Udp _) _ | UdpLoop, EvShutdown _ _ => true
  | TcpReader tx, EvPacket _ _ (Tcp tx') _ => (tx =? tx')%nat
  | TcpReader _, EvTcpClosed _ => true
  | TcpListener, EvTcpAccept => true
  | TcpWriter tx, EvTcpWriterFailed tx' => (tx =? tx')%nat
  | DataWorker w, EvWorker _ w' => (w =? w')%nat
  | TunWriter, EvTunWriter _ | TunReader, EvTunRead _ => true
  | Reaper, EvReap _ _ | RekeyTimer, EvRekey _ _ | PingTimer, EvPing _ | RetransmitTimer, EvRetransmit _ _ => true
  | _, _ => false
  end.

Section machine.
Context {B : BufApi} {C : CryptoApi} {T : TlsApi}.

Record config := MkConfig {
  shared : Shared;
  locks : gmap nat slot;         (* session name -> the task that holds its lock *)
  tasks : gmap slot (prog (result unit)); (* the tasks in the middle of a handler *)
}.

Definition idle (sh : Shared) : config := MkConfig sh ∅ ∅.

(** One action of the task [t]; nothing when it waits for a lock. *)
Definition advance (t : slot) (c : config) : option config :=
  match tasks c !! t with
  | None => None
  | Some (Ret _) => Some (MkConfig (shared c) (locks c) (delete t (tasks c)))
  | Some (Atomic op k) =>
    let '(x, sh) := op (shared c) in Some (MkConfig sh (locks c) (<[t := k x]> (tasks c)))
  | Some (Lock arc k) =>
    match locks c !! arc with
    | Some _ => None
    | None => Some (MkConfig (shared c) (<[arc := t]> (locks c)) (<[t := k (arcs (shared c) !! arc)]> (tasks c)))
    end
  | Some (Unlock arc s p) =>
    Some (MkConfig (set_arcs (<[arc := s]> (arcs (shared c))) (shared c)) (delete arc (locks c)) (<[t := p]> (tasks c)))
  end.

Definition begin_ (self : VpnServer) (t : slot) (ev : event) (c : config) : config :=
  MkConfig (shared c) (locks c) (<[t := program self ev]> (tasks c)).

Inductive cstep (self : VpnServer) : config -> config -> Prop :=
  | CBegin t ev c : tasks c !! t = None -> runs t ev = true -> event_ok ev -> cstep self c (begin_ self t ev c)
  | CAct t c c' : advance t c = Some c' -> cstep self c c'.

(** ** A logic for programs

    Other tasks may run before every action.  What a task can rely on: the
    invariant of the shared state, that names stay bound, and that the session
    it has locked stays as it was.  The ghost state remembers for which session
    a tunnel address was handed out. *)

Record Ghost := MkGhost { g4 : gmap Z nat; g6 : gmap Z nat }.
Definition ghost_le (g g' : Ghost) : Prop := g4 g ⊆ g4 g' /\ g6 g ⊆ g6 g'.

Definition world : Type := Shared * Ghost.
Definition world_le (w w' : world) : Prop :=
  (forall arc, is_Some (arcs w.1 !! arc) -> is_Some (arcs w'.1 !! arc)) /\ ghost_le w.2 w'.2.

#[export] Instance ghost_le_preorder : PreOrder ghost_le.
Proof. split; [by split|]. intros x y z [] []. split; by etrans. Qed.
#[export] Instance world_le_preorder : PreOrder world_le.
Proof.
  split; [by intros w; split; [|reflexivity]|]. intros x y z [H1 H2] [H3 H4]. split; [auto|by etrans].
Qed.

Section logic.
Context (self : VpnServer) (lo : Z) (cfg_ok : Prop).

(** The addresses of the session [arc] were handed out for it, or are static. *)
Record addr_good (g : Ghost) (arc : nat) (s : Session) : Prop := {
  ag_v4 : forall ip, assigned_ip s = Some (V4 ip) -> cfg_ok -> static self ip \/ g4 g !! ip = Some arc;
  ag_v6 : forall ip, assigned_ip_v6 s = Some ip -> cfg_ok -> g6 g !! ip = Some arc;
}.

Record world_ok (w : world) : Prop := {
  wo_shared : shared_ok self w.1;
  wo_addr : forall arc s, arcs w.1 !! arc = Some s -> addr_good w.2 arc s;
  wo_next6 : cfg_ok -> forall n, next_pool_ip_v6 w.1 = Some n -> uint_ok 128 n;
  wo_issued : cfg_ok -> forall ip arc, g4 w.2 !! ip = Some arc -> lo <= ip < next_pool_ip w.1;
  wo_lo : cfg_ok -> lo <= next_pool_ip w.1;
  wo_issued6 : forall ip arc, g6 w.2 !! ip = Some arc -> cfg_ok ->
    exists n, next_pool_ip_v6 w.1 = Some n /\ ip < n;
}.

(** [h]: the session the task has locked, as it was then. *)
Fixpoint wp {A} (p : prog A) (w : world) (h : option (nat * Session))
    (Q : A -> world -> option (nat * Session) -> Prop) : Prop :=
  match p with
  | Ret a => Q a w h
  | Atomic op k =>
    forall w1, world_ok w1 -> world_le w w1 ->
    exists g, let w2 := ((op w1.1).2, g) in
      world_ok w2 /\ ghost_le w1.2 g /\ arcs w1.1 ⊆ arcs w2.1 /\ wp (k (op w1.1).1) w2 h Q
  | Lock arc k =>
    h = None /\ is_Some (arcs w.1 !! arc) /\
    forall w1 s, world_ok w1 -> world_le w w1 -> arcs w1.1 !! arc = Some s -> wp (k (Some s)) w1 (Some (arc, s)) Q
  | Unlock arc s' p =>
    exists s, h = Some (arc, s) /\ session_ok s' /\ sess_le s s' /\ addr_good w.2 arc s' /\
    forall w1, world_ok w1 -> world_le w w1 -> arcs w1.1 !! arc = Some s ->
      wp p (set_arcs (<[arc := s']> (arcs w1.1)) w1.1, w1.2) None Q
  end.

Lemma wp_bind {X Y} (p : prog X) (f : X -> prog Y) w h Q :
  wp p w h (fun x w' h' => wp (f x) w' h' Q) -> wp (pbind p f) w h Q.
Proof.
  revert w h. induction p as [a|Z op k IH|arc k IH|arc s p IH]; intros w h; cbn; [done|..].
  - intros H w1 Hw Hle. destruct (H w1 Hw Hle) as (g & H1 & H2 & H3 & H4). exists g. auto.
  - intros (H1 & H2 & H3). split; [done|]. split; [done|]. auto.
  - intros (s0 & H1 & H2 & H3 & H4 & H5). exists s0. split_and!; auto.
Qed.

Lemma wp_mono {A} (p : prog A) w h (Q Q' : A -> world -> option (nat * Session) -> Prop) :
  (forall a w' h', Q a w' h' -> Q' a w' h') -> wp p w h Q -> wp p w h Q'.
Proof.
  intros HQ. revert w h. induction p as [a|Z op k IH|arc k IH|arc s p IH]; intros w h; cbn; [auto|..].
  - intros H w1 Hw Hle. destruct (H w1 Hw Hle) as (g & H1 & H2 & H3 & H4). exists g. auto.
  - intros (H1 & H2 & H3). split; [done|]. split; [done|]. auto.
  - intros (s0 & H1 & H2 & H3 & H4 & H5). exists s0. split_and!; auto.
Qed.

(** ** Soundness *)

Definition task_ok (c : config) (g : Ghost) (t : slot) (p : prog (result unit)) : Prop :=
  exists w h, wp p w h (fun r _ h' => h' = None /\ returns r) /\ world_le w (shared c, g) /\
    (forall arc, locks c !! arc = Some t <-> exists s, h = Some (arc, s)) /\
    (forall arc s, h = Some (arc, s) -> arcs (shared c) !! arc = Some s).

Record config_inv (c : config) (g : Ghost) : Prop := {
  ci_world : world_ok (shared c, g);
  ci_tasks : map_Forall (task_ok c g) (tasks c);
  ci_locks : forall arc t, locks c !! arc = Some t -> is_Some (tasks c !! t);
}.

(** Another task's view after a step that keeps the sessions it may rely on. *)
Lemma task_ok_frame c c' g g' t p :
  task_ok c g t p -> world_le (shared c, g) (shared c', g') ->
  (forall arc, locks c' !! arc = Some t <-> locks c !! arc = Some t) ->
  (forall arc s, locks c !! arc = Some t -> arcs (shared c) !! arc = Some s -> arcs (shared c') !! arc = Some s) ->
  task_ok c' g' t p.
Proof.
  intros (w & h & Hwp & Hle & Hl & Ha) Hle' Hl' Ha'. exists w, h. split; [done|]. split; [by etrans|].
  split; [intros arc; by rewrite Hl'|]. intros arc s ->. apply Ha'; [|by apply Ha]. apply Hl. by exists s.
Qed.

Lemma addr_good_mono g g' arc s : addr_good g arc s -> ghost_le g g' -> addr_good g' arc s.
Proof.
  intros [H4 H6] [Hg4 Hg6]. split.
  - intros ip Hip Hp. destruct (H4 ip Hip Hp); [by left|right]. by eapply lookup_weaken.
  - intros ip Hip Hp. eapply lookup_weaken; [|exact Hg6]. by apply H6.
Qed.

Lemma world_ok_unlock w arc s s' :
  world_ok w -> arcs w.1 !! arc = Some s -> session_ok s' -> addr_good w.2 arc s' ->
  world_ok (set_arcs (<[arc := s']> (arcs w.1)) w.1, w.2).
Proof.
  intros [] Hs Hs' Ha. constructor; cbn; try assumption.
  - apply insert_arc_ok; [done|done|]. apply (sh_arc_names self w.1 wo_shared0). by exists s.
  - intros a s0 [[<- <-]|[_ ?]]%lookup_insert_Some; auto.
Qed.

(** The same invariant after one task has moved on: its own view, and what the
    others rely on. *)
Lemma config_inv_move c g t p sh' lks g' :
  config_inv c g -> is_Some (tasks c !! t) -> world_ok (sh', g') -> world_le (shared c, g) (sh', g') ->
  (forall arc t', t' <> t -> lks !! arc = Some t' <-> locks c !! arc = Some t') ->
  (forall arc t' s, t' <> t -> locks c !! arc = Some t' -> arcs (shared c) !! arc = Some s -> arcs sh' !! arc = Some s) ->
  task_ok (MkConfig sh' lks (<[t := p]> (tasks c))) g' t p ->
  config_inv (MkConfig sh' lks (<[t := p]> (tasks c))) g'.
Proof.
  intros [Hw Ht Hl] Hsome Hw' Hle Hlks Ha Hp. constructor; cbn; [done| |].
  - intros t' p' [[<- <-]|[Hne Ht']]%lookup_insert_Some; [done|].
    eapply task_ok_frame; [exact (Ht t' p' Ht')|done|..]; cbn; [intros arc; by apply Hlks|]. intros arc s. by apply Ha.
  - intros arc t' H. apply lookup_insert_is_Some'. destruct (decide (t = t')) as [->|Hne]; [by left|right].
    apply (Hl arc). by apply Hlks.
Qed.

Lemma advance_inv t c c' g :
  config_inv c g -> advance t c = Some c' -> exists g', config_inv c' g' /\ shared_le (shared c) (shared c').
Proof.
  intros Hc. unfold advance. destruct (tasks c !! t) as [p|] eqn:Et; [|done].
  destruct (ci_tasks c g Hc t p Et) as (w & h & Hwp & Hle & Hlk & Harc). pose proof (ci_world c g Hc) as Hw.
  destruct p as [r|X op k|arc k|arc s' p]; cbn in Hwp.
  - intros [= <-]. destruct Hwp as [-> Hr]. exists g. split; [|cbn; reflexivity]. constructor; cbn; [done|..].
    + intros t' p' [Hne Ht']%lookup_delete_Some. eapply task_ok_frame; [by apply (ci_tasks c g Hc)|reflexivity|done|done].
    + intros a t' Hl. destruct (decide (t = t')) as [<-|Hne]; [by apply Hlk in Hl as [? ?]|].
      rewrite lookup_delete_ne by done. by apply (ci_locks c g Hc a).
  - destruct (Hwp (shared c, g) Hw Hle) as (g' & Hw' & Hg & Ha & Hk). cbn in *.
    destruct (op (shared c)) as [x sh] eqn:E. intros [= <-]. cbn in *. exists g'. split.
    + apply (config_inv_move c g); try done.
      * by split; [intros a [s ?]; exists s; eapply lookup_weaken|].
      * intros a t' s _ _ ?. by eapply lookup_weaken.
      * exists (sh, g'), h. cbn. split; [done|]. split; [reflexivity|]. split; [done|].
        intros a s ->. eapply lookup_weaken; [|exact Ha]. by apply Harc.
    + intros a s Hs. exists s. split; [by eapply lookup_weaken|reflexivity].
  - destruct Hwp as (-> & Hb & Hk). destruct (locks c !! arc) as [?|] eqn:El; [done|]. intros [= <-].
    destruct (proj1 Hle arc Hb) as [s Hs]. cbn in Hs. exists g. split; [|cbn; reflexivity].
    apply (config_inv_move c g); try done.
    + intros a t' Hne. split; intros H; [by apply lookup_insert_Some in H as [[_ ?]|[_ ?]]|].
      rewrite lookup_insert_ne; [done|]. intros ->. by rewrite El in H.
    + exists (shared c, g), (Some (arc, s)). cbn. split; [rewrite Hs; by apply Hk|]. split; [reflexivity|]. split.
      * intros a. split; [intros [[-> _]|[_ H]]%lookup_insert_Some; [by exists s|]|intros [? [= <- _]]; by rewrite lookup_insert_eq].
        by apply Hlk in H as [? ?].
      * by intros a s0 [= <- <-].
  - destruct Hwp as (s & -> & Hs' & Hle' & Ha & Hk). intros [= <-]. specialize (Harc arc s eq_refl).
    exists g. split.
    + apply (config_inv_move c g); try done.
      * apply (world_ok_unlock (shared c, g) arc s); try done. eapply addr_good_mono; [exact Ha|apply Hle].
      * split; [|reflexivity]. cbn. intros a Hs0. apply lookup_insert_is_Some'. by right.
      * intros a t' Hne. split; [by intros [_ ?]%lookup_delete_Some|]. intros H. rewrite lookup_delete_ne; [done|].
        intros <-. assert (locks c !! arc = Some t) as E by (apply Hlk; by exists s). congruence.
      * intros a t' s0 Hne Hl Hs0. cbn. rewrite lookup_insert_ne; [done|]. intros <-.
        assert (locks c !! arc = Some t) as E by (apply Hlk; by exists s). congruence.
      * eexists _, None. split; [by apply (Hk (shared c, g))|]. split; [reflexivity|]. split; [|done].
        intros a. cbn. split; [|by intros [? ?]]. intros [Hne Hl]%lookup_delete_Some. apply Hlk in Hl as [? [= ? _]]. done.
    + intros a s0 Hs0. cbn. destruct (decide (a = arc)) as [->|Hne].
      * exists s'. rewrite lookup_insert_eq. split; [done|]. congruence.
      * exists s0. rewrite lookup_insert_ne by done. split; [done|reflexivity].
Qed.

(** A task is done, moves, or waits for a lock whose holder moves. *)
Lemma progress t p c g :
  config_inv c g -> tasks c !! t = Some p ->
  (exists c', advance t c = Some c') \/
  exists arc k t' c', p = Lock arc k /\ locks c !! arc = Some t' /\ t' <> t /\ advance t' c = Some c'.
Proof.
  intros Hc Et. destruct (ci_tasks c g Hc t p Et) as (w & h & Hwp & Hle & Hlk & Harc).
  destruct p as [r|X op k|arc k|arc s' p]; cbn in Hwp; unfold advance at 1; rewrite Et; [by eauto| | |by eauto].
  { destruct (op (shared c)). eauto. }
  destruct (locks c !! arc) as [t'|] eqn:El; [|by eauto]. right. destruct Hwp as (-> & _ & _).
  exists arc, k, t'. destruct (ci_locks c g Hc arc t' El) as [p' Et'].
  destruct (ci_tasks c g Hc t' p' Et') as (w' & h' & Hwp' & _ & Hlk' & _).
  destruct (proj1 (Hlk' arc) El) as [s ->].
  assert (t' <> t) as Hne by (intros ->; by apply Hlk in El as [? ?]).
  assert (exists c', advance t' c = Some c') as [c' Hadv]; [|by exists c'].
  unfold advance. rewrite Et'. destruct p' as [r|X op k'|arc' k'|arc' s' p']; cbn in Hwp'.
  - by destruct Hwp'.
  - destruct (op (shared c)). eauto.
  - by destruct Hwp'.
  - eauto.
Qed.

Lemma task_returns t r c g : config_inv c g -> tasks c !! t = Some (Ret r) -> returns r.
Proof. intros Hc Et. by destruct (ci_tasks c g Hc t _ Et) as (w & h & [_ ?] & _). Qed.

End logic.

(** ** Schedules without new events end *)

Definition child (p' p : prog (result unit)) : Prop :=
  match p with
  | Ret _ => False
  | Atomic op k => exists x, p' = k x
  | Lock arc k => exists o, p' = k o
  | Unlock arc s q => p' = q
  end.
Lemma child_wf p : Acc child p.
Proof.
  induction p as [a|X op k IH|arc k IH|arc s p IH]; constructor; cbn; [done|by intros ? [? ->]..|by intros ? ->].
Qed.

Inductive shrinks : gmap slot (prog (result unit)) -> gmap slot (prog (result unit)) -> Prop :=
  | Moved t p p' m : m !! t = Some p -> child p' p -> shrinks (<[t := p']> m) m
  | Finished t m : is_Some (m !! t) -> shrinks (delete t m) m.

Lemma shrinks_insert m t p : Acc shrinks m -> m !! t = None -> Acc shrinks (<[t := p]> m).
Proof.
  intros Hm. revert t p. induction Hm as [m Hm IH]. intros t p Ht.
  induction (child_wf p) as [p _ IHp]. constructor. intros m' Hs. inversion Hs as [t' q q' m0 E Hc|t' m0 [q E]]; subst.
  - destruct (decide (t' = t)) as [->|Hne].
    + rewrite lookup_insert_eq in E. injection E as ->. rewrite insert_insert_eq. by apply IHp.
    + rewrite lookup_insert_ne in E by done. rewrite insert_insert_ne by done. apply IH; [by econstructor|].
      by rewrite lookup_insert_ne.
  - destruct (decide (t' = t)) as [->|Hne]; [by rewrite delete_insert_id|]. rewrite lookup_insert_ne in E by done.
    rewrite delete_insert_ne by done. apply IH; [by constructor|]. by rewrite lookup_delete_ne.
Qed.
Lemma shrinks_wf m : Acc shrinks m.
Proof.
  induction m as [|t p m Ht IH] using map_ind; [|by apply shrinks_insert].
  constructor. intros m' Hs. inversion Hs as [? ? ? ? E|? ? [? E]]; by rewrite lookup_empty in E.
Qed.

(** One action of some task. *)
Definition acts (c c' : config) : Prop := exists t, advance t c = Some c'.

Lemma acts_shrinks c c' : acts c c' -> shrinks (tasks c') (tasks c).
Proof.
  intros [t Ht]. unfold advance in Ht. destruct (tasks c !! t) as [[r|X op k|arc k|arc s p]|] eqn:E; [..|done].
  - injection Ht as <-. cbn. constructor. by exists (Ret r).
  - destruct (op (shared c)) as [x sh]. injection Ht as <-. cbn. econstructor; [exact E|]. cbn. by eexists.
  - destruct (locks c !! arc); [done|]. injection Ht as <-. cbn. econstructor; [exact E|]. cbn. by eexists.
  - injection Ht as <-. cbn. by econstructor.
Qed.
Lemma acts_wf c : Acc (flip acts) c.
Proof.
  remember (tasks c) as m eqn:Em. revert c Em. induction (shrinks_wf m) as [m _ IH]. intros c ->.
  constructor. intros c' Hc. eapply IH; [by apply acts_shrinks|done].
Qed.

End machine.
End Interleaving.
