(* ===== verification/Concurrency.v ===== *)
(** * What holds in every interleaving (src/src/server.rs)

    Every handler's program satisfies the logic of [Interleaving]; so, whatever
    the scheduler does, no task panics, hangs or waits forever, sessions move
    forward only, and tunnel addresses from the pools are handed out once. *)

From S2P Require Import Prelude Replay Buf Protocol Utf8 ControlChannel Primitives Crypto Prf.
From S2P Require Import Envelope TlsAuth TlsCrypt Text StaticKey Tls Certs Transport Config Masquerade.
From S2P Require Import Session SessionInv Server Frames ServerInv System Tasks Addressing Interleaving.

Module Concurrency.
Import Transport Session SessionInv Server Frames ServerInv System Tasks Addressing Interleaving.

Section concurrency.
Context {B : BufApi} {C : CryptoApi} {T : TlsApi}.
Context {BL : BufLaws B} {CL : CryptoLaws C} {TL : TlsLaws T}.
Context (self : VpnServer) (lo : Z) {cfg_ok : Prop} (HP : cfg_ok -> pools_ok self).

Abbreviation wp := (wp self lo cfg_ok).
Abbreviation world_ok := (world_ok self lo cfg_ok).
Abbreviation addr_good := (addr_good self cfg_ok).

(** ** Code that owns a session *)

(** From the session [s], the code ends with a result and a session that [R]
    accepts, and whose addresses are its own. *)
Definition lspec {A} (m : Locked A) (s : Session) (R : result A -> Session -> Prop) : Prop :=
  forall arc w h, world_ok w -> addr_good w.2 arc s ->
  wp (m s) w h (fun y w' h' =>
    world_ok w' /\ world_le w w' /\ h' = h /\ addr_good w'.2 arc y.2 /\ R y.1 y.2).

Definition fine {A} (s : Session) (r : result A) (s' : Session) : Prop := returns r /\ session_ok s' /\ sess_le s s'.
Definition lsafe {A} (m : Locked A) : Prop := forall s, session_ok s -> lspec m s (fine s).

Lemma lspec_conseq {A} (m : Locked A) s (R R' : result A -> Session -> Prop) :
  lspec m s R -> (forall r s', R r s' -> R' r s') -> lspec m s R'.
Proof.
  intros Hm HR arc w h Hw Ha. eapply wp_mono; [|by apply Hm]. intros [r s'] w' h' (? & ? & ? & ? & ?). split_and!; auto.
Qed.

Lemma lspec_bind {X Y} (m : Locked X) (f : X -> Locked Y) s (R1 : result X -> Session -> Prop) (R2 : result Y -> Session -> Prop) :
  lspec m s R1 -> (forall a s', R1 (Ok a) s' -> lspec (f a) s' R2) ->
  (forall e s', R1 (Err e) s' -> R2 (Err e) s') -> (forall s', ~ R1 Panic s') -> (forall s', ~ R1 Diverge s') ->
  lspec (m ≫= f) s R2.
Proof.
  intros Hm Hf He Hp Hd arc w h Hw Ha. unfold mbind, Locked_bind. apply wp_bind. eapply wp_mono; [|by apply Hm].
  intros [[a|e| |] s'] w' h' (H1 & H2 & -> & H4 & H5); cbn in *.
  - eapply wp_mono; [|by eapply (Hf a s')]. intros y w2 h2 (? & ? & ? & ? & ?). split_and!; try done. by etrans.
  - split_and!; auto.
  - by destruct (Hp s').
  - by destruct (Hd s').
Qed.

Lemma lsafe_bind {X Y} (m : Locked X) (f : X -> Locked Y) : lsafe m -> (forall a, lsafe (f a)) -> lsafe (m ≫= f).
Proof.
  intros Hm Hf s Hs. eapply lspec_bind; [by apply Hm|..].
  - intros a s' (_ & Hs' & Hle). eapply lspec_conseq; [by apply Hf|]. intros r s2 (? & ? & ?). split_and!; try done. by etrans.
  - by intros e s' (? & ? & ?).
  - by intros s' [? _].
  - by intros s' [? _].
Qed.

Lemma addr_good_quiet g arc s s' : addr_good g arc s -> sess_quiet s s' -> addr_good g arc s'.
Proof. intros [] [Q1 Q2 _]. by split; [rewrite Q1|rewrite Q2]. Qed.

Lemma lspec_ret {A} (a : A) s (R : result A -> Session -> Prop) : R (Ok a) s -> lspec (mret a) s R.
Proof. intros HR arc w h Hw Ha. cbn. by split_and!. Qed.
Lemma lsafe_ret {A} (a : A) : lsafe (mret a).
Proof. intros s Hs. apply lspec_ret. by split_and!; [..|reflexivity]. Qed.

(** A step of the session alone. *)
Lemma lspec_local {A} (m : M Session A) s : sess_quiet s (m s).2 -> lspec (local m) s (fun r s' => (r, s') = m s).
Proof.
  intros Hq arc w h Hw Ha. cbn. split_and!; try done; [by eapply addr_good_quiet|]. by destruct (m s).
Qed.
Lemma lsafe_local {A} (m : M Session A) : safe session_ok sess_le m -> Moves sess_quiet m -> lsafe (local m).
Proof.
  intros Hm Hq s Hs. eapply lspec_conseq; [apply lspec_local, Hq|]. intros r s' E.
  destruct (Hm s Hs) as (H1 & H2 & H3). rewrite <-E in H1, H2, H3. by split_and!.
Qed.
Lemma lspec_get {A} (f : Session -> Locked A) s R : lspec (f s) s R -> lspec (local get ≫= f) s R.
Proof. done. Qed.
Lemma lsafe_get {A} (f : Session -> Locked A) : (forall s, session_ok s -> lsafe (f s)) -> lsafe (local get ≫= f).
Proof. intros Hf s Hs. exact (Hf s Hs s Hs). Qed.
Lemma lsafe_lift {A} (r : result A) : returns r -> lsafe (local (lift r)).
Proof. intros Hr. apply lsafe_local; [apply safe_lift; [apply _|done]|apply _]. Qed.
Lemma lsafe_each {X} (f : X -> Locked unit) xs : (forall x, lsafe (f x)) -> lsafe (each f xs).
Proof. intros Hf. induction xs as [|x xs IH]; cbn; [apply lsafe_ret|]. by apply lsafe_bind. Qed.

(** ** Actions *)

(** An action that leaves the sessions and the pools alone. *)
Lemma world_ok_same w sh :
  world_ok w -> shared_ok self sh -> arcs sh = arcs w.1 -> next_pool_ip sh = next_pool_ip w.1 ->
  next_pool_ip_v6 sh = next_pool_ip_v6 w.1 -> world_ok (sh, w.2).
Proof. intros [] Hsh Ea E4 E6. constructor; cbn; rewrite ?Ea, ?E4, ?E6; assumption. Qed.

Record neutral {A} (op : M Shared A) : Prop := {
  ne_arcs : forall sh, arcs (op sh).2 = arcs sh;
  ne_pool : forall sh, next_pool_ip (op sh).2 = next_pool_ip sh;
  ne_pool6 : forall sh, next_pool_ip_v6 (op sh).2 = next_pool_ip_v6 sh;
}.

Lemma wp_neutral {A X} (op : M Shared X) (k : result X -> prog A) w h Q :
  neutral op -> (forall sh, shared_ok self sh -> shared_ok self (op sh).2) ->
  (forall w1, world_ok w1 -> world_le w w1 -> world_ok ((op w1.1).2, w1.2) -> world_le w ((op w1.1).2, w1.2) ->
    wp (k (op w1.1).1) ((op w1.1).2, w1.2) h Q) ->
  wp (Atomic op k) w h Q.
Proof.
  intros [Ea E4 E6] Hok Hk w1 Hw Hle. exists w1.2. cbv zeta.
  assert (world_ok ((op w1.1).2, w1.2)) as Hw2.
  { apply world_ok_same; auto. apply Hok, Hw. }
  split; [done|]. split; [reflexivity|]. split; [cbn; by rewrite Ea|]. apply Hk; try done.
  destruct Hle as [H1 H2]. split; [|exact H2]. cbn. rewrite Ea. exact H1.
Qed.

Lemma lsafe_neutral {A} (op : M Shared A) :
  neutral op -> (forall sh, shared_ok self sh -> returns (op sh).1 /\ shared_ok self (op sh).2) -> lsafe (atomic op).
Proof.
  intros Hn Hok s Hs arc w h Hw Ha. apply wp_neutral; [done|by intros; apply Hok|].
  intros w1 Hw1 Hle1 Hw2 Hle2. cbn. split_and!; try done.
  - eapply addr_good_mono; [exact Ha|apply Hle1].
  - split_and!; [apply Hok, Hw1|done|reflexivity].
Qed.

Lemma neutral_net {A} (m : M Net A) : neutral (on_net m).
Proof. split; intros sh; unfold on_net; by destruct (m (net sh)). Qed.
Lemma send_ok t wire sh :
  shared_ok self sh -> returns (on_net (send t wire) sh).1 /\ shared_ok self (on_net (send t wire) sh).2.
Proof.
  intros Hsh. destruct (safe_on_net self (send t wire)) with sh as (H1 & H2 & _); [|done..].
  intros n. destruct (send t wire n) as [r n'] eqn:E. by apply (send_sent t t) in E as [_ ?].
Qed.

(** ** Code that touches only the session

    It runs as in [Server], and what is known of it there holds. *)
Class Pure {A} (m : Locked A) : Prop := pure_ret s : exists y, m s = Ret y.

#[local] Instance pure_mret {A} (a : A) : Pure (mret a).
Proof. intros s. by eexists. Qed.
#[local] Instance pure_local {A} (m : M Session A) : Pure (local m).
Proof. intros s. by eexists. Qed.
#[local] Instance pure_bind {X Y} (m : Locked X) (f : X -> Locked Y) : Pure m -> (forall a, Pure (f a)) -> Pure (m ≫= f).
Proof.
  intros Hm Hf s. destruct (Hm s) as [[[a|e| |] s'] E]; unfold mbind, Locked_bind; rewrite E; cbn; [apply Hf|by eexists..].
Qed.
Ltac pure :=
  repeat first
    [ exact _
    | apply pure_bind
    | match goal with
      | |- forall _, _ => intros ?
      | |- Pure (let _ := _ in _) => cbv zeta
      | |- Pure (match ?x with _ => _ end) => destruct x
      end ].
#[local] Instance pure_key_exchange : Pure (Tasks.drive_key_exchange self).
Proof. unfold Tasks.drive_key_exchange. pure. Qed.
#[local] Instance pure_established : Pure Tasks.drive_established.
Proof. unfold Tasks.drive_established. pure. Qed.
#[local] Instance pure_drive_rekey : Pure (Tasks.drive_rekey_control_plane self).
Proof. unfold Tasks.drive_rekey_control_plane. pure. Qed.

Lemma lspec_pure {A} (m : Locked A) n s (R : result A -> Session -> Prop) :
  Pure m -> RunsL m n -> Moves quiet n ->
  (forall sh, shared_ok self sh -> R (n (s, sh)).1 (n (s, sh)).2.1) -> lspec m s R.
Proof.
  intros Hp Hr Hq HR arc w h Hw Ha. destruct (Hp s) as [[r s'] E]. rewrite E. cbn.
  specialize (HR w.1 (wo_shared _ _ _ _ Hw)). pose proof (Hq (s, w.1)) as Q. pose proof (Hr s w.1) as Hrun.
  rewrite E in Hrun. destruct (n (s, w.1)) as [r0 [s0 sh0]]. cbn in *. injection Hrun as <- <- _.
  split_and!; try done. destruct Q as [Q _]. by eapply addr_good_quiet.
Qed.
Lemma lsafe_pure {A} (m : Locked A) n :
  Pure m -> RunsL m n -> Moves quiet n -> safe (ctx_ok self) ctx_le n -> lsafe m.
Proof.
  intros Hp Hr Hq Hn s Hs. eapply lspec_pure; [done|exact Hr|done|]. intros sh Hsh.
  destruct (Hn (s, sh) (conj Hs Hsh)) as (H1 & [H2 _] & [H3 _]). by split_and!.
Qed.

(** ** Sending *)

(** Sending leaves the session's addresses alone. *)
Definition lquiet {A} (m : Locked A) : Prop :=
  forall s, session_ok s -> lspec m s (fun r s' => fine s r s' /\ sess_quiet s s').
Lemma lquiet_safe {A} (m : Locked A) : lquiet m -> lsafe m.
Proof. intros Hm s Hs. eapply lspec_conseq; [by apply Hm|]. by intros r s' [? _]. Qed.
Lemma lquiet_bind {X Y} (m : Locked X) (f : X -> Locked Y) : lquiet m -> (forall a, lquiet (f a)) -> lquiet (m ≫= f).
Proof.
  intros Hm Hf s Hs. eapply lspec_bind; [by apply Hm|..].
  - intros a s' [(_ & Hs' & Hle) Hq]. eapply lspec_conseq; [by apply Hf|].
    intros r s2 [(? & ? & ?) ?]. split; [split_and!; try done|]; by etrans.
  - by intros e s' [(? & ? & ?) ?].
  - by intros s' [[? _] _].
  - by intros s' [[? _] _].
Qed.
Lemma lquiet_local {A} (m : M Session A) : safe session_ok sess_le m -> Moves sess_quiet m -> lquiet (local m).
Proof.
  intros Hm Hq s Hs. eapply lspec_conseq; [apply lspec_local, Hq|]. intros r s' E.
  destruct (Hm s Hs) as (H1 & H2 & H3). pose proof (Hq s) as H4. rewrite <-E in H1, H2, H3, H4. by split_and!.
Qed.

Lemma lquiet_send_sess wire : lquiet (Tasks.send_sess wire).
Proof.
  apply lquiet_bind; [apply lquiet_local; [apply safe_gets; apply _|apply _]|]. intros t s Hs arc w h Hw Ha.
  apply wp_neutral; [apply neutral_net|by intros; apply send_ok|]. intros w1 Hw1 Hle1 Hw2 Hle2. cbn. split_and!; try done.
  - eapply addr_good_mono; [exact Ha|apply Hle1].
  - split_and!; [apply send_ok, Hw1|done|reflexivity].
Qed.
Lemma lquiet_send_and_track env pkt : lquiet (Tasks.send_and_track self env pkt).
Proof.
  apply lquiet_bind; [apply lquiet_local; [apply wrap_for_wire_safe|apply _]|]. intros wire.
  apply lquiet_bind; [apply lquiet_send_sess|]. intros _.
  destruct (Protocol.packet_id pkt); [apply lquiet_local; [apply record_sent_safe|apply _]|].
  intros s Hs. apply lspec_ret. by split_and!; [..|reflexivity].
Qed.
Lemma lsafe_send_sess wire : lsafe (Tasks.send_sess wire).
Proof. apply lquiet_safe, lquiet_send_sess. Qed.
Lemma lsafe_send_and_track env pkt : lsafe (Tasks.send_and_track self env pkt).
Proof. apply lquiet_safe, lquiet_send_and_track. Qed.
Lemma lsafe_send_chunks env k out : lsafe (Tasks.send_chunks self env k out).
Proof.
  apply lsafe_each. intros chunk. apply lsafe_bind; [apply lsafe_local; [apply make_control_safe|apply _]|].
  intros pkt. apply lsafe_send_and_track.
Qed.
Lemma take_outgoing_safe : safe session_ok sess_le take_outgoing_main.
Proof.
  intros s Hs. unfold take_outgoing_main. destruct (Tls.take_outgoing (tls s)) as [out t].
  split; [done|]. split; [by apply set_tls_ok|by constructor].
Qed.
Lemma lsafe_flush env : lsafe (Tasks.flush_outgoing self env).
Proof.
  apply lsafe_bind; [apply lsafe_local; [apply take_outgoing_safe|apply _]|]. intros out.
  apply lsafe_get. intros s Hs. destruct (active_key_id_ok s Hs) as (k & Ek & _). rewrite Ek. destruct out as [|b out].
  - destruct (pending_acks s) as [|p pids]; [apply lsafe_ret|].
    apply lsafe_bind; [apply lsafe_local; [apply clear_pending_safe|by intros ?]|]. intros _.
    apply lsafe_bind; [by apply lsafe_lift|]. intros k'.
    apply lsafe_bind; [apply lsafe_local; [apply make_ack_safe|apply _]|]. intros ack.
    apply lsafe_bind; [apply lsafe_local; [apply wrap_for_wire_safe|apply _]|]. intros wire. apply lsafe_send_sess.
  - apply lsafe_bind; [by apply lsafe_lift|]. intros k'. apply lsafe_send_chunks.
Qed.

(** ** Rekeying *)

Lemma lsafe_flush_rekey env : lsafe (Tasks.flush_rekey_outgoing self env).
Proof.
  apply lsafe_get. intros s Hs. destruct (rekey s) as [rk|]; [|apply lsafe_ret].
  apply lsafe_bind; [apply lsafe_local; [apply safe_on_rekey, rk_safe_tls|apply _]|].
  - intros t. by destruct (Tls.take_outgoing t).
  - intros [|b out]; [apply lsafe_ret|apply lsafe_send_chunks].
Qed.
Lemma lsafe_rekey_control env ctrl : lsafe (Tasks.handle_rekey_control self env ctrl).
Proof.
  apply lsafe_get. intros s Hs. destruct (rekey s) as [rk|]; [|apply lsafe_ret].
  apply lsafe_bind; [apply lsafe_local; [apply safe_on_rekey|apply _]|].
  { apply rk_safe_bind; [apply rk_safe_tls, Tls.feed_returns|]. intros _.
    apply rk_safe_bind; [by intros rk'|]. intros rk'. by destruct (_ && _). }
  intros _. apply lsafe_bind; [eapply lsafe_pure; [apply _|apply _|apply _|apply drive_rekey_safe]|]. intros _.
  apply lsafe_bind; [apply lsafe_flush_rekey|]. intros _. apply lsafe_get. intros s' Hs'.
  destruct (rekey s') as [rk'|]; [|apply lsafe_ret]. destruct (rk_key_method_sent rk'); [|apply lsafe_ret].
  apply lsafe_bind; [apply lsafe_local; [apply promote_slot_safe|apply _]|]. intros _.
  apply lsafe_bind; [apply lsafe_local; [apply clear_rekey_safe|by intros ?]|]. intros _.
  apply lsafe_local; [apply set_last_rekey_safe|by intros ?].
Qed.
Lemma lsafe_soft_reset env ctrl : 0 <= Protocol.key_id ctrl < 8 -> lsafe (Tasks.handle_soft_reset self env ctrl).
Proof.
  intros Hk. apply lsafe_get. intros s Hs. destruct (rekey s); [apply lsafe_ret|]. destruct (negb _); [apply lsafe_ret|].
  apply lsafe_bind; [apply lsafe_lift, tls_new_returns|]. intros t.
  apply lsafe_bind; [apply lsafe_local; [by apply start_rekey_safe|apply _]|]. intros _.
  apply lsafe_bind; [apply lsafe_local; [apply make_soft_reset_reply_safe|apply _]|]. intros p. apply lsafe_send_and_track.
Qed.
Lemma lsafe_server_rekey env : lsafe (Tasks.start_server_rekey self env).
Proof.
  apply lsafe_get. intros s Hs. destruct (negb _); [apply lsafe_ret|].
  destruct (active_key_id_ok s Hs) as (k & -> & Hk). apply lsafe_bind; [by apply lsafe_lift|]. intros k'.
  apply lsafe_bind; [apply lsafe_lift, tls_new_returns|]. intros t.
  apply lsafe_bind; [apply lsafe_local; [apply start_rekey_safe; rewrite Protocol.land7_mod; by apply Z.mod_pos_bound|apply _]|].
  intros _. apply lsafe_bind; [apply lsafe_local; [apply set_last_rekey_safe|by intros ?]|]. intros _.
  apply lsafe_bind; [apply lsafe_local; [apply make_soft_reset_init_safe|apply _]|]. intros p. apply lsafe_send_and_track.
Qed.
Lemma lsafe_shutdown env : lsafe (Tasks.shutdown_one self env).
Proof.
  apply lsafe_get. intros s Hs. destruct (negb _); [apply lsafe_ret|].
  apply lsafe_bind; [apply lsafe_local; [apply safe_on_tls, send_plaintext_returns|apply _]|]. intros _. apply lsafe_flush.
Qed.

(** ** Answering PUSH_REQUEST *)

(** Remember that [ip] was handed out for [arc]. *)
Definition claim (ip : Z) (arc : nat) (m : gmap Z nat) : gmap Z nat :=
  match m !! ip with Some _ => m | None => <[ip := arc]> m end.
Lemma claim_grows ip arc m : m ⊆ claim ip arc m.
Proof. unfold claim. destruct (m !! ip) eqn:E; [done|by apply insert_subseteq]. Qed.
Lemma claim_new ip arc m : m !! ip = None -> claim ip arc m !! ip = Some arc.
Proof. intros E. unfold claim. by rewrite E, lookup_insert_eq. Qed.
Lemma claim_Some ip arc m ip' arc' : claim ip arc m !! ip' = Some arc' -> ip' = ip \/ m !! ip' = Some arc'.
Proof. unfold claim. destruct (m !! ip); [by right|]. intros [[<- _]|[_ ?]]%lookup_insert_Some; auto. Qed.

Definition handed_out {A} (arc : nat) (s : Session) (w : world) (h : option (nat * Session)) (own : Ghost -> A -> Prop)
    (y : result A * Session) (w' : world) (h' : option (nat * Session)) : Prop :=
  world_ok w' /\ world_le w w' /\ h' = h /\ y.2 = s /\ returns y.1 /\ forall a, y.1 = Ok a -> cfg_ok -> own w'.2 a.

Lemma allocate_world arc w :
  let ip := next_pool_ip w.1 in let g := MkGhost (claim ip arc (g4 w.2)) (g6 w.2) in
  world_ok w -> ip <= pool_end self ->
  world_ok (set_next_pool_ip (wrapping_add 32 ip 1) w.1, g) /\ ghost_le w.2 g /\ (cfg_ok -> g4 g !! ip = Some arc).
Proof.
  intros ip g Hw Hip. assert (ghost_le w.2 g) as Hg by (split; [apply claim_grows|done]).
  pose proof (allocate_ip_safe self w.1 (wo_shared _ _ _ _ Hw)) as (_ & Hsh & _). unfold allocate_ip in Hsh.
  fold ip in Hsh. rewrite (proj2 (Z.ltb_ge _ _) Hip) in Hsh. cbn in Hsh. pose proof (sh_pool self w.1 (wo_shared _ _ _ _ Hw)) as Hp32.
  assert (cfg_ok -> wrapping_add 32 ip 1 = ip + 1) as Hnext.
  { intros [? _]%HP. unfold wrapping_add. apply wrap_small. unfold uint_ok in *. fold ip in Hp32. lia. }
  split; [|split; [done|]].
  - destruct Hw. constructor; cbn; try assumption.
    + intros a s0 Hs0. eapply addr_good_mono; [by apply wo_addr0|done].
    + intros Hp ip' a Hip'. rewrite (Hnext Hp). pose proof (wo_lo0 Hp) as Hlo. fold ip in Hlo.
      apply claim_Some in Hip' as [->|Hip']; [lia|]. pose proof (wo_issued0 Hp ip' a Hip') as H. fold ip in H. lia.
    + intros Hp. rewrite (Hnext Hp). pose proof (wo_lo0 Hp) as Hlo. fold ip in Hlo. lia.
  - intros Hp. apply claim_new. destruct (g4 w.2 !! ip) as [a|] eqn:E; [|done].
    pose proof (wo_issued _ _ _ _ Hw Hp ip a E) as H. fold ip in H. lia.
Qed.
Lemma wp_allocate arc s w h :
  wp (atomic (allocate_ip self) s) w h (handed_out arc s w h (fun g ip => g4 g !! ip = Some arc)).
Proof.
  intros w1 Hw1 Hle. destruct (allocate_ip_safe self w1.1 (wo_shared _ _ _ _ Hw1)) as (Hr & _ & _).
  unfold allocate_ip in *. destruct (Z.ltb_spec (pool_end self) (next_pool_ip w1.1)) as [Hlt|Hge]; cbn in *.
  { exists w1.2. destruct w1. by split_and!; [..|split_and!]. }
  destruct (allocate_world arc w1 Hw1 Hge) as (H1 & H2 & H3). eexists. split; [exact H1|]. split; [done|]. split; [done|].
  split_and!; try done; [|by intros a [= <-]]. destruct Hle as [H4 H5]. split; [exact H4|]. by etrans.
Qed.

Lemma allocate6_world arc w ip e :
  let g := MkGhost (g4 w.2) (claim ip arc (g6 w.2)) in
  world_ok w -> next_pool_ip_v6 w.1 = Some ip -> pool_end_v6 self = Some e -> ip <= e ->
  world_ok (set_next_pool_ip_v6 (Some (wrapping_add 128 ip 1)) w.1, g) /\ ghost_le w.2 g /\
  (cfg_ok -> g6 g !! ip = Some arc).
Proof.
  intros g Hw Eip Ee Hip. assert (ghost_le w.2 g) as Hg by (split; [done|apply claim_grows]).
  pose proof (allocate_ip_v6_safe self w.1 (wo_shared _ _ _ _ Hw)) as (_ & Hsh & _). unfold allocate_ip_v6 in Hsh.
  rewrite Eip, Ee, (proj2 (Z.ltb_ge _ _) Hip) in Hsh. cbn in Hsh.
  assert (cfg_ok -> wrapping_add 128 ip 1 = ip + 1) as Hnext.
  { intros Hp. pose proof (wo_next6 _ _ _ _ Hw Hp ip Eip). pose proof (po_end6 _ (HP Hp) e Ee). unfold wrapping_add. apply wrap_small. unfold uint_ok in *. lia. }
  split; [|split; [done|]].
  - destruct Hw. constructor; cbn; try assumption.
    + intros a s0 Hs0. eapply addr_good_mono; [by apply wo_addr0|done].
    + intros _ n [= <-]. by apply wrap_ok.
    + intros ip' a Hip' Hp. eexists. split; [done|]. rewrite (Hnext Hp).
      apply claim_Some in Hip' as [->|Hip']; [lia|]. destruct (wo_issued7 ip' a Hip' Hp) as (n & E & Hn).
      rewrite Eip in E. injection E as <-. lia.
  - intros Hp. apply claim_new. destruct (g6 w.2 !! ip) as [a|] eqn:E; [|done].
    destruct (wo_issued6 _ _ _ _ Hw ip a E Hp) as (n & En & Hn). rewrite Eip in En. injection En as <-. lia.
Qed.
Lemma wp_allocate6 arc s w h :
  wp (atomic (allocate_ip_v6 self) s) w h (handed_out arc s w h (fun g o => forall ip, o = Some ip -> g6 g !! ip = Some arc)).
Proof.
  intros w1 Hw1 Hle. destruct (allocate_ip_v6_safe self w1.1 (wo_shared _ _ _ _ Hw1)) as (Hr & _ & _).
  unfold allocate_ip_v6 in *. destruct (next_pool_ip_v6 w1.1) as [ip|] eqn:Eip; cbn in *.
  2: { exists w1.2. destruct w1. split_and!; try done. split_and!; try done. by intros a [= <-]. }
  destruct (pool_end_v6 self) as [e|] eqn:Ee; [|done]. destruct (Z.ltb_spec e ip) as [Hlt|Hge]; cbn in *.
  { exists w1.2. destruct w1. by split_and!; [..|split_and!]. }
  destruct (allocate6_world arc w1 ip e Hw1 Eip Ee Hge) as (H1 & H2 & H3). eexists. split; [exact H1|]. split; [done|].
  split; [done|]. split_and!; try done; [|by intros a [= <-] Hp ip' [= <-]; apply H3].
  destruct Hle as [H4 H5]. split; [exact H4|]. by etrans.
Qed.

Lemma neutral_gets {A} (f : Shared -> A) : neutral (gets f).
Proof. by split. Qed.

Lemma wp_choose_ip arc s w h :
  let cc := client_cn s ≫= fun cn => Config.client_configs (cfg self) !! cn in
  world_ok w ->
  wp (Tasks.choose_ip self cc s) w h (handed_out arc s w h (fun g ip => static self ip \/ g4 g !! ip = Some arc)).
Proof.
  cbv zeta. set (cc := client_cn s ≫= _). intros Hw. unfold Tasks.choose_ip.
  assert (forall v4, cc ≫= Config.assign_ip = Some (V4 v4) -> static self v4) as Hst.
  { subst cc. intros v4 (c & Hcc & Ha)%bind_Some. apply bind_Some in Hcc as (cn & _ & Hc). by exists cn, c. }
  destruct (cc ≫= Config.assign_ip) as [[v4|v6]|] eqn:E.
  - unfold mbind, Locked_bind. apply wp_bind. apply wp_neutral; [apply neutral_gets|done|].
    intros w1 Hw1 _ _ Hle1. cbn -[bool_decide]. case_bool_decide; cbn; destruct w1; split_and!; try done.
    intros a [= <-] _. left. by apply Hst.
  - by split_and!.
  - eapply wp_mono; [|apply wp_allocate]. intros y w' h' (H1 & H2 & H3 & H4 & H5 & H6). split_and!; try done.
    intros a Ea Hp. right. by apply H6.
Qed.

(** Running on under the lock after a result. *)
Lemma wp_then {X Y} (m : Locked X) (f : X -> Locked Y) s w h Q :
  wp (m s) w h (fun y w' h' => returns y.1 /\ match y.1 with
    | Ok a => wp (f a y.2) w' h' Q
    | Err e => Q (Err e, y.2) w' h'
    | _ => True
    end) -> wp ((m ≫= f) s) w h Q.
Proof.
  intros Hm. unfold mbind, Locked_bind. apply wp_bind. eapply wp_mono; [|exact Hm].
  intros [[a|e| |] s'] w' h' [Hr H]; done.
Qed.

Lemma lspec_finish_push reply s :
  session_ok s -> state s = PushPending -> (exists ip, assigned_ip s = Some (V4 ip)) ->
  lspec (local (on_tls (Tls.send_plaintext reply)) ≫= fun _ => local (modify (set_state Established))) s
    (fun r s' => fine s r s' /\ Tls.plaintext_in (tls s') = Tls.plaintext_in (tls s)).
Proof.
  intros Hs Hst Hip. eapply lspec_pure; [pure|apply _|..].
  - apply moves_bind; [apply _|apply _|]. intros _. apply on_sess_quiet, _.
  - intros sh Hsh. destruct (finish_push_safe self reply s sh (conj Hs Hsh) Hst Hip) as (H1 & [H2 _] & [H3 _] & H4).
    by split_and!.
Qed.

(** The answer from the point where the tunnel addresses are known. *)
Lemma wp_push_tail reply arc s0 s w0 w h :
  session_ok s -> state s = PushPending -> (exists ip, assigned_ip s = Some (V4 ip)) -> sess_le s0 s ->
  Tls.plaintext_in (tls s) = Tls.plaintext_in (tls s0) -> world_ok w -> world_le w0 w -> addr_good w.2 arc s ->
  wp ((local (on_tls (Tls.send_plaintext reply)) ≫= fun _ => local (modify (set_state Established))) s) w h
    (fun y w' h' => world_ok w' /\ world_le w0 w' /\ h' = h /\ addr_good w'.2 arc y.2 /\
      fine s0 y.1 y.2 /\ Tls.plaintext_in (tls y.2) = Tls.plaintext_in (tls s0)).
Proof.
  intros Hs Hst Hip Hle Hpt Hw Hwle Ha. eapply wp_mono; [|by apply lspec_finish_push].
  intros [r s'] w' h' (H1 & H2 & H3 & H4 & (H5 & H6 & H7) & H8). split_and!; try done; [by etrans| |by rewrite H8].
  split_and!; try done. by etrans.
Qed.

Lemma lspec_push_request addr s :
  session_ok s -> state s = PushPending ->
  lspec (Tasks.handle_push_request self addr) s
    (fun r s' => fine s r s' /\ Tls.plaintext_in (tls s') = Tls.plaintext_in (tls s)).
Proof.
  intros Hs Hst arc w h Hw Ha. unfold Tasks.handle_push_request. apply wp_then. cbn [local get]. split; [done|]. cbv zeta.
  apply wp_then. eapply wp_mono; [|by apply (wp_choose_ip arc)].
  intros [r sx] w1 ? (Hw1 & Hle1 & -> & Hx & Hr & Hip). cbn in Hx. subst sx. cbn in Hr, Hip. split; [done|].
  assert (addr_good w1.2 arc s) as Ha1 by (eapply addr_good_mono; [exact Ha|apply Hle1]).
  destruct r as [ip|e| |]; cbn [fst snd]; [|by split_and!|done..].
  set (s1 := set_assigned_ip (Some (V4 ip)) s). specialize (Hip ip eq_refl).
  assert (addr_good w1.2 arc s1) as Hg1 by (split; [intros ip' [= <-]; apply Hip|apply Ha1]).
  assert (session_ok s1) as Hs1 by by apply set_assigned_ip_ok. assert (sess_le s s1) as Hsle1 by by constructor.
  apply wp_then. split; [done|]. cbn [fst snd local modify]. fold s1. apply wp_then. apply wp_neutral; [by split| |].
  { intros sh Hsh. apply (insert_route_safe self ip addr sh Hsh). }
  intros w2' _ Hle2' Hw2 Hle2. cbn in Hle2', Hw2, Hle2 |- *. split; [done|]. cbn [fst snd]. apply wp_then.
  set (w2 := (set_routes _ w2'.1, w2'.2)) in *. eapply wp_mono; [|apply (wp_allocate6 arc)].
  intros [r sx] w3 ? (Hw3 & Hle3 & -> & Hx & Hr3 & Hip6). cbn in Hx. subst sx. cbn in Hr3, Hip6. split; [done|].
  assert (world_le w w3) as Hle by (etrans; [exact Hle1|]; etrans; [exact Hle2|exact Hle3]).
  assert (addr_good w3.2 arc s1) as Hg3.
  { eapply addr_good_mono; [exact Hg1|]. etrans; [apply Hle2|apply Hle3]. }
  destruct r as [ip6|e| |]; cbn [fst snd]; [|by split_and!|done..]. specialize (Hip6 ip6 eq_refl).
  apply wp_then. destruct ip6 as [v6|].
  - apply wp_then. split; [done|]. cbn [fst snd local modify]. set (s2 := set_assigned_ip_v6 (Some v6) s1).
    apply wp_neutral; [by split| |].
    { intros sh Hsh. apply (insert_route_v6_safe self v6 addr sh Hsh). }
    intros w4' _ Hle4' Hw4 Hle4. cbn in Hle4', Hw4, Hle4 |- *. split; [done|]. cbn [fst snd].
    apply wp_push_tail; try done; [by apply set_assigned_ip_v6_ok|by exists ip|by etrans|].
    eapply (addr_good_mono _ _ w3.2); [|apply Hle4].
    split; [apply Hg3|]. intros ip' [= <-] Hp. by apply Hip6.
  - split; [done|]. cbn [fst snd]. apply wp_push_tail; try done. by exists ip.
Qed.

(** ** The control plane *)

Definition passes (s : Session) (r : result bool) (s' : Session) : Prop :=
  fine s r s' /\ (r = Ok true -> (length (Tls.plaintext_in (tls s')) < length (Tls.plaintext_in (tls s)))%nat).

Lemma lspec_pass m n s : Pure m -> RunsL m n -> Moves quiet n ->
  (forall sh, shared_ok self sh -> pass_ok self (s, sh) (n (s, sh))) -> lspec m s (passes s).
Proof.
  intros Hp Hr Hq Hn. eapply lspec_pure; [done|exact Hr|done|]. intros sh Hsh.
  destruct (Hn sh Hsh) as (H1 & [H2 _] & [H3 _] & H4). by split_and!.
Qed.

Lemma lspec_push_pending addr s :
  session_ok s -> state s = PushPending -> lspec (Tasks.drive_push_pending self addr) s (passes s).
Proof.
  intros Hs Hst. unfold Tasks.drive_push_pending. apply lspec_get.
  destruct (ControlChannel.try_pop_ascii (Tls.plaintext_in (tls s))) as [msg n|] eqn:Ep.
  2: { apply lspec_ret. split; [by split_and!; [..|reflexivity]|done]. }
  apply ControlChannel.try_pop_ascii_bound in Ep.
  eapply (lspec_bind _ _ _ (fun r s' => (r, s') = on_tls (Tls.drain_plaintext n) s)); [apply lspec_local, on_tls_quiet|..];
    rewrite on_tls_run, drain_plaintext_run by lia; [|done..].
  cbn [fst snd]. set (s1 := set_tls _ s). intros ? sx Hx. simplify_eq Hx. intros _ ->.
  assert (session_ok s1) as Hs1 by by apply set_tls_ok. assert (sess_le s s1) as Hle1 by by constructor.
  assert (length (Tls.plaintext_in (tls s1)) < length (Tls.plaintext_in (tls s)))%nat as Hlt.
  { cbn. rewrite length_drop. lia. }
  eapply (lspec_bind _ _ _ (fun r s' => fine s1 r s' /\ Tls.plaintext_in (tls s') = Tls.plaintext_in (tls s1))).
  - case_bool_decide; cbn [when_locked]; [by apply lspec_push_request|]. apply lspec_ret. by split_and!; [..|reflexivity].
  - intros _ s2 [(_ & H2 & H3) H4]. apply lspec_ret. split; [split_and!; try done; by etrans|]. intros _. by rewrite H4.
  - intros e s2 [(H1 & H2 & H3) H4]. split; [split_and!; try done; by etrans|done].
  - by intros s2 [[? _] _].
  - by intros s2 [[? _] _].
Qed.

Lemma lspec_drive_step addr s : session_ok s -> lspec (Tasks.drive_step self addr) s (passes s).
Proof.
  intros Hs. change (lspec (match state s with
    | KeyExchange => Tasks.drive_key_exchange self
    | PushPending => Tasks.drive_push_pending self addr
    | Established => Tasks.drive_established
    | _ => mret false
    end) s (passes s)).
  assert (lspec (mret false) s (passes s)) as Hstop.
  { apply lspec_ret. split; [by split_and!; [..|reflexivity]|done]. }
  destruct (state s) eqn:Est; [done|done| | | |done].
  - eapply lspec_pass; [apply _..|]. intros sh Hsh. by apply drive_key_exchange_pass.
  - by apply lspec_push_pending.
  - eapply lspec_pass; [apply _..|]. intros sh Hsh. by apply drive_established_pass.
Qed.

Lemma lspec_drive_loop fuel addr s :
  session_ok s -> (length (Tls.plaintext_in (tls s)) < fuel)%nat -> lspec (Tasks.drive_loop fuel self addr) s (fine s).
Proof.
  revert s. induction fuel as [|fuel IH]; intros s Hs Hf; [lia|]. cbn [Tasks.drive_loop].
  eapply lspec_bind; [by apply lspec_drive_step|..].
  - intros [] s' [(_ & H2 & H3) H4]; [|apply lspec_ret; by split_and!].
    eapply lspec_conseq; [apply IH; [done|]; specialize (H4 eq_refl); lia|].
    intros r s2 (? & ? & ?). split_and!; try done. by etrans.
  - by intros e s' [(? & ? & ?) _].
  - by intros s' [[? _] _].
  - by intros s' [[? _] _].
Qed.
Lemma lsafe_drive addr : lsafe (Tasks.drive_control_plane self addr).
Proof. intros s Hs. apply lspec_get. apply lspec_drive_loop; [done|lia]. Qed.

Lemma lsafe_control_v1 env addr ctrl : lsafe (Tasks.handle_control_v1 self env addr ctrl).
Proof.
  apply lsafe_get. intros s Hs. cbv zeta.
  destruct (match rekey s with Some r => _ | None => _ end); [apply lsafe_rekey_control|].
  apply lsafe_bind; [apply lsafe_local; [apply safe_on_tls, Tls.feed_returns|apply _]|]. intros _ s1 Hs1. apply lspec_get.
  assert (lsafe (Tasks.drive_control_plane self addr ≫= fun _ => Tasks.flush_outgoing self env)) as Htail.
  { apply lsafe_bind; [apply lsafe_drive|]. intros _. apply lsafe_flush. }
  eapply (lspec_bind _ _ _ (fine s1)).
  - case_bool_decide as Hst; cbn [andb when_locked]; [|by apply lsafe_ret]. destruct (negb _); cbn [when_locked]; [|by apply lsafe_ret].
    eapply lspec_conseq; [apply lspec_local, finalize_keys_quiet|]. intros r s' E.
    destruct (finalize_keys_safe s1 Hs1 Hst) as (F1 & F2 & F3). rewrite <-E in F1, F2, F3. by split_and!.
  - intros _ s2 (_ & H2 & H3). eapply lspec_conseq; [by apply Htail|].
    intros r s3 (? & ? & ?). split_and!; try done. by etrans.
  - by intros e s' (? & ? & ?).
  - by intros s' [? _].
  - by intros s' [? _].
Qed.

Lemma lsafe_known env addr ctrl pid :
  Protocol.packet_ok ctrl -> (forall p, pid = Some p -> u32_ok p) -> lsafe (Tasks.handle_known self env addr ctrl pid).
Proof.
  intros Hc Hp. apply lsafe_bind; [apply lsafe_local; [apply set_last_seen_safe|by intros ?]|]. intros _.
  apply lsafe_bind; [apply lsafe_local; [by apply check_replay_safe|apply _]|]. intros _.
  apply lsafe_bind.
  { destruct (Protocol.acks ctrl); [apply lsafe_ret|apply lsafe_local; [apply process_acks_safe|apply _]]. }
  intros _. apply lsafe_bind.
  { destruct (Protocol.packet_id ctrl) as [q|] eqn:E; [|apply lsafe_ret].
    apply lsafe_local; [|apply _]. apply note_received_safe. by apply (Protocol.pk_pid ctrl Hc). }
  intros _. destruct (Protocol.op ctrl); try apply lsafe_ret.
  - apply lsafe_soft_reset, Hc.
  - apply lsafe_control_v1.
Qed.

(** ** Tasks *)

Definition tspec {A} (p : Task A) (w : world) (R : A -> world -> Prop) : Prop :=
  wp p w None (fun r w' h => world_ok w' /\ world_le w w' /\ h = None /\ returns r /\ forall a, r = Ok a -> R a w').
Definition anything {A} (_ : A) (_ : world) : Prop := True.
Abbreviation tsafe p w := (tspec p w anything).

Lemma tspec_bind {X Y} (p : Task X) (f : X -> Task Y) w R1 R2 :
  tspec p w R1 -> (forall a w', world_ok w' -> world_le w w' -> R1 a w' -> tspec (f a) w' R2) -> tspec (p ≫= f) w R2.
Proof.
  intros Hp Hf. unfold mbind, Task_bind. apply wp_bind. eapply wp_mono; [|exact Hp].
  intros [a|e| |] w' h (H1 & H2 & -> & H4 & H5); [|by split_and!|done..].
  eapply wp_mono; [|by apply Hf, H5]. intros r w2 h2 (? & ? & ? & ? & ?). split_and!; try done. by etrans.
Qed.
Lemma tspec_ret {A} (a : A) w (R : A -> world -> Prop) : world_ok w -> R a w -> tspec (mret a) w R.
Proof. intros Hw HR. cbn. split_and!; try done. by intros ? [= <-]. Qed.
Lemma tspec_result {A} (r : result A) w (R : A -> world -> Prop) :
  world_ok w -> returns r -> (forall a, r = Ok a -> R a w) -> tspec (Ret r) w R.
Proof. intros Hw Hr HR. cbn. by split_and!. Qed.
Lemma tsafe_logged {A} (p : Task A) w : tsafe p w -> tsafe (logged p) w.
Proof.
  intros Hp. apply wp_bind. eapply wp_mono; [|exact Hp]. intros [a|e| |] w' h (H1 & H2 & -> & H4 & H5); by split_and!.
Qed.

Lemma tspec_atomically {A} (op : M Shared A) w (R : A -> world -> Prop) :
  neutral op -> (forall sh, shared_ok self sh -> returns (op sh).1 /\ shared_ok self (op sh).2) ->
  (forall w1 a, world_ok w1 -> world_le w w1 -> (op w1.1).1 = Ok a -> R a ((op w1.1).2, w1.2)) -> tspec (atomically op) w R.
Proof.
  intros Hn Hok HR. apply wp_neutral; [done|by intros; apply Hok|]. intros w1 Hw1 Hle1 Hw2 Hle2. cbn. split_and!; try done.
  - apply Hok, Hw1.
  - intros a Ea. by apply HR.
Qed.
Lemma tsafe_atomically {A} (op : M Shared A) w :
  neutral op -> (forall sh, shared_ok self sh -> returns (op sh).1 /\ shared_ok self (op sh).2) -> tsafe (atomically op) w.
Proof. intros. by apply tspec_atomically. Qed.

Lemma tspec_find addr w :
  tspec (find_session addr) w (fun o w' => forall arc, o = Some arc -> is_Some (arcs w'.1 !! arc)).
Proof.
  apply tspec_atomically; [by split|done|]. intros w1 a Hw1 _ [= <-] arc Harc.
  by apply (sh_sessions self w1.1 (wo_shared _ _ _ _ Hw1) addr).
Qed.

Lemma tsafe_locked {A} arc (m : Locked A) w :
  lsafe m -> world_ok w -> is_Some (arcs w.1 !! arc) -> tsafe (Tasks.locked arc m) w.
Proof.
  intros Hm Hw Ha. cbn. split; [done|]. split; [done|]. intros w1 s Hw1 Hle1 Hs. apply wp_bind.
  assert (session_ok s) as Hsok by by apply (sh_arcs self w1.1 (wo_shared _ _ _ _ Hw1)) in Hs.
  eapply wp_mono; [|apply (Hm s Hsok arc w1 (Some (arc, s)) Hw1), (wo_addr _ _ _ _ Hw1), Hs].
  intros [r s'] w2 h (Hw2 & Hle2 & -> & Ha2 & (H1 & H2 & H3)). cbn in *. exists s. split_and!; try done.
  intros w3 Hw3 Hle3 Hs3. split_and!; try done.
  - apply (world_ok_unlock self lo cfg_ok w3 arc s); try done. eapply addr_good_mono; [exact Ha2|apply Hle3].
  - assert (world_le w w3) as [H4 H5] by (etrans; [exact Hle1|]; by etrans). split; [|exact H5].
    cbn. intros a Hb. apply lookup_insert_is_Some'. right. by apply H4.
Qed.
Lemma tsafe_for_session addr m w : lsafe m -> tsafe (Tasks.for_session addr m) w.
Proof.
  intros Hm. eapply tspec_bind; [apply tspec_find|]. intros [arc|] w' Hw Hle Ha; [|by apply tspec_ret].
  apply tsafe_logged, tsafe_locked; auto.
Qed.
Lemma tsafe_each {X} (f : X -> Task unit) xs w :
  world_ok w -> (forall x w', world_ok w' -> x ∈ xs -> tsafe (f x) w') -> tsafe (each_task f xs) w.
Proof.
  revert w. induction xs as [|x xs IH]; intros w Hw Hf; cbn; [by apply tspec_ret|].
  eapply tspec_bind; [apply Hf; [done|left]|]. intros _ w' Hw' _ _. apply IH; [done|]. intros y w2 Hw2 Hy. apply Hf; [done|by right].
Qed.

(** The removals when a session is forgotten. *)
Lemma release_neutral s op : op ∈ releases s ->
  neutral op /\ forall sh, shared_ok self sh -> returns (op sh).1 /\ shared_ok self (op sh).2.
Proof.
  unfold releases. intros Hop.
  assert (exists f, op = modify f /\ forall sh, sessions (f sh) = sessions sh /\ arcs (f sh) = arcs sh /\ next_ref (f sh) = next_ref sh /\
    workers (f sh) = workers sh /\ next_peer_id (f sh) = next_peer_id sh /\ next_pool_ip (f sh) = next_pool_ip sh /\
    next_pool_ip_v6 (f sh) = next_pool_ip_v6 sh) as (f & -> & Hf).
  { destruct (assigned_ip s) as [[]|], (assigned_ip_v6 s); set_unfold; destruct_or?; subst; by eexists. }
  split; [split; intros sh; by destruct (Hf sh) as (? & ? & ? & ? & ? & ? & ?)|]. intros sh Hsh. split; [done|].
  destruct (Hf sh) as (E1 & E2 & E3 & E4 & E5 & E6 & E7). apply (shared_ok_maps self sh f); try done. by rewrite E1.
Qed.

Lemma tsafe_reap env addr w : tsafe (Tasks.reap_one self env addr) w.
Proof.
  eapply tspec_bind; [apply tspec_find|]. intros [arc|] w1 Hw1 _ Ha; [|by apply tspec_ret].
  eapply tspec_bind; [apply tsafe_locked; [|done|by apply Ha]|].
  { apply lsafe_local; [intros s Hs; by split_and!; [..|reflexivity]|apply _]. }
  intros s w2 Hw2 _ _. cbv zeta. destruct (_ <=? _); [|by apply tspec_ret].
  eapply tspec_bind; [apply tsafe_atomically; [by split|]|].
  { intros sh Hsh. split; [done|]. apply (shared_ok_maps self sh (fun sh => set_sessions (delete addr (sessions sh)) sh)); try done.
    apply delete_subseteq. }
  intros _ w3 Hw3 _ _. apply tsafe_each; [done|]. intros op w4 Hw4 Hop. by apply tsafe_atomically; eapply release_neutral.
Qed.

Lemma tsafe_tcp_closed peer w : tsafe (Tasks.tcp_closed peer) w.
Proof.
  eapply (tspec_bind _ _ _ (fun o w' => forall arc, o = Some arc -> is_Some (arcs w'.1 !! arc))).
  - apply tspec_atomically; [by split| |].
    + intros sh Hsh. split; [done|]. apply (shared_ok_maps self sh (fun sh => set_sessions (delete peer (sessions sh)) sh)); try done.
      apply delete_subseteq.
    + intros w1 a Hw1 _ [= <-] arc Harc. by apply (sh_sessions self w1.1 (wo_shared _ _ _ _ Hw1) peer).
  - intros [arc|] w1 Hw1 _ Ha; [|by apply tspec_ret]. apply tsafe_locked; [|done|by apply Ha].
    apply lsafe_get. intros s _. generalize (fun op => release_neutral s op). generalize (releases s) as ops.
    intros ops Hops. induction ops as [|op ops IH]; cbn [each]; [apply lsafe_ret|].
    apply lsafe_bind; [apply lsafe_neutral; apply Hops; left|]. intros _. apply IH. intros o Ho. apply Hops. by right.
Qed.

Lemma tsafe_ping addr w : tsafe (Tasks.ping_one addr) w.
Proof.
  eapply tspec_bind; [apply tspec_find|]. intros [arc|] w1 Hw1 _ Ha; [|by apply tspec_ret].
  apply tsafe_logged. eapply tspec_bind; [apply tsafe_locked; [|done|by apply Ha]|].
  - apply lsafe_get. intros s Hs. destruct (active_slot_total s Hs) as (o & -> & _).
    apply lsafe_bind; [by apply lsafe_lift|]. intros a. destruct (state s), a; try apply lsafe_ret.
    apply lsafe_bind; [apply lsafe_local; [apply build_data_packet_safe|apply _]|]. intros bs.
    apply lsafe_bind; [apply lsafe_local; [apply safe_gets; apply _|apply _]|]. intros t. apply lsafe_ret.
  - intros [[t bs]|] w2 Hw2 _ _; [|by apply tspec_ret]. apply tsafe_atomically; [apply neutral_net|apply send_ok].
Qed.

Lemma tsafe_retransmit env addr w : tsafe (Tasks.retransmit_one self env addr) w.
Proof.
  eapply tspec_bind; [apply tspec_find|]. intros [arc|] w1 Hw1 _ Ha; [|by apply tspec_ret].
  apply tsafe_logged. eapply tspec_bind; [apply tsafe_locked; [|done|by apply Ha]|].
  - apply lsafe_bind; [apply lsafe_local; [apply stale_unacked_safe|apply _]|]. intros l.
    apply lsafe_bind; [apply lsafe_local; [apply wrap_all_safe|apply _]|]. intros ws.
    apply lsafe_bind; [apply lsafe_local; [apply safe_gets; apply _|apply _]|]. intros t. apply lsafe_ret.
  - intros [t ws] w2 Hw2 _ _. apply tsafe_each; [done|]. intros wire w3 Hw3 _.
    apply tsafe_logged, tsafe_atomically; [apply neutral_net|apply send_ok].
Qed.

Lemma tsafe_forward pkt w : tsafe (Tasks.forward_tun_to_client pkt) w.
Proof.
  eapply tspec_bind; [apply tsafe_atomically; [by split|]|].
  { intros sh Hsh. split; [apply tun_route_returns|done]. }
  intros [addr|] w1 Hw1 _ _; [|by apply tspec_ret]. eapply tspec_bind; [apply tspec_find|].
  intros [arc|] w2 Hw2 _ Ha; [|by apply tspec_ret]. apply tsafe_locked; [|done|by apply Ha].
  apply lsafe_get. intros s Hs. destruct (active_slot_total s Hs) as (o & -> & _).
  apply lsafe_bind; [by apply lsafe_lift|]. intros [k|]; [|apply lsafe_ret].
  apply lsafe_bind; [apply lsafe_local; [apply build_data_packet_safe|apply _]|]. intros bs. apply lsafe_send_sess.
Qed.

Lemma tsafe_decrypt env arc pkt w :
  bytes_ok pkt -> world_ok w -> is_Some (arcs w.1 !! arc) -> tsafe (Tasks.decrypt_and_forward env arc pkt) w.
Proof.
  intros Hb Hw Ha. destruct (Protocol.parse_data_v2_exact pkt Hb) as [Hr Hd].
  eapply (tspec_bind _ _ _ (fun dp w' => Protocol.parse_data_v2 pkt = Ok dp /\ is_Some (arcs w'.1 !! arc))).
  { apply tspec_result; auto. }
  intros dp w1 Hw1 _ [Hdp Ha1]. destruct (proj1 (Hd dp) Hdp) as (_ & _ & Hpid & Hpkt).
  assert (8 <= length pkt)%nat as Hl.
  { rewrite Hpkt, length_app. unfold Protocol.data_header. cbn [length]. rewrite length_app, !length_to_be. lia. }
  eapply tspec_bind; [apply tsafe_locked; [apply lsafe_local; [by apply open_packet_safe|apply _]|done|done]|].
  intros pt w2 Hw2 _ _. case_bool_decide; [by apply tspec_ret|].
  apply tsafe_atomically; [split; intros sh; unfold tun_send; by destruct (tun_open sh)|].
  intros sh Hsh. destruct (tun_send_safe self pt sh Hsh) as (? & ? & _). done.
Qed.

Lemma tsafe_worker env n w : tsafe (Tasks.worker_step env n) w.
Proof.
  eapply (tspec_bind _ _ _ (fun o w' => forall arc raw, o = Some (arc, raw) -> bytes_ok raw /\ is_Some (arcs w'.1 !! arc))).
  - apply tspec_atomically.
    + split; intros sh; unfold recv_data; by repeat case_match.
    + intros sh Hsh. unfold recv_data. destruct (workers sh !! n) as [[arc [|raw rest]]|] eqn:E; [done| |done].
      destruct (sh_workers self sh Hsh n _ E) as [Ha [Hraw Hrest]%Forall_cons]. cbn in *. split; [done|].
      destruct Hsh. constructor; cbn; try assumption. apply map_Forall_insert_2; [by constructor|].
      intros w' wk' Hw. eapply worker_ok_mono; [|by apply sh_workers0 in Hw]. done.
    + intros w1 a Hw1 _. unfold recv_data. destruct (workers w1.1 !! n) as [[arc [|raw rest]]|] eqn:E; intros [= <-] arc' raw' [= <- <-].
      destruct (sh_workers self w1.1 (wo_shared _ _ _ _ Hw1) n _ E) as [Ha [Hraw _]%Forall_cons]. done.
  - intros [[arc raw]|] w1 Hw1 _ H; [|by apply tspec_ret]. destruct (H arc raw eq_refl).
    by apply tsafe_logged, tsafe_decrypt.
Qed.

Lemma tsafe_tun_writer ok w : tsafe (Tasks.tun_writer_step ok) w.
Proof.
  eapply tspec_bind; [apply tsafe_atomically|].
  - split; intros sh; unfold recv_tun; by repeat case_match.
  - intros sh Hsh. unfold recv_tun. destruct (tun_open sh), (tun_queue sh) as [|p rest]; try done. split; [done|].
    by apply (shared_ok_maps self sh (set_tun_queue rest)).
  - intros [p|] w1 Hw1 _ _; [|by apply tspec_ret]. destruct (negb _); [by apply tspec_ret|].
    apply tsafe_atomically; [by split; intros sh; destruct ok|]. intros sh Hsh. split; [done|].
    destruct ok; [by apply (shared_ok_maps self sh (fun sh => set_tun_written (tun_written sh ++ [p]) sh))|].
    by apply (shared_ok_maps self sh (fun sh => set_tun_open false (set_tun_queue [] sh))).
Qed.

(** ** A new session *)

Definition unassigned (s : Session) : Prop := assigned_ip s = None /\ assigned_ip_v6 s = None.

Lemma tspec_unshared {A} s (m : Locked A) w :
  lquiet m -> session_ok s -> unassigned s -> world_ok w ->
  tspec (unshared s m) w (fun s' _ => session_ok s' /\ unassigned s').
Proof.
  intros Hm Hs [H4 H6] Hw. apply wp_bind. eapply wp_mono; [|apply (Hm s Hs 0%nat w None Hw)]; [|split; congruence].
  intros [[a|e| |] s'] w' h (H1 & H2 & -> & _ & (Hr & Hs' & _) & [Q4 Q6 _]); cbn in *; try done; split_and!; try done.
  intros ? [= <-]. split; [done|]. split; congruence.
Qed.

Lemma tspec_new_arc s w :
  session_ok s -> unassigned s -> tspec (atomically (new_arc s)) w (fun arc w' => is_Some (arcs w'.1 !! arc)).
Proof.
  intros Hs [H4 H6] w1 Hw1 [Hle Hg]. exists w1.2. cbn. pose proof (wo_shared _ _ _ _ Hw1) as Hsh.
  assert (arcs w1.1 !! next_ref w1.1 = None) as Hfresh.
  { destruct (arcs w1.1 !! next_ref w1.1) eqn:E; [|done]. pose proof (sh_arc_names self w1.1 Hsh _ (ex_intro _ _ E)). lia. }
  assert (world_ok (set_arcs (<[next_ref w1.1 := s]> (arcs w1.1)) (set_next_ref (S (next_ref w1.1)) w1.1), w1.2)) as Hw2.
  { destruct Hw1. constructor; cbn; try assumption.
    - apply (insert_arc_ok self _ s (set_next_ref (S (next_ref w1.1)) w1.1)); [|done|cbn; lia].
      by apply (shared_ok_counters self w1.1 (next_peer_id w1.1)); [|apply Hsh|lia].
    - intros a s0 [[<- <-]|[_ ?]]%lookup_insert_Some; [split; congruence|auto]. }
  split; [done|]. split; [reflexivity|]. split; [by apply insert_subseteq|]. split_and!; try done.
  - split; [|done]. cbn. intros a Ha. apply lookup_insert_is_Some'. right. auto.
  - intros a [= <-]. apply lookup_insert_is_Some'. by left.
Qed.

Lemma tspec_insert_session addr arc w :
  is_Some (arcs w.1 !! arc) ->
  tspec (atomically (modify (fun sh => set_sessions (<[addr := arc]> (sessions sh)) sh))) w
    (fun _ w' => is_Some (arcs w'.1 !! arc)).
Proof.
  intros Ha w1 Hw1 Hle. exists w1.2. cbn.
  assert (is_Some (arcs w1.1 !! arc)) as Ha1 by by apply Hle.
  assert (world_ok (set_sessions (<[addr := arc]> (sessions w1.1)) w1.1, w1.2)) as Hw2.
  { apply world_ok_same; try done. destruct (wo_shared _ _ _ _ Hw1). constructor; cbn; try assumption.
    - intros a arc' [[_ <-]|[_ ?]]%lookup_insert_Some; eauto.
    - intros n wk Hwk. eapply worker_ok_mono; [|by apply sh_workers0 in Hwk]. done. }
  by split_and!.
Qed.

Lemma tsafe_spawn peer arc w :
  is_Some (arcs w.1 !! arc) -> tsafe (Tasks.spawn_data_worker peer arc) w.
Proof.
  intros Ha. eapply (tspec_bind _ _ _ (fun _ w' => is_Some (arcs w'.1 !! arc))).
  { apply tspec_atomically; [by split|done|]. intros w1 a Hw1 Hle _. by apply Hle. }
  intros [] w1 Hw1 Hle Ha1; [|by apply tspec_ret]. intros w2 Hw2 Hle2. exists w2.2.
  assert (is_Some (arcs w2.1 !! arc)) as Ha2 by by apply Hle2.
  set (op := fresh_ref ≫= _). assert (neutral op) as [E1 E2 E3] by by split.
  assert (world_ok ((op w2.1).2, w2.2)) as Hw3.
  { apply world_ok_same; try done. pose proof (wo_shared _ _ _ _ Hw2) as Hsh. destruct Hsh. subst op. rewrite bind_run. constructor; cbn; try assumption.
    - intros a Hs. specialize (sh_arc_names0 a Hs). lia.
    - apply map_Forall_insert_2; [by constructor; [|constructor]|]. intros n wk Hwk.
      eapply worker_ok_mono; [|by apply sh_workers0 in Hwk]. done. }
  cbv zeta. split; [done|]. split; [reflexivity|]. split; [cbn; by rewrite E1|]. cbn. by split_and!.
Qed.

Lemma tsafe_new_session env addr ctrl pid tr w :
  env_ok env -> Protocol.packet_ok ctrl -> (forall p, pid = Some p -> u32_ok p) -> world_ok w ->
  tsafe (Tasks.new_session self env addr ctrl pid tr) w.
Proof.
  intros He Hc Hp Hw. eapply tspec_bind; [apply (tspec_result _ _ anything); [done|apply tls_new_returns|done]|].
  intros t w1 Hw1 _ _.
  eapply (tspec_bind _ _ _ (fun peer _ => 0 <= peer < 2 ^ 24)).
  { apply tspec_atomically; [by split| |].
    - intros sh Hsh. split; [done|]. apply (shared_ok_counters self sh _ (next_ref sh)); [done|apply wrap_ok; lia|done].
    - intros w2 a _ _ [= <-]. apply land_24. }
  intros peer w2 Hw2 _ Hpeer. cbv zeta.
  pose proof (new_session_ok env ctrl pid t peer tr He Hc Hp Hpeer) as Hsess. cbv zeta in Hsess.
  eapply tspec_bind; [apply tspec_unshared; [|exact Hsess|by destruct pid|done]|].
  { apply lquiet_bind; [apply lquiet_local; [apply make_hard_reset_reply_safe|apply _]|]. intros p. apply lquiet_send_and_track. }
  intros s w3 Hw3 _ [Hs Hun]. eapply tspec_bind; [by apply tspec_new_arc|].
  intros arc w4 Hw4 _ Ha. eapply tspec_bind; [by apply tspec_insert_session|].
  intros ? w5 Hw5 _ Ha5. eapply (tspec_bind _ _ _ (fun _ w' => is_Some (arcs w'.1 !! arc))).
  { apply tspec_atomically; [by split| |].
    - intros sh Hsh. split; [done|]. by apply (shared_ok_maps self sh (fun sh => set_peers (<[peer := addr]> (peers sh)) sh)).
    - intros w6 ? _ Hle _. by apply Hle. }
  intros ? w6 Hw6 _ Ha6. by apply tsafe_spawn.
Qed.

Lemma tsafe_control_packet env addr pkt pid tr w :
  env_ok env -> bytes_ok pkt -> (forall p, pid = Some p -> u32_ok p) -> world_ok w ->
  tsafe (Tasks.handle_control_packet self env addr pkt pid tr) w.
Proof.
  intros He Hb Hp Hw. eapply (tspec_bind _ _ _ (fun ctrl _ => Protocol.packet_ok ctrl)).
  { apply tspec_result; [done|by apply parse_returns|]. intros ctrl. by apply parse_ok. }
  intros ctrl w1 Hw1 _ Hc. eapply (tspec_bind _ _ _ anything).
  { destruct (is_hard_reset _); [by apply tsafe_atomically|by apply tspec_ret]. }
  intros [] w2 Hw2 _ _; [by apply tsafe_new_session|]. eapply tspec_bind; [apply tspec_find|].
  intros [arc|] w3 Hw3 _ Ha; [|by apply tspec_ret]. apply tsafe_locked; [by apply lsafe_known|done|by apply Ha].
Qed.

Lemma tsafe_dispatch env addr tr pkt w :
  env_ok env -> bytes_ok pkt -> world_ok w -> tsafe (Tasks.dispatch self env addr tr pkt) w.
Proof.
  intros He Hb Hw. unfold Tasks.dispatch. destruct pkt as [|first rest] eqn:Epkt; [by apply tspec_ret|]. rewrite <-Epkt in *.
  destruct (Protocol.from_u8 (Z.shiftr first 3)) as [op|e| |] eqn:Eop; [|by apply tspec_ret|..].
  2-3: unfold Protocol.from_u8 in Eop; repeat case_match; done.
  destruct (Protocol.is_data op).
  - apply tsafe_atomically.
    + split; intros sh; unfold route_data; by repeat case_match.
    + intros sh Hsh. destruct (route_data_safe self pkt Hb sh Hsh) as (? & ? & _). done.
  - destruct (unwrap_control_ok self pkt Hb) as [Hr Hu].
    destruct (unwrap_control self pkt) as [[inner pid]|e| |]; [|by apply tspec_ret|done..].
    destruct (Hu inner pid eq_refl). by apply tsafe_logged, tsafe_control_packet.
Qed.

Lemma tsafe_program ev w : event_ok ev -> world_ok w -> tsafe (program self ev) w.
Proof.
  intros He Hw. destruct ev; cbn [program].
  - by apply tsafe_dispatch; [apply He..|].
  - apply tsafe_worker.
  - apply tsafe_tun_writer.
  - destruct ip_pkt; [by apply tspec_ret|apply tsafe_logged, tsafe_forward].
  - apply tsafe_reap.
  - destruct (0 <? _); [apply tsafe_for_session, lsafe_server_rekey|by apply tspec_ret].
  - apply tsafe_ping.
  - apply tsafe_retransmit.
  - apply tsafe_atomically; [by split|]. intros sh Hsh. destruct (tcp_accept_safe self sh Hsh) as (? & ? & _). done.
  - apply tsafe_atomically; [by split|]. intros sh Hsh. destruct (tcp_writer_failed_safe self tx sh Hsh) as (? & ? & _). done.
  - apply tsafe_tcp_closed.
  - apply tsafe_for_session, lsafe_shutdown.
Qed.

End concurrency.

(** ** All interleavings *)

Section runs.
Context {B : BufApi} {C : CryptoApi} {T : TlsApi}.
Context {BL : BufLaws B} {CL : CryptoLaws C} {TL : TlsLaws T}.
Implicit Types (self : VpnServer) (c : config).

Lemma cstep_inv self lo (cfg_ok : Prop) c c' g :
  (cfg_ok -> pools_ok self) -> config_inv self lo cfg_ok c g -> cstep self c c' ->
  exists g', config_inv self lo cfg_ok c' g' /\ shared_le (shared c) (shared c').
Proof.
  intros HP Hc Hs. destruct Hs as [t ev c Ht _ He|t c c' Ha]; [|by eapply advance_inv].
  exists g. split; [|cbn; reflexivity]. destruct Hc as [Hw Htasks Hlocks]. constructor; cbn; [done| |].
  - intros t' p' [[<- <-]|[Hne Ht']]%lookup_insert_Some.
    + exists (shared c, g), None. split; [|split; [reflexivity|split; [|done]]].
      * eapply wp_mono; [|by apply (tsafe_program self lo HP ev (shared c, g))]. by intros r w h (_ & _ & ? & ? & _).
      * intros arc. split; [|by intros [? ?]]. intros Hl. destruct (Hlocks arc t Hl) as [? E]. by rewrite Ht in E.
    + by eapply (task_ok_frame self lo cfg_ok c); [by apply Htasks|..].
  - intros arc t' Hl. apply lookup_insert_is_Some'. right. by apply (Hlocks arc).
Qed.

Lemma idle_inv self lo (cfg_ok : Prop) sh g : world_ok self lo cfg_ok (sh, g) -> config_inv self lo cfg_ok (idle sh) g.
Proof. by intros Hw; constructor. Qed.

Lemma initial_config self sh0 :
  initial self sh0 ->
  config_inv self (next_pool_ip sh0) (config_ok self sh0) (idle sh0) (MkGhost ∅ ∅).
Proof.
  intros Hi. apply idle_inv. pose proof (initial_ok self sh0 Hi) as Hok.
  apply initial_fresh in Hi as (a & n6 & n & -> & Ha & _ & _ & E6). constructor; cbn; try done.
  by intros [_ ?].
Qed.

Lemma interleaved_inv self sh0 c :
  initial self sh0 -> rtc (cstep self) (idle sh0) c ->
  exists g, config_inv self (next_pool_ip sh0) (config_ok self sh0) c g.
Proof.
  intros Hi Hsteps. eapply (rtc_ind_r (fun c => exists g, config_inv self (next_pool_ip sh0) (config_ok self sh0) c g)
    (idle sh0)); [by eexists; apply initial_config| |exact Hsteps].
  intros c1 c2 _ Hstep [g Hg]. destruct (cstep_inv self (next_pool_ip sh0) (config_ok self sh0) c1 c2 g) as (g' & ? & _); [|done..|by exists g'].
  by intros [].
Qed.
Lemma interleaved_le self sh0 c c' :
  initial self sh0 -> rtc (cstep self) (idle sh0) c -> rtc (cstep self) c c' -> shared_le (shared c) (shared c').
Proof.
  intros Hi Hc Hsteps. induction Hsteps as [c|c c1 c2 Hstep Hsteps IH]; [reflexivity|].
  destruct (interleaved_inv self sh0 c Hi Hc) as [g Hg].
  destruct (cstep_inv self _ _ c c1 g (fun H => proj1 H) Hg Hstep) as (_ & _ & Hle). etrans; [exact Hle|].
  apply IH. by eapply rtc_r.
Qed.

(** C2: a server that has started, its tasks interleaved in any way, any packets
    and timers: the shared state keeps its invariant, a task that has ended has
    not panicked, and a task in the middle of a handler can go on, or waits for
    the lock of a session whose holder can go on. *)
Theorem no_interleaving_deadlocks self sh0 c t p :
  initial self sh0 -> rtc (cstep self) (idle sh0) c -> tasks c !! t = Some p ->
  shared_ok self (shared c) /\ (forall r, p = Ret r -> returns r) /\
  ((exists c', advance t c = Some c') \/
   exists arc k t' c', p = Lock arc k /\ locks c !! arc = Some t' /\ t' <> t /\ advance t' c = Some c').
Proof.
  intros Hi Hc Ht. destruct (interleaved_inv self sh0 c Hi Hc) as [g Hg]. split; [apply (ci_world _ _ _ _ _ Hg)|].
  split; [intros r ->; by eapply task_returns|by eapply progress].
Qed.

(** Whatever the scheduler does, the handlers that have begun end after
    finitely many actions, and when nothing is left to do every task is done
    and every lock is free. *)
Theorem handlers_complete self sh0 c :
  initial self sh0 -> rtc (cstep self) (idle sh0) c ->
  Acc (flip acts) c /\
  forall c', rtc acts c c' -> (forall t, advance t c' = None) -> tasks c' = ∅ /\ locks c' = ∅.
Proof.
  intros Hi Hc. split; [apply acts_wf|]. intros c' Hacts Hstop.
  assert (rtc (cstep self) (idle sh0) c') as Hc'.
  { etrans; [exact Hc|]. eapply rtc_subrel; [|exact Hacts]. intros x y [t ?]. by eapply CAct. }
  destruct (interleaved_inv self sh0 c' Hi Hc') as [g Hg].
  assert (forall t, tasks c' !! t = None) as Hnone.
  { intros t. destruct (tasks c' !! t) as [p|] eqn:E; [|done].
    destruct (progress _ _ _ t p c' g Hg E) as [[? Ha]|(? & ? & t' & ? & _ & _ & _ & Ha)]; by rewrite Hstop in Ha. }
  split; apply map_eq; intros i; rewrite lookup_empty; [done|].
  destruct (locks c' !! i) as [t|] eqn:E; [|done]. destruct (ci_locks _ _ _ _ _ Hg i t E) as [? Et]. by rewrite Hnone in Et.
Qed.

(** C9: however the handlers interleave, and if the pools end below the last
    address of their family: two sessions never have the same IPv6 tunnel
    address, and two sessions with the same IPv4 tunnel address have one that the
    configuration pins to a client; an address that only the pool gives out
    belongs to one session for ever. *)
Theorem pool_address_exclusive self sh0 c a b s1 s2 :
  initial self sh0 -> config_ok self sh0 -> rtc (cstep self) (idle sh0) c ->
  arcs (shared c) !! a = Some s1 -> arcs (shared c) !! b = Some s2 -> a <> b ->
  (forall ip, assigned_ip s1 = Some (V4 ip) -> assigned_ip s2 = Some (V4 ip) -> static self ip) /\
  (forall ip, assigned_ip_v6 s1 = Some ip -> assigned_ip_v6 s2 = Some ip -> False).
Proof.
  intros Hi Hcfg Hc H1 H2 Hne. destruct (interleaved_inv self sh0 c Hi Hc) as [g Hg].
  pose proof (wo_addr _ _ _ _ (ci_world _ _ _ _ _ Hg)) as Ha. cbn in Ha. destruct (Ha a s1 H1) as [A4 A6], (Ha b s2 H2) as [B4 B6].
  split; intros ip E1 E2.
  - destruct (A4 ip E1 Hcfg) as [?|Ga]; [done|]. destruct (B4 ip E2 Hcfg) as [?|Gb]; [done|]. congruence.
  - specialize (A6 ip E1 Hcfg). specialize (B6 ip E2 Hcfg). congruence.
Qed.

(** C10: sessions only move forward in every interleaving, while other tasks wait
    for their locks or hold copies of them. *)
Theorem interleaved_sessions_forward self sh0 c c' arc s :
  initial self sh0 -> rtc (cstep self) (idle sh0) c -> rtc (cstep self) c c' -> arcs (shared c) !! arc = Some s ->
  exists s', arcs (shared c') !! arc = Some s' /\ session_ok s' /\ (rank (state s) <= rank (state s'))%nat /\
    peer_id s' = peer_id s /\ transport s' = transport s /\
    (forall pid, u32_ok pid -> Replay.rejects (tls_auth_replay s) pid -> Replay.rejects (tls_auth_replay s') pid).
Proof.
  intros Hi Hc Hc' Hs. destruct (interleaved_le self sh0 c c' Hi Hc Hc' arc s Hs) as (s' & Hs' & []).
  destruct (interleaved_inv self sh0 c' Hi) as [g Hg]; [by etrans|].
  exists s'. split; [done|]. split; [|done]. by apply (sh_arcs self _ (wo_shared _ _ _ _ (ci_world _ _ _ _ _ Hg))) in Hs'.
Qed.

(** Once the window of a session rejects the packet id of a control packet, then
    at whatever later moment of an interleaved run the handler of that packet
    gets hold of the session, all it does is to note the time and report the
    replay: it takes no other action. *)
Theorem interleaved_replay_inert self sh0 c c' arc s env addr ctrl pid :
  initial self sh0 -> rtc (cstep self) (idle sh0) c -> rtc (cstep self) c c' -> arcs (shared c) !! arc = Some s ->
  u32_ok pid -> Replay.rejects (tls_auth_replay s) pid ->
  exists s', arcs (shared c') !! arc = Some s' /\
    Tasks.handle_known self env addr ctrl (Some pid) s' =
      Ret (Err (ReplayRejectedControl pid), set_last_seen (now env) s').
Proof.
  intros Hi Hc Hc' Hs Hp Hrej. destruct (interleaved_le self sh0 c c' Hi Hc Hc' arc s Hs) as (s' & Hs' & Hle).
  exists s'. split; [done|]. pose proof (le_replay _ _ Hle pid Hp Hrej) as Hrej'.
  unfold Tasks.handle_known, mbind, Locked_bind, local. cbn [pbind modify check_replay tls_auth_replay set_last_seen].
  pose proof (Replay.rejects_same _ _ Hrej') as Hw. unfold Replay.rejects in Hrej'.
  destruct (Replay.check_and_set (tls_auth_replay s') pid) as [fresh w]. cbn in Hrej', Hw |- *. subst fresh w.
  cbn. by destruct s'.
Qed.

(** ** Runs of one handler at a time are among them *)

Definition home (ev : event) : slot :=
  match ev with
  | EvPacket _ _ (Udp _) _ | EvShutdown _ _ => UdpLoop
  | EvPacket _ _ (Tcp tx) _ => TcpReader tx
  | EvWorker _ w => DataWorker w
  | EvTunWriter _ => TunWriter
  | EvTunRead _ => TunReader
  | EvReap _ _ => Reaper
  | EvRekey _ _ => RekeyTimer
  | EvPing _ => PingTimer
  | EvRetransmit _ _ => RetransmitTimer
  | EvTcpAccept => TcpListener
  | EvTcpWriterFailed tx => TcpWriter tx
  | EvTcpClosed _ => TcpReader 0
  end.
Lemma home_runs ev : runs (home ev) ev = true.
Proof. destruct ev as [? ? [] ?| | | | | | | | | | |]; cbn; try done; apply Nat.eqb_refl. Qed.

(** The only task goes on to its end. *)
Lemma single_task_ends self lo (cfg_ok : Prop) sh lks t p g :
  (cfg_ok -> pools_ok self) -> config_inv self lo cfg_ok (MkConfig sh lks {[t := p]}) g ->
  rtc acts (MkConfig sh lks {[t := p]}) (idle (alone p sh).2).
Proof.
  intros HP. revert sh lks g. induction (child_wf p) as [p _ IH]. intros sh lks g Hg.
  destruct (progress _ _ _ t p _ g Hg) as [[c' Ha]|(arc & k & t' & c' & _ & Hl & Hne & _)]; [apply lookup_singleton_eq| |].
  2: { destruct (ci_locks _ _ _ _ _ Hg arc t' Hl) as [? E]. cbn in E. by apply lookup_singleton_Some in E as [? _]. }
  destruct (advance_inv _ _ _ t _ c' g Hg Ha) as (g' & Hg' & _).
  assert (acts (MkConfig sh lks {[t := p]}) c') as Hact by by exists t. unfold advance in Ha. cbn in Ha.
  rewrite lookup_singleton_eq in Ha. destruct p as [r|X op k|arc k|arc s q]; cbn [alone].
  - injection Ha as <-. cbn. eapply rtc_l; [exact Hact|].
    replace lks with (∅ : gmap nat slot); [unfold idle; rewrite delete_singleton_eq; reflexivity|].
    apply map_eq. intros i. rewrite lookup_empty. destruct (lks !! i) as [t'|] eqn:E; [|done].
    destruct (ci_locks _ _ _ _ _ Hg' i t' E) as [? E']. cbn in E'. by rewrite delete_singleton_eq, lookup_empty in E'.
  - destruct (op sh) as [x sh'] eqn:E. injection Ha as <-. eapply rtc_l; [exact Hact|].
    rewrite insert_singleton_eq in *. eapply IH; [by exists x|exact Hg'].
  - destruct (lks !! arc); [done|]. injection Ha as <-. eapply rtc_l; [exact Hact|].
    rewrite insert_singleton_eq in *. eapply IH; [by eexists|exact Hg'].
  - injection Ha as <-. eapply rtc_l; [exact Hact|]. rewrite insert_singleton_eq in *. eapply IH; [done|exact Hg'].
Qed.

(** Everything that can happen when handlers run one at a time can happen when
    they interleave. *)
Theorem sequential_runs_included self sh0 sh :
  initial self sh0 -> rtc (step self) sh0 sh -> rtc (cstep self) (idle sh0) (idle sh).
Proof.
  intros Hi Hsteps. eapply (rtc_ind_r (fun sh => rtc (cstep self) (idle sh0) (idle sh)) sh0); [done| |exact Hsteps].
  intros sh1 sh2 _ [ev sh1' r sh2' He E] Hr. etrans; [exact Hr|].
  set (c1 := begin_ self (home ev) ev (idle sh1')).
  assert (cstep self (idle sh1') c1) as Hb by (apply CBegin; [done|apply home_runs|done]).
  destruct (interleaved_inv self sh0 c1 Hi) as [g Hg]; [by eapply rtc_r|].
  eapply rtc_l; [exact Hb|]. subst c1. unfold begin_, idle in *. cbn in *.
  rewrite insert_empty in *. pose proof (single_task_ends _ _ _ _ _ _ _ g (fun H => proj1 H) Hg) as Hend.
  rewrite program_alone, E in Hend. eapply rtc_subrel; [|exact Hend]. intros x y [t ?]. by eapply CAct.
Qed.

End runs.
End Concurrency.
