(* ===== verification/ServerProps.v ===== *)
(** * Functional properties of the server (src/src/server.rs)

    What the handlers do, beyond not failing: only authenticated control
    packets have an effect, what is sent can be read by the client, the TLS
    stream survives its fragmentation, data packets are delivered at most once
    and only if authentic, the reaper, the address pool, TCP framing. *)

From S2P Require Import Prelude Replay Buf Protocol Utf8 ControlChannel Primitives Crypto Prf.
From S2P Require Import Envelope TlsAuth TlsCrypt Text StaticKey Tls Certs Transport Config Masquerade.
From S2P Require Import Session SessionInv Server ServerInv System.

Module ServerProps.
Import Transport Session SessionInv Server ServerInv System.

Section props.
Context {B : BufApi} {C : CryptoApi} {T : TlsApi}.
Context {BL : BufLaws B} {CL : CryptoLaws C} {TL : TlsLaws T}.

(** The packet was produced by the holder of the peer's envelope key. *)
Definition authentic (self : VpnServer) (pkt : bytes) : Prop :=
  match tls_crypt self, tls_auth self with
  | Some tc, _ => exists inner pid ts, u32_ok pid /\ u32_ok ts /\
      TlsCrypt.wrap (TlsCrypt.mirror tc) inner pid ts = Ok pkt
  | None, Some ta => exists inner pid ts, u32_ok pid /\ u32_ok ts /\
      TlsAuth.wrap (TlsAuth.mirror ta) inner pid ts = Ok pkt
  | None, None => True
  end.

Lemma unwrap_authentic self pkt x : bytes_ok pkt -> unwrap_control self pkt = Ok x -> authentic self pkt.
Proof.
  intros Hb. unfold unwrap_control, authentic. destruct (tls_crypt self) as [tc|]; [|destruct (tls_auth self) as [ta|]].
  - destruct (TlsCrypt.unwrap tc pkt) as [[i p]| | |] eqn:E; [|done..]. intros _.
    destruct (@env_unwrap_authentic _ _ TlsCrypt.tls_crypt_laws tc pkt i p Hb E) as (_ & _ & ? & ts & ? & ?). by exists i, p, ts.
  - destruct (TlsAuth.unwrap ta pkt) as [[i p]| | |] eqn:E; [|done..]. intros _.
    destruct (@env_unwrap_authentic _ _ TlsAuth.tls_auth_laws ta pkt i p Hb E) as (_ & _ & ? & ts & ? & ?). by exists i, p, ts.
  - done.
Qed.

(** C7: only authenticated control packets have an effect.  With tls-crypt or
    tls-auth configured, a received packet with a control opcode that was not
    produced with the peer's key leaves the whole shared state as it was:
    sessions, timers, windows, maps, nothing is sent. *)
Theorem unauthenticated_control_inert self env addr tr pkt first op sh :
  bytes_ok pkt -> head pkt = Some first -> Protocol.from_u8 (Z.shiftr first 3) = Ok op ->
  Protocol.is_data op = false -> ~ authentic self pkt ->
  dispatch self env addr tr pkt sh = (Ok tt, sh).
Proof.
  intros Hb Hf Hop Hd Hna. unfold dispatch. destruct pkt as [|b pkt]; [done|]. injection Hf as ->.
  rewrite Hop, Hd. destruct (unwrap_control_ok self (first :: pkt) Hb) as [Hr _].
  destruct (unwrap_control self (first :: pkt)) as [x|e| |] eqn:E; [|done..].
  by destruct Hna; eapply unwrap_authentic.
Qed.

(** ** Sending *)

(** What the client makes of a control packet on the wire. *)
Definition peer_read (self : VpnServer) (wire : bytes) : result Protocol.ControlPacket :=
  match tls_crypt self, tls_auth self with
  | Some tc, _ => '(inner, _) ← TlsCrypt.unwrap (TlsCrypt.mirror tc) wire; Protocol.parse inner
  | None, Some ta => '(inner, _) ← TlsAuth.unwrap (TlsAuth.mirror ta) wire; Protocol.parse inner
  | None, None => Protocol.parse wire
  end.

Lemma encode_length p : Protocol.packet_ok p -> (9 <= length (Protocol.encode p))%nat.
Proof. intros Hp. rewrite Protocol.encode_eq by done. rewrite !length_app, length_to_be. simpl. lia. Qed.

Lemma timestamp_u32 env pid : u32_ok (unix_timestamp_u32 env pid).
Proof. unfold unix_timestamp_u32. case_match; [apply wrap_ok; lia|done]. Qed.

(** A wrapped control packet can be read by the client; wrapping changes only
    the envelope's packet id counter. *)
Lemma wrap_for_wire_readable self env p s :
  session_ok s -> Protocol.packet_ok p ->
  exists wire pid', wrap_for_wire self env (Protocol.encode p) s = (Ok wire, set_tls_auth_pid_out pid' s) /\
    peer_read self wire = Ok p.
Proof.
  intros Hs Hp. pose proof (encode_length p Hp) as Hl. pose proof (so_pid s Hs) as Hpid.
  assert (u32_ok (tls_auth_pid_out s)) as H32 by (unfold uint_ok; lia).
  unfold wrap_for_wire, peer_read. destruct (tls_crypt self) as [tc|]; [|destruct (tls_auth self) as [ta|]].
  - unfold next_tls_auth_pid. msimp.
    destruct (@env_wrap_total _ _ TlsCrypt.tls_crypt_laws tc (Protocol.encode p) (tls_auth_pid_out s)
      (unix_timestamp_u32 env (tls_auth_pid_out s)) Hl) as [w Hw].
    pose proof (@env_unwrap_wrap _ _ TlsCrypt.tls_crypt_laws _ _ _ _ _ H32 (timestamp_u32 env _) Hw) as Hu.
    cbn in Hw, Hu. rewrite Hw. eexists _, _. split; [done|]. rewrite Hu. by apply Protocol.parse_encode_eq.
  - unfold next_tls_auth_pid. msimp.
    destruct (@env_wrap_total _ _ TlsAuth.tls_auth_laws ta (Protocol.encode p) (tls_auth_pid_out s)
      (unix_timestamp_u32 env (tls_auth_pid_out s)) Hl) as [w Hw].
    pose proof (@env_unwrap_wrap _ _ TlsAuth.tls_auth_laws _ _ _ _ _ H32 (timestamp_u32 env _) Hw) as Hu.
    cbn in Hw, Hu. rewrite Hw. eexists _, _. split; [done|]. rewrite Hu. by apply Protocol.parse_encode_eq.
  - eexists _, (tls_auth_pid_out s). split; [|by apply Protocol.parse_encode_eq]. by destruct s.
Qed.

Lemma send_and_track_spec self env p pid s sh :
  session_ok s -> Protocol.packet_ok p -> Protocol.packet_id p = Some pid ->
  exists r s' sh', send_and_track self env p (s, sh) = (r, (s', sh')) /\ returns r /\
    next_packet_id s' = next_packet_id s /\ pending_acks s' = pending_acks s /\ transport s' = transport s /\
    match r with
    | Ok _ => exists wire, peer_read self wire = Ok p /\
        sent_to (transport s) (net sh') = sent_to (transport s) (net sh) ++ [wire] /\
        unacked s' = unacked s ++ [MkUnacked pid (Protocol.encode p) (now env) 1]
    | _ => sent_to (transport s) (net sh') = sent_to (transport s) (net sh) /\ unacked s' = unacked s
    end.
Proof.
  intros Hs Hp Hpid. destruct (wrap_for_wire_readable self env p s Hs Hp) as (wire & pid' & Ew & Hread).
  unfold send_and_track, send_sess. rewrite Hpid. msimp. rewrite on_sess_run, Ew. msimp.
  rewrite on_sess_run. msimp. rewrite on_shared_run. unfold on_net.
  destruct (send (transport s) wire (net sh)) as [r n] eqn:Es.
  assert (transport (set_tls_auth_pid_out pid' s) = transport s) as -> by done. rewrite Es. cbn [fst snd].
  apply (send_sent (transport s) (transport s)) in Es as [Hsent Hr]. rewrite bool_decide_eq_true_2 in Hsent by done.
  rewrite andb_true_r in Hsent.
  destruct r as [[]|e| |]; try done; eexists _, _, _; (split; [reflexivity|]); (split; [done|]);
    (split; [done|]); (split; [done|]); (split; [done|]); cbn in Hsent |- *; [|by rewrite app_nil_r in Hsent].
  exists wire. done.
Qed.

(** C22: a control packet that [send_and_track] reports as sent is readable.
    Exactly one packet is handed to the session's transport, the client (with
    the mirrored envelope key, or none) reads exactly this control packet from
    it, and its inner bytes are queued for retransmission; if sending fails,
    nothing is sent and nothing is queued. *)
Theorem sent_control_readable self env p pid s sh r s' sh' :
  ctx_ok self (s, sh) -> Protocol.packet_ok p -> Protocol.packet_id p = Some pid ->
  send_and_track self env p (s, sh) = (r, (s', sh')) ->
  match r with
  | Ok _ => exists wire, peer_read self wire = Ok p /\
      sent_to (transport s) (net sh') = sent_to (transport s) (net sh) ++ [wire] /\
      unacked s' = unacked s ++ [MkUnacked pid (Protocol.encode p) (now env) 1]
  | _ => sent_to (transport s) (net sh') = sent_to (transport s) (net sh) /\ unacked s' = unacked s
  end.
Proof.
  intros [Hs _] Hp Hpid E. destruct (send_and_track_spec self env p pid s sh Hs Hp Hpid)
    as (r0 & s0 & sh0 & E0 & _ & _ & _ & _ & H). rewrite E in E0. by injection E0 as <- <- <-.
Qed.

(** ** The TLS stream *)

Lemma chunks_fuel_spec fuel n l :
  (0 < n)%nat -> (length l <= fuel)%nat ->
  concat (chunks_fuel fuel n l) = l /\ Forall (fun c => (0 < length c <= n)%nat) (chunks_fuel fuel n l).
Proof.
  intros Hn. revert l. induction fuel as [|fuel IH]; intros l Hl; cbn [chunks_fuel].
  { destruct l; [done|simpl in Hl; lia]. }
  destruct l as [|b l0] eqn:El; [done|]. rewrite <-El in *. destruct (IH (drop n l)) as [E F].
  { rewrite length_drop, El. rewrite El in Hl. simpl in *. lia. }
  cbn [concat]. rewrite E, take_drop. split; [done|]. constructor; [|done]. rewrite length_take, El. simpl. lia.
Qed.

(** The packets of a run of [make_control] and [send_and_track]. *)
Lemma send_chunk_list self env key_id cs s sh r s' sh' :
  ctx_ok self (s, sh) -> 0 <= key_id < 8 -> (length (pending_acks s) < 256)%nat ->
  for_each (fun chunk => pkt ← on_sess (make_control key_id chunk); send_and_track self env pkt) cs (s, sh)
    = (r, (s', sh')) -> r = Ok tt ->
  exists wires pkts, sent_to (transport s) (net sh') = sent_to (transport s) (net sh) ++ wires /\
    Forall2 (fun w p => peer_read self w = Ok p) wires pkts /\
    Protocol.payload <$> pkts = cs /\ Forall (fun p => Protocol.op p = Protocol.ControlV1) pkts /\
    (cs <> [] -> concat (Protocol.acks <$> pkts) = pending_acks s).
Proof.
  revert s sh. induction cs as [|c cs IH]; intros s sh Hx Hk Hlen; cbn [for_each].
  { intros [= <- <- <-] _. exists [], []. rewrite app_nil_r. by repeat split. }
  msimp. rewrite on_sess_run.
  destruct (make_control key_id c s) as [rp s1] eqn:Em. pose proof Em as Em'. unfold make_control, alloc_packet_id in Em'.
  cbn in Em'. injection Em' as <- <-. cbn [fst snd].
  match type of Em with _ = (Ok ?p0, ?s0) => set (p := p0) in *; set (s1 := s0) in * end.
  destruct Hx as [Hs Hsh]. cbn in Hs, Hsh.
  assert (Forall (uint_ok 32) (pending_acks s)) as Hpend.
  { apply Forall_forall. intros q Hq%(so_pending s Hs). by apply (so_received s Hs). }
  assert (Protocol.packet_ok p) as Hp.
  { pose proof Hs as []. constructor; cbn; try done.
    - by destruct (pending_acks s).
    - destruct (pending_acks s); [done|]. by intros ? [= <-].
    - by intros ? [= <-]. }
  assert (session_ok s1) as Hs1.
  { pose proof (make_control_ok key_id c s Hs) as Hok. by rewrite Em in Hok. }
  destruct (send_and_track_spec self env p (next_packet_id s) s1 sh Hs1 Hp eq_refl)
    as (r2 & s2 & sh2 & E2 & Hr2 & _ & Hpend2 & Htr2 & Hres).
  pose proof (send_and_track_safe self env p (s1, sh) (conj Hs1 Hsh)) as (_ & Hx2 & _).
  rewrite E2 in Hx2 |- *. cbn [snd] in Hx2. destruct r2 as [[]|e| |]; try done; [|by intros [= <- <- <-]].
  destruct Hres as (wire & Hread & Hsent & _). cbn in Hsent, Hpend2, Htr2. intros E Hok.
  destruct (IH s2 sh2 Hx2 Hk) as (wires & pkts & G1 & G2 & G3 & G4 & G5); [rewrite Hpend2; simpl; lia|done|done|].
  exists (wire :: wires), (p :: pkts). rewrite Htr2 in G1. rewrite G1, Hsent, <-app_assoc.
  split; [done|]. split; [by constructor|]. split; [by rewrite fmap_cons, G3|]. split; [by constructor|].
  intros _. rewrite fmap_cons. cbn [concat]. change (Protocol.acks p) with (pending_acks s).
  destruct cs as [|c2 cs]; [|by rewrite G5, Hpend2, app_nil_r].
  apply fmap_nil_inv in G3. subst pkts. cbn. by rewrite app_nil_r.
Qed.

(** C23: the TLS stream survives its fragmentation.  When [send_chunks] reports
    success, the client can read every packet it sent, in order, each a
    [P_CONTROL_V1] with at most 1100 bytes of payload; the payloads concatenate
    to exactly the TLS bytes handed in, and the pending acknowledgements travel
    with them exactly once. *)
Theorem tls_stream_delivered self env key_id out s sh s' sh' :
  ctx_ok self (s, sh) -> 0 <= key_id < 8 -> (length (pending_acks s) < 256)%nat ->
  send_chunks self env key_id out (s, sh) = (Ok tt, (s', sh')) ->
  exists wires pkts, sent_to (transport s) (net sh') = sent_to (transport s) (net sh) ++ wires /\
    Forall2 (fun w p => peer_read self w = Ok p) wires pkts /\
    concat (Protocol.payload <$> pkts) = out /\
    Forall (fun p => Protocol.op p = Protocol.ControlV1 /\ (0 < length (Protocol.payload p) <= 1100)%nat) pkts /\
    (out <> [] -> concat (Protocol.acks <$> pkts) = pending_acks s).
Proof.
  intros Hx Hk Hlen E.
  destruct (chunks_fuel_spec (length out) MAX_TLS_PAYLOAD_PER_CONTROL out) as [Hcat Hsize];
    [unfold MAX_TLS_PAYLOAD_PER_CONTROL; lia|done|].
  destruct (send_chunk_list self env key_id (chunks MAX_TLS_PAYLOAD_PER_CONTROL out) s sh _ _ _ Hx Hk Hlen E eq_refl)
    as (wires & pkts & G1 & G2 & G3 & G4 & G5).
  exists wires, pkts. split; [done|]. split; [done|]. split; [by rewrite G3|]. split.
  - apply Forall_and. split; [done|]. unfold chunks in G3. rewrite <-G3 in Hsize. by apply Forall_fmap in Hsize.
  - intros Hne. apply G5. intros Hnil. unfold chunks in Hnil. rewrite Hnil in Hcat. by destruct Hne.
Qed.

(** ** Inbound data *)

(** A worker's packets in sequence: what it accepts, as (key id, packet id,
    plaintext). *)
Fixpoint open_all (envs : list Env) (pkts : list bytes) : M Session (list (Z * Z * bytes)) :=
  match envs, pkts with
  | env :: envs', pkt :: rest => fun s =>
    match Protocol.parse_data_v2 pkt with
    | Ok dp =>
      match open_packet env pkt dp s with
      | (Ok pt, s') =>
        (acc ← open_all envs' rest; mret ((Protocol.d_key_id dp, Protocol.d_packet_id dp, pt) :: acc)) s'
      | (Err _, s') => open_all envs' rest s'
      | (Panic, s') => (Panic, s')
      | (Diverge, s') => (Diverge, s')
      end
    | Err _ => open_all envs' rest s
    | Panic => (Panic, s)
    | Diverge => (Diverge, s)
    end
  | _, _ => mret []
  end.

(** The slot with another replay window. *)
Definition with_window (w : Replay.ReplayWindow) (k : KeySlot) : KeySlot :=
  MkKeySlot (ks_key_id k) (ks_cipher k) (ks_data_pid_out k) w.

(** Same key ids and ciphers in the same places. *)
Definition same_keys (s s' : Session) : Prop :=
  forall i, (fun o => (fun k => (ks_key_id k, ks_cipher k)) <$> o) <$> slots s !! i =
            (fun o => (fun k => (ks_key_id k, ks_cipher k)) <$> o) <$> slots s' !! i.

Lemma same_keys_slot s s' i k :
  same_keys s s' -> slots s' !! i = Some (Some k) ->
  exists k0, slots s !! i = Some (Some k0) /\ ks_key_id k0 = ks_key_id k /\ ks_cipher k0 = ks_cipher k.
Proof.
  intros Hsk Hi. specialize (Hsk i). rewrite Hi in Hsk. destruct (slots s !! i) as [[k0|]|]; try done.
  injection Hsk as ??. eauto.
Qed.

Definition slot_key (o : option KeySlot) : option Z := ks_key_id <$> o.

Lemma position_key_ext key_id l l' :
  slot_key <$> l = slot_key <$> l' -> position_key key_id l = position_key key_id l'.
Proof.
  unfold position_key. revert l'. induction l as [|o l IH]; intros [|o' l'] E; try done.
  rewrite !fmap_cons in E. injection E as Eo El. unfold slot_key in Eo. cbn [list_find].
  rewrite Eo. case_decide; [done|]. specialize (IH l' El).
  destruct (list_find _ l) as [[]|], (list_find _ l') as [[]|]; try done. cbn in *. by injection IH as <-.
Qed.

Lemma same_keys_position s s' key_id : same_keys s s' -> position_key key_id (slots s) = position_key key_id (slots s').
Proof.
  intros Hsk. apply position_key_ext, list_eq. intros i. rewrite !list_lookup_fmap. specialize (Hsk i).
  destruct (slots s !! i) as [[]|], (slots s' !! i) as [[]|]; try done. cbn in *. by injection Hsk as -> _.
Qed.

(** One accepted packet: its slot, its authenticity, the window step. *)
Lemma open_packet_accepts env pkt dp s pt s' :
  (8 <= length pkt)%nat -> open_packet env pkt dp s = (Ok pt, s') ->
  exists idx k, position_key (Protocol.d_key_id dp) (slots s) = Some idx /\
    slots s !! idx = Some (Some k) /\ ks_key_id k = Protocol.d_key_id dp /\
    Crypto.seal (Crypto.mirror (ks_cipher k)) (Protocol.d_packet_id dp) (take 8 pkt) pt = Ok (Protocol.d_ciphertext dp) /\
    (Replay.check_and_set (ks_replay k) (Protocol.d_packet_id dp)).1 = true /\
    slots s' = <[idx := Some (with_window (Replay.check_and_set (ks_replay k) (Protocol.d_packet_id dp)).2 k)]> (slots s).
Proof.
  intros Hl. unfold open_packet. msimp. rewrite slice_ok by lia. msimp.
  destruct (slot_by_key_id_cases (Protocol.d_key_id dp) s) as [->|(idx & k & -> & Hk & Hkid & Hpos)]; msimp; [done|].
  rewrite drop_0, Nat.sub_0_r.
  destruct (Crypto.open _ _ _ _) as [m|e| |] eqn:Eo; msimp; [|done..]. apply Crypto.seal_open in Eo.
  destruct (Replay.check_and_set (ks_replay k) _) as [fresh w] eqn:Ew. msimp. unfold put_slot.
  rewrite decide_True by by eapply lookup_lt_Some. msimp. destruct fresh; msimp; [|done]. intros [= <- <-].
  exists idx, k. rewrite Ew. done.
Qed.

(** A rejected packet leaves the keys in place and its slot's window with the
    same set of ids. *)
Lemma open_packet_rejects env pkt dp s e s' :
  (8 <= length pkt)%nat -> u32_ok (Protocol.d_packet_id dp) -> open_packet env pkt dp s = (Err e, s') ->
  same_keys s s' /\ forall G, (forall i k, slots s !! i = Some (Some k) -> Replay.represents (ks_replay k) (G i)) ->
    forall i k, slots s' !! i = Some (Some k) -> Replay.represents (ks_replay k) (G i).
Proof.
  intros Hl Hpid. unfold open_packet. msimp. rewrite slice_ok by lia. msimp.
  destruct (slot_by_key_id_cases (Protocol.d_key_id dp) s) as [->|(idx & k & -> & Hk & Hkid & Hpos)]; msimp;
    [by intros [= _ <-]|].
  destruct (Crypto.open _ _ _ _) as [m|e0| |] eqn:Eo; msimp; [|by intros [= _ <-]|done..].
  destruct (Replay.check_and_set (ks_replay k) _) as [fresh w] eqn:Ew. msimp. unfold put_slot.
  rewrite decide_True by by eapply lookup_lt_Some. msimp. destruct fresh; msimp; [done|]. intros [= _ <-].
  split.
  - intros i. cbn. destruct (decide (i = idx)) as [->|]; [|by rewrite list_lookup_insert_ne].
    rewrite list_lookup_insert_eq by by eapply lookup_lt_Some. by rewrite Hk.
  - intros G HG i k' Hi. cbn in Hi.
    apply list_lookup_insert_Some in Hi as [(<- & [= <-] & _)|[_ Hi]]; [|by apply HG]. cbn.
    destruct (Replay.check_and_set_simulates (ks_replay k) (G idx) (Protocol.d_packet_id dp)) as (seen & Hstep & Hrep);
      [by apply HG|done|]. rewrite Ew in Hstep, Hrep. cbn in Hstep, Hrep. unfold Replay.spec_step in Hstep.
    by case_decide; [|injection Hstep as <-].
Qed.

(** An accepted packet of [pkts]: new to the set of its slot, and sealed by the
    client. *)
Definition accepted_packet (G : nat -> gset Z) (s : Session) (pkts : list bytes) (a : Z * Z * bytes) : Prop :=
  let '(key_id, pid, pt) := a in
  (forall idx, position_key key_id (slots s) = Some idx -> pid ∉ G idx) /\
  exists pkt peer k idx ct, pkt ∈ pkts /\ slots s !! idx = Some (Some k) /\ ks_key_id k = key_id /\
    pkt = Protocol.data_header key_id peer pid ++ ct /\
    Crypto.seal (Crypto.mirror (ks_cipher k)) pid (Protocol.data_header key_id peer pid) pt = Ok ct.

Lemma accepted_packet_weaken G s s1 pkt pkts a :
  same_keys s s1 -> accepted_packet G s1 pkts a -> accepted_packet G s (pkt :: pkts) a.
Proof.
  intros Hsk. destruct a as [[key_id pid] pt].
  intros [Hfr (pkt' & peer & k & idx & ct & Hin' & Hs1 & Hk & ? & ?)].
  destruct (same_keys_slot _ _ _ _ Hsk Hs1) as (k0 & Hs0 & Hk0 & Hc0). split.
  - by rewrite (same_keys_position s s1).
  - exists pkt', peer, k0, idx, ct. rewrite Hk0, Hc0. split_and!; [by right|done..].
Qed.

(** The set of slot [idx] grows by [pid]. *)
Definition grow (idx : nat) (pid : Z) (G : nat -> gset Z) (i : nat) : gset Z :=
  if decide (i = idx) then {[pid]} ∪ G idx else G i.

Lemma accepted_packet_shrink idx pid G s pkts a :
  accepted_packet (grow idx pid G) s pkts a -> accepted_packet G s pkts a.
Proof.
  destruct a as [[key_id p] pt]. intros [Hfr Hauth]. split; [|done]. intros i Hi. specialize (Hfr i Hi).
  unfold grow in Hfr. case_decide as Hd; [subst i; set_solver|done].
Qed.

(** What accepting one packet does, in terms of the sets. *)
Lemma open_packet_step env pkt dp s pt s1 G :
  bytes_ok pkt -> Protocol.parse_data_v2 pkt = Ok dp -> open_packet env pkt dp s = (Ok pt, s1) ->
  (forall i k, slots s !! i = Some (Some k) -> Replay.represents (ks_replay k) (G i)) ->
  exists idx, position_key (Protocol.d_key_id dp) (slots s) = Some idx /\ same_keys s s1 /\
    (forall i k, slots s1 !! i = Some (Some k) ->
       Replay.represents (ks_replay k) (grow idx (Protocol.d_packet_id dp) G i)) /\
    forall pkts, accepted_packet G s (pkt :: pkts) (Protocol.d_key_id dp, Protocol.d_packet_id dp, pt).
Proof.
  intros Hb Ed Eo HG. destruct (proj1 (proj2 (Protocol.parse_data_v2_exact pkt Hb) dp) Ed) as (_ & _ & Hpid & Epkt).
  assert (length (Protocol.data_header (Protocol.d_key_id dp) (Protocol.d_peer_id dp) (Protocol.d_packet_id dp)) = 8%nat) as Hh.
  { unfold Protocol.data_header. cbn [length]. by rewrite length_app, !length_to_be. }
  destruct (open_packet_accepts env pkt dp s pt s1) as (idx & k & Hpos & Hk & Hkk & Hseal & Hfresh & Hslots);
    [rewrite Epkt, length_app; lia|done|].
  assert (idx < length (slots s))%nat as Hlt by by eapply lookup_lt_Some.
  destruct (Replay.check_and_set_simulates (ks_replay k) (G idx) _ (HG idx k Hk) Hpid) as (seen & Hstep & Hrep).
  rewrite Hfresh in Hstep. unfold Replay.spec_step in Hstep. case_decide as Hacc; [|done]. injection Hstep as <-.
  exists idx. split; [done|]. split; [|split].
  - intros i. rewrite Hslots. destruct (decide (i = idx)) as [->|]; [|by rewrite list_lookup_insert_ne].
    rewrite list_lookup_insert_eq by done. by rewrite Hk.
  - intros i k' Hi. rewrite Hslots in Hi. unfold grow.
    apply list_lookup_insert_Some in Hi as [(<- & [= <-] & _)|[Hne Hi]]; case_decide; try done. by apply HG.
  - intros pkts. split; [intros i Hi; rewrite Hpos in Hi; injection Hi as <-; apply Hacc|].
    exists pkt, (Protocol.d_peer_id dp), k, idx, (Protocol.d_ciphertext dp). split_and!; [by left|done..|].
    rewrite Epkt, take_app_length' in Hseal by done. done.
Qed.

Lemma open_all_spec envs pkts s G acc s' :
  Forall (fun p => bytes_ok p) pkts ->
  (forall i k, slots s !! i = Some (Some k) -> Replay.represents (ks_replay k) (G i)) ->
  open_all envs pkts s = (Ok acc, s') ->
  NoDup acc.*1 /\ forall a, a ∈ acc -> accepted_packet G s pkts a.
Proof.
  revert pkts s G acc s'. induction envs as [|env envs IH]; intros pkts s G acc s' Hb HG; cbn [open_all].
  { intros [= <- <-]. split; [constructor|]. by intros ? ?%elem_of_nil. }
  destruct pkts as [|pkt pkts]; cbn [open_all].
  { intros [= <- <-]. split; [constructor|]. by intros ? ?%elem_of_nil. }
  apply Forall_cons in Hb as [Hpkt Hpkts].
  destruct (Protocol.parse_data_v2 pkt) as [dp|e| |] eqn:Ed; [| |done|done]; cycle 1.
  { intros E. destruct (IH pkts s G acc s' Hpkts HG E) as [Hnd Hall]. split; [done|].
    intros a Hin. by apply (accepted_packet_weaken G s s), Hall. }
  destruct (open_packet env pkt dp s) as [[pt|e| |] s1] eqn:Eo; [| |done|done]; cycle 1.
  { destruct (proj1 (proj2 (Protocol.parse_data_v2_exact pkt Hpkt) dp) Ed) as (_ & _ & Hpid & Epkt).
    destruct (open_packet_rejects env pkt dp s e s1) as [Hsk HG1]; [|done|done|].
    { rewrite Epkt, length_app. unfold Protocol.data_header. cbn [length]. rewrite length_app, !length_to_be. lia. }
    intros E. destruct (IH pkts s1 G acc s' Hpkts (HG1 G HG) E) as [Hnd Hall]. split; [done|].
    intros a Hin. by apply (accepted_packet_weaken G s s1), Hall. }
  destruct (open_packet_step env pkt dp s pt s1 G Hpkt Ed Eo HG) as (idx & Hpos & Hsk & HG1 & Hthis).
  msimp. destruct (open_all envs pkts s1) as [[acc1| | |] s2] eqn:E1; msimp; [|done..]. intros [= <- <-].
  destruct (IH pkts s1 _ acc1 s2 Hpkts HG1 E1) as [Hnd Hall]. split.
  - rewrite fmap_cons. constructor; [|done]. intros ([[k2 p2] pt2] & E2 & Hin)%list_elem_of_fmap. cbn in E2.
    injection E2 as <- <-. destruct (Hall _ Hin) as [Hfr _].
    specialize (Hfr idx ltac:(by rewrite <-(same_keys_position s s1))). unfold grow in Hfr.
    rewrite decide_True in Hfr by done. set_solver.
  - intros a [->|Hin]%elem_of_cons; [by apply Hthis|].
    by eapply accepted_packet_weaken, accepted_packet_shrink, Hall.
Qed.

(** The worker never panics on them. *)
Lemma open_all_total envs pkts s :
  session_ok s -> Forall (fun p => bytes_ok p) pkts -> exists acc s', open_all envs pkts s = (Ok acc, s').
Proof.
  intros Hs Hb. revert envs s Hs. induction Hb as [|pkt pkts Hp _ IH]; intros [|env envs] s Hs; cbn [open_all];
    [by eexists _, _..|].
  destruct (Protocol.parse_data_v2_exact pkt Hp) as [Hr Hd]. destruct (Protocol.parse_data_v2 pkt) as [dp|e| |]; [|by apply IH|done..].
  destruct (proj1 (Hd dp) eq_refl) as (_ & _ & Hpid & Epkt).
  destruct (open_packet_safe env pkt dp) with s as (Hr1 & Hs1 & _); [rewrite Epkt; unfold Protocol.data_header; cbn; rewrite !length_app, !length_to_be; lia|done|done|].
  destruct (open_packet env pkt dp s) as [[pt|e| |] s1]; try done; [|by apply IH].
  msimp. destruct (IH envs s1 Hs1) as (acc & s' & E). rewrite E. msimp. by eexists _, _.
Qed.

(** C6: inbound data is authentic and delivered at most once.  Whatever
    packets reach a session's worker one after the other, in whatever order and
    however often repeated, each is accepted or dropped; every packet the worker
    accepts carries exactly the ciphertext that the client's key for that key id
    produces for the accepted plaintext under that header and packet id; and no
    two accepted packets have the same key id and packet id. *)
Theorem inbound_data_authentic_once envs pkts s :
  session_ok s -> Forall (fun p => bytes_ok p) pkts ->
  exists acc s', open_all envs pkts s = (Ok acc, s') /\ NoDup acc.*1 /\
  forall key_id pid pt, (key_id, pid, pt) ∈ acc ->
    exists pkt peer k idx ct, pkt ∈ pkts /\ slots s !! idx = Some (Some k) /\ ks_key_id k = key_id /\
      pkt = Protocol.data_header key_id peer pid ++ ct /\
      Crypto.seal (Crypto.mirror (ks_cipher k)) pid (Protocol.data_header key_id peer pid) pt = Ok ct.
Proof.
  intros Hs Hb. destruct (open_all_total envs pkts s Hs Hb) as (acc & s' & E). exists acc, s'. split; [done|].
  assert (exists G, forall i k, slots s !! i = Some (Some k) -> Replay.represents (ks_replay k) (G i)) as [G HG].
  { pose proof (so_slots s Hs) as Hl. pose proof (so_slot s Hs) as Hok.
    destruct (slots s) as [|a [|b [|]]]; try done.
    assert (forall o : option KeySlot, (forall k, o = Some k -> slot_ok k) ->
      exists g, forall k, o = Some k -> Replay.represents (ks_replay k) g) as Hone.
    { intros [k|] Ho; [|by exists ∅]. destruct (Ho k eq_refl) as [_ _ [g Hg]]. exists g. by intros ? [= <-]. }
    destruct (Hone a) as [ga Ha]; [intros k ->; by apply (Hok 0%nat)|].
    destruct (Hone b) as [gb Hgb]; [intros k ->; by apply (Hok 1%nat)|].
    exists (fun i => match i with O => ga | _ => gb end). intros [|[|i]] k; cbn; intros [= ->]; auto. }
  destruct (open_all_spec envs pkts s G acc s' Hb HG E) as [Hnd Hall]. split; [done|].
  intros key_id pid pt Hin. by destruct (Hall _ Hin) as [_ ?].
Qed.

(** ** Outbound data *)

(** C16: IP packets read from the TUN reach the client they are routed to, and
    nobody else.  For a packet whose destination is routed to a live session
    with a key, either the transport refuses and nothing is sent, or exactly
    one packet goes to that session's transport and the client opens it to
    exactly the IP packet. *)
Theorem tun_packet_forwarded self pkt sh addr arc s k w :
  shared_ok self sh -> tun_route pkt sh = Ok (Some addr) -> sessions sh !! addr = Some arc ->
  arcs sh !! arc = Some s -> active_slot s = Ok (Some k) -> seal_fits pkt ->
  0 <= Replay.highest w < ks_data_pid_out k ->
  exists r sh', forward_tun_to_client pkt sh = (r, sh') /\
  match r with
  | Ok _ => exists wire w',
      (forall t, sent_to t (net sh') =
                 sent_to t (net sh) ++ (if bool_decide (transport s = t) then [wire] else [])) /\
      peer_receive (Crypto.mirror (ks_cipher k)) w wire = Ok (pkt, w')
  | Err _ => forall t, sent_to t (net sh') = sent_to t (net sh)
  | _ => False
  end.
Proof.
  intros Hsh Hroute Haddr Harc Ha Hfit Hw.
  pose proof (sh_arcs self sh Hsh arc s Harc) as Hs. cbn in Hs.
  pose proof (so_slot s Hs _ _ (proj1 (active_slot_lookup s k) Ha)) as [Hkid Hpid _].
  set (header := data_packet_header (ks_key_id k) (peer_id s) (ks_data_pid_out k)).
  destruct (Crypto.seal_total (ks_cipher k) (ks_data_pid_out k) header pkt) as [ct Hct]; [done| |].
  { unfold header, data_packet_header. by rewrite length_app, length_to_be. }
  destruct (peer_receive_built k (peer_id s) (ks_data_pid_out k) pkt ct w) as (w' & Hrecv & _);
    [done|apply Hs|done|done|done|].
  unfold forward_tun_to_client. msimp. rewrite Hroute. msimp. cbn [mbind option_bind]. rewrite Haddr.
  unfold with_session. rewrite Harc. msimp. rewrite on_sess_run. msimp. rewrite Ha. msimp.
  rewrite on_sess_run, (build_data_packet_eq s k pkt ct Ha Hct). msimp. unfold send_sess. msimp.
  rewrite on_sess_run. msimp. rewrite on_shared_run. unfold on_net. cbn [transport set_slots]. fold header.
  destruct (send (transport s) (header ++ ct) (net sh)) as [r n] eqn:Es. cbn [fst snd].
  pose proof (fun t => send_sent _ t _ _ _ _ Es) as Hsent.
  destruct r as [[]|e| |]; [| |by destruct (Hsent (transport s)) as [_ []]..]; cbn [fst snd];
    eexists _, _; (split; [reflexivity|]).
  - exists (header ++ ct), w'. split; [|done]. intros t. cbn. apply (Hsent t).
  - intros t. cbn. destruct (Hsent t) as [-> _]. cbn. by rewrite app_nil_r.
Qed.

(** ** TCP framing *)

Lemma deframe_frame fuel p rest :
  0 < Z.of_nat (length p) <= 65535 ->
  deframe_fuel (S fuel) (frame p ++ rest) = p :: deframe_fuel fuel rest.
Proof.
  intros Hp. unfold frame. rewrite (proj2 (Z.ltb_ge _ _)) by lia.
  assert (u16_ok (Z.of_nat (length p))) as H16 by (unfold uint_ok; lia).
  rewrite wrap_small by done. pose proof (length_to_be 2 (Z.of_nat (length p))) as L2.
  pose proof (from_to_be 2 (Z.of_nat (length p)) (proj1 (u16_be _) H16)) as F2.
  destruct (to_be 2 _) as [|b0 [|b1 [|]]]; try done. cbn [app deframe_fuel]. rewrite F2, Nat2Z.id.
  rewrite (proj2 (Nat.eqb_neq _ _)) by lia. rewrite (proj2 (Nat.ltb_ge _ _)) by (rewrite length_app; lia).
  by rewrite take_app_length, drop_app_length.
Qed.

Lemma length_frame p : Z.of_nat (length p) <= 65535 -> length (frame p) = S (S (length p)).
Proof.
  intros. unfold frame. rewrite (proj2 (Z.ltb_ge _ _)) by lia. by rewrite length_app, length_to_be.
Qed.

Lemma deframe_partial fuel p m :
  0 < Z.of_nat (length p) <= 65535 -> (m < length (frame p))%nat -> deframe_fuel fuel (take m (frame p)) = [].
Proof.
  intros Hp Hm. rewrite length_frame in Hm by lia. destruct fuel as [|fuel]; [done|].
  unfold frame. rewrite (proj2 (Z.ltb_ge _ _)) by lia.
  assert (u16_ok (Z.of_nat (length p))) as H16 by (unfold uint_ok; lia).
  rewrite wrap_small by done. pose proof (length_to_be 2 (Z.of_nat (length p))) as L2.
  pose proof (from_to_be 2 (Z.of_nat (length p)) (proj1 (u16_be _) H16)) as F2.
  destruct (to_be 2 _) as [|b0 [|b1 [|]]]; try done. destruct m as [|[|m]]; [done|done|].
  cbn [app take firstn deframe_fuel]. rewrite F2, Nat2Z.id, (proj2 (Nat.eqb_neq _ _)) by lia.
  rewrite (proj2 (Nat.ltb_lt _ _)); [done|]. rewrite length_take. lia.
Qed.

(** C40: packets survive the TCP stream.  The reader recovers exactly the
    packets the writer framed (1 to 65535 bytes each), in order, whatever
    incomplete frame the end of the stream cuts off. *)
Theorem tcp_framing_roundtrip pkts p m :
  Forall (fun q => 0 < Z.of_nat (length q) <= 65535) (p :: pkts) -> (m < length (frame p))%nat ->
  deframe (concat (frame <$> pkts) ++ take m (frame p)) = pkts.
Proof.
  intros [Hp Hpkts]%Forall_cons Hm. unfold deframe.
  assert (forall fuel, (length pkts <= fuel)%nat ->
    deframe_fuel fuel (concat (frame <$> pkts) ++ take m (frame p)) = pkts) as Hgen.
  { induction Hpkts as [|q pkts Hq _ IH]; intros fuel Hf.
    - cbn [fmap list_fmap concat app]. by apply deframe_partial.
    - rewrite fmap_cons. cbn [concat length] in *. destruct fuel as [|fuel]; [lia|].
      rewrite <-app_assoc, deframe_frame, IH by (done || lia). done. }
  apply Hgen. rewrite length_app. clear -Hpkts. induction Hpkts as [|q pkts Hq _ IH]; [simpl; lia|].
  rewrite fmap_cons. cbn [concat length]. rewrite length_app, length_frame by lia. lia.
Qed.

(** ** The reaper *)

Definition idle (self : VpnServer) (env : Env) (s : Session) : Prop :=
  Config.keepalive_timeout (cfg self) * SECOND <= duration_since (now env) (last_seen s).

#[export] Instance idle_dec self env s : Decision (idle self env s).
Proof. unfold idle. apply _. Defined.

(** [m'] is [m] without the keys of [hit]. *)
Definition less {K V} `{Countable K} (hit : K -> Prop) (m m' : gmap K V) : Prop :=
  forall k v, m' !! k = Some v <-> m !! k = Some v /\ ~ hit k.

(** The sessions at the addresses [out] are forgotten; [gone] are these
    sessions.  Every table loses their entries and no other, and nothing else
    changes. *)
Record swept (out : SocketAddr -> Prop) (gone : Session -> Prop) (sh sh' : Shared) : Prop := {
  sw_sessions : less out (sessions sh) (sessions sh');
  sw_routes : less (fun ip => exists s, gone s /\ assigned_ip s = Some (V4 ip)) (routes sh) (routes sh');
  sw_routes6 : less (fun ip => exists s, gone s /\ assigned_ip_v6 s = Some ip) (routes_v6 sh) (routes_v6 sh');
  sw_peers : less (fun pid => exists s, gone s /\ peer_id s = pid) (peers sh) (peers sh');
  sw_data : less (fun pid => exists s, gone s /\ peer_id s = pid) (data_routes sh) (data_routes sh');
  sw_rest : sh' = set_data_routes (data_routes sh') (set_peers (peers sh') (set_routes_v6 (routes_v6 sh')
              (set_routes (routes sh') (set_sessions (sessions sh') sh))));
}.

Section less.
Context {K V : Type} `{Countable K}.
Implicit Types (hit : K -> Prop) (m : gmap K V).

Lemma less_ext hit hit' m m' : (forall k, hit k <-> hit' k) -> less hit m m' -> less hit' m m'.
Proof. intros Hh Hl k v. rewrite <-Hh. apply Hl. Qed.
Lemma less_refl hit m : (forall k, ~ hit k) -> less hit m m.
Proof. intros Hh k v. naive_solver. Qed.
Lemma less_trans hit1 hit2 m1 m2 m3 : less hit1 m1 m2 -> less hit2 m2 m3 -> less (fun k => hit1 k \/ hit2 k) m1 m3.
Proof. intros H1 H2 k v. rewrite (H2 k v), (H1 k v). tauto. Qed.
Lemma less_delete k m : less (fun k' => k' = k) m (delete k m).
Proof. intros k' v. rewrite lookup_delete_Some. naive_solver. Qed.
End less.

Lemma swept_refl out gone sh : (forall a, ~ out a) -> (forall s, ~ gone s) -> swept out gone sh sh.
Proof. intros Ho Hg. constructor; try (apply less_refl; naive_solver). by destruct sh. Qed.
Lemma swept_trans o1 o2 g1 g2 sh1 sh2 sh3 :
  swept o1 g1 sh1 sh2 -> swept o2 g2 sh2 sh3 -> swept (fun a => o1 a \/ o2 a) (fun s => g1 s \/ g2 s) sh1 sh3.
Proof.
  intros [A1 A2 A3 A4 A5 A6] [B1 B2 B3 B4 B5 B6]. constructor.
  - by eapply less_trans.
  - eapply less_ext; [|by eapply less_trans]. naive_solver.
  - eapply less_ext; [|by eapply less_trans]. naive_solver.
  - eapply less_ext; [|by eapply less_trans]. naive_solver.
  - eapply less_ext; [|by eapply less_trans]. naive_solver.
  - rewrite B6, A6. done.
Qed.
Lemma swept_ext (o1 o2 : SocketAddr -> Prop) (g1 g2 : Session -> Prop) sh sh' :
  (forall a, o1 a <-> o2 a) -> (forall s, g1 s <-> g2 s) -> swept o1 g1 sh sh' -> swept o2 g2 sh sh'.
Proof. intros Ho Hg []. constructor; try done; (eapply less_ext; [|done]); naive_solver. Qed.
Lemma swept_forget addr s sh : swept (fun a => a = addr) (fun s' => s' = s) sh (forget addr s sh).
Proof.
  constructor; [rewrite forget_sessions; apply less_delete|..];
    unfold forget; destruct (assigned_ip s) as [[ip|ip]|] eqn:E4, (assigned_ip_v6 s) as [ip6|] eqn:E6; cbn; try done;
    first [ eapply less_ext; [|apply less_delete]; naive_solver | apply less_refl; naive_solver ].
Qed.

Lemma reap_one_spec self env addr sh arc s :
  sessions sh !! addr = Some arc -> arcs sh !! arc = Some s ->
  reap_one self env addr sh = (Ok tt, if decide (idle self env s) then forget addr s sh else sh).
Proof.
  intros Ha Hs. unfold reap_one, idle. rewrite Ha, Hs. destruct (Z.leb_spec (Config.keepalive_timeout (cfg self) * SECOND)
    (duration_since (now env) (last_seen s))); case_decide; (done || lia).
Qed.

(** The session at [addr] is silent for too long. *)
Definition idle_at (self : VpnServer) (env : Env) (sh : Shared) (addr : SocketAddr) (s : Session) : Prop :=
  exists arc, sessions sh !! addr = Some arc /\ arcs sh !! arc = Some s /\ idle self env s.

Lemma reap_list self env addrs sh :
  shared_ok self sh ->
  exists sh', for_each (reap_one self env) addrs sh = (Ok tt, sh') /\
    swept (fun a => a ∈ addrs /\ exists s, idle_at self env sh a s)
          (fun s => exists a, a ∈ addrs /\ idle_at self env sh a s) sh sh'.
Proof.
  revert sh. induction addrs as [|a addrs IH]; intros sh Hsh; cbn [for_each].
  { exists sh. split; [done|]. apply swept_refl; set_solver. }
  msimp. destruct (reap_one_safe self env a sh Hsh) as (_ & Hsh1 & _).
  assert (forall s, idle_at self env sh a s -> reap_one self env a sh = (Ok tt, forget a s sh)) as Hyes.
  { intros s (arc & Ha & Hs & Hi). by rewrite (reap_one_spec self env a sh arc s Ha Hs), decide_True. }
  assert ((forall s, ~ idle_at self env sh a s) -> reap_one self env a sh = (Ok tt, sh)) as Hno.
  { intros Hn. destruct (sessions sh !! a) as [arc|] eqn:Ha; [|unfold reap_one; by rewrite Ha].
    destruct (sh_sessions self sh Hsh a arc Ha) as [s Hs]. rewrite (reap_one_spec self env a sh arc s Ha Hs), decide_False; [done|].
    intros Hi. apply (Hn s). by exists arc. }
  assert ((exists s, idle_at self env sh a s) \/ forall s, ~ idle_at self env sh a s) as [[s0 Hs0]|Hn].
  { destruct (sessions sh !! a) as [arc|] eqn:Ha; [destruct (arcs sh !! arc) as [s|] eqn:Hs; [destruct (decide (idle self env s)) as [Hi|Hi]|]|].
    1: left; by exists s, arc. all: right; intros s' (arc' & ? & ? & ?); naive_solver. }
  - rewrite (Hyes s0 Hs0) in Hsh1 |- *. destruct (IH _ Hsh1) as (sh' & E & Hsw). exists sh'. split; [exact E|].
    assert (arcs (forget a s0 sh) = arcs sh) as Ea by (unfold forget; by repeat case_match).
    assert (forall a' s, idle_at self env (forget a s0 sh) a' s <-> a' <> a /\ idle_at self env sh a' s) as Hat.
    { intros a' s. unfold idle_at. rewrite forget_sessions, Ea.
      setoid_rewrite lookup_delete_Some. naive_solver. }
    assert (forall s, idle_at self env sh a s <-> s = s0) as Hs.
    { intros s. destruct Hs0 as (arc & Ha & Hs0 & Hi). unfold idle_at. rewrite Ha. naive_solver. }
    eapply swept_ext; [| |eapply swept_trans; [apply (swept_forget a s0)|exact Hsw]].
    + intros a'. setoid_rewrite Hat. rewrite elem_of_cons. destruct (decide (a' = a)) as [->|]; [|naive_solver]. naive_solver.
    + intros s. setoid_rewrite Hat. setoid_rewrite elem_of_cons. split.
      * intros [->|(a' & ? & ? & ?)]; [exists a; naive_solver|eauto].
      * intros (a' & [->|Hin] & Hi); [left; by apply Hs|]. destruct (decide (a' = a)) as [->|]; [left; by apply Hs|eauto 10].
  - rewrite (Hno Hn) in Hsh1 |- *. destruct (IH _ Hsh1) as (sh' & E & Hsw). exists sh'. split; [exact E|].
    eapply swept_ext; [| |exact Hsw]; intros x; setoid_rewrite elem_of_cons; naive_solver.
Qed.

(** C39: the reaper is exact, as long as handlers run one at a time.  A tick
    removes the sessions that have been silent for the keepalive timeout, and
    from the routes of both families, the peer ids and the data inlets exactly
    the entries under the tunnel addresses and the peer id of one of them; every
    other session and every other entry stays as it was, and nothing else in the
    shared state changes, no session object either. *)
Theorem reaper_exact self env sh :
  shared_ok self sh ->
  exists sh', reaper_tick self env sh = (Ok tt, sh') /\
    swept (fun a => exists s, idle_at self env sh a s) (fun s => exists a, idle_at self env sh a s) sh sh'.
Proof.
  intros Hsh. unfold reaper_tick, tick. msimp.
  destruct (reap_list self env (map_to_list (sessions sh)).*1 sh Hsh) as (sh' & E & Hsw).
  exists sh'. split; [done|].
  assert (forall a s, idle_at self env sh a s -> a ∈ (map_to_list (sessions sh)).*1) as Hin.
  { intros a s (arc & Ha & _). apply list_elem_of_fmap. exists (a, arc). split; [done|]. by apply elem_of_map_to_list. }
  eapply swept_ext; [| |exact Hsw]; naive_solver.
Qed.

(** ** The address pool *)

Fixpoint allocate_many (self : VpnServer) (n : nat) : M Shared (list Z) :=
  match n with
  | O => mret []
  | S n' =>
    ip ← allocate_ip self;
    ips ← allocate_many self n';
    mret (ip :: ips)
  end.

Lemma allocate_many_spec self n sh :
  0 <= next_pool_ip sh -> next_pool_ip sh + Z.of_nat n <= pool_end self + 1 -> pool_end self < 2 ^ 32 - 1 ->
  exists sh', allocate_many self n sh = (Ok (seqZ (next_pool_ip sh) (Z.of_nat n)), sh') /\
    next_pool_ip sh' = next_pool_ip sh + Z.of_nat n.
Proof.
  intros H0. revert sh H0. induction n as [|n IH]; intros sh H0 Hn He.
  { exists sh. split; [done|]. lia. }
  cbn [allocate_many]. msimp. unfold allocate_ip at 1. rewrite (proj2 (Z.ltb_ge _ _)) by lia. msimp.
  set (sh1 := set_next_pool_ip _ sh).
  assert (next_pool_ip sh1 = next_pool_ip sh + 1) as E1.
  { cbn. unfold wrapping_add. apply wrap_small. unfold uint_ok. lia. }
  destruct (IH sh1) as (sh' & E & Hn'); [lia|lia|lia|]. rewrite E. msimp. exists sh'. split; [|lia].
  rewrite E1, Nat2Z.inj_succ, (seqZ_cons (next_pool_ip sh) (Z.succ _)) by lia. by rewrite Z.pred_succ.
Qed.

(** The pool hands out each of its addresses once.  From a pool at [a]
    with inclusive end [e] (below 255.255.255.255), as many allocations as
    there are addresses left give [a], [a+1], .., in this order, all different
    and all inside the pool; the next one reports exhaustion and changes
    nothing, so no address is ever handed out twice. *)
Theorem pool_hands_out_once self sh n :
  0 <= next_pool_ip sh -> pool_end self < 2 ^ 32 - 1 -> next_pool_ip sh + Z.of_nat n = pool_end self + 1 ->
  exists sh' ips, allocate_many self n sh = (Ok ips, sh') /\ NoDup ips /\ length ips = n /\
    Forall (fun ip => next_pool_ip sh <= ip <= pool_end self) ips /\
    allocate_ip self sh' = (Err PoolExhausted, sh').
Proof.
  intros H0 He Hn. destruct (allocate_many_spec self n sh) as (sh' & E & Hnext); [lia..|].
  exists sh', (seqZ (next_pool_ip sh) (Z.of_nat n)). split; [done|]. split; [apply NoDup_seqZ|].
  split; [rewrite length_seqZ; lia|]. split.
  - apply Forall_forall. intros ip Hip%elem_of_seqZ. lia.
  - unfold allocate_ip. by rewrite (proj2 (Z.ltb_lt _ _)) by lia.
Qed.

(** ** Pushed routes *)

Lemma mask_of_prefix bits :
  0 <= bits <= 32 ->
  Text.parse_u32 (Utf8.show bits) = Some bits /\
  (if bits =? 0 then 0 else wrap 32 (Z.shiftl (2 ^ 32 - 1) (32 - bits))) = 2 ^ 32 - 2 ^ (32 - bits).
Proof.
  intros Hb. assert (In bits (seqZ 0 33)) as Hin by (apply list_elem_of_In, elem_of_seqZ; lia).
  vm_compute in Hin. repeat (destruct Hin as [<-|Hin]; [split; vm_compute; reflexivity|]). destruct Hin.
Qed.

Lemma parse_u32_bad b r : ~ (48 <= b <= 57) -> b <> 43 -> Text.parse_u32 (b :: r) = None.
Proof.
  intros Hb H43. unfold Text.parse_u32. destruct b as [|p|p]; [done| |done].
  assert (forall s, Text.digits_u32 0 (Z.pos p :: s) = None) as Hd.
  { intros s. cbn [Text.digits_u32]. unfold Utf8.between.
    destruct (Z.leb_spec 48 (Z.pos p)), (Z.leb_spec (Z.pos p) 57); try done. lia. }
  do 6 (destruct p as [p|p|]; try apply Hd); done.
Qed.

(** CIDR routes are translated exactly.  [net/bits] with [0 <= bits <= 32]
    becomes the route to [net] with the netmask of [bits] leading ones; a text
    without a slash, a prefix above 32 (as a decimal [u32]) and a prefix that
    starts with neither a digit nor a plus sign are skipped. *)
Theorem cidr_to_route_exact net :
  47 ∉ net ->
  cidr_to_route net = None /\
  (forall bits, 0 <= bits <= 32 ->
     cidr_to_route (net ++ str "/" ++ Utf8.show bits) = Some (net, Text.show_ipv4 (2 ^ 32 - 2 ^ (32 - bits)))) /\
  (forall text bits, Text.parse_u32 text = Some bits -> 32 < bits -> cidr_to_route (net ++ str "/" ++ text) = None) /\
  (forall b text, ~ (48 <= b <= 57) -> b <> 43 -> cidr_to_route (net ++ str "/" ++ b :: text) = None).
Proof.
  intros Hn. unfold cidr_to_route. change (str "/") with [47]. cbn [app]. split_and!.
  - assert (Text.split_once 47 net = None) as ->; [|done].
    induction net as [|b net IH]; [done|]. apply not_elem_of_cons in Hn as [Hb Hn]. cbn [Text.split_once].
    rewrite (proj2 (Z.eqb_neq _ _)) by done. by rewrite IH.
  - intros bits Hb. rewrite Text.split_once_app by done. cbn [mbind option_bind].
    destruct (mask_of_prefix bits Hb) as [E1 E2]. rewrite E1. cbn [mbind option_bind]. cbv zeta.
    by rewrite (proj2 (Z.ltb_ge _ _)), E2 by lia.
  - intros text bits Ht Hb. rewrite Text.split_once_app by done. cbn [mbind option_bind]. rewrite Ht. cbn [mbind option_bind].
    by rewrite (proj2 (Z.ltb_lt _ _)) by lia.
  - intros b text Hb H43. rewrite Text.split_once_app by done. cbn [mbind option_bind]. by rewrite parse_u32_bad.
Qed.

(** ** Answering PUSH_REQUEST *)

(** The override for the client's common name, if any. *)
Definition override (self : VpnServer) (s : Session) : option Config.ClientConfig :=
  client_cn s ≫= fun cn => Config.client_configs (cfg self) !! cn.

Lemma choose_ip_spec self cc sh :
  exists r sh', choose_ip self cc sh = (r, sh') /\ routes sh' = routes sh /\
    match r with
    | Ok ip =>
      match cc ≫= Config.assign_ip with
      | Some (V4 a) => ip = a /\ routes sh !! a = None /\ next_pool_ip sh' = next_pool_ip sh
      | Some (V6 _) => False
      | None => ip = next_pool_ip sh /\ ip <= pool_end self /\ next_pool_ip sh' = wrap 32 (ip + 1)
      end
    | Err _ => sh' = sh
    | _ => False
    end.
Proof.
  unfold choose_ip. destruct (cc ≫= Config.assign_ip) as [[a|a]|].
  - msimp. case_bool_decide as Hu; eexists _, _; (split; [done|]); split; try done.
    split; [done|]. split; [|done]. by destruct (routes sh !! a); [destruct Hu; eexists|].
  - eexists _, _. by split.
  - unfold allocate_ip. destruct (Z.ltb_spec (pool_end self) (next_pool_ip sh)); eexists _, _; by split.
Qed.

Lemma allocate_ip_v6_frame self sh :
  exists r sh', allocate_ip_v6 self sh = (r, sh') /\ routes sh' = routes sh /\
    next_pool_ip sh' = next_pool_ip sh /\ (forall e, r = Err e -> e = PoolV6Exhausted).
Proof.
  unfold allocate_ip_v6. destruct (next_pool_ip_v6 sh); [destruct (pool_end_v6 self); [destruct (_ <? _)|]|];
    eexists _, _; (split; [reflexivity|]); split_and!; try done; by intros e [= <-].
Qed.

(** Queueing the reply and moving to [Established]. *)
Lemma push_tail reply s sh r s' sh' :
  (on_sess (on_tls (Tls.send_plaintext reply)) ≫= fun _ => on_sess (modify (set_state Established))) (s, sh)
    = (r, (s', sh')) ->
  sh' = sh /\
  match r with
  | Ok _ => assigned_ip s' = assigned_ip s /\ state s' = Established
  | Err e => e = TlsWrite
  | _ => True
  end.
Proof.
  msimp. rewrite on_sess_run, on_tls_run. unfold Tls.send_plaintext.
  destruct (writer_write_all _ _) as [c []]; cbn [fst snd]; [|by intros [= <- <- <-]].
  rewrite on_sess_run. msimp. by intros [= <- <- <-].
Qed.

(** The address a client gets.  When [PUSH_REQUEST] is answered, the
    session is established with a tunnel address routed to it: its configured
    static address, and then nobody had a route for it; or else the next
    address of the pool, inside the pool, which the pool moves past.  Other
    routes are untouched.  A static address in use, an IPv6 one, or an
    exhausted pool is refused with no change to routes, pool or session. *)
Theorem push_request_address self addr s sh r s' sh' :
  handle_push_request self addr (s, sh) = (r, (s', sh')) ->
  match r with
  | Ok _ => exists ip, assigned_ip s' = Some (V4 ip) /\ state s' = Established /\
      routes sh' = <[ip := addr]> (routes sh) /\
      match override self s ≫= Config.assign_ip with
      | Some (V4 a) => ip = a /\ routes sh !! a = None /\ next_pool_ip sh' = next_pool_ip sh
      | Some (V6 _) => False
      | None => ip = next_pool_ip sh /\ ip <= pool_end self /\ next_pool_ip sh' = wrap 32 (ip + 1)
      end
  | Err (StaticIpInUse _) | Err PerClientV6 | Err PoolExhausted => s' = s /\ sh' = sh
  | _ => True
  end.
Proof.
  unfold handle_push_request. msimp. rewrite on_sess_run. msimp. rewrite on_shared_run. fold (override self s).
  destruct (choose_ip_spec self (override self s) sh) as (r1 & sh1 & E1 & Hroutes & H1). rewrite E1. cbn [fst snd].
  destruct r1 as [ip|e| |]; [| |done..]; cycle 1.
  { intros [= <- <- <-]. subst sh1. by destruct e. }
  msimp. rewrite on_sess_run. msimp. rewrite on_shared_run. msimp. rewrite on_shared_run.
  destruct (allocate_ip_v6_frame self (set_routes (<[ip := addr]> (routes sh1)) sh1)) as (r3 & sh3 & E3 & R3 & P3 & X3).
  rewrite E3. cbn [fst snd]. cbn in R3, P3.
  destruct r3 as [ip6|e| |]; [|by intros [= <- <- <-]; rewrite (X3 e eq_refl)|by intros [= <- <- <-]..].
  destruct ip6 as [v6|]; msimp; [rewrite on_sess_run; msimp; rewrite on_shared_run; msimp|];
    intros [-> E]%push_tail; (destruct r as [[]|e| |]; [|by subst e|done..]); destruct E as [F1 F2];
    exists ip; rewrite F1, F2; cbn; rewrite R3, P3, Hroutes; done.
Qed.

End props.
End ServerProps.
