(* ===== verification/Isolation.v ===== *)
(** * Data packets and their sessions (src/src/server.rs)

    Which packets can reach which session and the TUN device, over whole runs:
    the invariant that ties the data routes, the data workers and their inboxes
    to the sessions, what an event can add to the TUN queue, and the way of one
    packet from the client's cipher to the device. *)

From S2P Require Import Prelude Replay Buf Protocol Utf8 ControlChannel Primitives Crypto Prf.
From S2P Require Import Envelope TlsAuth TlsCrypt Text StaticKey Tls Certs Transport Config Masquerade.
From S2P Require Import Session SessionInv Server Frames ServerInv System ServerProps.

Module Isolation.
Import Transport Session SessionInv Server Frames ServerInv System ServerProps.

Section isolation.
Context {B : BufApi} {C : CryptoApi} {T : TlsApi}.
Context {BL : BufLaws B} {CL : CryptoLaws C} {TL : TlsLaws T}.

(** A data packet that names the peer id of [s]. *)
Definition names (s : Session) (pkt : bytes) : Prop :=
  exists dp, Protocol.parse_data_v2 pkt = Ok dp /\ Protocol.d_peer_id dp = peer_id s.

Record data_inv (sh : Shared) : Prop := {
  di_inbox : forall w wk, workers sh !! w = Some wk ->
    exists s, arcs sh !! w_arc wk = Some s /\ Forall (names s) (w_inbox wk);
  di_routes : forall pid w, data_routes sh !! pid = Some w ->
    exists wk s a, workers sh !! w = Some wk /\ arcs sh !! w_arc wk = Some s /\ peer_id s = pid /\
      sessions sh !! a = Some (w_arc wk);
  di_workers : forall w, is_Some (workers sh !! w) -> (w < next_ref sh)%nat;
}.

Lemma names_le s s' pkt : sess_le s s' -> names s pkt -> names s' pkt.
Proof. intros Hle (dp & E & Hp). exists dp. split; [done|]. by rewrite (le_peer _ _ Hle). Qed.

(** Sessions that move forward keep it, as long as the maps stay. *)
Lemma data_inv_mono sh sh' :
  data_inv sh -> shared_le sh sh' -> sessions sh' = sessions sh -> workers sh' = workers sh ->
  data_routes sh' = data_routes sh -> (next_ref sh <= next_ref sh')%nat -> data_inv sh'.
Proof.
  intros [Hi Hr Hw] Hle E1 E2 E3 Hn. constructor; rewrite ?E1, ?E2, ?E3.
  - intros w wk H. destruct (Hi w wk H) as (s & Hs & Hb). destruct (Hle _ _ Hs) as (s' & Hs' & Hss).
    exists s'. split; [done|]. eapply Forall_impl; [done|]. intros p. by apply names_le.
  - intros pid w H. destruct (Hr pid w H) as (wk & s & a & H1 & H2 & H3 & H4).
    destruct (Hle _ _ H2) as (s' & Hs' & Hss). exists wk, s', a. split_and!; try done. by rewrite (le_peer _ _ Hss).
  - intros w H. specialize (Hw w H). lia.
Qed.

(** What a handler under a session's lock leaves of the shared state. *)
Lemma with_session_frame self arc {A} (m : M (Session * Shared) A) sh :
  safe (ctx_ok self) ctx_le m -> shared_ok self sh -> is_Some (arcs sh !! arc) ->
  let sh' := (with_session arc m sh).2 in
  sessions sh' = sessions sh /\ workers sh' = workers sh /\ data_routes sh' = data_routes sh /\
  next_ref sh' = next_ref sh /\ tun_queue sh' = tun_queue sh /\
  forall arc', arc' <> arc -> arcs sh' !! arc' = arcs sh !! arc'.
Proof.
  intros Hm Hsh [s Hs]. unfold with_session. rewrite Hs.
  destruct (Hm (s, sh)) as (_ & _ & _ & Hf); [split; [by apply (sh_arcs self sh Hsh arc s)|done]|].
  destruct (m (s, sh)) as [r [s' sh']]. cbn in *. destruct Hf. split_and!; try done.
  intros arc' Hne. rewrite lookup_insert_ne by done. congruence.
Qed.

(** The events that change neither the maps nor the workers. *)
Definition still (sh sh' : Shared) : Prop :=
  sessions sh' = sessions sh /\ workers sh' = workers sh /\ data_routes sh' = data_routes sh /\
  (next_ref sh <= next_ref sh')%nat.

Lemma data_inv_still sh sh' : data_inv sh -> shared_le sh sh' -> still sh sh' -> data_inv sh'.
Proof. intros Hi Hle (E1 & E2 & E3 & E4). by apply (data_inv_mono sh). Qed.

Lemma still_refl sh : still sh sh.
Proof. by split_and!. Qed.
Lemma logged_snd {S A} (m : M S A) s : (logged m s).2 = (m s).2.
Proof. unfold logged. by destruct (m s) as [[] ?]. Qed.
Lemma logged_fst {S A} (m : M S A) s : returns (m s).1 -> (logged m s).1 = Ok tt.
Proof. unfold logged. by destruct (m s) as [[] ?]. Qed.

Lemma with_session_still self arc {A} (m : M (Session * Shared) A) sh :
  safe (ctx_ok self) ctx_le m -> shared_ok self sh -> is_Some (arcs sh !! arc) ->
  still sh (with_session arc m sh).2 /\ tun_queue (with_session arc m sh).2 = tun_queue sh.
Proof.
  intros Hm Hsh Ha. destruct (with_session_frame self arc m sh Hm Hsh Ha) as (E1 & E2 & E3 & E4 & E5 & _).
  split; [|done]. by split_and!; [..|lia].
Qed.

Lemma for_session_still self addr m sh :
  safe (ctx_ok self) ctx_le m -> shared_ok self sh ->
  still sh (for_session addr m sh).2 /\ tun_queue (for_session addr m sh).2 = tun_queue sh.
Proof.
  intros Hm Hsh. unfold for_session. msimp. destruct (sessions sh !! addr) as [arc|] eqn:Ea; [|by split; [apply still_refl|]].
  rewrite logged_snd. apply (with_session_still self); [done|done|]. by apply (sh_sessions self sh Hsh addr).
Qed.

(** ** Sessions come and go *)

Lemma evict_data addr arc s sh :
  sessions sh !! addr = Some arc -> arcs sh !! arc = Some s -> data_inv sh -> data_inv (forget addr s sh).
Proof.
  intros Ha Hs [Hi Hr Hw].
  assert (workers (forget addr s sh) = workers sh /\ arcs (forget addr s sh) = arcs sh /\
    next_ref (forget addr s sh) = next_ref sh /\
    data_routes (forget addr s sh) = delete (peer_id s) (data_routes sh)) as (E1 & E2 & E3 & E4).
  { unfold forget. by destruct (assigned_ip s) as [[]|], (assigned_ip_v6 s). }
  constructor; rewrite ?E1, ?E2, ?E3; [done| |done]. intros pid w. rewrite E4. intros [Hne H]%lookup_delete_Some.
  destruct (Hr pid w H) as (wk & s' & a & H1 & H2 & H3 & H4). exists wk, s', a. split_and!; try done.
  rewrite forget_sessions, lookup_delete_ne; [done|]. intros ->. congruence.
Qed.

Lemma new_session_data self env addr ctrl pid tr sh :
  shared_ok self sh -> sessions sh !! addr = None -> data_inv sh ->
  data_inv (new_session self env addr ctrl pid tr sh).2 /\
  tun_queue (new_session self env addr ctrl pid tr sh).2 = tun_queue sh.
Proof.
  intros Hsh Ha Hinv. unfold new_session. msimp. destruct (Tls.new (tls_cfg self)) as [t|e| |]; try done; msimp.
  unfold take_peer_id. msimp. match goal with |- context [with_local ?s ?m] => set (sess := s); set (hello := m) end.
  set (sh1 := set_next_peer_id _ sh). set (peer := Z.land _ _) in *.
  assert (peer_id sess = peer) as Hp by by subst sess; destruct pid.
  assert (Moves quiet hello) as Hq by apply _. destruct (Hq (sess, sh1)) as [[_ _ Q3] [n En]]. unfold with_local.
  assert (forall n', data_inv (set_net n' sh1)) as Hbase.
  { intros n'. apply (data_inv_mono sh); try done. intros a s Hs. exists s. split; [done|reflexivity]. }
  destruct (hello (sess, sh1)) as [[u|e| |] [s2 sh2]]; cbn in *; subst sh2; msimp; [|done..].
  unfold fresh_ref. msimp. unfold spawn_data_worker. msimp.
  set (sh3 := set_peers _ _).
  assert (data_inv sh3 /\ sessions sh3 !! addr = Some (next_ref sh) /\ arcs sh3 !! next_ref sh = Some s2 /\
    tun_queue sh3 = tun_queue sh) as (Hinv3 & Ha3 & Hs3 & Hq3).
  { cbn. rewrite !lookup_insert_eq. split; [|done]. destruct Hinv as [Hi Hr Hw].
    assert (forall arc s, arcs sh !! arc = Some s -> arc <> next_ref sh) as Hold.
    { intros arc s Hs ->. pose proof (sh_arc_names self sh Hsh (next_ref sh)) as H. rewrite Hs in H.
      specialize (H ltac:(by eexists)). lia. }
    constructor; cbn.
    - intros w wk H. destruct (Hi w wk H) as (s & Hs & Hb). exists s. split; [|done].
      rewrite lookup_insert_ne; [done|]. apply not_eq_sym. by eapply Hold.
    - intros pid' w H. destruct (Hr pid' w H) as (wk & s' & a & H1 & H2 & H3 & H4). exists wk, s', a.
      rewrite !lookup_insert_ne; [done|congruence|]. apply not_eq_sym. by eapply Hold.
    - intros w H. specialize (Hw w H). lia. }
  clearbody sh3. destruct (tun_writer_tx sh3); [|done]. unfold fresh_ref. msimp. split; [|done].
  destruct Hinv3 as [Hi Hr Hw]. constructor; cbn.
  - intros w wk [[<- <-]|[_ H]]%lookup_insert_Some; [exists s2; split; [done|constructor]|by apply (Hi w)].
  - intros pid' w [[<- <-]|[_ H]]%lookup_insert_Some.
    + exists (MkWorker (next_ref sh) []), s2, addr. rewrite lookup_insert_eq. split_and!; try done. congruence.
    + destruct (Hr pid' w H) as (wk & s' & a & H1 & H2 & H3 & H4). exists wk, s', a. split_and!; try done.
      rewrite lookup_insert_ne; [done|]. intros <-. specialize (Hw (next_ref sh3) ltac:(by eexists)). lia.
  - intros w [->|H]%lookup_insert_is_Some'; [lia|]. specialize (Hw w H). lia.
Qed.

(** ** Packets *)

Lemma data_packet_long raw dp :
  bytes_ok raw -> Protocol.parse_data_v2 raw = Ok dp -> (8 <= length raw)%nat /\ u32_ok (Protocol.d_packet_id dp).
Proof.
  intros Hraw Ep. destruct (Protocol.parse_data_v2_exact raw Hraw) as [_ Hd].
  destruct (proj1 (Hd dp) Ep) as (_ & _ & Hpid & Hpkt). split; [|done].
  rewrite Hpkt, length_app. unfold Protocol.data_header. cbn [length]. rewrite length_app, !length_to_be. lia.
Qed.

Lemma route_data_inv pkt sh : data_inv sh -> data_inv (route_data pkt sh).2 /\ tun_queue (route_data pkt sh).2 = tun_queue sh.
Proof.
  intros Hinv. unfold route_data. destruct (Protocol.parse_data_v2 pkt) as [dp|e| |] eqn:Ep; [|done..].
  destruct (data_routes sh !! Protocol.d_peer_id dp) as [w|] eqn:Er; [|done].
  destruct Hinv as [Hi Hr Hw]. destruct (Hr _ _ Er) as (wk & s & a & H1 & H2 & H3 & H4). rewrite H1. split; [|done].
  constructor; cbn.
  - intros w' wk' [[<- <-]|[_ H]]%lookup_insert_Some; [|by apply (Hi w')]. exists s. split; [done|]. cbn.
    destruct (Hi w wk H1) as (s' & Hs' & Hb). assert (s' = s) as -> by congruence. apply Forall_app. split; [done|].
    apply Forall_singleton. by exists dp.
  - intros pid w' H. destruct (Hr pid w' H) as (wk' & s' & a' & G1 & G2 & G3 & G4).
    destruct (decide (w' = w)) as [->|Hne].
    + eexists _, s', a'. rewrite lookup_insert_eq. split; [done|]. cbn. assert (wk' = wk) as -> by congruence. done.
    + exists wk', s', a'. by rewrite lookup_insert_ne.
  - intros w' [->|H]%lookup_insert_is_Some'; [apply Hw; by eexists|by apply Hw].
Qed.

(** The event forwards one decrypted packet: [w]'s session is named by the
    packet's header and holds the key whose other side sealed it, and the
    packet is new. *)
Record forwards (ev : event) (sh sh' : Shared) (s : Session) (pt : bytes) : Prop := {
  fw_event : exists env w arc raw rest dp idx k,
    ev = EvWorker env w /\ workers sh !! w = Some (MkWorker arc (raw :: rest)) /\ arcs sh !! arc = Some s /\
    Protocol.parse_data_v2 raw = Ok dp /\ Protocol.d_peer_id dp = peer_id s /\
    slots s !! idx = Some (Some k) /\ ks_key_id k = Protocol.d_key_id dp /\
    Crypto.seal (Crypto.mirror (ks_cipher k)) (Protocol.d_packet_id dp) (take 8 raw) pt = Ok (Protocol.d_ciphertext dp) /\
    (Replay.check_and_set (ks_replay k) (Protocol.d_packet_id dp)).1 = true /\
    forall arc', arc' <> arc -> arcs sh' !! arc' = arcs sh !! arc';
  fw_ping : pt <> Protocol.PING_PAYLOAD;
  fw_queue : tun_queue sh' = tun_queue sh ++ [pt];
}.

Lemma worker_data self env w sh :
  shared_ok self sh -> data_inv sh ->
  let sh' := (worker_step env w sh).2 in
  data_inv sh' /\ (tun_queue sh' = tun_queue sh \/ exists s pt, forwards (EvWorker env w) sh sh' s pt).
Proof.
  intros Hsh Hinv sh'. subst sh'. unfold worker_step.
  destruct (workers sh !! w) as [[arc [|raw rest]]|] eqn:Ew; [by auto| |by auto]. rewrite logged_snd.
  set (sh1 := set_workers _ sh). destruct (di_inbox sh Hinv w _ Ew) as (s & Hs & Hb). cbn in Hs, Hb.
  apply Forall_cons in Hb as [(dp & Ep & Hpeer) Hrest].
  assert (data_inv sh1) as Hinv1.
  { destruct Hinv as [Hi Hr Hw]. constructor; cbn.
    - intros w' wk' [[<- <-]|[_ H]]%lookup_insert_Some; [by exists s|by apply (Hi w')].
    - intros pid w' H. destruct (Hr pid w' H) as (wk' & s' & a' & G1 & G2 & G3 & G4).
      destruct (decide (w' = w)) as [->|Hne].
      + eexists _, s', a'. rewrite lookup_insert_eq. split; [done|]. cbn.
        assert (wk' = MkWorker arc (raw :: rest)) as -> by congruence. done.
      + exists wk', s', a'. by rewrite lookup_insert_ne.
    - intros w' [->|H]%lookup_insert_is_Some'; apply Hw; [by eexists|done]. }
  destruct (sh_workers self sh Hsh w _ Ew) as [_ Hbytes]. cbn in Hbytes. apply Forall_cons in Hbytes as [Hraw Hrb].
  assert (shared_ok self sh1) as Hsh1.
  { destruct Hsh. constructor; cbn; try assumption. apply map_Forall_insert_2; [constructor; [by eexists|done]|].
    intros w' wk' Hw'. eapply worker_ok_mono; [|by apply sh_workers0 in Hw']. done. }
  unfold decrypt_and_forward. rewrite Ep. msimp.
  destruct (data_packet_long raw dp Hraw Ep) as [Hl Hpid].
  pose proof (safe_on_sess self _ (open_packet_safe env raw dp Hl Hpid)) as Hsafe.
  destruct (with_session_safe self arc _ sh1 Hsafe Hsh1 ltac:(by eexists)) as (_ & _ & Hle).
  destruct (with_session_frame self arc _ sh1 Hsafe Hsh1 ltac:(by eexists)) as (E1 & E2 & E3 & E4 & E5 & E6).
  assert (with_session arc (on_sess (open_packet env raw dp)) sh1 =
    ((open_packet env raw dp s).1, (with_session arc (on_sess (open_packet env raw dp)) sh1).2)) as Ews.
  { unfold with_session. cbn [arcs sh1 set_workers]. rewrite Hs, on_sess_run. done. }
  destruct (with_session _ _ sh1) as [res sh2]. injection Ews as ->. cbn in Hle, E1, E2, E3, E4, E5, E6.
  assert (data_inv sh2) as Hinv2 by by apply (data_inv_mono sh1); [..|rewrite E4].
  destruct (open_packet env raw dp s) as [[pt|e| |] s'] eqn:Eo; cbn [fst snd]; [|by auto..].
  apply open_packet_accepts in Eo as (idx & k & _ & O1 & O2 & O3 & O4 & _); [|done].
  case_bool_decide as Hping; [by auto|]. unfold tun_send. destruct (tun_open sh2); [|by auto]. split.
  - apply (data_inv_mono sh2); try done. intros a0 s0 Hs0. exists s0. split; [done|reflexivity].
  - right. exists s, pt. constructor; [|done|cbn; by rewrite E5].
    exists env, w, arc, raw, rest, dp, idx, k. by split_and!.
Qed.

Lemma dispatch_data self env addr tr pkt sh :
  env_ok env -> bytes_ok pkt -> shared_ok self sh -> data_inv sh ->
  let sh' := (dispatch self env addr tr pkt sh).2 in data_inv sh' /\ tun_queue sh' = tun_queue sh.
Proof.
  intros He Hb Hsh Hinv sh'. subst sh'. unfold dispatch. destruct pkt as [|first rest] eqn:Epkt; [done|]. rewrite <-Epkt in *.
  destruct (Protocol.from_u8 _) as [op|e| |]; [|done..]. destruct (Protocol.is_data op); [by apply route_data_inv|].
  destruct (unwrap_control_ok self pkt Hb) as [_ Hu].
  destruct (unwrap_control self pkt) as [[inner pid]|e| |]; [|done..]. destruct (Hu inner pid eq_refl) as [Hbi Hpid].
  rewrite logged_snd. pose proof (handle_control_packet_safe self env addr _ pid tr He Hbi Hpid sh Hsh) as (_ & _ & Hle).
  revert Hle. unfold handle_control_packet. msimp.
  destruct (Protocol.parse _) as [ctrl|e| |] eqn:Ep; msimp; try done.
  destruct (sessions sh !! addr) as [arc|] eqn:Ea.
  - intros Hle. assert (safe (ctx_ok self) ctx_le (handle_known self env addr ctrl pid)) as Hs.
    { apply handle_known_safe; [by eapply parse_ok|done]. }
    destruct (with_session_still self arc _ sh Hs Hsh (sh_sessions self sh Hsh addr arc Ea)) as [Hstill Hq].
    split; [by apply (data_inv_still sh)|done].
  - destruct (is_hard_reset _); [|done]. intros _. by apply new_session_data.
Qed.

Lemma tun_read_still self pkt sh :
  shared_ok self sh -> still sh (tun_read pkt sh).2 /\ tun_queue (tun_read pkt sh).2 = tun_queue sh.
Proof.
  intros Hsh. unfold tun_read. destruct pkt as [|b pkt]; [by split; [apply still_refl|]|]. rewrite logged_snd.
  unfold forward_tun_to_client. msimp. destruct (tun_route _ sh) as [dst|e| |]; msimp; try by split; [apply still_refl|].
  destruct (dst ≫= _) as [arc|] eqn:E; [|by split; [apply still_refl|]]. apply bind_Some in E as (a & _ & Ea).
  apply (with_session_still self); [|done|by apply (sh_sessions self sh Hsh a)].
  apply safe_get_sess. intros s Hs. destruct (active_slot_total s Hs) as (o & -> & _).
  apply safe_bind; [apply _|by apply safe_lift; [apply _|]|]. intros [k|]; [|apply safe_ret; apply _].
  apply safe_bind; [apply _|apply safe_on_sess, build_data_packet_safe|]. intros bs. apply send_sess_safe.
Qed.

Lemma handle_data self ev sh :
  event_ok ev -> shared_ok self sh -> data_inv sh ->
  let sh' := (handle self ev sh).2 in
  data_inv sh' /\
  ((exists k, tun_queue sh' = drop k (tun_queue sh)) \/ exists s pt, forwards ev sh sh' s pt).
Proof.
  intros He Hsh Hinv sh'. pose proof (handle_safe self ev He sh Hsh) as (_ & _ & Hle). fold sh' in Hle.
  assert (still sh sh' /\ tun_queue sh' = tun_queue sh -> data_inv sh' /\
    ((exists k, tun_queue sh' = drop k (tun_queue sh)) \/ exists s pt, forwards ev sh sh' s pt)) as Hstill.
  { intros [H1 H2]. split; [by apply (data_inv_still sh)|]. left. by exists 0%nat. }
  subst sh'. destruct ev; cbn [handle] in *.
  - destruct (dispatch_data self env addr tr pkt sh) as [H1 H2]; [apply He..|done|done|]. split; [done|]. left. by exists 0%nat.
  - destruct (worker_data self env w sh Hsh Hinv) as [H1 [H2|H2]]; (split; [done|]); [left; by exists 0%nat|by right].
  - clear Hle Hstill. unfold tun_writer_step.
    assert (forall q o v, data_inv (set_tun_written v (set_tun_open o (set_tun_queue q sh)))) as Hw.
    { intros q o v. apply (data_inv_mono sh); try done. intros a s Hs. exists s. split; [done|reflexivity]. }
    destruct (tun_open sh) eqn:Eo, (tun_queue sh) as [|p q] eqn:Eq; try by split; [done|left; exists 0%nat; rewrite drop_0].
    destruct (negb _); [|destruct write_ok]; cbn [snd]; split.
    + replace (set_tun_queue q sh) with (set_tun_written (tun_written sh) (set_tun_open true (set_tun_queue q sh)));
        [apply Hw|]. unfold set_tun_written. cbn. by rewrite <-Eo.
    + left. by exists 1%nat.
    + replace (set_tun_queue q sh) with (set_tun_open true (set_tun_queue q sh)); [apply Hw|].
      unfold set_tun_open. cbn. by rewrite <-Eo.
    + left. by exists 1%nat.
    + exact (Hw [] false (tun_written sh)).
    + left. exists (S (length q)). cbn. by rewrite drop_all.
  - apply Hstill, tun_read_still with self. done.
  - unfold reap_one in *. destruct (sessions sh !! addr) as [arc|] eqn:Ea; [|by apply Hstill; split; [apply still_refl|]].
    destruct (arcs sh !! arc) as [s|] eqn:Es; [|by apply Hstill; split; [apply still_refl|]].
    destruct (_ <=? _); [|by apply Hstill; split; [apply still_refl|]]. split; [by eapply evict_data|].
    left. exists 0%nat. unfold forget. by destruct (assigned_ip s) as [[]|], (assigned_ip_v6 s).
  - apply Hstill. destruct (0 <? _); [|by split; [apply still_refl|]].
    by apply (for_session_still self); [apply start_server_rekey_safe|].
  - apply Hstill. by apply (for_session_still self); [apply send_ping_safe|].
  - apply Hstill. by apply (for_session_still self); [apply retransmit_safe|].
  - apply Hstill. split; [|done]. split_and!; try done. apply Nat.le_succ_diag_r.
  - apply Hstill. by split; [split_and!|].
  - unfold tcp_closed in *. destruct (sessions sh !! peer) as [arc|] eqn:Ea; [|by apply Hstill; split; [apply still_refl|]].
    destruct (sh_sessions self sh Hsh peer arc Ea) as [s Es]. rewrite Es in *.
    split; [by eapply evict_data|].
    left. exists 0%nat. unfold forget. by destruct (assigned_ip s) as [[]|], (assigned_ip_v6 s).
  - apply Hstill. by apply (for_session_still self); [apply shutdown_one_safe|].
Qed.

Lemma reachable_data self sh0 sh :
  initial self sh0 -> rtc (step self) sh0 sh -> shared_ok self sh /\ data_inv sh.
Proof.
  intros Hi Hsteps. split; [by apply (steps_ok self sh0); [apply initial_ok|]|]. pose proof (initial_ok _ _ Hi) as Hok.
  assert (data_inv sh0) as Hinv by (apply initial_fresh in Hi as (a & n6 & n & -> & _); constructor; cbn; [done..|by intros w []]).
  clear Hi. induction Hsteps as [sh|sh sh1 sh2 [ev sh0 r sh1' He E] _ IH]; [done|].
  destruct (handle_safe self ev He sh0 Hok) as (_ & Hok' & _). destruct (handle_data self ev sh0 He Hok Hinv) as [Hinv' _].
  rewrite E in Hok', Hinv'. auto.
Qed.

(** ** Theorems *)

(** C3: only authentic packets of connected clients reach the TUN device.  In
    every reachable state, an event adds to the queue of the TUN writer only if
    it is a data worker taking a packet from its channel, and then it adds one
    packet: the plaintext that the client side of one of the keys of the
    worker's session sealed under this very header, which names the session's
    peer id, and with a packet id that this key has not accepted before.  No
    other session changes.  Every other event leaves the queue alone or takes
    packets from its front. *)
Theorem tun_input_authentic self sh0 sh ev r sh' :
  initial self sh0 -> rtc (step self) sh0 sh -> event_ok ev -> handle self ev sh = (r, sh') ->
  (exists k, tun_queue sh' = drop k (tun_queue sh)) \/ exists s pt, forwards ev sh sh' s pt.
Proof.
  intros Hi Hsteps He E. destruct (reachable_data self sh0 sh Hi Hsteps) as [Hok Hinv].
  destruct (handle_data self ev sh He Hok Hinv) as [_ H]. by rewrite E in H.
Qed.

(** C13: data packets are demultiplexed by peer id, and only to connected
    clients.  In every reachable state, dispatching a data packet from whatever
    address touches nothing but the channel of one worker, which it appends
    to, and that worker's session is connected and has the peer id in the
    packet's header; when no worker is registered for that peer id, or the
    packet is not a data packet of version 2, nothing changes.  Every packet
    that waits in a worker's channel names the peer id of the worker's session. *)
Theorem data_demultiplexed self sh0 sh env addr tr pkt op :
  initial self sh0 -> rtc (step self) sh0 sh ->
  head pkt ≫= (fun b => match Protocol.from_u8 (Z.shiftr b 3) with Ok o => Some o | _ => None end) = Some op ->
  Protocol.is_data op = true -> bytes_ok pkt ->
  (forall w wk, workers sh !! w = Some wk ->
     exists s, arcs sh !! w_arc wk = Some s /\ Forall (names s) (w_inbox wk)) /\
  exists sh', dispatch self env addr tr pkt sh = (Ok tt, sh') /\
    (sh' = sh \/
     exists w wk s a, workers sh !! w = Some wk /\ arcs sh !! w_arc wk = Some s /\ names s pkt /\
       sessions sh !! a = Some (w_arc wk) /\
       sh' = set_workers (<[w := MkWorker (w_arc wk) (w_inbox wk ++ [pkt])]> (workers sh)) sh).
Proof.
  intros Hi Hsteps Hop Hd Hb. destruct (reachable_data self sh0 sh Hi Hsteps) as [Hok Hinv].
  split; [apply Hinv|]. unfold dispatch. destruct pkt as [|b pkt]; [done|]. cbn in Hop.
  destruct (Protocol.from_u8 _) as [o|e| |]; try done. injection Hop as ->. rewrite Hd.
  unfold route_data. destruct (Protocol.parse_data_v2_exact _ Hb) as [Hr _].
  destruct (Protocol.parse_data_v2 (b :: pkt)) as [dp|e| |] eqn:Ep; try done; [|by exists sh; auto].
  destruct (data_routes sh !! Protocol.d_peer_id dp) as [w|] eqn:Er; [|by exists sh; auto].
  destruct (di_routes sh Hinv _ _ Er) as (wk & s & a & H1 & H2 & H3 & H4). rewrite H1. eexists. split; [done|].
  right. exists w, wk, s, a. split_and!; try done. by exists dp.
Qed.

(** ** From the client to the device *)

Lemma data_opcode pkt dp :
  Protocol.parse_data_v2 pkt = Ok dp -> exists b rest, pkt = b :: rest /\ Protocol.from_u8 (Z.shiftr b 3) = Ok Protocol.DataV2.
Proof.
  unfold Protocol.parse_data_v2. destruct (_ <? 8)%nat; [done|]. destruct pkt as [|b rest]; [done|].
  rewrite (index_ok (b :: rest) 0 b) by done. rsimp. destruct (Z.eqb_spec (Z.shiftr b 3) (Protocol.as_u8 Protocol.DataV2)) as [E|]; [|done]. intros _.
  exists b, rest. by rewrite E.
Qed.

Lemma dispatch_data_v2 self env addr tr pkt dp sh :
  Protocol.parse_data_v2 pkt = Ok dp -> dispatch self env addr tr pkt sh = route_data pkt sh.
Proof. intros (b & rest & -> & E)%data_opcode. unfold dispatch. by rewrite E. Qed.

Lemma open_packet_fresh env pkt dp s idx k pt :
  (8 <= length pkt)%nat -> slot_by_key_id (Protocol.d_key_id dp) s = Some (idx, k) ->
  Crypto.open (ks_cipher k) (Protocol.d_packet_id dp) (take 8 pkt) (Protocol.d_ciphertext dp) = Ok pt ->
  (Replay.check_and_set (ks_replay k) (Protocol.d_packet_id dp)).1 = true ->
  exists s', open_packet env pkt dp s = (Ok pt, s').
Proof.
  intros Hl Hk Ho Hf. unfold open_packet. msimp. rewrite slice_ok by lia. msimp. rewrite Hk. msimp.
  rewrite drop_0, Nat.sub_0_r, Ho. msimp. destruct (Replay.check_and_set _ _) as [fresh w]. cbn in Hf. subst fresh.
  destruct (slot_by_key_id_cases (Protocol.d_key_id dp) s) as [?|(i & k' & E & Hi & _)]; [congruence|].
  rewrite Hk in E. injection E as <- <-. unfold put_slot. msimp. rewrite decide_True by by eapply lookup_lt_Some. msimp.
  by eexists.
Qed.

(** C14: a client's packet reaches the TUN device.  An IP packet (not the
    keepalive) that a connected client seals with its side of a key the server
    holds, under its own peer id and a packet id the server has not seen, goes,
    when it arrives, to its worker, whose next step queues it for the TUN
    writer, whose next step writes it: the device receives exactly the client's
    packet. *)
Theorem client_packet_reaches_tun self env env' addr tr sh w arc s idx k pid pt ct :
  let header := Protocol.data_header (ks_key_id k) (peer_id s) pid in
  shared_ok self sh -> data_routes sh !! peer_id s = Some w -> workers sh !! w = Some (MkWorker arc []) ->
  arcs sh !! arc = Some s -> slot_by_key_id (ks_key_id k) s = Some (idx, k) ->
  Crypto.seal (Crypto.mirror (ks_cipher k)) pid header pt = Ok ct -> u32_ok pid ->
  (Replay.check_and_set (ks_replay k) pid).1 = true ->
  is_ip_packet pt = true -> pt <> Protocol.PING_PAYLOAD -> tun_open sh = true -> tun_queue sh = [] ->
  exists sh1 sh2 sh3,
    handle self (EvPacket env addr tr (header ++ ct)) sh = (Ok tt, sh1) /\
    handle self (EvWorker env' w) sh1 = (Ok tt, sh2) /\ handle self (EvTunWriter true) sh2 = (Ok tt, sh3) /\
    tun_written sh3 = tun_written sh ++ [pt] /\ tun_queue sh3 = [] /\
    workers sh3 !! w = Some (MkWorker arc []).
Proof.
  intros header Hsh Hr Hw Ha Hk Hseal Hpid Hfresh Hip Hping Hto Hq.
  pose proof (sh_arcs self sh Hsh arc s Ha) as Hs. cbn in Hs.
  destruct (slot_by_key_id_cases (ks_key_id k) s) as [?|(i & k' & E & Hi & _)]; [congruence|].
  rewrite Hk in E. injection E as <- <-. pose proof (so_slot s Hs idx k Hi) as [Hkid _ _].
  set (dp := Protocol.MkDataPacketV2 (ks_key_id k) (peer_id s) pid ct).
  assert (Protocol.parse_data_v2 (header ++ ct) = Ok dp) as Ep by by apply Protocol.parse_data_v2_header; [|apply Hs|].
  assert (length header = 8%nat) as Hh by (subst header; unfold Protocol.data_header; cbn; by rewrite length_app, !length_to_be).
  destruct (open_packet_fresh env' (header ++ ct) dp s idx k pt) as [s' Eo]; [rewrite length_app; lia|done| |done|].
  { cbn. rewrite take_app_length' by done. by apply Crypto.open_seal in Hseal; destruct (ks_cipher k). }
  eexists _, _, _. split; [|split; [|split]].
  - cbn [handle]. rewrite (dispatch_data_v2 _ _ _ _ _ dp) by done. unfold route_data. rewrite Ep. cbn [Protocol.d_peer_id dp]. rewrite Hr, Hw. reflexivity.
  - cbn [handle]. unfold worker_step. cbn [workers set_workers]. rewrite lookup_insert_eq. cbn [w_arc w_inbox app].
    unfold logged, decrypt_and_forward. msimp. rewrite Ep. msimp. unfold with_session. cbn [arcs set_workers].
    rewrite Ha, on_sess_run, Eo. cbn [fst snd]. rewrite bool_decide_eq_false_2 by done. unfold tun_send.
    cbn [tun_open set_arcs set_workers]. rewrite Hto. reflexivity.
  - cbn [handle]. unfold tun_writer_step. cbn [tun_open tun_queue set_tun_queue set_arcs set_workers].
    rewrite Hto, Hq. cbn [app]. rewrite Hip. reflexivity.
  - cbn. by rewrite lookup_insert_eq.
Qed.

End isolation.
End Isolation.
