(* ===== verification/Provenance.v ===== *)
(** * Where the packets on the TUN device come from, in every interleaving

    A second logic for the programs of [Tasks], about the data plane only: the
    data routes, the channels of the data workers, and the packets on their way
    to the TUN device.  It is proved on top of [Concurrency], which already
    gives the invariant of the shared state and that sessions only move
    forward in a run. *)

From S2P Require Import Prelude Replay Buf Protocol Utf8 ControlChannel Primitives Crypto Prf.
From S2P Require Import Envelope TlsAuth TlsCrypt Text StaticKey Tls Certs Transport Config Masquerade.
From S2P Require Import Session SessionInv Server Frames ServerInv System Tasks Addressing Interleaving Concurrency.
From S2P Require Import ServerProps Isolation.

Module Provenance.
Import Transport Session SessionInv Server Frames ServerInv System Tasks Interleaving Isolation.

Section provenance.
Context {B : BufApi} {C : CryptoApi} {T : TlsApi}.
Context {BL : BufLaws B} {CL : CryptoLaws C} {TL : TlsLaws T}.

(** In the state [sh], a session that the header of [raw] names has a key
    under the header's key id; the other side of that key sealed [pt] under
    this header; and the key's window has not seen the packet id. *)
Definition sealed_for (sh : Shared) (raw pt : bytes) : Prop :=
  exists arc s dp idx k, arcs sh !! arc = Some s /\
    Protocol.parse_data_v2 raw = Ok dp /\ Protocol.d_peer_id dp = peer_id s /\
    slots s !! idx = Some (Some k) /\ ks_key_id k = Protocol.d_key_id dp /\
    Crypto.seal (Crypto.mirror (ks_cipher k)) (Protocol.d_packet_id dp) (take 8 raw) pt = Ok (Protocol.d_ciphertext dp) /\
    (Replay.check_and_set (ks_replay k) (Protocol.d_packet_id dp)).1 = true.

Section logic.
(** A run, seen from the data plane: its moments in their order, the shared
    state at each, and the packets the server has been handed up to it. *)
Context (self : VpnServer) {moment : Type} (at_ : moment -> Shared) (until : moment -> moment -> Prop).
Context (received : moment -> bytes -> Prop) `{Huntil : !PreOrder until}.
Context (until_le : forall m m', until m m' -> shared_le (at_ m) (at_ m')).
Context (until_received : forall m m' raw, until m m' -> received m raw -> received m' raw).
Context (at_ok : forall m, shared_ok self (at_ m)).

(** [pt] was opened at a moment not after [m], out of a packet received before. *)
Definition authentic (m : moment) (pt : bytes) : Prop :=
  pt <> Protocol.PING_PAYLOAD /\
  exists m0 raw, until m0 m /\ received m0 raw /\ sealed_for (at_ m0) raw pt.

Record flow_inv (m : moment) : Prop := {
  fl_inbox : forall w wk, workers (at_ m) !! w = Some wk ->
    exists s, arcs (at_ m) !! w_arc wk = Some s /\ Forall (fun raw => names s raw /\ received m raw) (w_inbox wk);
  fl_routes : forall pid w, data_routes (at_ m) !! pid = Some w ->
    exists wk s, workers (at_ m) !! w = Some wk /\ arcs (at_ m) !! w_arc wk = Some s /\ peer_id s = pid;
  fl_fresh : forall w, is_Some (workers (at_ m) !! w) -> (w < next_ref (at_ m))%nat;
  fl_queue : Forall (authentic m) (tun_queue (at_ m));
  fl_written : Forall (fun pt => authentic m pt /\ is_ip_packet pt = true) (tun_written (at_ m));
}.

Lemma authentic_mono m m' pt : until m m' -> authentic m pt -> authentic m' pt.
Proof. intros Hm (Hp & m0 & raw & H1 & H2). split; [done|]. exists m0, raw. split; [by etrans|done]. Qed.
Lemma received_mono m m' s raws :
  until m m' -> Forall (fun raw => names s raw /\ received m raw) raws -> Forall (fun raw => names s raw /\ received m' raw) raws.
Proof. intros Hm H. eapply Forall_impl; [exact H|]. intros raw [? ?]. eauto. Qed.
Lemma flow_queue_mono m m' : flow_inv m -> until m m' -> Forall (authentic m') (tun_queue (at_ m)).
Proof. intros H Hm. eapply Forall_impl; [apply H|]. intros pt. by apply authentic_mono. Qed.
Lemma flow_written_mono m m' :
  flow_inv m -> until m m' -> Forall (fun pt => authentic m' pt /\ is_ip_packet pt = true) (tun_written (at_ m)).
Proof. intros H Hm. eapply Forall_impl; [apply H|]. intros pt [? ?]. split; [by eapply authentic_mono|done]. Qed.

(** What sessions do has no effect on it. *)
Lemma flow_inv_mono m m' :
  flow_inv m -> until m m' -> workers (at_ m') = workers (at_ m) -> data_routes (at_ m') ⊆ data_routes (at_ m) ->
  (next_ref (at_ m) <= next_ref (at_ m'))%nat -> Forall (authentic m') (tun_queue (at_ m')) ->
  Forall (fun pt => authentic m' pt /\ is_ip_packet pt = true) (tun_written (at_ m')) -> flow_inv m'.
Proof.
  intros [Hi Hr Hf _ _] Hm E1 E2 Hn Hq Hw. pose proof (until_le m m' Hm) as Hle. constructor; rewrite ?E1; try done.
  - intros w wk H. destruct (Hi w wk H) as (s & Hs & Hb). destruct (Hle _ _ Hs) as (s' & Hs' & Hss).
    exists s'. split; [done|]. eapply Forall_impl; [done|]. intros p [? ?]. split; [by eapply names_le|eauto].
  - intros pid w H. destruct (Hr pid w) as (wk & s & H1 & H2 & H3); [by eapply lookup_weaken|].
    destruct (Hle _ _ H2) as (s' & Hs' & Hss). exists wk, s'. split_and!; try done. by rewrite (le_peer _ _ Hss).
  - intros w H. specialize (Hf w H). lia.
Qed.

(** ** The logic *)

(** Before every action time may have passed; an action of the task keeps the
    invariant. *)
Fixpoint fp {A} (p : prog A) (m : moment) (Q : A -> moment -> Prop) : Prop :=
  match p with
  | Ret a => Q a m
  | Atomic op k =>
    forall m1 m2, flow_inv m1 -> until m m1 -> until m1 m2 -> at_ m2 = (op (at_ m1)).2 ->
    flow_inv m2 /\ fp (k (op (at_ m1)).1) m2 Q
  | Lock arc k => forall m1, flow_inv m1 -> until m m1 -> fp (k (arcs (at_ m1) !! arc)) m1 Q
  | Unlock arc s p =>
    forall m1 m2, flow_inv m1 -> until m m1 -> until m1 m2 ->
    at_ m2 = set_arcs (<[arc := s]> (arcs (at_ m1))) (at_ m1) -> fp p m2 Q
  end.

Lemma fp_bind {X Y} (p : prog X) (f : X -> prog Y) m Q :
  fp p m (fun x m' => fp (f x) m' Q) -> fp (pbind p f) m Q.
Proof.
  revert m. induction p as [a|Z op k IH|arc k IH|arc s p IH]; intros m; cbn; [done| |eauto..].
  intros H m1 m2 H1 H2 H3 H4. destruct (H m1 m2 H1 H2 H3 H4). auto.
Qed.
Lemma fp_mono {A} (p : prog A) m (Q Q' : A -> moment -> Prop) :
  (forall a m', Q a m' -> Q' a m') -> fp p m Q -> fp p m Q'.
Proof.
  intros HQ. revert m. induction p as [a|Z op k IH|arc k IH|arc s p IH]; intros m; cbn; [auto| |eauto..].
  intros H m1 m2 H1 H2 H3 H4. destruct (H m1 m2 H1 H2 H3 H4). auto.
Qed.
Lemma fp_task_bind {X Y} (p : Task X) (f : X -> Task Y) m (Q : result Y -> moment -> Prop) :
  fp p m (fun r m' => match r with Ok a => fp (f a) m' Q | Err e => Q (Err e) m' | Panic => Q Panic m' | Diverge => Q Diverge m' end) ->
  fp (p ≫= f) m Q.
Proof. intros H. unfold mbind, Task_bind. apply fp_bind. eapply fp_mono; [|exact H]. by intros [] ?. Qed.

(** ** Programs whose every action keeps the invariant *)

Class Keeps {X} (op : Shared -> X * Shared) : Prop :=
  keeps m m' : flow_inv m -> until m m' -> at_ m' = (op (at_ m)).2 -> flow_inv m'.

Fixpoint calm {A} (p : prog A) : Prop :=
  match p with
  | Ret _ => True
  | Atomic op k => Keeps op /\ forall x, calm (k x)
  | Lock _ k => forall o, calm (k o)
  | Unlock _ _ p => calm p
  end.

(** What a program can return, whatever its actions answer. *)
Fixpoint gives {A} (p : prog A) (P : A -> Prop) : Prop :=
  match p with
  | Ret a => P a
  | Atomic _ k => forall x, gives (k x) P
  | Lock _ k => forall o, gives (k o) P
  | Unlock _ _ p => gives p P
  end.
Lemma gives_pbind {X Y} (p : prog X) (f : X -> prog Y) (P : X -> Prop) (P' : Y -> Prop) :
  gives p P -> (forall x, P x -> gives (f x) P') -> gives (pbind p f) P'.
Proof. intros Hp Hf. induction p; cbn in *; auto. Qed.

Lemma fp_gives {A} (p : prog A) m (P : A -> Prop) (Q : A -> moment -> Prop) :
  calm p -> gives p P -> (forall a m', P a -> until m m' -> Q a m') -> fp p m Q.
Proof.
  revert m. induction p as [a|Z op k IH|arc k IH|arc s p IH]; intros m; cbn.
  - intros _ HP HQ. by apply HQ.
  - intros [Hk Hc] Hg HQ m1 m2 H1 H2 H3 H4. split; [by eapply Hk|]. apply IH; [done..|].
    intros a m' ? H5. apply HQ; [done|]. by do 2 (etrans; [done|]).
  - intros Hc Hg HQ m1 H1 H2. apply IH; [done..|]. intros a m' ? H5. apply HQ; [done|]. by etrans.
  - intros Hc Hg HQ m1 m2 H1 H2 H3 H4. apply IH; [done..|]. intros a m' ? H5. apply HQ; [done|]. by do 2 (etrans; [done|]).
Qed.
Lemma fp_calm {A} (p : prog A) m : calm p -> fp p m (fun _ _ => True).
Proof. intros Hc. eapply (fp_gives p m (fun _ => True)); [done| |done]. clear Hc. induction p; cbn; auto. Qed.
Lemma calm_pbind {X Y} (p : prog X) (f : X -> prog Y) : calm p -> (forall x, calm (f x)) -> calm (pbind p f).
Proof. intros Hp Hf. induction p; cbn in *; naive_solver. Qed.

Class CalmL {A} (m : Locked A) : Prop := calm_locked s : calm (m s).
Class CalmT {A} (p : Task A) : Prop := calm_task : calm p.

#[local] Instance calml_ret {A} (a : A) : CalmL (mret a).
Proof. done. Qed.
#[local] Instance calml_local {A} (m : M Session A) : CalmL (local m).
Proof. done. Qed.
#[local] Instance calml_atomic {A} (m : M Shared A) : Keeps m -> CalmL (atomic m).
Proof. done. Qed.
#[local] Instance calml_bind {X Y} (m : Locked X) (f : X -> Locked Y) : CalmL m -> (forall a, CalmL (f a)) -> CalmL (m ≫= f).
Proof. intros Hm Hf s. apply calm_pbind; [apply Hm|]. intros [[] ?]; [apply Hf|done..]. Qed.
#[local] Instance calml_each {X} (f : X -> Locked unit) xs : (forall x, CalmL (f x)) -> CalmL (each f xs).
Proof. intros Hf. induction xs as [|x xs IH]; cbn [each]; apply _. Qed.
#[local] Instance calml_when b m : CalmL m -> CalmL (when_locked b m).
Proof. destruct b; [done|apply _]. Qed.
#[local] Instance calmt_ret {A} (r : result A) : CalmT (Ret r).
Proof. done. Qed.
#[local] Instance calmt_mret {A} (a : A) : CalmT (mret a).
Proof. done. Qed.
#[local] Instance calmt_atomically {A} (m : M Shared A) : Keeps m -> CalmT (atomically m).
Proof. done. Qed.
#[local] Instance calmt_bind {X Y} (p : Task X) (f : X -> Task Y) : CalmT p -> (forall a, CalmT (f a)) -> CalmT (p ≫= f).
Proof. intros Hp Hf. apply calm_pbind; [apply Hp|]. intros []; [apply Hf|done..]. Qed.
#[local] Instance calmt_logged {A} (p : Task A) : CalmT p -> CalmT (logged p).
Proof. intros Hp. apply calm_pbind; [apply Hp|]. by intros []. Qed.
#[local] Instance calmt_locked {A} arc (m : Locked A) : CalmL m -> CalmT (locked arc m).
Proof. intros Hm [s|]; cbn; [|done]. apply calm_pbind; [apply Hm|]. by intros [? ?]. Qed.
#[local] Instance calmt_unshared {A} s (m : Locked A) : CalmL m -> CalmT (unshared s m).
Proof. intros Hm. apply calm_pbind; [apply Hm|]. by intros [[] ?]. Qed.
#[local] Instance calmt_each {X} (f : X -> Task unit) xs : (forall x, CalmT (f x)) -> CalmT (each_task f xs).
Proof. intros Hf. induction xs as [|x xs IH]; cbn [each_task]; apply _. Qed.

Ltac calm :=
  repeat first
    [ exact _
    | apply calml_bind | apply calmt_bind | apply calmt_logged | apply calmt_locked | apply calmt_each | apply calml_each
    | match goal with
      | |- forall _, _ => intros ?
      | |- CalmL (let _ := _ in _) => cbv zeta
      | |- CalmT (let _ := _ in _) => cbv zeta
      | |- CalmL (match ?x with _ => _ end) => destruct x
      | |- CalmT (match ?x with _ => _ end) => destruct x
      end ].

(** *** Actions *)

(** An action elsewhere. *)
Lemma keeps_elsewhere {X} (op : Shared -> X * Shared) :
  (forall sh, let sh' := (op sh).2 in workers sh' = workers sh /\ data_routes sh' = data_routes sh /\
    tun_queue sh' = tun_queue sh /\ tun_written sh' = tun_written sh /\ (next_ref sh <= next_ref sh')%nat) -> Keeps op.
Proof.
  intros H m m' Hinv Hm E. destruct (H (at_ m)) as (E1 & E2 & E3 & E4 & E5). rewrite <-E in E1, E2, E3, E4, E5.
  apply (flow_inv_mono m); [done..|by rewrite E2|done| |].
  - rewrite E3. by apply flow_queue_mono.
  - rewrite E4. by apply flow_written_mono.
Qed.
Ltac elsewhere := apply keeps_elsewhere; intros sh; cbn; split_and!; first [done | apply Nat.le_succ_diag_r].

#[local] Instance keeps_gets {A} (f : Shared -> A) : Keeps (gets f).
Proof. elsewhere. Qed.
#[local] Instance keeps_route pkt : Keeps (fun sh => (tun_route pkt sh, sh)).
Proof. elsewhere. Qed.
#[local] Instance keeps_net {A} (m : M Net A) : Keeps (on_net m).
Proof. apply keeps_elsewhere. intros sh. unfold on_net. by destruct (m (net sh)). Qed.
#[local] Instance keeps_allocate : Keeps (allocate_ip self).
Proof. apply keeps_elsewhere. intros sh. unfold allocate_ip. by destruct (_ <? _). Qed.
#[local] Instance keeps_allocate6 : Keeps (allocate_ip_v6 self).
Proof.
  apply keeps_elsewhere. intros sh. unfold allocate_ip_v6. destruct (next_pool_ip_v6 sh), (pool_end_v6 self); try done.
  by destruct (_ <? _).
Qed.
#[local] Instance keeps_take_peer_id : Keeps take_peer_id.
Proof. elsewhere. Qed.
#[local] Instance keeps_routes f : Keeps (modify (fun sh => set_routes (f sh) sh)).
Proof. elsewhere. Qed.
#[local] Instance keeps_routes6 f : Keeps (modify (fun sh => set_routes_v6 (f sh) sh)).
Proof. elsewhere. Qed.
#[local] Instance keeps_sessions f : Keeps (modify (fun sh => set_sessions (f sh) sh)).
Proof. elsewhere. Qed.
#[local] Instance keeps_peers f : Keeps (modify (fun sh => set_peers (f sh) sh)).
Proof. elsewhere. Qed.
#[local] Instance keeps_remove_session peer : Keeps (remove_session peer).
Proof. elsewhere. Qed.
#[local] Instance keeps_new_arc s : Keeps (new_arc s).
Proof. elsewhere. Qed.
#[local] Instance keeps_tcp_accept : Keeps (tcp_accept ≫= fun _ => mret tt).
Proof. elsewhere. Qed.
#[local] Instance keeps_tcp_writer_failed tx : Keeps (tcp_writer_failed tx).
Proof. elsewhere. Qed.
#[local] Instance keeps_unroute pid : Keeps (modify (fun sh => set_data_routes (delete pid (data_routes sh)) sh)).
Proof.
  intros m m' Hinv Hm E. apply (flow_inv_mono m); rewrite ?E; cbn; try done; [apply delete_subseteq| |].
  - by apply flow_queue_mono.
  - by apply flow_written_mono.
Qed.
Lemma keeps_releases s : Forall Keeps (releases s).
Proof.
  unfold releases. rewrite !Forall_app.
  split; [|split]; [destruct (assigned_ip s) as [[]|]|destruct (assigned_ip_v6 s)|];
    repeat first [apply Forall_nil_2 | apply Forall_cons_2; [apply _|]].
Qed.

(** A packet that was received enters the channel of the session it names. *)
Lemma keeps_route_data pkt m m' :
  received m' pkt -> flow_inv m -> until m m' -> at_ m' = (route_data pkt (at_ m)).2 -> flow_inv m'.
Proof.
  intros Hrec Hinv Hm. pose proof (flow_queue_mono m m' Hinv Hm) as Hq. pose proof (flow_written_mono m m' Hinv Hm) as Hw.
  unfold route_data.
  assert (at_ m' = at_ m -> flow_inv m') as Hsame by (intros E; by apply (flow_inv_mono m); rewrite ?E).
  destruct (Protocol.parse_data_v2 pkt) as [dp|e| |] eqn:Ep; [|exact Hsame..].
  destruct (data_routes (at_ m) !! Protocol.d_peer_id dp) as [w|] eqn:Er; [|exact Hsame].
  destruct Hinv as [Hi Hr Hf _ _]. destruct (Hr _ _ Er) as (wk & s & H1 & H2 & H3). rewrite H1. intros E.
  constructor; rewrite E; cbn; try done.
  - intros w' wk' [[<- <-]|[_ H]]%lookup_insert_Some.
    + exists s. split; [done|]. cbn. destruct (Hi w wk H1) as (s' & Hs' & Hb). assert (s' = s) as -> by congruence.
      apply Forall_app. split; [by eapply received_mono|]. apply Forall_singleton. split; [by exists dp|done].
    + destruct (Hi w' wk' H) as (s' & Hs' & Hb). exists s'. split; [done|by eapply received_mono].
  - intros pid w' H. destruct (Hr pid w' H) as (wk' & s' & G1 & G2 & G3). destruct (decide (w' = w)) as [->|Hne].
    + eexists _, s'. rewrite lookup_insert_eq. split; [done|]. cbn. assert (wk' = wk) as -> by congruence. done.
    + exists wk', s'. by rewrite lookup_insert_ne.
  - intros w' [->|H]%lookup_insert_is_Some'; [apply Hf; by eexists|by apply Hf].
Qed.

(** *** Handlers *)

#[local] Instance calm_send_sess wire : CalmL (Tasks.send_sess wire).
Proof. unfold Tasks.send_sess. calm. Qed.
#[local] Instance calm_send_and_track env pkt : CalmL (Tasks.send_and_track self env pkt).
Proof. unfold Tasks.send_and_track. calm. Qed.
#[local] Instance calm_send_chunks env k out : CalmL (Tasks.send_chunks self env k out).
Proof. unfold Tasks.send_chunks. calm. Qed.
#[local] Instance calm_flush env : CalmL (Tasks.flush_outgoing self env).
Proof. unfold Tasks.flush_outgoing. calm. Qed.
#[local] Instance calm_key_exchange : CalmL (Tasks.drive_key_exchange self).
Proof. unfold Tasks.drive_key_exchange. calm. Qed.
#[local] Instance calm_choose_ip cc : CalmL (Tasks.choose_ip self cc).
Proof. unfold Tasks.choose_ip. calm. Qed.
#[local] Instance calm_push_request addr : CalmL (Tasks.handle_push_request self addr).
Proof. unfold Tasks.handle_push_request. calm. Qed.
#[local] Instance calm_push_pending addr : CalmL (Tasks.drive_push_pending self addr).
Proof. unfold Tasks.drive_push_pending. calm. Qed.
#[local] Instance calm_established : CalmL Tasks.drive_established.
Proof. unfold Tasks.drive_established. calm. Qed.
#[local] Instance calm_drive_step addr : CalmL (Tasks.drive_step self addr).
Proof. unfold Tasks.drive_step. calm. Qed.
#[local] Instance calm_drive_loop fuel addr : CalmL (Tasks.drive_loop fuel self addr).
Proof. induction fuel as [|fuel IH]; cbn [Tasks.drive_loop]; calm. Qed.
#[local] Instance calm_drive addr : CalmL (Tasks.drive_control_plane self addr).
Proof. unfold Tasks.drive_control_plane. calm. Qed.
#[local] Instance calm_drive_rekey : CalmL (Tasks.drive_rekey_control_plane self).
Proof. unfold Tasks.drive_rekey_control_plane. calm. Qed.
#[local] Instance calm_flush_rekey env : CalmL (Tasks.flush_rekey_outgoing self env).
Proof. unfold Tasks.flush_rekey_outgoing. calm. Qed.
#[local] Instance calm_rekey_control env ctrl : CalmL (Tasks.handle_rekey_control self env ctrl).
Proof. unfold Tasks.handle_rekey_control. calm. Qed.
#[local] Instance calm_control_v1 env addr ctrl : CalmL (Tasks.handle_control_v1 self env addr ctrl).
Proof. unfold Tasks.handle_control_v1. calm. Qed.
#[local] Instance calm_soft_reset env ctrl : CalmL (Tasks.handle_soft_reset self env ctrl).
Proof. unfold Tasks.handle_soft_reset. calm. Qed.
#[local] Instance calm_known env addr ctrl pid : CalmL (Tasks.handle_known self env addr ctrl pid).
Proof. unfold Tasks.handle_known. calm. Qed.
#[local] Instance calm_server_rekey env : CalmL (Tasks.start_server_rekey self env).
Proof. unfold Tasks.start_server_rekey. calm. Qed.
#[local] Instance calm_shutdown env : CalmL (Tasks.shutdown_one self env).
Proof. unfold Tasks.shutdown_one. calm. Qed.
#[local] Instance calm_find addr : CalmT (find_session addr).
Proof. unfold find_session. calm. Qed.
#[local] Instance calm_tun_read pkt : CalmT (Tasks.tun_read pkt).
Proof. unfold Tasks.tun_read, Tasks.forward_tun_to_client. calm. Qed.
#[local] Instance calm_for_session addr m : CalmL m -> CalmT (Tasks.for_session addr m).
Proof. intros Hm. unfold Tasks.for_session. calm. Qed.
#[local] Instance calm_ping addr : CalmT (Tasks.ping_one addr).
Proof. unfold Tasks.ping_one, build_ping. calm. Qed.
#[local] Instance calm_retransmit env addr : CalmT (Tasks.retransmit_one self env addr).
Proof. unfold Tasks.retransmit_one, collect_stale. calm. Qed.
Lemma calm_all_releases ms : Forall Keeps ms -> CalmT (each_task atomically ms) /\ CalmL (each atomic ms).
Proof. induction 1 as [|m ms Hm _ [IH1 IH2]]; cbn [each each_task]; split; apply _. Qed.
#[local] Instance calm_release_tasks s : CalmT (each_task atomically (releases s)).
Proof. apply calm_all_releases, keeps_releases. Qed.
#[local] Instance calm_releases s : CalmL (each atomic (releases s)).
Proof. apply calm_all_releases, keeps_releases. Qed.
#[local] Instance calm_reap env addr : CalmT (Tasks.reap_one self env addr).
Proof. unfold Tasks.reap_one. calm. Qed.
#[local] Instance calm_tcp_closed peer : CalmT (Tasks.tcp_closed peer).
Proof. unfold Tasks.tcp_closed. calm. Qed.

(** An action that keeps the invariant, and the rest of the task. *)
Lemma fp_step {X Y} (op : M Shared X) (f : X -> Task Y) m (Q : result Y -> moment -> Prop) :
  Keeps op ->
  (forall m1 m2 r, flow_inv m1 -> until m m1 -> until m1 m2 -> op (at_ m1) = (r, at_ m2) ->
    match r with Ok a => fp (f a) m2 Q | Err e => Q (Err e) m2 | Panic => Q Panic m2 | Diverge => Q Diverge m2 end) ->
  fp (atomically op ≫= f) m Q.
Proof.
  intros Hk H. apply fp_task_bind. intros m1 m2 H1 H2 H3 H4. split; [by eapply Hk|]. cbn [fp].
  apply (H m1 m2); try done. rewrite H4. apply surjective_pairing.
Qed.

(** *** A new session *)

(** Code that keeps the session's identity. *)
Class SamePeer {A} (m : Locked A) : Prop := same_peer s : gives (m s) (fun y => sess_quiet s y.2).
#[local] Instance same_peer_local {A} (m : M Session A) : Moves sess_quiet m -> SamePeer (local m).
Proof. intros Hm s. apply Hm. Qed.
#[local] Instance same_peer_atomic {A} (m : M Shared A) : SamePeer (atomic m).
Proof. intros s x. cbn. reflexivity. Qed.
#[local] Instance same_peer_ret {A} (a : A) : SamePeer (mret a).
Proof. intros s. cbn. reflexivity. Qed.
#[local] Instance same_peer_bind {X Y} (m : Locked X) (f : X -> Locked Y) :
  SamePeer m -> (forall a, SamePeer (f a)) -> SamePeer (m ≫= f).
Proof.
  intros Hm Hf s. eapply gives_pbind; [apply Hm|]. intros [[a|e| |] s'] H; cbn in *; [|done..].
  pose proof (Hf a s') as Hs. revert Hs. generalize (f a s'). intros p. induction p as [y| | |]; cbn; [|auto..].
  intros H2. by etrans.
Qed.
#[local] Instance same_peer_track env pkt : SamePeer (Tasks.send_and_track self env pkt).
Proof. unfold Tasks.send_and_track, Tasks.send_sess. repeat (apply same_peer_bind; [apply _|intros ?]). destruct (Protocol.packet_id pkt); apply _. Qed.

(** The worker of a session is registered under the session's peer id. *)
Lemma fp_spawn peer arc s m :
  arcs (at_ m) !! arc = Some s -> peer_id s = peer -> fp (Tasks.spawn_data_worker peer arc) m (fun _ _ => True).
Proof.
  intros Hs Hp. unfold Tasks.spawn_data_worker. apply fp_step; [apply _|]. intros m1 m2 r _ U1 U2 [= <- E2].
  assert (until m m2) as U12 by by etrans. destruct (until_le m m2 U12 arc s Hs) as (s2 & Hs2 & L2).
  destruct (tun_writer_tx _); [|done]. cbn [fp atomically]. intros m3 m4 Hinv U3 U4. split; [|done].
  destruct (until_le m2 m3 U3 arc s2 Hs2) as (s3 & Hs3 & L3).
  pose proof (flow_queue_mono m3 m4 Hinv U4) as Hq. pose proof (flow_written_mono m3 m4 Hinv U4) as Hw.
  revert H. msimp. unfold fresh_ref. msimp. intros E4. destruct Hinv as [Hi Hr Hf _ _].
  constructor; rewrite E4; cbn; try done.
  - intros w wk [[<- <-]|[_ H]]%lookup_insert_Some; [by exists s3|].
    destruct (Hi w wk H) as (s' & Hs' & Hb). exists s'. split; [done|by eapply received_mono].
  - intros pid w [[<- <-]|[_ H]]%lookup_insert_Some.
    + exists (MkWorker arc []), s3. rewrite lookup_insert_eq. split_and!; try done.
      by rewrite (le_peer _ _ L3), (le_peer _ _ L2).
    + destruct (Hr pid w H) as (wk & s' & H1 & H2 & H3). exists wk, s'. split; [|done].
      rewrite lookup_insert_ne; [done|]. intros <-. specialize (Hf (next_ref (at_ m3)) ltac:(by eexists)). lia.
  - intros w [->|H]%lookup_insert_is_Some'; [lia|]. specialize (Hf w H). lia.
Qed.

Lemma fp_new_session env addr ctrl pid tr m : fp (Tasks.new_session self env addr ctrl pid tr) m (fun _ _ => True).
Proof.
  unfold Tasks.new_session. apply fp_task_bind. cbn [fp]. destruct (Tls.new (tls_cfg self)) as [t|e| |]; try done.
  apply fp_step; [apply _|]. intros m1 m2 r _ _ _ [= <- _]. cbv zeta. set (peer := Z.land _ _). apply fp_task_bind.
  match goal with |- fp (unshared ?s0 ?m) _ _ => set (sess := s0); set (hello := m) end.
  assert (peer_id sess = peer) as Hp by by subst sess; destruct pid.
  eapply (fp_gives _ _ (fun r => forall s, r = Ok s -> peer_id s = peer)); [by apply calmt_unshared; apply _|..].
  { eapply gives_pbind; [apply (same_peer (m := hello))|]. intros [[] s0] [_ _ Q]; cbn in *; [|done..]. intros s [= <-]. congruence. }
  intros [s|e| |] m3 Hs _; try done. specialize (Hs s eq_refl).
  apply fp_step; [apply _|]. intros m4 m5 r _ _ _ [= <- E5].
  assert (arcs (at_ m5) !! next_ref (at_ m4) = Some s) as Ha by (rewrite <-E5; apply lookup_insert_eq).
  apply fp_step; [apply _|]. intros m6 m7 r _ U6 U7 [= <- _].
  apply fp_step; [apply _|]. intros m8 m9 r _ U8 U9 [= <- _].
  assert (until m5 m9) as U by (do 3 (etrans; [done|]); done).
  destruct (until_le m5 m9 U _ _ Ha) as (s9 & Hs9 & Q9).
  eapply fp_spawn; [exact Hs9|]. by rewrite (le_peer _ _ Q9).
Qed.
Lemma fp_logged {A} (p : Task A) m : fp p m (fun _ _ => True) -> fp (Tasks.logged p) m (fun _ _ => True).
Proof. intros H. apply fp_bind. eapply fp_mono; [|exact H]. by intros [] ?. Qed.
Lemma fp_control_packet env addr pkt pid tr m :
  fp (Tasks.handle_control_packet self env addr pkt pid tr) m (fun _ _ => True).
Proof.
  unfold Tasks.handle_control_packet. apply fp_task_bind. cbn [fp]. destruct (Protocol.parse pkt) as [ctrl|e| |]; try done.
  assert (forall m1, fp (o ← find_session addr; match o with
      | Some arc => locked arc (Tasks.handle_known self env addr ctrl pid) | None => mret tt end) m1 (fun _ _ => True)) as Hknown.
  { intros m1. apply fp_calm. change (CalmT (o ← find_session addr; match o with
      | Some arc => locked arc (Tasks.handle_known self env addr ctrl pid) | None => mret tt end)). calm. }
  destruct (is_hard_reset _); [|apply Hknown]. apply fp_step; [apply _|]. intros m1 m2 r _ _ _ [= <- _].
  case_bool_decide; [apply fp_new_session|apply Hknown].
Qed.
Lemma fp_dispatch env addr tr pkt m :
  received m pkt -> fp (Tasks.dispatch self env addr tr pkt) m (fun _ _ => True).
Proof.
  intros Hrec. unfold Tasks.dispatch. destruct pkt as [|b rest]; [done|]. destruct (Protocol.from_u8 _); try done.
  destruct (Protocol.is_data _).
  - intros m1 m2 Hinv U1 U2 E. split; [|done]. eapply keeps_route_data; [|done..]. eapply until_received; [|exact Hrec]. by etrans.
  - destruct (unwrap_control self _) as [[inner pid]|e| |]; try done. apply fp_logged, fp_control_packet.
Qed.

(** *** From a worker's channel to the device *)

#[local] Instance keeps_recv_data w : Keeps (recv_data w).
Proof.
  intros m m' Hinv Hm. pose proof (flow_queue_mono m m' Hinv Hm) as Hq. pose proof (flow_written_mono m m' Hinv Hm) as Hw.
  assert (at_ m' = at_ m -> flow_inv m') as Hsame by (intros E; by apply (flow_inv_mono m); rewrite ?E).
  unfold recv_data. destruct (workers (at_ m) !! w) as [[arc [|raw rest]]|] eqn:E; [exact Hsame| |exact Hsame].
  destruct Hinv as [Hi Hr Hf _ _]. intros E'. destruct (Hi w _ E) as (s & Hs & [_ Hb]%Forall_cons).
  constructor; rewrite E'; cbn; try done.
  - intros w' wk' [[<- <-]|[_ H]]%lookup_insert_Some; [exists s; split; [done|by eapply received_mono]|].
    destruct (Hi w' wk' H) as (s' & Hs' & Hb'). exists s'. split; [done|by eapply received_mono].
  - intros pid w' H. destruct (Hr pid w' H) as (wk' & s' & G1 & G2 & G3). destruct (decide (w' = w)) as [->|Hne].
    + eexists _, s'. rewrite lookup_insert_eq. split; [done|]. cbn. rewrite E in G1. injection G1 as <-. done.
    + exists wk', s'. by rewrite lookup_insert_ne.
  - intros w' [->|H]%lookup_insert_is_Some'; [apply Hf; by eexists|by apply Hf].
Qed.

(** What a worker takes out of its channel names its session and was received;
    what the key opens was sealed by the other side of it. *)
Lemma fp_decrypt env arc raw s m :
  arcs (at_ m) !! arc = Some s -> names s raw -> received m raw -> bytes_ok raw ->
  fp (Tasks.decrypt_and_forward env arc raw) m (fun _ _ => True).
Proof.
  intros Hs (dp & Ep & Hpeer) Hrec Hraw. unfold Tasks.decrypt_and_forward. apply fp_task_bind. rewrite Ep. cbn [fp].
  apply fp_task_bind. unfold locked. intros m1 _ U1. destruct (until_le m m1 U1 arc s Hs) as (s1 & Hs1 & L1). rewrite Hs1.
  unfold local. cbn [pbind]. destruct (open_packet env raw dp s1) as [r s2] eqn:Eo. intros m2 m3 _ U2 U3 _. cbn [fp].
  destruct r as [pt|e| |]; try done. case_bool_decide as Hping; [done|]. cbn [fp atomically].
  intros m4 m5 Hinv U4 U5 E. split; [|done].
  assert (authentic m5 pt) as Hpt.
  { split; [done|]. exists m1, raw. split; [by do 4 (etrans; [done|])|]. split; [by eapply until_received|].
    apply ServerProps.open_packet_accepts in Eo as (idx & k & _ & O1 & O2 & O3 & O4 & _); [|by destruct (data_packet_long raw dp Hraw Ep)].
    exists arc, s1, dp, idx, k. split_and!; try done. by rewrite (le_peer _ _ L1). }
  pose proof (flow_queue_mono m4 m5 Hinv U5) as Hq. pose proof (flow_written_mono m4 m5 Hinv U5) as Hw.
  revert E. unfold tun_send. destruct (tun_open _); intros E; apply (flow_inv_mono m4); rewrite ?E; try done.
  cbn. apply Forall_app. split; [done|by apply Forall_singleton].
Qed.
Lemma fp_worker env w m : fp (Tasks.worker_step env w) m (fun _ _ => True).
Proof.
  unfold Tasks.worker_step. apply fp_step; [apply _|]. intros m1 m2 r Hinv _ U2. unfold recv_data.
  destruct (workers (at_ m1) !! w) as [[arc [|raw rest]]|] eqn:E; intros [= <- E2]; try done. apply fp_logged.
  destruct (fl_inbox m1 Hinv w _ E) as (s & Hs & [[Hn Hr] _]%Forall_cons).
  eapply (fp_decrypt env arc raw s); [by rewrite <-E2|done|by eapply until_received|].
  destruct (sh_workers self (at_ m1) (at_ok m1) w _ E) as [_ [Hb _]%Forall_cons]. done.
Qed.

#[local] Instance keeps_recv_tun : Keeps recv_tun.
Proof.
  intros m m' Hinv Hm. pose proof (flow_queue_mono m m' Hinv Hm) as Hq. pose proof (flow_written_mono m m' Hinv Hm) as Hw.
  unfold recv_tun. destruct (tun_open (at_ m)), (tun_queue (at_ m)) as [|p q] eqn:Eq;
    intros E; apply (flow_inv_mono m); rewrite ?E; cbn; rewrite ?Eq; try done. by apply Forall_cons in Hq as [_ ?].
Qed.
Lemma fp_tun_writer ok m : fp (Tasks.tun_writer_step ok) m (fun _ _ => True).
Proof.
  unfold Tasks.tun_writer_step. apply fp_step; [apply _|]. intros m1 m2 r Hinv _ U2. unfold recv_tun.
  pose proof (flow_queue_mono m1 m2 Hinv U2) as Hq1.
  destruct (tun_open (at_ m1)), (tun_queue (at_ m1)) as [|p q] eqn:E; intros [= <- _]; try done.
  destruct (is_ip_packet p) eqn:Ei; [|done]. cbn [fp atomically]. intros m3 m4 Hinv3 U3 U4 E4. split; [|done].
  assert (authentic m4 p) as Hp.
  { apply (authentic_mono m2); [by etrans|]. by apply Forall_cons in Hq1 as [? _]. }
  pose proof (flow_queue_mono m3 m4 Hinv3 U4) as Hq. pose proof (flow_written_mono m3 m4 Hinv3 U4) as Hw.
  revert E4. unfold write_tun, modify. destruct ok; cbn; intros E4; apply (flow_inv_mono m3); rewrite ?E4; try done.
  cbn. apply Forall_app. split; [done|by apply Forall_singleton].
Qed.

Lemma fp_program ev m :
  (forall env addr tr pkt, ev = EvPacket env addr tr pkt -> received m pkt) -> fp (program self ev) m (fun _ _ => True).
Proof.
  intros Hrec. destruct ev; cbn [program]; [eapply fp_dispatch, Hrec; done|apply fp_worker|apply fp_tun_writer|..]; apply fp_calm.
  3: destruct (0 <? _); [|done].
  all: match goal with |- calm ?p => change (CalmT p) end; apply _.
Qed.

(** ** Every configuration of a run *)

(** [ts]: the tasks at the moment [m]. *)
Record flow_config (m : moment) (ts : gmap slot (Task unit)) : Prop := {
  fc_shared : flow_inv m;
  fc_tasks : map_Forall (fun _ p => exists m0, until m0 m /\ fp p m0 (fun _ _ => True)) ts;
}.

Lemma flow_config_move m m' t p ts :
  flow_config m ts -> until m m' -> flow_inv m' -> fp p m' (fun _ _ => True) -> flow_config m' (<[t := p]> ts).
Proof.
  intros [_ Ht] Hm Hinv Hp. constructor; [done|]. apply map_Forall_insert_2; [by exists m'|].
  eapply map_Forall_impl; [exact Ht|]. intros t' p' (m0 & H1 & H2). exists m0. split; [by etrans|done].
Qed.
(** The shared state stays. *)
Lemma flow_inv_same m m' : flow_inv m -> until m m' -> at_ m' = at_ m -> flow_inv m'.
Proof.
  intros Hinv Hm E. apply (flow_inv_mono m); rewrite ?E; try done; [by apply flow_queue_mono|by apply flow_written_mono].
Qed.

Lemma advance_flow t c c' m m' :
  flow_config m (tasks c) -> at_ m = shared c -> at_ m' = shared c' -> until m m' -> advance t c = Some c' ->
  flow_config m' (tasks c').
Proof.
  intros Hc Em Em' Hm. unfold advance. destruct (tasks c !! t) as [p|] eqn:Et; [|done]. pose proof (fc_shared _ _ Hc) as Hinv.
  destruct (fc_tasks _ _ Hc t p Et) as (m0 & U0 & Hp). destruct p as [r|X op k|arc k|arc s p]; cbn in Hp.
  - intros [= <-]. constructor; [apply (flow_inv_same m); [done..|by rewrite Em, Em']|].
    apply map_Forall_delete. eapply map_Forall_impl; [apply (fc_tasks _ _ Hc)|]. intros t' p' (m1 & H1 & H2).
    exists m1. split; [by etrans|done].
  - destruct (op (shared c)) as [x sh'] eqn:E. intros [= <-]. specialize (Hp m m' Hinv U0 Hm).
    rewrite Em, E in Hp. destruct (Hp Em') as [Hi Hk]. by apply (flow_config_move m).
  - destruct (locks c !! arc); [done|]. intros [= <-]. cbn in Em'.
    assert (flow_inv m') as Hinv' by (apply (flow_inv_same m); [done..|by rewrite Em, Em']).
    apply (flow_config_move m); [done..|]. rewrite <-Em'. apply Hp; [done|by etrans].
  - intros [= <-]. cbn in Em'. apply (flow_config_move m); [done..| |].
    + apply (flow_inv_mono m); rewrite ?Em', ?Em; try done; cbn; rewrite <-Em; [by apply flow_queue_mono|by apply flow_written_mono].
    + apply (Hp m); try done. by rewrite Em', Em.
Qed.

End logic.
(** ** Executions *)

(** A step with its label: the task that takes it, and the event if the task
    begins with its handler. *)
Definition label : Type := slot * option event.
Inductive lstep (self : VpnServer) : label -> config -> config -> Prop :=
  | LBegin t ev c : tasks c !! t = None -> runs t ev = true -> event_ok ev -> lstep self (t, Some ev) c (begin_ self t ev c)
  | LAct t c c' : advance t c = Some c' -> lstep self (t, None) c c'.
Lemma lstep_cstep self l c c' : lstep self l c c' -> cstep self c c'.
Proof. intros []; [by apply CBegin|by eapply CAct]. Qed.
Lemma cstep_lstep self c c' : cstep self c c' -> exists l, lstep self l c c'.
Proof. intros []; eexists; [by apply LBegin|by eapply LAct]. Qed.

(** [run i] is the configuration after the first [i] steps. *)
Definition execution (self : VpnServer) (sh0 : Shared) (run : nat -> config) (ls : list label) : Prop :=
  run 0%nat = idle sh0 /\ forall i l, ls !! i = Some l -> lstep self l (run i) (run (S i)).

(** Everything that can be reached is the end of an execution. *)
Lemma reachable_execution self sh0 c :
  rtc (cstep self) (idle sh0) c -> exists run ls, execution self sh0 run ls /\ run (length ls) = c.
Proof.
  intros Hc. pattern c. revert c Hc. apply rtc_ind_r; [by exists (fun _ => idle sh0), []|].
  intros c1 c2 _ [l Hl]%cstep_lstep (run & ls & [H0 Hs] & <-).
  exists (fun i => if decide (i <= length ls)%nat then run i else c2), (ls ++ [l]).
  rewrite length_app. cbn. split; [|rewrite decide_False by lia; done]. split; [by rewrite decide_True by lia|].
  intros i l' Hi. pose proof (lookup_lt_Some _ _ _ Hi) as Hlt. rewrite length_app in Hlt. cbn in Hlt.
  rewrite (decide_True (P := (i <= _)%nat)) by lia. apply lookup_snoc_Some in Hi as [[Hi Hl']|[-> <-]].
  - rewrite decide_True by lia. by apply Hs.
  - rewrite decide_False by lia. done.
Qed.

Section an_execution.
Context (self : VpnServer) (sh0 : Shared) (run : nat -> config) (ls : list label).
Context (Hi : initial self sh0) (Hrun : execution self sh0 run ls).

Lemma execution_steps i j : (i <= j <= length ls)%nat -> rtc (cstep self) (run i) (run j).
Proof.
  induction j as [|j IH]; intros Hij; [by replace i with 0%nat by lia|].
  destruct (decide (i = S j)) as [->|]; [done|]. destruct (lookup_lt_is_Some_2 ls j) as [l Hl]; [lia|].
  eapply rtc_r; [apply IH; lia|]. eapply lstep_cstep. by apply (proj2 Hrun).
Qed.
Lemma execution_reaches i : (i <= length ls)%nat -> rtc (cstep self) (idle sh0) (run i).
Proof. intros Hle. rewrite <-(proj1 Hrun). apply execution_steps. lia. Qed.

(** The moments of the execution: after the last step nothing happens. *)
Definition moment_of (i : nat) : Shared := shared (run (i `min` length ls)).
Definition handed_in (i : nat) (raw : bytes) : Prop :=
  exists i0 t env addr tr, (i0 < i)%nat /\ ls !! i0 = Some (t, Some (EvPacket env addr tr raw)).

Lemma moments_le i j : (i <= j)%nat -> shared_le (moment_of i) (moment_of j).
Proof.
  intros Hij. eapply (Concurrency.interleaved_le self sh0); [done|apply execution_reaches; lia|].
  apply execution_steps. lia.
Qed.
Lemma moments_ok i : shared_ok self (moment_of i).
Proof.
  destruct (Concurrency.interleaved_inv self sh0 (run (i `min` length ls)) Hi) as [g Hg]; [apply execution_reaches; lia|].
  apply (ci_world _ _ _ _ _ Hg).
Qed.
Lemma handed_in_mono i j raw : (i <= j)%nat -> handed_in i raw -> handed_in j raw.
Proof. intros Hij (i0 & t & env & addr & tr & H1 & H2). exists i0, t, env, addr, tr. split; [lia|done]. Qed.

Lemma execution_flow i :
  (i <= length ls)%nat -> flow_config moment_of le handed_in i (tasks (run i)).
Proof.
  assert (forall i, (i <= length ls)%nat -> moment_of i = shared (run i)) as Hat.
  { intros k Hk. unfold moment_of. by rewrite Nat.min_l. }
  induction i as [|i IH]; intros Hle.
  { rewrite (proj1 Hrun). constructor; [|apply map_Forall_empty].
    assert (moment_of 0 = sh0) as E by (rewrite Hat, (proj1 Hrun) by lia; done).
    pose proof Hi as (a & n6 & n & E0 & _)%initial_fresh.
    constructor; rewrite E, E0; cbn; try done. by intros w []. }
  specialize (IH ltac:(lia)). destruct (lookup_lt_is_Some_2 ls i) as [l Hl]; [lia|].
  pose proof (proj2 Hrun i l Hl) as Hstep.
  assert (i <= S i)%nat as Hi' by lia. pose proof (Hat i ltac:(lia)) as E1. pose proof (Hat (S i) Hle) as E2.
  revert E1 E2 IH Hl Hstep. generalize (run i) (run (S i)). intros c1 c2 E1 E2 IH Hl Hstep.
  destruct Hstep as [t ev c1 Ht Hr He|t c1 c2 Ha].
  - apply (flow_config_move moment_of le handed_in i); [done|done| |].
    + apply (flow_inv_same moment_of le handed_in moments_le handed_in_mono i); [apply IH|done|by rewrite E1, E2].
    + apply (fp_program self moment_of le handed_in moments_le handed_in_mono moments_ok).
      intros env addr tr pkt ->. exists i, t, env, addr, tr. split; [lia|done].
  - by apply (advance_flow moment_of le handed_in moments_le handed_in_mono t c1 c2 i).
Qed.

End an_execution.

(** ** Theorems *)

(** C4: however the tasks interleave, only packets that the server was sent and
    that a client sealed reach the TUN device.  Take any execution from start-up
    and a packet [pt] that waits for the TUN writer at its end, or has been
    written to the device: at some step the server was handed a packet [raw],
    and later in the same execution, when the worker had the session's lock, a
    session had the peer id in the header of [raw] and a key under the header's
    key id, the client side of that key had sealed just [pt] under just this
    header with the result being the ciphertext in [raw], and the key's replay
    window had not accepted the packet id before.  Pings never get to the
    device, and what is written is an IP packet. *)
Theorem interleaved_tun_authentic self sh0 run ls pt :
  initial self sh0 -> execution self sh0 run ls ->
  let sh := shared (run (length ls)) in pt ∈ tun_queue sh ++ tun_written sh ->
  pt <> Protocol.PING_PAYLOAD /\ (pt ∈ tun_written sh -> is_ip_packet pt = true) /\
  exists i j t env addr tr raw, (i < j <= length ls)%nat /\
    ls !! i = Some (t, Some (EvPacket env addr tr raw)) /\ sealed_for (shared (run j)) raw pt.
Proof.
  intros Hi Hrun sh Hpt. destruct (fc_shared _ _ _ _ _ (execution_flow self sh0 run ls Hi Hrun (length ls) (Nat.le_refl _))) as [_ _ _ Hq Hw].
  unfold moment_of in Hq, Hw. rewrite Nat.min_id in Hq, Hw. rewrite list.Forall_forall in Hq, Hw.
  assert (authentic (moment_of run ls) le (handed_in ls) (length ls) pt) as (Hping & j & raw & Hj & (i & t & env & addr & tr & Hij & El) & Hs).
  { apply elem_of_app in Hpt as [?|?]; [by apply Hq|by destruct (Hw pt)]. }
  split; [done|]. split; [by intros [_ ?]%Hw|]. exists i, j, t, env, addr, tr, raw. split; [lia|]. split; [done|].
  unfold moment_of in Hs. by rewrite Nat.min_l in Hs.
Qed.

(** C21: however the tasks interleave, a data packet only waits for the worker
    of the session it names: in every state of every run the packets in the
    channel of a data worker carry the peer id of the worker's session, and the
    worker that a peer id is routed to serves a session with that peer id. *)
Theorem interleaved_demultiplexed self sh0 c :
  initial self sh0 -> rtc (cstep self) (idle sh0) c ->
  (forall w wk, workers (shared c) !! w = Some wk ->
    exists s, arcs (shared c) !! w_arc wk = Some s /\ Forall (names s) (w_inbox wk)) /\
  (forall pid w, data_routes (shared c) !! pid = Some w ->
    exists wk s, workers (shared c) !! w = Some wk /\ arcs (shared c) !! w_arc wk = Some s /\ peer_id s = pid).
Proof.
  intros Hi Hc. destruct (reachable_execution self sh0 c Hc) as (run & ls & Hrun & <-).
  destruct (fc_shared _ _ _ _ _ (execution_flow self sh0 run ls Hi Hrun (length ls) (Nat.le_refl _))) as [Hi' Hr _ _ _].
  unfold moment_of in Hi', Hr. rewrite Nat.min_id in Hi', Hr. split; [|done]. intros w wk Hwk.
  destruct (Hi' w wk Hwk) as (s & Hs & Hb). exists s. split; [done|]. eapply Forall_impl; [exact Hb|]. by intros raw [? _].
Qed.

End provenance.
End Provenance.
