(* ===== verification/ControlRuns.v ===== *)
(** * Control packets over whole runs (src/src/server.rs)

    A control packet that was processed and arrives again later; the exchange
    that leaves client and server with the two sides of one data key. *)

From S2P Require Import Prelude Replay Buf Protocol Utf8 ControlChannel Primitives Crypto Prf.
From S2P Require Import Envelope TlsAuth TlsCrypt Text StaticKey Tls Certs Transport Config Masquerade.
From S2P Require Import Session SessionInv Server Frames ServerInv System ServerProps.

Module ControlRuns.
Import Transport Session SessionInv Server Frames ServerInv System ServerProps.

Section control.
Context {B : BufApi} {C : CryptoApi} {T : TlsApi}.
Context {BL : BufLaws B} {CL : CryptoLaws C} {TL : TlsLaws T}.

Ltac hsimp := repeat first [progress msimp | rewrite on_sess_run | rewrite on_shared_run | rewrite on_tls_run].

(** ** Replayed control packets *)

(** The session that exists after a packet was handled refuses its packet id. *)
Lemma handled_marks self env addr pkt pid tr sh arc ctrl :
  env_ok env -> shared_ok self sh -> u32_ok pid -> bytes_ok pkt -> Protocol.parse pkt = Ok ctrl ->
  let sh1 := (handle_control_packet self env addr pkt (Some pid) tr sh).2 in
  sessions sh1 !! addr = Some arc ->
  exists s, arcs sh1 !! arc = Some s /\ Replay.rejects (tls_auth_replay s) pid.
Proof.
  intros He Hsh Hp Hb Ep. pose proof (parse_ok _ _ Hb Ep) as Hc. unfold handle_control_packet. msimp. rewrite Ep. msimp.
  destruct (sessions sh !! addr) as [arc0|] eqn:Ea.
  - destruct (sh_sessions self sh Hsh addr arc0 Ea) as [s Es]. unfold with_session. rewrite Es.
    assert (ctx_ok self (s, sh)) as Hx by (split; [by apply (sh_arcs self sh Hsh arc0 s)|done]).
    pose proof (handle_known_marks self env addr ctrl pid (s, sh) Hc Hp Hx) as Hrej.
    destruct (handle_known_safe self env addr ctrl (Some pid) Hc) with (s, sh) as (_ & _ & _ & Hf); [by intros ? [= <-]|done|].
    destruct (handle_known _ _ _ _ _ (s, sh)) as [r [s' sh']]. cbn in *. rewrite (fr_sessions _ _ Hf), Ea. intros [= <-].
    exists s'. by rewrite lookup_insert_eq.
  - destruct (is_hard_reset _); [|cbn; by rewrite Ea]. unfold new_session. msimp.
    destruct (Tls.new (tls_cfg self)) as [t|e| |]; msimp; [|by rewrite Ea..]. unfold take_peer_id. msimp.
    match goal with |- context [with_local ?s ?m] => set (sess := s); set (hello := m) end. set (sh1 := set_next_peer_id _ sh).
    assert (Moves quiet hello) as Hq by apply _. destruct (Hq (sess, sh1)) as [_ [n En]].
    assert (safe (ctx_ok self) ctx_le hello) as Hm.
    { apply safe_bind; [apply _|apply safe_on_sess, make_hard_reset_reply_safe|]. intros p. apply send_and_track_safe. }
    assert (ctx_ok self (sess, sh1)) as Hx.
    { split; [|by apply (shared_ok_counters self sh _ (next_ref sh)); [|apply wrap_ok; lia|]].
      apply (new_session_ok env ctrl (Some pid) t _ tr He Hc); [by intros ? [= <-]|apply land_24]. }
    destruct (Hm (sess, sh1) Hx) as (_ & _ & [Hle _]). unfold with_local.
    destruct (hello (sess, sh1)) as [[u|e| |] [s2 sh2]]; cbn in *; subst sh2; msimp; [|cbn; by rewrite Ea..].
    unfold fresh_ref. msimp. unfold spawn_data_worker. msimp.
    assert (Replay.rejects (tls_auth_replay s2) pid) as Hrej.
    { apply (le_replay _ _ Hle); [done|]. exact (Replay.rejects_again _ _ pid Replay.new_represents Hp). }
    destruct (tun_writer_tx _); unfold fresh_ref; msimp; cbn; rewrite lookup_insert_eq; intros [= <-];
      exists s2; by rewrite lookup_insert_eq.
Qed.

Lemma set_last_seen_same s : set_last_seen (last_seen s) s = s.
Proof. by destruct s. Qed.
Lemma set_arcs_same (sh : Shared) : set_arcs (arcs sh) sh = sh.
Proof. by destruct sh. Qed.

(** C11: replayed control packets are inert.  When the server has an envelope
    key and has handled a control packet of a session, the session's own first
    packet included, then however the run goes on, the same packet arriving
    again from that address while the session lives changes nothing but, at
    most, the time the session was last heard of. *)
Theorem control_replay_inert self sh0 sh env addr tr pkt inner pid r sh1 arc sh2 s2 env2 tr2 :
  initial self sh0 -> rtc (step self) sh0 sh -> event_ok (EvPacket env addr tr pkt) ->
  unwrap_control self pkt = Ok (inner, Some pid) ->
  head pkt ≫= (fun b => match Protocol.from_u8 (Z.shiftr b 3) with
                        | Ok o => Some (Protocol.is_data o) | _ => None end) = Some false ->
  handle self (EvPacket env addr tr pkt) sh = (r, sh1) -> sessions sh1 !! addr = Some arc ->
  rtc (step self) sh1 sh2 -> sessions sh2 !! addr = Some arc -> arcs sh2 !! arc = Some s2 ->
  exists t, (t = last_seen s2 \/ t = now env2) /\
    handle self (EvPacket env2 addr tr2 pkt) sh2 =
      (Ok tt, set_arcs (<[arc := set_last_seen t s2]> (arcs sh2)) sh2).
Proof.
  intros Hi Hsteps He Hu Hop E1 Ha1 Hsteps2 Ha2 Hs2. pose proof He as [Henv Hb].
  destruct (steps_ok self sh0 sh (initial_ok _ _ Hi) Hsteps) as [Hok _].
  pose proof (handle_safe self _ He sh Hok) as (_ & Hok1 & _). rewrite E1 in Hok1. cbn in Hok1.
  destruct (unwrap_control_ok self pkt Hb) as [_ Hu']. destruct (Hu' _ _ Hu) as [Hbi Hpid]. specialize (Hpid pid eq_refl).
  cbn [handle] in *. unfold dispatch in *. destruct pkt as [|b rest] eqn:Epkt; [done|]. rewrite <-Epkt in *.
  replace (head pkt) with (Some b) in Hop by by subst pkt. cbn in Hop.
  destruct (Protocol.from_u8 _) as [op|e| |]; [|done..]. injection Hop as Hop. rewrite Hop, Hu in E1 |- *.
  destruct (Protocol.parse (default pkt inner)) as [ctrl|e| |] eqn:Ep.
  2-4: exists (last_seen s2); split; [by left|]; rewrite set_last_seen_same, insert_id, set_arcs_same by done;
    unfold logged, handle_control_packet; msimp; rewrite Ep; pose proof (parse_returns _ Hbi) as Hr; by rewrite Ep in Hr.
  assert (sh1 = (handle_control_packet self env addr (default pkt inner) (Some pid) tr sh).2) as Esh1.
  { unfold logged in E1. destruct (handle_control_packet _ _ _ _ _ _ sh) as [[] ?]; by injection E1. }
  rewrite Esh1 in Ha1. destruct (handled_marks self env addr (default pkt inner) pid tr sh arc ctrl) as (s1 & Hs1 & Hrej);
    [done..|]. rewrite <-Esh1 in Hs1.
  destruct (steps_ok self sh1 sh2 Hok1 Hsteps2) as [_ Hle]. destruct (Hle arc s1 Hs1) as (s2' & Hs2' & Hss).
  rewrite Hs2 in Hs2'. injection Hs2' as <-. apply (le_replay _ _ Hss pid Hpid) in Hrej.
  exists (now env2). split; [by right|]. unfold logged, handle_control_packet. msimp. rewrite Ep. msimp. rewrite Ha2.
  unfold with_session. rewrite Hs2, (handle_known_refused self env2 addr ctrl pid s2 sh2 Hrej). done.
Qed.

(** ** Agreeing on a key *)

(** The client's side of the exchange: the server's randoms from the offsets of
    its reply, the same key derivation, and the client's half of the keys. *)
Definition client_key (km : ControlChannel.ClientKeyMethod2) (reply : bytes) (c_sid s_sid : Z) :
    result Crypto.DataCipher :=
  r1 ← slice reply 5 37;
  r2 ← slice reply 37 69;
  kd ← Prf.derive_openvpn_key_data (ControlChannel.pre_master km) (ControlChannel.random1 km) r1
         (ControlChannel.random2 km) r2 (to_be 8 c_sid) (to_be 8 s_sid);
  c ← Crypto.from_keymat_server kd;
  Ok (Crypto.mirror c).

Lemma server_km2_randoms self r1 r2 :
  length r1 = 32%nat -> length r2 = 32%nat ->
  slice (server_km2 self r1 r2) 5 37 = Ok r1 /\ slice (server_km2 self r1 r2) 37 69 = Ok r2.
Proof.
  intros H1 H2.
  assert (exists rest, server_km2 self r1 r2 = [0; 0; 0; 0; ControlChannel.KEY_METHOD_2] ++ r1 ++ r2 ++ rest) as [rest ->].
  { unfold server_km2, ControlChannel.encode, ControlChannel.write_lp_string.
    cbn [ControlChannel.s_random1 ControlChannel.s_random2]. eexists. rewrite app_nil_l, <-!app_assoc. reflexivity. }
  split; [by apply slice_app3; rewrite ?H1|]. rewrite app_assoc. apply slice_app3; rewrite length_app, ?H1, ?H2; done.
Qed.

(** Both ends derive the two sides of one key. *)
Lemma keys_agree self km r1 r2 c_sid s_sid :
  length r1 = 32%nat -> length r2 = 32%nat ->
  exists kd c, Prf.derive_openvpn_key_data (ControlChannel.pre_master km) (ControlChannel.random1 km) r1
      (ControlChannel.random2 km) r2 (to_be 8 c_sid) (to_be 8 s_sid) = Ok kd /\
    Crypto.from_keymat_server kd = Ok c /\ client_key km (server_km2 self r1 r2) c_sid s_sid = Ok (Crypto.mirror c).
Proof.
  intros H1 H2. destruct (server_km2_randoms self r1 r2 H1 H2) as [E1 E2].
  destruct (derived_cipher (ControlChannel.pre_master km) (ControlChannel.random1 km) r1 (ControlChannel.random2 km) r2
    (to_be 8 c_sid) (to_be 8 s_sid)) as (kd & c & Ek & Ec).
  exists kd, c. split; [done|]. split; [done|]. unfold client_key. rewrite E1. rsimp. rewrite E2. rsimp. rewrite Ek. rsimp.
  by rewrite Ec.
Qed.

(** C17: after the key exchange both ends hold the two sides of one key.  When
    the client's complete key-method-2 message is in the plaintext of a session
    in the key exchange, one pass of the loop consumes exactly that message and
    hands TLS the reply; the client, reading the server's randoms from that
    reply and deriving with its own secrets, gets the key whose other side is
    now the server's active one, with packet ids from 1 and nothing replayed
    yet.  The session then waits for the push request, unless the TLS write
    failed. *)
Theorem key_exchange_agrees self s sh km more :
  ctx_ok self (s, sh) -> state s = KeyExchange -> active_slot s = Ok None ->
  length (server_random1 s) = 32%nat -> length (server_random2 s) = 32%nat ->
  ControlChannel.km2_ok km -> Tls.plaintext_in (tls s) = ControlChannel.client_wire km ++ more ->
  let reply := server_km2 self (server_random1 s) (server_random2 s) in
  let sent := Tls.send_plaintext reply (Tls.MkTlsSession (Tls.tconn (tls s)) more) in
  exists c s', client_key km reply (client_session_id s) (server_session_id s) = Ok c /\
    drive_key_exchange self (s, sh) = (sent.1 ≫= (fun _ => Ok true), (s', sh)) /\
    active_slot s' = Ok (Some (MkKeySlot 0 (Crypto.mirror c) 1 Replay.new)) /\ tls s' = sent.2 /\
    (sent.1 = Ok tt -> state s' = PushPending).
Proof.
  intros [Hs Hsh] Hst Hno H1 H2 Hkm Hin reply sent. cbn in Hs, Hsh.
  destruct (keys_agree self km _ _ (client_session_id s) (server_session_id s) H1 H2) as (kd & c & Ek & Ec & Ecl).
  exists (Crypto.mirror c). unfold drive_key_exchange. hsimp.
  rewrite Hin, ControlChannel.km2_client_roundtrip by done. hsimp.
  rewrite drain_plaintext_run by (rewrite Hin, length_app; lia). hsimp. rewrite Hin, drop_app_length.
  match goal with |- context [install_prf_slot 0 ?x] => set (s2 := x) end.
  assert (session_ok s2) as Hs2.
  { apply (set_km2_safe km (set_tls (Tls.MkTlsSession (Tls.tconn (tls s)) more) s)), set_tls_ok, Hs. }
  pose proof (install_prf_slot_eq s2 0 Hs2) as H. cbn in H. destruct H as (kd' & c' & Ek' & Ec' & E).
  rewrite Ek in Ek'. injection Ek' as <-. rewrite Ec in Ec'. injection Ec' as <-. rewrite E.
  assert (slots s !! active_slot_idx s = Some None) as ->.
  { destruct (active_slot_total s Hs) as (o & Eo & Ho). rewrite Hno in Eo. by injection Eo as <-. }
  hsimp. fold reply.
  match goal with |- context [Tls.send_plaintext reply ?t] => change (Tls.send_plaintext reply t) with sent end.
  assert (forall s', slots s' = <[0%nat := Some (MkKeySlot 0 c 1 Replay.new)]> (slots s2) -> active_slot_idx s' = 0%nat ->
    active_slot s' = Ok (Some (MkKeySlot 0 (Crypto.mirror (Crypto.mirror c)) 1 Replay.new))) as Hact.
  { intros s' E1 E2. apply active_slot_lookup. rewrite E1, E2, list_lookup_insert_eq by (rewrite (so_slots s2 Hs2); lia).
    by destruct c. }
  pose proof (send_plaintext_returns reply (Tls.MkTlsSession (Tls.tconn (tls s)) more)) as Hret. fold sent in Hret.
  destruct sent as [[[]|e| |] t]; try done; hsimp; (eexists; split; [exact Ecl|]; split; [reflexivity|]);
    (split; [by apply Hact|]); by split.
Qed.

(** ** Rekeying *)

(** Sending leaves the key slots and the rekey in progress alone. *)
Record same_keys_rk (s s' : Session) : Prop := {
  sk_slots : slots s' = slots s;
  sk_idx : active_slot_idx s' = active_slot_idx s;
  sk_rekey : rekey s' = rekey s;
}.
Definition same_keys_h (x y : Session * Shared) : Prop := same_keys_rk x.1 y.1.

#[local] Instance same_keys_rk_preorder : PreOrder same_keys_rk.
Proof. split; [by intros s; constructor|]. intros s1 s2 s3 [] []. constructor; congruence. Qed.
#[local] Instance same_keys_h_preorder : PreOrder same_keys_h.
Proof. split; [by intros [s sh]; constructor|]. intros x y z. unfold same_keys_h. apply transitivity. Qed.
#[local] Instance on_sess_keys {A} (m : M Session A) : Moves same_keys_rk m -> Moves same_keys_h (on_sess m).
Proof. intros Hm [s sh]. specialize (Hm s). unfold on_sess. by destruct (m s). Qed.
Ltac keys := descend on_sess_keys.
#[local] Instance on_net_keys {A} (m : M Net A) : Moves same_keys_h (on_shared (on_net m)).
Proof. intros [s sh]. unfold on_shared, on_net. destruct (m (net sh)). by constructor. Qed.
#[local] Instance next_pid_keys : Moves same_keys_rk next_tls_auth_pid.
Proof. intros s. by constructor. Qed.
#[local] Instance alloc_keys : Moves same_keys_rk alloc_packet_id.
Proof. intros s. by constructor. Qed.
#[local] Instance record_sent_keys pid enc t : Moves same_keys_rk (record_sent pid enc t).
Proof. intros s. by constructor. Qed.
#[local] Instance make_control_keys k p : Moves same_keys_rk (make_control k p).
Proof. unfold make_control. keys. Qed.
#[local] Instance wrap_keys self env inner : Moves same_keys_rk (wrap_for_wire self env inner).
Proof. unfold wrap_for_wire. keys. Qed.
#[local] Instance send_chunks_keys self env k out : Moves same_keys_h (send_chunks self env k out).
Proof. unfold send_chunks, send_and_track, send_sess. keys. Qed.

(** The flush keeps the slots; of the rekey it only empties the TLS output. *)
Lemma flush_rekey_keys self env s sh rk :
  session_ok s -> shared_ok self sh -> rekey s = Some rk ->
  let y := flush_rekey_outgoing self env (s, sh) in
  returns y.1 /\ slots y.2.1 = slots s /\ active_slot_idx y.2.1 = active_slot_idx s /\
  exists t, rekey y.2.1 = Some (MkRekeyTrack (rk_key_id rk) t (rk_state rk) (rk_server_random1 rk)
                                  (rk_server_random2 rk) (rk_key_method_sent rk)).
Proof.
  intros Hs Hsh Erk y. split; [by apply (flush_rekey_safe self env (s, sh))|]. subst y.
  unfold flush_rekey_outgoing. hsimp. rewrite Erk. hsimp. unfold on_rekey, on_rk_tls. rewrite Erk.
  destruct (Tls.take_outgoing (rk_tls rk)) as [out t]. cbn [fst snd].
  match goal with |- context [set_rekey ?r s] => set (s1 := set_rekey r s) end.
  destruct out as [|b out]; [by eauto|].
  pose proof (send_chunks_keys self env (rk_key_id rk) (b :: out) (s1, sh)) as [K1 K2 K3].
  destruct (send_chunks self env (rk_key_id rk) (b :: out) (s1, sh)) as [r [s2 sh2]]. cbn in K1, K2, K3 |- *.
  rewrite K1, K2, K3. eauto.
Qed.

Lemma rekey_reply_run wire rk msg more :
  Tls.plaintext_in (rk_tls rk) = msg ++ more ->
  let sent := Tls.send_plaintext wire (Tls.MkTlsSession (Tls.tconn (rk_tls rk)) more) in
  (on_rk_tls (Tls.drain_plaintext (length msg)) ≫= fun _ =>
   on_rk_tls (Tls.send_plaintext wire) ≫= fun _ => set_rk_sent) rk =
  (sent.1, MkRekeyTrack (rk_key_id rk) sent.2 (rk_state rk) (rk_server_random1 rk) (rk_server_random2 rk)
             (if is_ok sent.1 then true else rk_key_method_sent rk)).
Proof.
  intros Hin sent. rewrite bind_run. unfold on_rk_tls at 1.
  rewrite drain_plaintext_run by (rewrite Hin, length_app; lia). rewrite Hin, drop_app_length, bind_run.
  unfold on_rk_tls. cbn [rk_tls rk_key_id rk_state rk_server_random1 rk_server_random2 rk_key_method_sent].
  fold sent. pose proof (send_plaintext_returns wire (Tls.MkTlsSession (Tls.tconn (rk_tls rk)) more)) as Hret.
  fold sent in Hret. by destruct sent as [[[]|e| |] t].
Qed.

(** Client's key-method-2 in, slot installed, reply out. *)
Lemma drive_rekey_run self s sh rk km more :
  session_ok s -> rekey s = Some rk -> rk_state rk = RkKeyExchange ->
  length (rk_server_random1 rk) = 32%nat -> length (rk_server_random2 rk) = 32%nat ->
  ControlChannel.km2_ok km -> Tls.plaintext_in (rk_tls rk) = ControlChannel.client_wire km ++ more ->
  let reply := server_km2 self (rk_server_random1 rk) (rk_server_random2 rk) in
  let sent := Tls.send_plaintext reply (Tls.MkTlsSession (Tls.tconn (rk_tls rk)) more) in
  exists c, client_key km reply (client_session_id s) (server_session_id s) = Ok c /\
    drive_rekey_control_plane self (s, sh) = (sent.1,
      (set_rekey (Some (MkRekeyTrack (rk_key_id rk) sent.2 RkKeyExchange (rk_server_random1 rk) (rk_server_random2 rk)
         (if is_ok sent.1 then true else rk_key_method_sent rk)))
       (set_slots (<[(1 - active_slot_idx s)%nat := Some (MkKeySlot (rk_key_id rk) (Crypto.mirror c) 1 Replay.new)]> (slots s)) s), sh)).
Proof.
  intros Hs Erk Est H1 H2 Hkm Hin reply sent.
  destruct (keys_agree self km _ _ (client_session_id s) (server_session_id s) H1 H2) as (kd & c & Ek & Ec & Ecl).
  exists (Crypto.mirror c). split; [exact Ecl|]. unfold drive_rekey_control_plane. hsimp. rewrite Erk.
  rewrite bool_decide_eq_true_2 by done. hsimp. rewrite Hin, ControlChannel.km2_client_roundtrip by done. hsimp.
  rewrite Ek. hsimp. rewrite Ec. hsimp. rewrite install_slot_eq by done. hsimp. unfold on_rekey.
  change (rekey (set_slots ?x s)) with (rekey s). rewrite Erk, (rekey_reply_run _ rk _ more) by done.
  fold reply. fold sent. rewrite Est. by destruct c.
Qed.

(** The new slot beside the active one: both are found by their id, and
    promoting the new id makes it the active one. *)
Lemma switch_slots s s1 old k :
  session_ok s -> active_slot s = Ok (Some old) -> ks_key_id k <> ks_key_id old ->
  slots s1 = <[(1 - active_slot_idx s)%nat := Some k]> (slots s) -> active_slot_idx s1 = active_slot_idx s ->
  active_slot s1 = Ok (Some old) /\
  slot_by_key_id (ks_key_id k) s1 = Some ((1 - active_slot_idx s)%nat, k) /\
  slot_by_key_id (ks_key_id old) s1 = Some (active_slot_idx s, old) /\
  promote_slot (ks_key_id k) s1 = (Ok true, set_active_slot_idx (1 - active_slot_idx s) s1) /\
  slots s1 !! (1 - active_slot_idx s)%nat = Some (Some k).
Proof.
  intros Hs Ha Hne E1 E2. apply active_slot_lookup in Ha. pose proof (so_slots s Hs) as Hl. pose proof (so_idx s Hs) as Hi.
  unfold promote_slot, slot_by_key_id, active_slot. rewrite E1, E2.
  destruct (slots s) as [|a [|b [|]]]; try done.
  assert (active_slot_idx s = 0 \/ active_slot_idx s = 1)%nat as [E|E] by lia; rewrite E in *;
    cbn in Ha; injection Ha as ->; cbn [insert list_insert Nat.sub]; rewrite !position_key_pair;
    cbn [fmap option_fmap option_map]; repeat (case_decide; simplify_eq; try done); cbn; repeat split.
Qed.

(** C18: a rekey completes with both ends on the new key.  When the client's
    key-method-2 message arrives in the new TLS session, the server installs
    the key whose other side the client derives from the reply, beside the old
    one.  If everything could be sent, it now sends with the new key from
    packet id 1, still accepts packets under the old one, and the rekey is over
    until the next period; if sending failed, it keeps sending with the old
    key and accepts both. *)
Theorem rekey_completes self env ctrl s sh rk old km t more :
  ctx_ok self (s, sh) -> rekey s = Some rk -> active_slot s = Ok (Some old) -> rk_key_id rk <> ks_key_id old ->
  length (rk_server_random1 rk) = 32%nat -> length (rk_server_random2 rk) = 32%nat -> ControlChannel.km2_ok km ->
  Tls.feed (Protocol.payload ctrl) (rk_tls rk) = (Ok tt, t) -> Tls.is_handshaking t = false ->
  Tls.plaintext_in t = ControlChannel.client_wire km ++ more ->
  exists c r s' sh',
    client_key km (server_km2 self (rk_server_random1 rk) (rk_server_random2 rk))
      (client_session_id s) (server_session_id s) = Ok c /\
    handle_rekey_control self env ctrl (s, sh) = (r, (s', sh')) /\
    let fresh := MkKeySlot (rk_key_id rk) (Crypto.mirror c) 1 Replay.new in
    slot_by_key_id (rk_key_id rk) s' = Some ((1 - active_slot_idx s)%nat, fresh) /\
    slot_by_key_id (ks_key_id old) s' = Some (active_slot_idx s, old) /\
    match r with
    | Ok _ => active_slot s' = Ok (Some fresh) /\ rekey s' = None /\ last_rekey_at s' = now env
    | Err _ => active_slot s' = Ok (Some old)
    | _ => False
    end.
Proof.
  intros [Hs Hsh] Erk Hold Hne H1 H2 Hkm Hfeed Hhs Hin. cbn in Hs, Hsh. unfold handle_rekey_control. hsimp. rewrite Erk.
  rewrite bind_run, on_sess_run. unfold on_rekey at 1 2. rewrite Erk.
  set (rk1 := MkRekeyTrack (rk_key_id rk) t RkKeyExchange (rk_server_random1 rk) (rk_server_random2 rk) (rk_key_method_sent rk)).
  match goal with |- context [let '(r, rk') := ?m rk in _] => assert (m rk = (Ok tt, rk1)) as -> end.
  { rewrite bind_run. unfold on_rk_tls. rewrite Hfeed. cbn beta iota. msimp. cbn [rk_tls rk_state]. rewrite Hhs. unfold rk1. by destruct (rk_state rk). }
  cbn [fst snd]. set (s1 := set_rekey (Some rk1) s).
  assert (session_ok s1) as Hs1.
  { pose proof (so_rekey s Hs rk Erk). destruct Hs. constructor; try assumption. cbn. by intros ? [= <-]. }
  destruct (drive_rekey_run self s1 sh rk1 km more) as (c & Ec & Ed); [done..|]. cbn [rk_server_random1 rk_server_random2 rk1] in Ec.
  exists c. rewrite bind_run, Ed.
  set (sent := Tls.send_plaintext _ _) in *. set (k := MkKeySlot (rk_key_id rk) (Crypto.mirror c) 1 Replay.new).
  match type of Ed with _ = (_, (?x, _)) => set (s2 := x) in * end.
  assert (session_ok s2) as Hs2.
  { destruct (drive_rekey_safe self (s1, sh)) as (_ & [H _] & _); [done|]. by rewrite Ed in H. }
  pose proof (fun s' E1 E2 => switch_slots s s' old k Hs Hold Hne E1 E2) as Hsw.
  pose proof (send_plaintext_returns (server_km2 self (rk_server_random1 rk1) (rk_server_random2 rk1))
    (Tls.MkTlsSession (Tls.tconn (rk_tls rk1)) more)) as Hret. fold sent in Hret.
  destruct sent as [[[]|e| |] t2] eqn:Esent; try done; cbn [fst].
  2: { destruct (Hsw s2) as (A1 & A2 & A3 & _ & _); [done..|]. eexists _, _, _. split; [exact Ec|]. split; [reflexivity|]. done. }
  destruct (flush_rekey_keys self env s2 sh _ Hs2 Hsh eq_refl) as (F1 & F2 & F3 & t3 & F4). rewrite bind_run.
  destruct (flush_rekey_outgoing self env (s2, sh)) as [r3 [s3 sh3]]. cbn [fst snd] in F1, F2, F3, F4.
  destruct (Hsw s3 F2 F3) as (A1 & A2 & A3 & A4 & A5).
  destruct r3 as [[]|e| |]; try done; [|by eexists _, _, _; split; [exact Ec|split; [reflexivity|done]]].
  rewrite bind_run, on_sess_run. cbn [get fst snd]. rewrite F4. cbn [rk_key_method_sent is_ok fst snd].
  rewrite bind_run, on_sess_run. cbn [rk_key_id]. change (rk_key_id rk1) with (ks_key_id k). rewrite A4. cbn [fst snd].
  rewrite bind_run, on_sess_run. cbn [modify fst snd]. rewrite on_sess_run. cbn [modify fst snd].
  eexists _, _, _. split; [exact Ec|]. split; [reflexivity|]. split; [exact A2|]. split; [exact A3|].
  split; [|done]. by apply active_slot_lookup.
Qed.

End control.
End ControlRuns.
