(* ===== verification/Tests.v ===== *)
(** * The repository's unit tests (the [#[cfg(test)]] modules under src/src)

    Each test as a boolean: the assertions of its body, evaluated on the model;
    [unwrap] on a value that is not there makes it false.  Tests of the
    cryptographic layers are stated for any implementation of the primitives. *)

From S2P Require Import Prelude Replay Buf Protocol Utf8 ControlChannel Primitives Crypto Prf.
From S2P Require Import Envelope TlsAuth TlsCrypt Text StaticKey Masquerade.

Module Tests.

#[local] Existing Instance list_buf.
#[local] Existing Instance StaticKey.list_hex.

#[local] Instance opcode_eq_dec : EqDecision Protocol.OpCode.
Proof. solve_decision. Defined.

(** [.unwrap()], and what the test does with the value. *)
Definition expect {A} (r : result A) (f : A -> bool) : bool := match r with Ok a => f a | _ => false end.
Definition is_err {A} (r : result A) : bool := match r with Err _ => true | _ => false end.
(** [assert_eq!]. *)
Definition same `{EqDecision A} (x y : A) : bool := bool_decide (x = y).
(** [str::contains]. *)
Fixpoint contains (pat s : bytes) : bool :=
  Text.starts_with s pat || match s with [] => false | _ :: rest => contains pat rest end.

(** ** replay.rs *)

(** The answers of a fresh window to a sequence of packet ids. *)
Fixpoint answers (w : Replay.ReplayWindow) (pids : list Z) : list bool :=
  match pids with
  | [] => []
  | pid :: rest => let '(ok, w') := Replay.check_and_set w pid in ok :: answers w' rest
  end.

Definition accepts_in_order : bool :=
  forallb id (answers Replay.new (Z.of_nat <$> seq 1 10)).
Definition rejects_duplicate : bool := same (answers Replay.new [5; 5]) [true; false].
Definition accepts_within_window_out_of_order : bool :=
  same (answers Replay.new [10; 8; 9; 8; 9]) [true; true; true; false; false].
Definition rejects_too_old : bool := same (answers Replay.new [100; 36; 1; 37]) [true; false; false; true].
Definition rejects_zero : bool := same (answers Replay.new [0]) [false].
Definition large_jump_resets_window : bool :=
  same (answers Replay.new [1; 1000; 1; 1000]) [true; true; false; false].

(** ** protocol.rs *)

Definition parse_hard_reset : bool :=
  let buf := [Z.shiftl 7 3] ++ to_be 8 0x1122334455667788 ++ [0] ++ to_be 4 0 in
  expect (Protocol.parse buf) (fun pkt =>
    same (Protocol.op pkt) Protocol.ControlHardResetClientV2 && (Protocol.session_id pkt =? 0x1122334455667788) &&
    same (Protocol.packet_id pkt) (Some 0) && same (Protocol.acks pkt) []).
Definition round_trip_control : bool :=
  let p := Protocol.MkControlPacket Protocol.ControlV1 0 42 [1; 2] (Some 99) (Some 7) [0xDE; 0xAD; 0xBE; 0xEF] in
  let encoded := Protocol.encode p in
  expect (Protocol.parse encoded) (fun parsed =>
    (Protocol.session_id parsed =? 42) && same (Protocol.acks parsed) [1; 2] &&
    same (Protocol.remote_session_id parsed) (Some 99) && same (Protocol.packet_id parsed) (Some 7) &&
    same (Protocol.payload parsed) [0xDE; 0xAD; 0xBE; 0xEF]).
Definition data_v2_parse : bool :=
  let buf := [Z.shiftl (Protocol.as_u8 Protocol.DataV2) 3] ++ [0x00; 0x12; 0x34] ++ to_be 4 7 ++ [1; 2; 3; 4] in
  expect (Protocol.parse_data_v2 buf) (fun d =>
    (Protocol.d_peer_id d =? 0x1234) && (Protocol.d_packet_id d =? 7) && same (Protocol.d_ciphertext d) [1; 2; 3; 4]).

(** ** control_channel.rs *)

Definition lp_string_round_trip : bool :=
  let buf := ControlChannel.write_lp_string [] (str "hello") in
  same buf [0; 6; 104; 101; 108; 108; 111; 0] &&
  expect (ControlChannel.read_lp_string buf 0) (fun '(s, off) => same s (Some (str "hello")) && (off =? 8)%nat).
Definition pop_ascii_split : bool :=
  let buf := str "PUSH_REQUEST" ++ [0] ++ str "PUSH_REQUEST" ++ [0] in
  match ControlChannel.try_pop_ascii buf with
  | ControlChannel.Ready s n => same s (str "PUSH_REQUEST") && (n =? 13)%nat
  | ControlChannel.NeedMore => false
  end.
Definition pop_ascii_needs_more : bool :=
  match ControlChannel.try_pop_ascii (str "PUSH_REQ") with ControlChannel.NeedMore => true | _ => false end.
Definition client_key_method_2_round_trip_basic : bool :=
  let buf := replicate 4 0 ++ [ControlChannel.KEY_METHOD_2] ++ replicate ControlChannel.PRE_MASTER_LEN 0xAB ++
    replicate ControlChannel.RANDOM_LEN 0xCD ++ replicate ControlChannel.RANDOM_LEN 0xEF in
  let buf := ControlChannel.write_lp_string buf (str "V4,proto UDPv4,key-method 2,tls-client") in
  let buf := ControlChannel.write_lp_string buf (str "") in
  let buf := ControlChannel.write_lp_string buf (str "") in
  let buf := ControlChannel.write_lp_string buf (str "IV_VER=2.6.0" ++ [10] ++ str "IV_PROTO=998") in
  expect (ControlChannel.try_parse buf) (fun p =>
    match p with
    | ControlChannel.Ready km n =>
      (n =? length buf)%nat &&
      same (ControlChannel.pre_master km) (replicate ControlChannel.PRE_MASTER_LEN 0xAB) &&
      same (ControlChannel.random1 km) (replicate ControlChannel.RANDOM_LEN 0xCD) &&
      same (ControlChannel.random2 km) (replicate ControlChannel.RANDOM_LEN 0xEF) &&
      contains (str "tls-client") (ControlChannel.options km) && contains (str "IV_PROTO") (ControlChannel.peer_info km)
    | ControlChannel.NeedMore => false
    end).
Definition client_key_method_2_partial_returns_need_more : bool :=
  expect (ControlChannel.try_parse (replicate 50 0)) (fun p =>
    match p with ControlChannel.NeedMore => true | _ => false end).

(** ** nat.rs *)

Definition ipv4 (a b c d : Z) : Z := from_be [a; b; c; d].
Definition cidr_basic : bool :=
  same (Masquerade.subnet_to_cidr (ipv4 10 8 0 1) (ipv4 255 255 255 0)) (str "10.8.0.0/24") &&
  same (Masquerade.subnet_to_cidr (ipv4 192 168 5 50) (ipv4 255 255 0 0)) (str "192.168.0.0/16") &&
  same (Masquerade.subnet_to_cidr (ipv4 172 16 200 1) (ipv4 255 240 0 0)) (str "172.16.0.0/12").

(** ** static_key.rs *)

(** [bytes.chunks(16)] of a 256-byte key. *)
Definition key_rows (bytes : bytes) : list Prelude.bytes := (fun i => take 16 (drop (16 * i) bytes)) <$> seq 0 16.
Definition build_pem (bytes : bytes) : Prelude.bytes :=
  str "-----BEGIN OpenVPN Static key V1-----" ++ [10] ++
  concat ((fun chunk => concat (StaticKey.hex_byte <$> chunk) ++ [10]) <$> key_rows bytes) ++
  str "-----END OpenVPN Static key V1-----" ++ [10].
(** [{:02X}]. *)
Definition hex_digit_upper (d : Z) : Z := if d <? 10 then 48 + d else 55 + d.
Definition hex_byte_upper (b : Z) : bytes := [hex_digit_upper (b / 16); hex_digit_upper (b `mod` 16)].

Definition fake_static_key : bytes := (fun i => wrap 8 (Z.of_nat i)) <$> seq 0 StaticKey.STATIC_KEY_LEN.
Definition round_trip_known_bytes : bool :=
  expect (StaticKey.parse_static_key_text (build_pem fake_static_key)) (fun parsed => same parsed fake_static_key).
Definition ignores_comments_and_blank_lines : bool :=
  let km := (fun i => wrap 8 (255 - Z.of_nat i)) <$> seq 0 StaticKey.STATIC_KEY_LEN in
  let pem := str "-----BEGIN OpenVPN Static key V1-----" ++ [10] ++ str "# this is a comment" ++ [10] ++ [10] ++
    concat ((fun chunk => concat (hex_byte_upper <$> chunk) ++ [10]) <$> key_rows km) ++
    str "-----END OpenVPN Static key V1-----" ++ [10] in
  expect (StaticKey.parse_static_key_text pem) (fun parsed => same parsed km).
Definition rejects_wrong_length : bool :=
  is_err (StaticKey.parse_static_key_text
    (str "-----BEGIN OpenVPN Static key V1-----" ++ [10] ++ str "00112233" ++ [10] ++
     str "-----END OpenVPN Static key V1-----")).

Section crypto.
Context {C : CryptoApi}.

(** ** crypto.rs *)

Definition round_trip : bool :=
  let km := (fun i => wrap 8 (Z.of_nat i / 64 * 0x11 + Z.of_nat i `mod` 64)) <$> seq 0 Crypto.KEYMAT_LEN in
  expect (Crypto.from_keymat_server km) (fun c =>
    let aad := replicate 8 0 in
    let pt := str "hello tunnel" in
    expect (Crypto.seal c 0 aad pt) (fun ct => (length ct =? length pt + Crypto.TAG_SIZE)%nat)).

(** The peer decrypts with the primitives themselves, under the server's half
    of the key material. *)
Definition server_and_peer_can_round_trip : bool :=
  let km := (fun i => wrap 8 (Z.of_nat i)) <$> seq 0 Crypto.KEYMAT_LEN in
  expect (Crypto.from_keymat_server km) (fun server =>
    let peer_dec := take Crypto.KEY_SIZE (drop (Crypto.SLOT * 2) km) in
    let peer_dec_iv := take Crypto.IMPLICIT_IV_SIZE (drop (Crypto.SLOT * 3) km) in
    let aad := replicate 8 0xAA in
    let pt := str "hello from server" in
    expect (Crypto.seal server 42 aad pt) (fun wire =>
      let tag := take Crypto.TAG_SIZE wire in
      let ct := drop Crypto.TAG_SIZE wire in
      let nonce := to_be 4 42 ++ peer_dec_iv in
      same (gcm_decrypt peer_dec nonce aad (ct ++ tag)) (Some pt))).

(** ** prf.rs *)

Definition derive (c_sid : bytes) : result bytes :=
  Prf.derive_openvpn_key_data (replicate 48 0x42) (replicate 32 0x11) (replicate 32 0x22) (replicate 32 0x33)
    (replicate 32 0x44) c_sid (replicate 8 0xBB).
Definition key_derivation_deterministic : bool :=
  expect (derive (replicate 8 0xAA)) (fun a =>
    expect (derive (replicate 8 0xAA)) (fun b => same a b && existsb (fun x => negb (x =? 0)) a)).
Definition key_derivation_uses_session_ids : bool :=
  expect (derive (replicate 8 0)) (fun a => expect (derive (replicate 8 1)) (fun b => negb (same a b))).

(** ** tls_auth.rs *)

(** [wire[i] ^= m]. *)
Definition flip_bits (i : nat) (m : Z) (wire : bytes) : bytes := alter (fun b => Z.lxor b m) i wire.
Definition is_pair (r : result (bytes * Z)) (inner : bytes) (pid : Z) : bool :=
  expect r (fun '(back, pid') => same back inner && (pid' =? pid)).

Definition auth_inner : bytes := [0x38] ++ to_be 8 0x0102030405060708 ++ str "hello-control-packet-body".
Definition direction_0_round_trip : bool :=
  expect (TlsAuth.from_static_key_server fake_static_key 0) (fun server =>
    expect (TlsAuth.wrap server auth_inner 42 1700000000) (fun wire =>
      is_pair (TlsAuth.unwrap server wire) auth_inner 42)).
Definition direction_1_peer_round_trip : bool :=
  expect (TlsAuth.from_static_key_server fake_static_key 1) (fun server =>
    let client := TlsAuth.MkTlsAuthKey (TlsAuth.in_key server) (TlsAuth.out_key server) in
    expect (TlsAuth.wrap server auth_inner 7 1234567890) (fun wire => is_pair (TlsAuth.unwrap client wire) auth_inner 7) &&
    expect (TlsAuth.wrap client auth_inner 11 1234567891) (fun wire => is_pair (TlsAuth.unwrap server wire) auth_inner 11)).
Definition auth_rejects_tampered_hmac : bool :=
  expect (TlsAuth.from_static_key_server fake_static_key 0) (fun key =>
    expect (TlsAuth.wrap key auth_inner 1 0) (fun wire =>
      is_err (TlsAuth.unwrap key (flip_bits (TlsAuth.HEADER_LEN + 5) 0x01 wire)))).
Definition auth_rejects_tampered_body : bool :=
  expect (TlsAuth.from_static_key_server fake_static_key 0) (fun key =>
    expect (TlsAuth.wrap key auth_inner 1 0) (fun wire =>
      is_err (TlsAuth.unwrap key (flip_bits (length wire - 1) 0x80 wire)))).
Definition auth_rejects_too_short : bool :=
  expect (TlsAuth.from_static_key_server fake_static_key 0) (fun key =>
    is_err (TlsAuth.unwrap key (replicate (TlsAuth.HEADER_LEN + TlsAuth.HMAC_LEN) 0))).
Definition rejects_unknown_direction : bool := is_err (TlsAuth.from_static_key_server fake_static_key 2).

Definition same_packet (p q : Protocol.ControlPacket) : bool :=
  same (Protocol.op p) (Protocol.op q) && (Protocol.key_id p =? Protocol.key_id q) &&
  (Protocol.session_id p =? Protocol.session_id q) && same (Protocol.acks p) (Protocol.acks q) &&
  same (Protocol.remote_session_id p) (Protocol.remote_session_id q) &&
  same (Protocol.packet_id p) (Protocol.packet_id q) && same (Protocol.payload p) (Protocol.payload q).
Definition auth_round_trip_through_control_packet : bool :=
  expect (TlsAuth.from_static_key_server fake_static_key 1) (fun server =>
    let peer := TlsAuth.MkTlsAuthKey (TlsAuth.in_key server) (TlsAuth.out_key server) in
    let original := Protocol.MkControlPacket Protocol.ControlV1 3 0xDEADBEEFCAFEF00D [1; 2; 3]
      (Some 0x1122334455667788) (Some 0x4242) (str "some-tls-bytes-here") in
    let inner := Protocol.encode original in
    expect (TlsAuth.wrap server inner 99 1700000000) (fun wire =>
      expect (TlsAuth.unwrap peer wire) (fun '(back, pid) =>
        (pid =? 99) && expect (Protocol.parse back) (fun parsed => same_packet parsed original)))).

(** ** tls_crypt.rs *)

Definition crypt_inner : bytes := [0x38] ++ to_be 8 0x0102030405060708 ++ str "hello-tls-crypt-control-body".
Definition peer_of (server : TlsCrypt.TlsCryptKey) : TlsCrypt.TlsCryptKey :=
  TlsCrypt.MkTlsCryptKey (TlsCrypt.dec_cipher_key server) (TlsCrypt.dec_hmac_key server)
    (TlsCrypt.enc_cipher_key server) (TlsCrypt.enc_hmac_key server).
Definition self_unwrap_with_swapped_keys : bool :=
  expect (TlsCrypt.from_static_key_server fake_static_key) (fun server =>
    expect (TlsCrypt.wrap server crypt_inner 42 1700000000) (fun wire =>
      is_pair (TlsCrypt.unwrap (peer_of server) wire) crypt_inner 42) &&
    expect (TlsCrypt.wrap (peer_of server) crypt_inner 7 1234567890) (fun wire =>
      is_pair (TlsCrypt.unwrap server wire) crypt_inner 7)).
Definition ciphertext_actually_encrypts : bool :=
  expect (TlsCrypt.from_static_key_server fake_static_key) (fun server =>
    expect (TlsCrypt.wrap server crypt_inner 1 0) (fun wire =>
      let wire_body := drop (TlsCrypt.HEADER_LEN + TlsCrypt.TAG_LEN) wire in
      let plain_body := drop 9 crypt_inner in
      (length wire_body =? length plain_body)%nat && negb (same wire_body plain_body))).
Definition crypt_rejects_tampered_tag : bool :=
  expect (TlsCrypt.from_static_key_server fake_static_key) (fun server =>
    expect (TlsCrypt.wrap server crypt_inner 1 0) (fun wire =>
      is_err (TlsCrypt.unwrap (peer_of server) (flip_bits (TlsCrypt.HEADER_LEN + 5) 0x01 wire)))).
Definition rejects_tampered_ciphertext : bool :=
  expect (TlsCrypt.from_static_key_server fake_static_key) (fun server =>
    expect (TlsCrypt.wrap server crypt_inner 1 0) (fun wire =>
      is_err (TlsCrypt.unwrap (peer_of server) (flip_bits (length wire - 1) 0x80 wire)))).
Definition crypt_rejects_too_short : bool :=
  expect (TlsCrypt.from_static_key_server fake_static_key) (fun key =>
    is_err (TlsCrypt.unwrap key (replicate (TlsCrypt.HEADER_LEN + TlsCrypt.TAG_LEN - 1) 0))).
Definition crypt_round_trip_through_control_packet : bool :=
  expect (TlsCrypt.from_static_key_server fake_static_key) (fun server =>
    let original := Protocol.MkControlPacket Protocol.ControlV1 2 0xDEADBEEFCAFEF00D [10; 11]
      (Some 0x1122334455667788) (Some 0x4242) (str "encrypted-tls-handshake-bytes") in
    let inner := Protocol.encode original in
    expect (TlsCrypt.wrap server inner 99 1700000000) (fun wire =>
      expect (TlsCrypt.unwrap (peer_of server) wire) (fun '(back, pid) =>
        (pid =? 99) && expect (Protocol.parse back) (fun parsed => same_packet parsed original)))).

(** *** For every implementation of the primitives that keeps its promises *)

Context {CL : CryptoLaws C}.

Lemma expect_ok {A} (r : result A) f : (exists a, r = Ok a /\ f a = true) -> expect r f = true.
Proof. by intros (a & -> & ?). Qed.
Lemma is_pair_refl inner pid : is_pair (Ok (inner, pid)) inner pid = true.
Proof. cbn. unfold same. rewrite bool_decide_true by done. apply Z.eqb_refl. Qed.
Lemma same_packet_refl p : same_packet p p = true.
Proof. unfold same_packet, same. by rewrite !bool_decide_true, !Z.eqb_refl by done. Qed.

(** What a key wraps, the other side's key unwraps. *)
Lemma auth_round_trip k inner pid ts f :
  (9 <= length inner)%nat -> u32_ok pid -> u32_ok ts -> f (Ok (inner, pid)) = true ->
  expect (TlsAuth.wrap k inner pid ts) (fun wire => f (TlsAuth.unwrap (TlsAuth.mirror k) wire)) = true.
Proof.
  intros Hl Hp Ht Hf. destruct (inner_split inner Hl) as (op & sid & body & -> & L). apply expect_ok.
  eexists. split; [by apply TlsAuth.tls_auth_wrap_split|].
  by rewrite (TlsAuth.tls_auth_unwrap_wrap k ([op] ++ sid ++ body) pid ts) by by rewrite ?TlsAuth.tls_auth_wrap_split.
Qed.
Lemma crypt_round_trip k inner pid ts f :
  (9 <= length inner)%nat -> u32_ok pid -> f (Ok (inner, pid)) = true ->
  expect (TlsCrypt.wrap k inner pid ts) (fun wire => f (TlsCrypt.unwrap (TlsCrypt.mirror k) wire)) = true.
Proof.
  intros Hl Hp Hf. destruct (inner_split inner Hl) as (op & sid & body & -> & L). apply expect_ok.
  eexists. split; [by apply TlsCrypt.tls_crypt_wrap_split|].
  by rewrite (TlsCrypt.tls_crypt_unwrap_wrap k ([op] ++ sid ++ body) pid ts) by by rewrite ?TlsCrypt.tls_crypt_wrap_split.
Qed.

Lemma cipher_tests : round_trip = true /\ server_and_peer_can_round_trip = true.
Proof.
  split.
  - apply expect_ok. eexists. split; [vm_compute; reflexivity|]. cbv zeta. apply expect_ok.
    match goal with |- context [Crypto.seal ?c ?p ?a ?m] => destruct (Crypto.seal_total c p a m) as [w E]; [done..|] end.
    exists w. split; [exact E|]. apply Nat.eqb_eq. by rewrite (Crypto.seal_length _ _ _ _ _ E).
  - apply expect_ok. eexists. split; [vm_compute; reflexivity|]. cbv zeta. apply expect_ok.
    match goal with |- context [Crypto.seal ?c ?p ?a ?m] =>
      destruct (gcm_encrypt_total (Crypto.enc_key c) (Crypto.nonce p (Crypto.enc_iv c)) a m) as [ct E]; [done..|];
      exists (drop (length m) ct ++ take (length m) ct); split; [by apply Crypto.seal_eq|] end.
    pose proof (gcm_encrypt_length _ _ _ _ _ E) as L.
    assert (length (drop (length (str "hello from server")) ct) = Crypto.TAG_SIZE) as Lt by by rewrite length_drop, L.
    rewrite take_app_length', drop_app_length' by done. rewrite take_drop. unfold same. apply bool_decide_true.
    exact (gcm_decrypt_encrypt _ _ _ _ _ E).
Qed.

(** Direction 0 uses one key both ways. *)
Lemma direction_0_key : exists k, TlsAuth.from_static_key_server fake_static_key 0 = Ok k /\ TlsAuth.mirror k = k.
Proof. eexists. split; vm_compute; reflexivity. Qed.
Lemma direction_1_key : exists k, TlsAuth.from_static_key_server fake_static_key 1 = Ok k.
Proof. eexists. vm_compute. reflexivity. Qed.
Lemma crypt_key : exists k, TlsCrypt.from_static_key_server fake_static_key = Ok k.
Proof. eexists. vm_compute. reflexivity. Qed.

(** The packet inside is read back. *)
Lemma read_back pkt pid :
  Protocol.packet_ok pkt ->
  expect (Ok (Protocol.encode pkt, pid)) (fun '(back, p) =>
    (p =? pid) && expect (Protocol.parse back) (fun parsed => same_packet parsed pkt)) = true.
Proof. intros Hp. cbn [expect]. rewrite Z.eqb_refl, Protocol.parse_encode_eq by done. apply same_packet_refl. Qed.

Ltac unit_range := split; [lia|reflexivity].

Lemma auth_round_trip_tests :
  direction_0_round_trip = true /\ direction_1_peer_round_trip = true /\ auth_round_trip_through_control_packet = true.
Proof.
  assert (9 <= length auth_inner)%nat as Hl by (vm_compute; lia). clear - CL Hl. split; [|split].
  - unfold direction_0_round_trip. destruct direction_0_key as (k & -> & Hk).
    pose proof (auth_round_trip k auth_inner 42 1700000000 (fun r => is_pair r auth_inner 42)) as H. rewrite Hk in H.
    apply H; [done|unit_range|unit_range|apply is_pair_refl].
  - unfold direction_1_peer_round_trip. destruct direction_1_key as [k ->]. cbn [expect]. apply andb_true_iff. split.
    + apply (auth_round_trip k auth_inner 7 1234567890 (fun r => is_pair r auth_inner 7));
        [done|unit_range|unit_range|apply is_pair_refl].
    + destruct k as [o i]. apply (auth_round_trip (TlsAuth.MkTlsAuthKey i o) auth_inner 11 1234567891
        (fun r => is_pair r auth_inner 11)); [done|unit_range|unit_range|apply is_pair_refl].
  - unfold auth_round_trip_through_control_packet. destruct direction_1_key as [k ->]. cbn [expect]. cbv zeta.
    match goal with |- context [Protocol.encode ?p] => set (pkt := p) end.
    apply (auth_round_trip k (Protocol.encode pkt) 99 1700000000 (fun r => expect r (fun '(back, pid) =>
      (pid =? 99) && expect (Protocol.parse back) (fun parsed => same_packet parsed pkt))));
      [vm_compute; lia|unit_range|unit_range|]. apply read_back.
    constructor; cbn; (done || lia || unit_range || (repeat constructor; lia) || (intros ? [= <-]; unit_range)).
Qed.
Lemma crypt_round_trip_tests :
  self_unwrap_with_swapped_keys = true /\ crypt_round_trip_through_control_packet = true.
Proof.
  assert (9 <= length crypt_inner)%nat as Hl by (vm_compute; lia). clear - CL Hl. split.
  - unfold self_unwrap_with_swapped_keys. destruct crypt_key as [k ->]. cbn [expect]. apply andb_true_iff. split.
    + apply (crypt_round_trip k crypt_inner 42 1700000000 (fun r => is_pair r crypt_inner 42));
        [done|unit_range|apply is_pair_refl].
    + destruct k as [a b c d]. apply (crypt_round_trip (TlsCrypt.MkTlsCryptKey c d a b) crypt_inner 7 1234567890
        (fun r => is_pair r crypt_inner 7)); [done|unit_range|apply is_pair_refl].
  - unfold crypt_round_trip_through_control_packet. destruct crypt_key as [k ->]. cbn [expect]. cbv zeta.
    match goal with |- context [Protocol.encode ?p] => set (pkt := p) end.
    apply (crypt_round_trip k (Protocol.encode pkt) 99 1700000000 (fun r => expect r (fun '(back, pid) =>
      (pid =? 99) && expect (Protocol.parse back) (fun parsed => same_packet parsed pkt))));
      [vm_compute; lia|unit_range|]. apply read_back.
    constructor; cbn; (done || lia || unit_range || (repeat constructor; lia) || (intros ? [= <-]; unit_range)).
Qed.

(** A different tag does not verify; the rest of the packet is the same. *)
Lemma auth_tampered_hmac : auth_rejects_tampered_hmac = true.
Proof.
  unfold auth_rejects_tampered_hmac. destruct direction_0_key as (k & -> & Hk). cbn [expect].
  destruct (inner_split auth_inner) as (op & sid & body & E & L); [vm_compute; lia|]. rewrite E. apply expect_ok.
  eexists. split; [by apply TlsAuth.tls_auth_wrap_split|].
  set (tag := TlsAuth.compute_hmac _ _ _ _ _ _).
  assert (length tag = 32%nat) as Lt by apply hmac_sha256_length.
  assert (flip_bits (TlsAuth.HEADER_LEN + 5) 0x01 (TlsAuth.layout op sid tag (to_be 4 1) (to_be 4 0) body) =
    TlsAuth.layout op sid (alter (fun b => Z.lxor b 1) 5%nat tag) (to_be 4 1) (to_be 4 0) body) as ->.
  { unfold flip_bits, TlsAuth.layout, TlsAuth.HEADER_LEN. rewrite alter_app_r_alt by (cbn; lia). f_equal.
    cbn [length Nat.sub]. rewrite alter_app_r_alt by lia. f_equal. rewrite L. by rewrite alter_app_l by lia. }
  rewrite TlsAuth.tls_auth_unwrap_layout by by rewrite ?length_alter.
  destruct (hmac_sha256_verify _ _ _) eqn:Ev; [|done]. exfalso. apply hmac_sha256_verify_iff in Ev.
  assert (alter (fun b => Z.lxor b 1) 5%nat tag = tag) as Et.
  { rewrite Ev. subst tag. unfold TlsAuth.compute_hmac. rewrite !from_to_be by unit_range. by rewrite <-Hk at 2. }
  destruct (lookup_lt_is_Some_2 tag 5) as [b Hb]; [lia|].
  assert (alter (fun b => Z.lxor b 1) 5%nat tag !! 5%nat = Some (Z.lxor b 1)) as H1 by by rewrite list_lookup_alter_eq, Hb.
  rewrite Et, Hb in H1. injection H1 as H1. apply (f_equal (Z.lxor b)) in H1.
  by rewrite Z.lxor_nilpotent, <-Z.lxor_assoc, Z.lxor_nilpotent in H1.
Qed.
Lemma short_packet_tests : auth_rejects_too_short = true /\ crypt_rejects_too_short = true.
Proof.
  split.
  - unfold auth_rejects_too_short. destruct direction_0_key as (k & -> & Hk). reflexivity.
  - unfold crypt_rejects_too_short. destruct crypt_key as [k ->]. reflexivity.
Qed.

End crypto.

Definition plain_tests : list bool :=
  [ accepts_in_order; rejects_duplicate; accepts_within_window_out_of_order; rejects_too_old; rejects_zero;
    large_jump_resets_window; parse_hard_reset; round_trip_control; data_v2_parse; lp_string_round_trip;
    pop_ascii_split; pop_ascii_needs_more; client_key_method_2_round_trip_basic;
    client_key_method_2_partial_returns_need_more; cidr_basic; round_trip_known_bytes;
    ignores_comments_and_blank_lines; rejects_wrong_length; rejects_unknown_direction ].
Lemma plain_tests_pass : plain_tests = replicate 19 true.
Proof. vm_compute. reflexivity. Qed.
(** Ten of the tests of the cryptographic layers pass with every implementation
    of the primitives that keeps its promises. *)
Theorem lawful_tests_pass {C : CryptoApi} {CL : CryptoLaws C} :
  [ round_trip; server_and_peer_can_round_trip; direction_0_round_trip; direction_1_peer_round_trip;
    auth_round_trip_through_control_packet; self_unwrap_with_swapped_keys; crypt_round_trip_through_control_packet;
    auth_rejects_tampered_hmac; auth_rejects_too_short; crypt_rejects_too_short ] = replicate 10 true.
Proof.
  destruct cipher_tests as [-> ->], auth_round_trip_tests as (-> & -> & ->), crypt_round_trip_tests as [-> ->].
  by destruct short_packet_tests as [-> ->]; rewrite auth_tampered_hmac.
Qed.
(** The others depend on the primitive: that a tampered message has another tag,
    that the keystream is not zero, that different seeds give different keys. *)
Lemma toy_tests_pass :
  let C := toy_crypto in
  [ key_derivation_deterministic; key_derivation_uses_session_ids; auth_rejects_tampered_body;
    ciphertext_actually_encrypts; crypt_rejects_tampered_tag; rejects_tampered_ciphertext ] = replicate 6 true.
Proof. vm_compute. reflexivity. Qed.

End Tests.
