(* ===== verification/Scenario.v ===== *)
(** * Concrete runs

    A small server with tls-auth, a client that holds the same key, and the
    toy TLS and ciphers of the other files: the theorems about the server
    applied to it, so that their hypotheses are seen to hold somewhere. *)

From S2P Require Import Prelude Replay Buf Protocol Utf8 ControlChannel Primitives Crypto Prf.
From S2P Require Import Envelope TlsAuth TlsCrypt Text StaticKey Tls Certs Transport Config Masquerade.
From S2P Require Import TunDev Session SessionInv Server PushReply ServerInv System Main Addressing ServerProps Isolation ControlRuns.

Module Scenario.
Import Transport Session SessionInv Server ServerInv System ServerProps.

#[local] Existing Instance toy_crypto.
#[local] Existing Instance toy_crypto_laws.
#[local] Existing Instance Tls.toy_tls.
#[local] Existing Instance Tls.toy_tls_laws.
#[local] Existing Instance Masquerade.toy_nat.
#[local] Existing Instance StaticKey.list_hex.

Definition client : SocketAddr := SockV4 0xC0A80105 40000.

Definition toy_raw : Config.RawConfig := {|
  Config.raw_listen := SockV4 0 1194; Config.raw_ca := str "ca.pem"; Config.raw_cert := str "cert.pem";
  Config.raw_key := str "key.pem"; Config.raw_tun_ip := V4 0x0A080001; Config.raw_tun_netmask := V4 0xFFFFFF00;
  Config.raw_client_pool_start := V4 0x0A080002; Config.raw_client_pool_end := V4 0x0A080006;
  Config.raw_listen_tcp := None; Config.raw_tun_name := None; Config.raw_cipher := None; Config.raw_tun_mtu := None;
  Config.raw_push_routes := Some [str "0.0.0.0/0"; str "10.0.0.0/8"]; Config.raw_push_dns := None;
  Config.raw_tun_ip6 := None; Config.raw_tun_prefix6 := None; Config.raw_client_pool_start_v6 := None;
  Config.raw_client_pool_end_v6 := None; Config.raw_push_routes_v6 := None; Config.raw_keepalive_ping := None;
  Config.raw_keepalive_timeout := None; Config.raw_tls_auth_key := Some (str "ta.key");
  Config.raw_tls_auth_key_direction := None; Config.raw_tls_crypt_key := None; Config.raw_enable_nat := None;
  Config.raw_wan_iface := None; Config.raw_reneg_sec := None; Config.raw_client_configs := None |}.

Definition toy_cfg : Config.ServerConfig := Config.with_defaults false toy_raw.

Definition key_bytes : bytes := Z.of_nat <$> seq 0 256.
Definition toy_key : TlsAuth.TlsAuthKey :=
  TlsAuth.MkTlsAuthKey (take 64 (drop 192 key_bytes)) (take 64 (drop 64 key_bytes)).

Definition toy_server : VpnServer := MkVpnServer toy_cfg true 0x0A080006 None None (Some toy_key).

Definition toy_net : Net := MkNet [] [] ∅.
Definition toy_start : Shared := MkShared ∅ ∅ ∅ ∅ ∅ 1 0x0A080002 None ∅ ∅ 0 false false [] [] toy_net.
Definition toy_running : Shared := (run_start toy_start).2.

(** Sixteen lines of sixteen bytes, as [openvpn --genkey] prints them. *)
Definition rows (bs : bytes) : list bytes := (fun i => take 16 (drop (16 * i) bs)) <$> seq 0 16.

Lemma toy_initial : initial toy_server toy_running.
Proof.
  exists Masquerade.toy_nat, Certs.toy_pem, Certs.toy_tls_config, StaticKey.list_hex, toy_cfg, true,
    (fun _ => Some (StaticKey.build_pem (rows key_bytes))), toy_net, (Masquerade.ToyHost [] (str "1") None),
    None, (Masquerade.ToyHost [] (str "1") None), toy_start.
  split; [vm_compute; reflexivity|]. split; [reflexivity|done].
Qed.

Definition toy_env : Env :=
  MkEnv (10 * SECOND) (fun _ => Some 1700000000) (replicate 8 1) (replicate 32 2) (replicate 32 3).

Lemma toy_env_ok : env_ok toy_env.
Proof. split; [done|]. repeat constructor; done. Qed.

(** The client's first packet, wrapped with its side of the key. *)
Definition hard_reset : bytes := [0x38; 9; 9; 9; 9; 9; 9; 9; 9; 0; 0; 0; 0; 0].
Definition hello : bytes :=
  match TlsAuth.wrap (TlsAuth.mirror toy_key) hard_reset 1 1700000000 with Ok w => w | _ => [] end.
Definition ev_hello : event := EvPacket toy_env client (Udp client) hello.

Lemma bytes_ok_dec_true l : forallb (fun b => (0 <=? b) && (b <? 256)) l = true -> bytes_ok l.
Proof.
  intros H. apply Forall_forall. intros b Hb. rewrite forallb_forall in H.
  specialize (H b (proj1 (list_elem_of_In _ _) Hb)). apply andb_true_iff in H as [H1 H2].
  apply Z.leb_le in H1. apply Z.ltb_lt in H2. unfold uint_ok. lia.
Qed.

Lemma ev_hello_ok : event_ok ev_hello.
Proof. split; [apply toy_env_ok|]. apply bytes_ok_dec_true. vm_compute. reflexivity. Qed.

Definition toy_joined : Shared := (handle toy_server ev_hello toy_running).2.

Lemma toy_joins : rtc (step toy_server) toy_running toy_joined.
Proof.
  apply rtc_once. apply (Step toy_server ev_hello toy_running (handle toy_server ev_hello toy_running).1);
    [apply ev_hello_ok|apply surjective_pairing].
Qed.

Lemma server_never_panics_witness :
  exists r sh', handle toy_server ev_hello toy_joined = (r, sh') /\ returns r.
Proof.
  destruct (server_never_panics toy_server toy_running toy_joined ev_hello toy_initial toy_joins ev_hello_ok)
    as [_ (r & sh' & E & Hr & _)].
  exists r, sh'. split; [exact E|exact Hr].
Defined.

Definition joined_session : Session := match arcs toy_joined !! 0%nat with Some s => s | None => toy_new end.

Lemma session_state_monotone_witness :
  exists s', arcs toy_joined !! 0%nat = Some s' /\ (1 <= rank (state s'))%nat.
Proof.
  destruct (session_state_monotone toy_server toy_running toy_joined toy_joined 0%nat joined_session toy_initial
    toy_joins (rtc_refl _ _)) as (s' & E & Hr & _); [vm_compute; reflexivity|].
  exists s'. split; [exact E|]. vm_compute in Hr. exact Hr.
Defined.

(** A packet with a control opcode and a tag that does not match. *)
Definition forged : bytes := 0x38 :: replicate 60 0.

Lemma forged_not_authentic : ~ authentic toy_server forged.
Proof.
  intros (inner & pid & ts & Hp & Ht & Hw).
  pose proof (@env_unwrap_wrap _ _ TlsAuth.tls_auth_laws _ _ _ _ _ Hp Ht Hw) as Hu.
  vm_compute in Hu. discriminate Hu.
Qed.

Lemma unauthenticated_control_inert_witness :
  dispatch toy_server toy_env client (Udp client) forged toy_joined = (Ok tt, toy_joined).
Proof.
  apply (unauthenticated_control_inert toy_server toy_env client (Udp client) forged 0x38
    Protocol.ControlHardResetClientV2 toy_joined);
    [apply bytes_ok_dec_true; vm_compute; reflexivity|reflexivity|reflexivity|reflexivity|apply forged_not_authentic].
Defined.

Lemma toy_ctx_ok : ctx_ok toy_server (toy_session, toy_running).
Proof. split; [apply toy_session_ok|apply initial_ok, toy_initial]. Qed.

Definition toy_control : Protocol.ControlPacket :=
  Protocol.MkControlPacket Protocol.ControlV1 3 0x1122334455667788 [] None (Some 7) [22; 3; 1].

Lemma toy_control_ok : Protocol.packet_ok toy_control.
Proof. split; simpl; try done; try lia. by intros ? [= <-]. Qed.

Lemma sent_control_readable_witness :
  exists r s' sh', send_and_track toy_server toy_env toy_control (toy_session, toy_running) = (r, (s', sh')) /\
  match r with
  | Ok _ => exists wire, peer_read toy_server wire = Ok toy_control
  | _ => unacked s' = unacked toy_session
  end.
Proof.
  destruct (send_and_track toy_server toy_env toy_control (toy_session, toy_running)) as [r [s' sh']] eqn:E.
  exists r, s', sh'. split; [reflexivity|].
  pose proof (sent_control_readable toy_server toy_env toy_control 7 toy_session toy_running r s' sh'
    toy_ctx_ok toy_control_ok eq_refl E) as H.
  destruct r; [destruct H as (wire & H & _); exists wire; exact H|apply H..].
Defined.

Definition toy_flushed := send_chunks toy_server toy_env 3 (replicate 2500 7) (toy_session, toy_running).

Lemma tls_stream_delivered_witness :
  exists pkts, concat (Protocol.payload <$> pkts) = replicate 2500 7 /\
    Forall (fun p => Protocol.op p = Protocol.ControlV1 /\ (0 < length (Protocol.payload p) <= 1100)%nat) pkts.
Proof.
  destruct (tls_stream_delivered toy_server toy_env 3 (replicate 2500 7) toy_session toy_running
    toy_flushed.2.1 toy_flushed.2.2 toy_ctx_ok) as (wires & pkts & _ & _ & H1 & H2 & _);
    [done|simpl; lia|vm_compute; reflexivity|].
  exists pkts. split; [exact H1|exact H2].
Defined.

(** A data packet of the client. *)
Definition from_client (pid : Z) (pt : bytes) : bytes :=
  let header := Protocol.data_header 3 5 pid in
  match Crypto.seal (Crypto.mirror toy_cipher) pid header pt with Ok ct => header ++ ct | _ => [] end.

(** A fresh packet, its replay, a forged one, and one out of order. *)
Definition inbound : list bytes := [from_client 9 [69; 1]; from_client 9 [69; 1]; 0x48 :: replicate 40 3; from_client 2 [69; 2]].

Lemma inbound_data_authentic_once_witness :
  exists acc s', open_all (replicate 4 toy_env) inbound toy_session = (Ok acc, s') /\
    acc = [(3, 9, [69; 1]); (3, 2, [69; 2])] /\ NoDup acc.*1.
Proof.
  destruct (inbound_data_authentic_once (replicate 4 toy_env) inbound toy_session) as (acc & s' & E & H & _);
    [apply toy_session_ok|do 4 (apply List.Forall_cons; [apply bytes_ok_dec_true; vm_compute; reflexivity|]); apply List.Forall_nil|].
  exists acc, s'. split; [exact E|]. split; [vm_compute in E; injection E as <- _; reflexivity|exact H].
Defined.

(** A running server with one established client. *)
Definition toy_routed : Shared :=
  set_routes {[0x0A080002 := client]} (set_peers {[5 := client]} (set_sessions {[client := 0%nat]}
    (set_arcs {[0%nat := toy_session]} (set_next_ref 1 toy_running)))).

Lemma toy_routed_ok : shared_ok toy_server toy_routed.
Proof.
  constructor; cbn; try done.
  - intros addr arc [_ <-]%lookup_singleton_Some. rewrite lookup_singleton_eq. by eexists.
  - apply map_Forall_singleton, toy_session_ok.
  - intros arc [s [<- _]%lookup_singleton_Some]. lia.
Qed.

(** An IPv4 packet to 10.8.0.2. *)
Definition ip_packet : bytes := 0x45 :: replicate 15 0 ++ [10; 8; 0; 2].

Lemma tun_packet_forwarded_witness :
  exists r sh', forward_tun_to_client ip_packet toy_routed = (r, sh') /\ r = Ok tt /\
    exists wire w', peer_receive (Crypto.mirror toy_cipher) Replay.new wire = Ok (ip_packet, w').
Proof.
  destruct (tun_packet_forwarded toy_server ip_packet toy_routed client 0%nat toy_session
    (MkKeySlot 3 toy_cipher 1 Replay.new) Replay.new toy_routed_ok) as (r & sh' & E & H);
    [vm_compute; reflexivity|vm_compute; reflexivity|vm_compute; reflexivity|reflexivity|done|done|].
  exists r, sh'. split; [exact E|]. assert (r = Ok tt) as -> by (vm_compute in E; congruence).
  split; [reflexivity|]. destruct H as (wire & w' & _ & H). exists wire, w'. exact H.
Defined.

Lemma tcp_framing_roundtrip_witness :
  deframe (concat (frame <$> [[1; 2; 3]; [4]]) ++ take 4 (frame [5; 6; 7])) = [[1; 2; 3]; [4]].
Proof.
  apply (tcp_framing_roundtrip [[1; 2; 3]; [4]] [5; 6; 7] 4%nat); [repeat constructor; done|vm_compute; lia].
Defined.

Definition late : Env := MkEnv (500 * SECOND) (fun _ => None) [] [] [].
(** A second client, which has been heard of just now. *)
Definition other : SocketAddr := SockV4 0xC0A80106 50000.
Definition two_clients : Shared :=
  set_routes {[0x0A080002 := client; 0x0A080003 := other]} (set_peers {[5 := client; 6 := other]}
    (set_sessions {[client := 0%nat; other := 1%nat]} (set_arcs {[0%nat := toy_session; 1%nat := set_last_seen (499 * SECOND) toy_session]}
      (set_next_ref 2 toy_running)))).
Lemma two_clients_ok : shared_ok toy_server two_clients.
Proof.
  constructor; cbn; try done.
  - intros addr arc [[_ <-]|[_ [_ <-]%lookup_singleton_Some]]%lookup_insert_Some; by eexists.
  - apply map_Forall_insert_2; [apply toy_session_ok|]. apply map_Forall_singleton. destruct toy_session_ok. by constructor.
  - intros arc [s [[<- _]|[_ [<- _]%lookup_singleton_Some]]%lookup_insert_Some]; lia.
Qed.

Lemma reaper_exact_witness :
  exists sh', reaper_tick toy_server late two_clients = (Ok tt, sh') /\
    sessions sh' !! client = None /\ sessions sh' !! other = Some 1%nat /\ peers sh' !! 6 = Some other.
Proof.
  destruct (reaper_exact toy_server late two_clients two_clients_ok) as (sh' & E & [H1 _ _ H4 _ _]). exists sh'. split; [exact E|].
  assert (forall a s, idle_at toy_server late two_clients a s -> a = client /\ s = toy_session) as Hidle.
  { intros a s (arc & Ha & Hs & Hi). cbn in Ha. apply lookup_insert_Some in Ha as [[<- <-]|[_ [<- <-]%lookup_singleton_Some]].
    - split; [reflexivity|]. vm_compute in Hs. injection Hs as <-. vm_compute. reflexivity.
    - exfalso. vm_compute in Hs. injection Hs as <-. vm_compute in Hi. apply Hi. reflexivity. }
  split; [|split].
  - apply eq_None_not_Some. intros [arc Ha]. apply H1 in Ha as [_ Hn]. apply Hn. exists toy_session, 0%nat.
    split; [reflexivity|]. split; [reflexivity|]. vm_compute. discriminate.
  - apply H1. split; [reflexivity|]. intros [s Hs]. apply Hidle in Hs as [Ho _]. discriminate Ho.
  - apply H4. split; [reflexivity|]. intros (s & [a Hs] & Hp). apply Hidle in Hs as [_ ->]. discriminate Hp.
Defined.

Lemma pool_hands_out_once_witness :
  exists sh' ips, allocate_many toy_server 5 toy_running = (Ok ips, sh') /\ NoDup ips /\
    allocate_ip toy_server sh' = (Err PoolExhausted, sh').
Proof.
  destruct (pool_hands_out_once toy_server toy_running 5) as (sh' & ips & E & Hn & _ & _ & He); [done|done|done|].
  exists sh', ips. split; [exact E|]. split; [exact Hn|exact He].
Defined.

Lemma cidr_to_route_exact_witness :
  cidr_to_route (str "10.0.0.0" ++ str "/" ++ Utf8.show 8) = Some (str "10.0.0.0", str "255.0.0.0").
Proof.
  destruct (cidr_to_route_exact (str "10.0.0.0")) as (_ & H & _ & _); [vm_compute; set_solver|].
  rewrite (H 8) by lia. vm_compute. reflexivity.
Defined.

(** The client asks for its configuration. *)
Definition toy_pending : Session := set_state PushPending toy_session.
Definition toy_pushed := handle_push_request toy_server client (toy_pending, toy_running).

Lemma push_request_address_witness :
  toy_pushed.1 = Ok tt /\
  exists ip, assigned_ip toy_pushed.2.1 = Some (V4 ip) /\ routes toy_pushed.2.2 = <[ip := client]> (routes toy_running).
Proof.
  split; [vm_compute; reflexivity|].
  pose proof (push_request_address toy_server client toy_pending toy_running (Ok tt) toy_pushed.2.1 toy_pushed.2.2) as H.
  destruct H as (ip & H1 & _ & H2 & _); [vm_compute; reflexivity|]. exists ip. split; [exact H1|exact H2].
Defined.

(** ** A client connects *)

Definition client_km : ControlChannel.ClientKeyMethod2 :=
  ControlChannel.MkClientKeyMethod2 (replicate 48 0xAB) (replicate 32 0xCD) (replicate 32 0xEF)
    (str "V4,proto UDPv4,key-method 2,tls-client") [] [] (str "IV_VER=2.6.0").

(** Control packet [n] of a client at [addr], wrapped with its side of the key. *)
Definition control (n : Z) (payload : bytes) : bytes :=
  let pkt := Protocol.MkControlPacket Protocol.ControlV1 0 0x0909090909090909 [] None (Some n) payload in
  match TlsAuth.wrap (TlsAuth.mirror toy_key) (Protocol.encode pkt) (n + 1) 1700000000 with Ok w => w | _ => [] end.

(** Its TLS flight, its key material and its request, in one packet. *)
Definition request : bytes :=
  control 1 (22 :: ControlChannel.client_wire client_km ++ str "PUSH_REQUEST" ++ [0]).
Definition ev_request : event := EvPacket toy_env client (Udp client) request.

Lemma ev_request_ok : event_ok ev_request.
Proof. split; [apply toy_env_ok|]. apply bytes_ok_dec_true. vm_compute. reflexivity. Qed.

Definition toy_up : Shared := (handle toy_server ev_request toy_joined).2.
Definition up_session : Session := match arcs toy_up !! 0%nat with Some s => s | None => toy_new end.

Lemma toy_comes_up : rtc (step toy_server) toy_running toy_up.
Proof.
  eapply rtc_r; [apply toy_joins|].
  apply (Step toy_server ev_request toy_joined (handle toy_server ev_request toy_joined).1);
    [apply ev_request_ok|apply surjective_pairing].
Qed.

Lemma toy_config_ok : Addressing.config_ok toy_server toy_running.
Proof.
  by split; [split|].
Qed.

Lemma tunnel_addresses_unique_witness :
  Addressing.current toy_up client up_session /\ state up_session = Established /\
  routes toy_up !! 0x0A080002 = Some client /\
  forall a s, Addressing.current toy_up a s -> assigned_ip s = Some (V4 0x0A080002) -> a = client.
Proof.
  assert (Addressing.current toy_up client up_session) as Hcur.
  { exists 0%nat. split; vm_compute; reflexivity. }
  split; [exact Hcur|]. split; [vm_compute; reflexivity|].
  destruct (Addressing.tunnel_addresses_unique toy_server toy_running toy_up client up_session toy_initial
    toy_config_ok toy_comes_up Hcur) as [H _].
  apply H; [vm_compute; reflexivity|]. intros [(cn & c & E & _) _]. discriminate E.
Defined.

(** The request is a grant of 10.8.0.2 to the client. *)
Lemma server_refines_leases_witness :
  exists act l l', Addressing.lease_step (Addressing.contested toy_server 0x0A080002) act l l' /\
    Addressing.causes ev_request act /\ Addressing.owner l !! V4 0x0A080002 = None /\
    Addressing.owner l' !! V4 0x0A080002 = Some client.
Proof.
  destruct (Addressing.server_refines_leases toy_server toy_running toy_joined ev_request
    (handle toy_server ev_request toy_joined).1 toy_up toy_initial toy_config_ok toy_joins ev_request_ok)
    as (act & Hc & Hs); [apply surjective_pairing|].
  exists act, (Addressing.leases toy_joined), (Addressing.leases toy_up). split; [exact Hs|]. split; [exact Hc|].
  split; vm_compute; reflexivity.
Defined.

(** Its key, and a data packet sealed with the client's side of it. *)
Definition up_key : KeySlot :=
  match active_slot up_session with Ok (Some k) => k | _ => MkKeySlot 0 toy_cipher 1 Replay.new end.
Definition up_header : bytes := Protocol.data_header 0 1 1.
Definition up_ct : bytes :=
  match Crypto.seal (Crypto.mirror (ks_cipher up_key)) 1 up_header ip_packet with Ok ct => ct | _ => [] end.
Definition ev_data : event := EvPacket toy_env client (Udp client) (up_header ++ up_ct).

Lemma toy_up_ok : shared_ok toy_server toy_up.
Proof. apply (steps_ok toy_server toy_running); [apply initial_ok, toy_initial|apply toy_comes_up]. Qed.

Lemma client_packet_reaches_tun_witness :
  exists sh1 sh2 sh3,
    handle toy_server ev_data toy_up = (Ok tt, sh1) /\ handle toy_server (EvWorker toy_env 1) sh1 = (Ok tt, sh2) /\
    handle toy_server (EvTunWriter true) sh2 = (Ok tt, sh3) /\ tun_written sh3 = [ip_packet].
Proof.
  destruct (Isolation.client_packet_reaches_tun toy_server toy_env toy_env client (Udp client) toy_up 1%nat 0%nat
    up_session 0%nat up_key 1 ip_packet up_ct toy_up_ok) as (sh1 & sh2 & sh3 & H1 & H2 & H3 & H4 & _);
    [vm_compute; reflexivity..|done|vm_compute; reflexivity|vm_compute; reflexivity|discriminate
    |vm_compute; reflexivity|vm_compute; reflexivity|].
  exists sh1, sh2, sh3. split; [exact H1|]. split; [exact H2|]. split; [exact H3|exact H4].
Defined.

Lemma ev_data_ok : event_ok ev_data.
Proof. split; [apply toy_env_ok|]. apply bytes_ok_dec_true. vm_compute. reflexivity. Qed.

Definition toy_waiting : Shared := (handle toy_server ev_data toy_up).2.
Lemma toy_waits : rtc (step toy_server) toy_running toy_waiting.
Proof.
  eapply rtc_r; [apply toy_comes_up|].
  apply (Step toy_server ev_data toy_up (handle toy_server ev_data toy_up).1);
    [apply ev_data_ok|apply surjective_pairing].
Qed.

Lemma tun_input_authentic_witness :
  exists r sh' s pt, handle toy_server (EvWorker toy_env 1) toy_waiting = (r, sh') /\
    Isolation.forwards (EvWorker toy_env 1) toy_waiting sh' s pt.
Proof.
  destruct (handle toy_server (EvWorker toy_env 1) toy_waiting) as [r sh'] eqn:E.
  destruct (Isolation.tun_input_authentic toy_server toy_running toy_waiting (EvWorker toy_env 1) r sh' toy_initial
    toy_waits I E) as [[k Hk]|(s & pt & Hf)].
  - exfalso. assert (length (tun_queue (handle toy_server (EvWorker toy_env 1) toy_waiting).2) = 1%nat) as Hl
      by (vm_compute; reflexivity).
    assert (tun_queue toy_waiting = []) as Hq by (vm_compute; reflexivity).
    rewrite E in Hl. cbn [snd] in Hl. rewrite Hk, Hq, drop_nil in Hl. discriminate Hl.
  - exists r, sh', s, pt. split; [reflexivity|exact Hf].
Defined.

Lemma data_demultiplexed_witness :
  exists sh', dispatch toy_server toy_env client (Udp client) (up_header ++ up_ct) toy_up = (Ok tt, sh') /\
    exists w wk s, workers toy_up !! w = Some wk /\ arcs toy_up !! w_arc wk = Some s /\
      Isolation.names s (up_header ++ up_ct).
Proof.
  destruct (Isolation.data_demultiplexed toy_server toy_running toy_up toy_env client (Udp client) (up_header ++ up_ct)
    Protocol.DataV2 toy_initial toy_comes_up) as [_ (sh' & E & [-> |(w & wk & s & a & H1 & H2 & H3 & _)])];
    [vm_compute; reflexivity|reflexivity|apply ev_data_ok| |].
  - exfalso. assert (Forall (fun wk => w_inbox wk <> []) (map_to_list (workers (dispatch toy_server toy_env client
      (Udp client) (up_header ++ up_ct) toy_up).2)).*2) as Hl by (vm_compute; repeat constructor; discriminate).
    rewrite E in Hl. vm_compute in Hl. inversion Hl as [|? ? Hn]. apply Hn. reflexivity.
  - exists sh'. split; [exact E|]. exists w, wk, s. split; [exact H1|]. split; [exact H2|exact H3].
Defined.

(** The client's first packet, captured and sent again once it is connected. *)
Lemma control_replay_inert_witness :
  exists t, handle toy_server ev_hello toy_up =
    (Ok tt, set_arcs (<[0%nat := set_last_seen t up_session]> (arcs toy_up)) toy_up).
Proof.
  destruct (ControlRuns.control_replay_inert toy_server toy_running toy_running toy_env client (Udp client) hello
    (Some hard_reset) 1 (handle toy_server ev_hello toy_running).1 toy_joined 0%nat toy_up up_session toy_env (Udp client)
    toy_initial (rtc_refl _ _) ev_hello_ok) as (t & _ & E).
  - vm_compute. reflexivity.
  - vm_compute. reflexivity.
  - apply surjective_pairing.
  - vm_compute. reflexivity.
  - apply rtc_once. apply (Step toy_server ev_request toy_joined (handle toy_server ev_request toy_joined).1);
      [apply ev_request_ok|apply surjective_pairing].
  - vm_compute. reflexivity.
  - vm_compute. reflexivity.
  - exists t. exact E.
Defined.

Lemma client_km_ok : ControlChannel.km2_ok client_km.
Proof. split; [done..|]. repeat (constructor; [split; vm_compute; reflexivity|]). constructor. Qed.

(** ** Keys *)

(** A session that has finished its TLS handshake and holds the client's keys. *)
Definition toy_exchanging : Session :=
  set_state KeyExchange (set_tls (Tls.MkTlsSession (T := Tls.toy_tls) (Tls.ToyConn [] [] [] false)
    (ControlChannel.client_wire client_km ++ str "PUSH_REQUEST")) toy_new).

Lemma toy_exchanging_ok : ctx_ok toy_server (toy_exchanging, toy_running).
Proof.
  split; [|apply initial_ok, toy_initial]. apply set_state_ok; [apply set_tls_ok, toy_new_ok|done|done].
Qed.

Lemma key_exchange_agrees_witness :
  exists c s', ControlRuns.client_key client_km (server_km2 toy_server (replicate 32 6) (replicate 32 7)) 0
      0x1122334455667788 = Ok c /\
    drive_key_exchange toy_server (toy_exchanging, toy_running) = (Ok true, (s', toy_running)) /\
    active_slot s' = Ok (Some (MkKeySlot 0 (Crypto.mirror c) 1 Replay.new)).
Proof.
  destruct (ControlRuns.key_exchange_agrees toy_server toy_exchanging toy_running client_km (str "PUSH_REQUEST")
    toy_exchanging_ok) as (c & s' & H1 & H2 & H3 & _);
    [reflexivity|reflexivity|reflexivity|reflexivity|apply client_km_ok|reflexivity|].
  exists c, s'. split; [exact H1|]. split; [exact H2|exact H3].
Defined.

(** An established session in the middle of a rekey to key id 4. *)
Definition toy_rekeying : Session :=
  (start_rekey 4 (Tls.MkTlsSession (T := Tls.toy_tls) (Tls.ToyConn [] [] [] true) []) (replicate 32 8) (replicate 32 9) toy_session).2.
Definition rekey_flight : Protocol.ControlPacket :=
  Protocol.MkControlPacket Protocol.ControlV1 4 0 [] None (Some 9) (22 :: ControlChannel.client_wire client_km).

Lemma toy_rekeying_ok : ctx_ok toy_server (toy_rekeying, toy_running).
Proof.
  split; [|apply initial_ok, toy_initial]. apply start_rekey_safe; [lia|]. apply toy_session_ok.
Qed.

Lemma rekey_completes_witness :
  exists r s' sh', handle_rekey_control toy_server toy_env rekey_flight (toy_rekeying, toy_running) = (r, (s', sh')) /\
    slot_by_key_id 3 s' = Some (0%nat, MkKeySlot 3 toy_cipher 1 Replay.new).
Proof.
  destruct (ControlRuns.rekey_completes toy_server toy_env rekey_flight toy_rekeying toy_running
    (MkRekeyTrack 4 (Tls.MkTlsSession (T := Tls.toy_tls) (Tls.ToyConn [] [] [] true) []) RkHandshaking (replicate 32 8) (replicate 32 9) false)
    (MkKeySlot 3 toy_cipher 1 Replay.new) client_km
    (Tls.MkTlsSession (T := Tls.toy_tls) (Tls.ToyConn [] [] [22] false) (ControlChannel.client_wire client_km)) [] toy_rekeying_ok)
    as (c & r & s' & sh' & _ & H1 & _ & H2 & _);
    [reflexivity|reflexivity|done|reflexivity|reflexivity|apply client_km_ok|vm_compute; reflexivity|reflexivity
    |vm_compute; reflexivity|].
  exists r, s', sh'. split; [exact H1|exact H2].
Defined.

(** The configuration the client is sent. *)
Lemma push_reply_readable_witness :
  exists msg, ControlChannel.try_pop_ascii (build_push_reply toy_cfg 0x0A080002 None 1 [str "192.168.7.0/24"]) =
      ControlChannel.Ready msg 227 /\
    PushReply.client_ifconfig (PushReply.split_on 44 msg) = Some (0x0A080002, 0xFFFFFF00) /\
    PushReply.client_peer_id (PushReply.split_on 44 msg) = Some 1 /\
    str "route 192.168.7.0 255.255.255.0" ∈ PushReply.split_on 44 msg.
Proof.
  destruct (PushReply.push_reply_readable toy_cfg 0x0A080002 None 1 [str "192.168.7.0/24"]) as (msg & H1 & H2 & H3 & H4 & _);
    [|done..|].
  - split; [repeat (constructor; [apply PushReply.clean_eval; vm_compute; reflexivity|]); constructor|constructor|done].
  - exists msg. split; [etrans; [exact H1|f_equal; vm_compute; reflexivity]|]. rewrite H2. split; [exact H3|]. split; [exact H4|].
    apply list_elem_of_In. vm_compute. tauto.
Defined.

(** ** Start to end, with NAT *)

Definition nat_raw : Config.RawConfig :=
  let r := toy_raw in
  Config.MkRawConfig (Config.raw_listen r) (Config.raw_ca r) (Config.raw_cert r) (Config.raw_key r)
    (Config.raw_tun_ip r) (Config.raw_tun_netmask r) (Config.raw_client_pool_start r) (Config.raw_client_pool_end r)
    None None None None None None None None None None None None None (Some (str "ta.key")) None None
    (Some true) (Some (str "eth0")) None None.
Definition nat_cfg : Config.ServerConfig := Config.with_defaults false nat_raw.
Definition toy_toml : Config.TomlApi := {| Config.toml_table _ := Some nat_raw |}.
Definition toy_files : bytes -> option bytes := fun _ => Some (StaticKey.build_pem (rows key_bytes)).
Definition clean_host : Masquerade.toy_host := Masquerade.ToyHost [] (str "0") None.

Lemma toy_toml_laws : Config.TomlLaws toy_toml.
Proof. split. intros text r [= <-]. done. Qed.

Lemma startup_exact_witness :
  exists self sh g h1,
    Server.new (P := Certs.toy_pem) (TC := Certs.toy_tls_config) nat_cfg true toy_files toy_net clean_host
      = (Ok (self, sh, Some g), h1) /\ is_Some (tls_auth self) /\ tls_crypt self = None /\ Masquerade.cidr g = str "10.8.0.0/24" /\ next_pool_ip sh = 0x0A080002.
Proof.
  eexists _, _, _, _. split; [vm_compute; reflexivity|].
  pose proof (fun self sh g => Main.startup_exact (HL := Masquerade.toy_nat_laws) (HXL := StaticKey.list_hex_laws)
    (P := Certs.toy_pem) (TC := Certs.toy_tls_config) nat_cfg true toy_files toy_net clean_host (Ok (self, sh, g))) as H.
  edestruct H as (_ & _ & _ & _ & Ha & _).
  - vm_compute. reflexivity.
  - split; [apply Ha; split; [reflexivity|by eexists]|]. split; [reflexivity|]. split; reflexivity.
Defined.

(** A stale rule of an earlier run, one of somebody else, and forwarding off. *)
Definition stale_rule : rule := Masquerade.r_forward (str "javs0") (str "eth0").
Definition other_rule : rule := (str "filter", str "INPUT", [str "-j"; str "ACCEPT"]).
Definition used_host : Masquerade.toy_host := Masquerade.ToyHost [stale_rule; other_rule] (str "0") None.

Lemma toy_deletes_work : Masquerade.deletes_work (H := Masquerade.toy_nat).
Proof.
  intros h r Hr. change (rules h) with (Masquerade.th_rules h) in Hr. cbn -[ipt_args str]. unfold Masquerade.toy_iptables.
  rewrite Masquerade.toy_rule_args by done. rewrite (bool_decide_eq_false_2 (str "-D" = str "-A")) by done.
  rewrite (bool_decide_eq_true_2 (str "-D" = str "-D")) by done. by rewrite bool_decide_eq_true_2.
Qed.

Lemma main_restores_host_witness :
  exists r h', Main.main (TA := TunDev.toy_tun) (P := Certs.toy_pem) (TC := Certs.toy_tls_config) (TM := toy_toml)
      (Main.MkArgs (str "server.toml") None) toy_files true true toy_net [ev_hello] toy_env used_host = (r, h') /\ returns r /\
    Masquerade.th_rules h' ≡ₚ [other_rule] /\ Masquerade.read_ip_forward (H := Masquerade.toy_nat) h' = Ok false.
Proof.
  destruct (Main.main_restores_host (TA := TunDev.toy_tun) (P := Certs.toy_pem) (TC := Certs.toy_tls_config)
    (TM := toy_toml) (HL := Masquerade.toy_nat_laws) (HXL := StaticKey.list_hex_laws) (TUL := TunDev.toy_tun_laws)
    (TML := toy_toml_laws) (Main.MkArgs (str "server.toml") None) toy_files true true toy_net [ev_hello] toy_env
    used_host) as (r & h' & E & Hr & Hm).
  - apply Forall_singleton. exact ev_hello_ok.
  - exists r, h'. split; [exact E|]. split; [exact Hr|].
    assert (Config.load (H := toy_toml) false (toy_files (str "server.toml")) = Ok nat_cfg) as El by (vm_compute; reflexivity).
    cbn [Main.config] in Hm. rewrite El in Hm.
    destruct (Server.new (HA := Masquerade.toy_nat) (P := Certs.toy_pem) (TC := Certs.toy_tls_config) nat_cfg true toy_files toy_net used_host) as [rn hn] eqn:En.
    assert (rn = (Server.new (HA := Masquerade.toy_nat) (P := Certs.toy_pem) (TC := Certs.toy_tls_config) nat_cfg true toy_files toy_net used_host).1) as Er
      by (rewrite En; reflexivity).
    vm_compute in Er. subst rn. destruct Hm as [_ H1 _ H2]. split.
    + etrans; [apply H1, toy_deletes_work|]. vm_compute. reflexivity.
    + apply H2; [intros h t; reflexivity|vm_compute; reflexivity].
Defined.

End Scenario.
