(* ===== verification/Races.v ===== *)
(** * Two races (src/src/server.rs)

    What the handlers do not make atomic: the check of a static address and its
    insertion into the routes, and the reaper's look at a session and its
    eviction.  Concrete schedules, from start-up, of a server whose
    configuration pins a client to an address, run by evaluation; and schedules
    on which the theorems about all interleavings are evaluated. *)

From S2P Require Import Prelude Replay Buf Protocol Utf8 ControlChannel Primitives Crypto Prf.
From S2P Require Import Envelope TlsAuth TlsCrypt Text StaticKey Tls Certs Transport Config Masquerade.
From S2P Require Import Session SessionInv Server ServerInv System Tasks Addressing Interleaving Concurrency Isolation Provenance Scenario.

Module Races.
Import Transport Session SessionInv Server ServerInv System Tasks Interleaving Scenario.

#[local] Existing Instance toy_crypto.
#[local] Existing Instance toy_crypto_laws.
#[local] Existing Instance Tls.toy_tls.
#[local] Existing Instance Tls.toy_tls_laws.

(** A schedule: a task begins with an event, takes one action, or goes on until
    its handler has ended. *)
Inductive move := Begin (t : slot) (ev : event) | Act (t : slot) | Finish (t : slot).

Fixpoint finish (fuel : nat) (t : slot) (c : config) : config :=
  match fuel with
  | O => c
  | S fuel' =>
    match advance t c with
    | Some c' => match tasks c' !! t with None => c' | Some _ => finish fuel' t c' end
    | None => c
    end
  end.
Fixpoint play (self : VpnServer) (ms : list move) (c : config) : option config :=
  match ms with
  | [] => Some c
  | Begin t ev :: rest =>
    match tasks c !! t with
    | None => if runs t ev then play self rest (begin_ self t ev c) else None
    | Some _ => None
    end
  | Act t :: rest => match advance t c with Some c' => play self rest c' | None => None end
  | Finish t :: rest => play self rest (finish 100 t c)
  end.

Definition move_ok (m : move) : Prop := match m with Begin _ ev => event_ok ev | _ => True end.
Lemma finish_steps self fuel t c : rtc (cstep self) c (finish fuel t c).
Proof.
  revert c. induction fuel as [|fuel IH]; intros c; cbn; [reflexivity|]. destruct (advance t c) as [c'|] eqn:E; [|reflexivity].
  eapply rtc_l; [by eapply CAct|]. destruct (tasks c' !! t); [apply IH|reflexivity].
Qed.
Lemma play_steps self ms c c' : Forall move_ok ms -> play self ms c = Some c' -> rtc (cstep self) c c'.
Proof.
  intros Hok. revert c. induction Hok as [|m ms Hm _ IH]; intros c; cbn [play]; [by intros [= <-]|]. destruct m as [t ev|t|t].
  - destruct (tasks c !! t) eqn:Et; [done|]. destruct (runs t ev) eqn:Er; [|done]. intros H.
    eapply rtc_l; [by apply (CBegin self t ev c Et Er Hm)|by apply IH].
  - destruct (advance t c) as [c1|] eqn:E; [|done]. intros H. eapply rtc_l; [by eapply CAct|exact (IH _ H)].
  - intros H. etrans; [apply (finish_steps self 100 t)|exact (IH _ H)].
Qed.

(** 10.8.0.100 belongs to the client with the common name alice. *)
Definition static_raw : Config.RawConfig := {|
  Config.raw_listen := SockV4 0 1194; Config.raw_ca := str "ca.pem"; Config.raw_cert := str "cert.pem";
  Config.raw_key := str "key.pem"; Config.raw_tun_ip := V4 0x0A080001; Config.raw_tun_netmask := V4 0xFFFFFF00;
  Config.raw_client_pool_start := V4 0x0A080002; Config.raw_client_pool_end := V4 0x0A080006;
  Config.raw_listen_tcp := Some (SockV4 0 1194); Config.raw_tun_name := None; Config.raw_cipher := None;
  Config.raw_tun_mtu := None; Config.raw_push_routes := None; Config.raw_push_dns := None;
  Config.raw_tun_ip6 := None; Config.raw_tun_prefix6 := None; Config.raw_client_pool_start_v6 := None;
  Config.raw_client_pool_end_v6 := None; Config.raw_push_routes_v6 := None; Config.raw_keepalive_ping := None;
  Config.raw_keepalive_timeout := None; Config.raw_tls_auth_key := Some (str "ta.key");
  Config.raw_tls_auth_key_direction := None; Config.raw_tls_crypt_key := None; Config.raw_enable_nat := None;
  Config.raw_wan_iface := None; Config.raw_reneg_sec := None;
  Config.raw_client_configs := Some {[ str "alice" := Config.MkClientConfig (Some (V4 0x0A080064)) [] ]} |}.
Definition static_cfg : Config.ServerConfig := Config.with_defaults false static_raw.
Definition static_server : VpnServer := MkVpnServer static_cfg true 0x0A080006 None None (Some toy_key).

Lemma static_initial : initial static_server toy_running.
Proof.
  exists Masquerade.toy_nat, Certs.toy_pem, Certs.toy_tls_config, StaticKey.list_hex, static_cfg, true,
    (fun _ => Some (StaticKey.build_pem (rows key_bytes))), toy_net, (Masquerade.ToyHost [] (str "1") None),
    None, (Masquerade.ToyHost [] (str "1") None), toy_start.
  split; [vm_compute; reflexivity|]. split; [reflexivity|done].
Qed.

Definition laptop : SocketAddr := SockV4 0xC0A80105 40000.
Definition phone : SocketAddr := SockV4 0xC0A80106 50000.
Definition address : Z := 0x0A080064.

(** Both connect as alice, one over UDP and one over TCP.  Each task checks that
    the address is free before the other has taken it. *)
Definition both_ask : list move :=
  [ Begin TcpListener EvTcpAccept; Finish TcpListener;
    Begin UdpLoop (EvPacket toy_env laptop (Udp laptop) hello); Finish UdpLoop;
    Begin (TcpReader 0) (EvPacket toy_env phone (Tcp 0) hello); Finish (TcpReader 0);
    Begin UdpLoop (EvPacket toy_env laptop (Udp laptop) request);
    Begin (TcpReader 0) (EvPacket toy_env phone (Tcp 0) request);
    Act UdpLoop; Act UdpLoop; Act UdpLoop;
    Act (TcpReader 0); Act (TcpReader 0); Act (TcpReader 0);
    Finish UdpLoop; Finish (TcpReader 0) ].

Definition events_ok (ms : list move) : bool :=
  forallb (fun m => match m with
    | Begin _ (EvPacket env _ _ pkt) =>
      (length (rnd_sid env) =? 8)%nat && forallb (fun b => (0 <=? b) && (b <? 256)) (rnd_sid env ++ pkt)
    | Begin _ (EvTunRead _) => false
    | _ => true
    end) ms.
Lemma events_ok_moves ms : events_ok ms = true -> Forall move_ok ms.
Proof.
  intros H. apply Forall_forall. intros m Hm. unfold events_ok in H. rewrite forallb_forall in H.
  specialize (H m (proj1 (list_elem_of_In _ _) Hm)). destruct m as [t [env a tr pkt| | | | | | | | | | |]|t|t]; try done.
  apply andb_true_iff in H as [Hl Hb]. apply bytes_ok_dec_true, Forall_app in Hb as [Hs Hp].
  split; [|done]. split; [by apply Nat.eqb_eq|done].
Qed.

Definition session_at (addr : SocketAddr) (c : config) : option Session :=
  match sessions (shared c) !! addr with Some arc => arcs (shared c) !! arc | None => None end.

(** What a schedule leaves behind. *)
Record view := MkView {
  v_busy : nat;                                                           (* tasks in flight *)
  v_laptop : option (State * option IpAddr * option bytes);
  v_phone : option (State * option IpAddr * option bytes);
  v_route : option SocketAddr;                                            (* of the static address *)
}.
Definition look (s : Session) : State * option IpAddr * option bytes := (state s, assigned_ip s, client_cn s).
Definition observe (c : config) : view :=
  MkView (size (tasks c)) (look <$> session_at laptop c) (look <$> session_at phone c) (routes (shared c) !! address).
Definition outcome (ms : list move) : option view := observe <$> play static_server ms (idle toy_running).

Lemma outcome_reachable ms v :
  events_ok ms = true -> outcome ms = Some v ->
  exists c, rtc (cstep static_server) (idle toy_running) c /\ observe c = v /\ (v_busy v = 0%nat -> tasks c = ∅).
Proof.
  intros He Hp. apply fmap_Some in Hp as (c & Hc & ->). exists c. split; [|split; [done|]].
  - apply (play_steps static_server ms); [by apply events_ok_moves|done].
  - apply map_size_empty_inv.
Qed.

(** C35: a static address can be given out twice.  The check that it is free and the
    insertion of its route are separate steps: from start-up, with both clients'
    handlers in flight, both find the address free; both sessions end up
    established with it, every task is done, and the route of the address leads
    to the client that came second. *)
Theorem static_address_race :
  exists c s1 s2, rtc (cstep static_server) (idle toy_running) c /\ tasks c = ∅ /\
    session_at laptop c = Some s1 /\ session_at phone c = Some s2 /\
    state s1 = Established /\ state s2 = Established /\
    assigned_ip s1 = Some (V4 address) /\ assigned_ip s2 = Some (V4 address) /\
    routes (shared c) !! address = Some phone.
Proof.
  destruct (outcome_reachable both_ask (MkView 0 (Some (Established, Some (V4 address), Some (str "alice")))
    (Some (Established, Some (V4 address), Some (str "alice"))) (Some phone))) as (c & Hc & Ev & Hb);
    [vm_compute; reflexivity..|].
  injection Ev as _ H1 H2 H3. apply fmap_Some in H1 as (s1 & E1 & [= F1 F2 _]), H2 as (s2 & E2 & [= G1 G2 _]).
  exists c, s1, s2. split_and!; auto.
Qed.

(** The reaper reads an idle session that has no address yet; before it evicts
    it, the session's client gets its address.  Later alice connects again. *)
Definition late_env : Env :=
  MkEnv (500 * SECOND) (fun _ => Some 1700000000) (replicate 8 1) (replicate 32 2) (replicate 32 3).
Definition evicted_late : list move :=
  [ Begin UdpLoop (EvPacket toy_env laptop (Udp laptop) hello); Finish UdpLoop;
    Begin Reaper (EvReap late_env laptop); Act Reaper; Act Reaper; Act Reaper;
    Begin UdpLoop (EvPacket late_env laptop (Udp laptop) request); Finish UdpLoop; Finish Reaper;
    Begin UdpLoop (EvPacket late_env phone (Udp phone) hello); Finish UdpLoop ].
Definition stranded : config := default (idle toy_running) (play static_server evicted_late (idle toy_running)).

(** The phone's request, taken out of its envelope, and what handling it comes to. *)
Definition asked : result (option bytes * option Z) := unwrap_control static_server request.
Definition inner : bytes := match asked with Ok (Some b, _) => b | _ => [] end.
Definition refusal : result unit * Shared :=
  Server.handle_control_packet static_server late_env phone inner (Some 2) (Udp phone) (shared stranded).
Definition refused_session : Session :=
  match sessions refusal.2 !! phone ≫= fun arc => arcs refusal.2 !! arc with Some s => s | None => toy_new end.

Lemma stranded_reachable : rtc (cstep static_server) (idle toy_running) stranded.
Proof.
  apply (play_steps static_server evicted_late); [apply events_ok_moves; vm_compute; reflexivity|].
  assert (match play static_server evicted_late (idle toy_running) with Some _ => true | None => false end = true) as H
    by (vm_compute; reflexivity).
  unfold stranded. by destruct (play static_server evicted_late (idle toy_running)).
Qed.

(** C36: eviction can strand a tunnel address.  The reaper looks at a session under
    its lock and cleans up later, from what it saw: when the session gets its
    address in between, the session is forgotten and the route stays, without a
    session to end it.  From start-up such a state is reached with no task in
    flight, with the static address of alice routed to her old client that has no
    session, and with her new client connected: the handler of the new client's
    request then fails with [StaticIpInUse], the session is left without an
    address, and asking again fails in the same way and changes nothing. *)
Theorem eviction_strands_address :
  exists c sh' s, rtc (cstep static_server) (idle toy_running) c /\ tasks c = ∅ /\
    session_at laptop c = None /\ routes (shared c) !! address = Some laptop /\ is_Some (session_at phone c) /\
    unwrap_control static_server request = Ok (Some inner, Some 2) /\
    Server.handle_control_packet static_server late_env phone inner (Some 2) (Udp phone) (shared c)
      = (Err (StaticIpInUse address), sh') /\
    (exists arc, sessions sh' !! phone = Some arc /\ arcs sh' !! arc = Some s) /\
    client_cn s = Some (str "alice") /\ state s = PushPending /\ assigned_ip s = None /\
    Server.handle_push_request static_server phone (s, sh') = (Err (StaticIpInUse address), (s, sh')).
Proof.
  exists stranded, refusal.2, refused_session. split; [apply stranded_reachable|].
  split; [apply map_size_empty_inv; vm_compute; reflexivity|]. split; [vm_compute; reflexivity|].
  split; [vm_compute; reflexivity|]. split; [vm_compute; by eexists|]. split; [vm_compute; reflexivity|].
  split; [rewrite (surjective_pairing (Server.handle_control_packet _ _ _ _ _ _ _)); f_equal; vm_compute; reflexivity|].
  split; [exists (default 0%nat (sessions refusal.2 !! phone)); split; vm_compute; reflexivity|].
  split; [vm_compute; reflexivity|]. split; [vm_compute; reflexivity|]. split; [vm_compute; reflexivity|].
  vm_compute. reflexivity.
Qed.

(** ** The theorems about interleavings, on these schedules *)

(** The laptop's request is being handled, its session is locked, and the
    reaper wants it too. *)
Definition contended : list move :=
  [ Begin UdpLoop (EvPacket toy_env laptop (Udp laptop) hello); Finish UdpLoop;
    Begin UdpLoop (EvPacket late_env laptop (Udp laptop) request); Act UdpLoop; Act UdpLoop;
    Begin Reaper (EvReap late_env laptop); Act Reaper ].
Definition contended_config : config := default (idle toy_running) (play static_server contended (idle toy_running)).

Lemma contended_reachable : rtc (cstep static_server) (idle toy_running) contended_config.
Proof.
  apply (play_steps static_server contended); [apply events_ok_moves; vm_compute; reflexivity|].
  assert (match play static_server contended (idle toy_running) with Some _ => true | None => false end = true) as H
    by (vm_compute; reflexivity).
  unfold contended_config. by destruct (play static_server contended (idle toy_running)).
Qed.

Lemma no_interleaving_deadlocks_witness :
  advance Reaper contended_config = None /\
  exists t' c', t' <> Reaper /\ advance t' contended_config = Some c'.
Proof.
  assert (match tasks contended_config !! Reaper with Some (Lock 0 _) => true | _ => false end = true) as Hb
    by (vm_compute; reflexivity).
  assert (match advance Reaper contended_config with None => true | Some _ => false end = true) as Hw
    by (vm_compute; reflexivity).
  destruct (tasks contended_config !! Reaper) as [p|] eqn:E; [|discriminate Hb].
  destruct (advance Reaper contended_config) eqn:Ea; [discriminate Hw|]. split; [reflexivity|].
  destruct (Concurrency.no_interleaving_deadlocks static_server toy_running contended_config Reaper p static_initial
    contended_reachable E) as (_ & _ & [[c' H]|(arc & k & t' & c' & _ & _ & Hne & H)]).
  - rewrite Ea in H. discriminate H.
  - exists t', c'. split; [exact Hne|exact H].
Defined.

Lemma interleaved_sessions_forward_witness :
  exists s', arcs (shared contended_config) !! 0%nat = Some s' /\ session_ok s' /\ (1 <= rank (state s'))%nat.
Proof.
  destruct (arcs (shared contended_config) !! 0%nat) as [s|] eqn:E.
  - destruct (Concurrency.interleaved_sessions_forward static_server toy_running contended_config contended_config 0%nat s
      static_initial contended_reachable (rtc_refl _ _) E) as (s' & E' & H1 & H2 & _).
    rewrite E in E'. exists s'. split; [exact E'|]. split; [exact H1|].
    assert (match arcs (shared contended_config) !! 0%nat with Some s => (1 <=? rank (state s))%nat | None => false end = true)
      as Hr by (vm_compute; reflexivity).
    rewrite E in Hr. apply Nat.leb_le in Hr. exact (Nat.le_trans _ _ _ Hr H2).
  - exfalso. assert (match arcs (shared contended_config) !! 0%nat with Some _ => true | None => false end = true) as H
      by (vm_compute; reflexivity).
    rewrite E in H. discriminate H.
Defined.

Lemma static_config_ok : Addressing.config_ok static_server toy_running.
Proof. by split; [split|]. Qed.

(** The two sessions of the first race share a static address. *)
Lemma pool_address_exclusive_witness :
  exists c a b s1 s2, arcs (shared c) !! a = Some s1 /\ arcs (shared c) !! b = Some s2 /\ a <> b /\
    assigned_ip s1 = assigned_ip s2 /\ Addressing.static static_server address.
Proof.
  assert (match play static_server both_ask (idle toy_running) with
    | Some c => match arcs (shared c) !! 1%nat, arcs (shared c) !! 3%nat with
        | Some s1, Some s2 => bool_decide (assigned_ip s1 = Some (V4 address)) && bool_decide (assigned_ip s2 = Some (V4 address))
        | _, _ => false end
    | None => false end = true) as H by (vm_compute; reflexivity).
  destruct (play static_server both_ask (idle toy_running)) as [c|] eqn:Ec; [|discriminate H].
  destruct (arcs (shared c) !! 1%nat) as [s1|] eqn:E1; [|discriminate H].
  destruct (arcs (shared c) !! 3%nat) as [s2|] eqn:E2; [|discriminate H].
  apply andb_true_iff in H as [H1%bool_decide_eq_true H2%bool_decide_eq_true].
  exists c, 1%nat, 3%nat, s1, s2. split; [exact E1|]. split; [exact E2|]. split; [discriminate|].
  split; [rewrite H1, H2; reflexivity|].
  refine (proj1 (Concurrency.pool_address_exclusive static_server toy_running c 1%nat 3%nat s1 s2 static_initial
    static_config_ok _ E1 E2 _) address H1 H2); [|discriminate].
  apply (play_steps static_server both_ask); [apply events_ok_moves; vm_compute; reflexivity|exact Ec].
Defined.

(** While the reaper waits, the worker of the laptop's session is the one its
    peer id is routed to. *)
Lemma interleaved_demultiplexed_witness :
  exists wk s, workers (shared contended_config) !! 1%nat = Some wk /\
    arcs (shared contended_config) !! w_arc wk = Some s /\ peer_id s = 1.
Proof.
  destruct (Provenance.interleaved_demultiplexed static_server toy_running contended_config static_initial
    contended_reachable) as [_ H].
  apply (H 1 1%nat). vm_compute. reflexivity.
Defined.

(** A data packet on its way to the device while the ping timer waits for the
    session's lock. *)
Definition delivered : list move :=
  [ Begin UdpLoop ev_hello; Finish UdpLoop; Begin UdpLoop ev_request; Finish UdpLoop; Begin UdpLoop ev_data; Finish UdpLoop;
    Begin (DataWorker 1) (EvWorker toy_env 1); Act (DataWorker 1); Act (DataWorker 1);
    Begin PingTimer (EvPing client); Act PingTimer;
    Finish (DataWorker 1); Finish PingTimer; Begin TunWriter (EvTunWriter true); Finish TunWriter ].
Definition delivered_config : config := default (idle toy_running) (play toy_server delivered (idle toy_running)).

Lemma delivered_reachable : rtc (cstep toy_server) (idle toy_running) delivered_config.
Proof.
  apply (play_steps toy_server delivered); [apply events_ok_moves; vm_compute; reflexivity|].
  assert (match play toy_server delivered (idle toy_running) with Some _ => true | None => false end = true) as H
    by (vm_compute; reflexivity).
  unfold delivered_config. by destruct (play toy_server delivered (idle toy_running)).
Qed.

Lemma interleaved_tun_authentic_witness :
  tun_written (shared delivered_config) = [ip_packet] /\
  exists run ls, Provenance.execution toy_server toy_running run ls /\ run (length ls) = delivered_config /\
    exists i j t env addr tr raw, (i < j <= length ls)%nat /\
      ls !! i = Some (t, Some (EvPacket env addr tr raw)) /\ Provenance.sealed_for (shared (run j)) raw ip_packet.
Proof.
  assert (tun_written (shared delivered_config) = [ip_packet]) as E by (vm_compute; reflexivity). split; [exact E|].
  destruct (Provenance.reachable_execution toy_server toy_running delivered_config delivered_reachable) as (run & ls & H1 & H2).
  exists run, ls. split; [exact H1|]. split; [exact H2|].
  apply (Provenance.interleaved_tun_authentic toy_server toy_running run ls ip_packet toy_initial H1).
  rewrite H2, E. apply elem_of_app. right. apply list_elem_of_singleton. reflexivity.
Defined.

End Races.
